(** * The document collection of the storage core (arangod/VocBase/collection.cpp)

    A shallow embedding of [TRI_collection_t]: the timed collection locks,
    the index registry, the low-level index mutation workers, the
    update / replace / remove entry points, index creation and the marker
    replay that runs when a collection is opened.

    Conventions of the embedding.
    - A C++ member function that mutates [*this] takes the collection and
      returns the result code together with the collection afterwards.
    - Pointers to document handles ([TRI_doc_mptr_t*]) are slot numbers of
      the handle pool [_masterPointers]; an index that stores such a pointer
      stores the slot number, so a change of the slot is seen by every index.
    - [TRI_IF_FAILURE] (fault injection of the failure-test builds) and the
      log and timer statements have no counterpart here.
    - [TRI_ASSERT] is documentation in release builds; where a function
      relies on one, the theorems carry it as a hypothesis.
    - The entry points [update], [replace] and [remove] are embedded for
      [lock = false]: the caller holds the write lock of the collection and
      [CollectionWriteLocker] has nothing to do. *)

From Stdlib Require Import ZArith Ascii String Bool List.
From stdpp Require Import base option gmap strings list fin_maps sorting.

Local Open Scope Z_scope.

(** ** Result codes *)

(** The [TRI_ERROR_...] codes the file uses.  The code only ever compares
    them for equality, so their numbers (Basics/voc-errors.h) play no role. *)
Inductive ErrorCode : Set :=
  | TRI_ERROR_NO_ERROR
  | TRI_ERROR_OUT_OF_MEMORY
  | TRI_ERROR_INTERNAL
  | TRI_ERROR_BAD_PARAMETER
  | TRI_ERROR_LOCK_TIMEOUT
  | TRI_ERROR_DEBUG
  | TRI_ERROR_DEADLOCK
  | TRI_ERROR_ARANGO_CONFLICT
  | TRI_ERROR_ARANGO_DOCUMENT_NOT_FOUND
  | TRI_ERROR_ARANGO_DOCUMENT_HANDLE_BAD
  | TRI_ERROR_ARANGO_UNIQUE_CONSTRAINT_VIOLATED
  | TRI_ERROR_ARANGO_DOCUMENT_KEY_BAD
  | TRI_ERROR_ARANGO_OUT_OF_KEYS
  | TRI_ERROR_ARANGO_DOCUMENT_TYPE_INVALID
  | TRI_ERROR_ARANGO_INVALID_EDGE_ATTRIBUTE
  | TRI_ERROR_ARANGO_DOCUMENT_REV_BAD
  | TRI_ERROR_CLUSTER_MUST_NOT_CHANGE_SHARDING_ATTRIBUTES.

#[global] Instance ErrorCode_eq_dec : EqDecision ErrorCode.
Proof. solve_decision. Defined.

(** [res != TRI_ERROR_NO_ERROR] *)
Definition is_error (res : ErrorCode) : bool :=
  bool_decide (res ≠ TRI_ERROR_NO_ERROR).

(** ** VelocyPack values *)

#[local] Set Warnings "-register-all".

(** What a [VPackSlice] can hold, as far as this file looks at one.
    [VNone] is the slice [VPackSlice()] that [get] gives for a missing
    attribute; [VCustom] is the custom type 0xf3 that carries the
    collection id of an [_id]. *)
Inductive VPackSlice : Type :=
  | VNone
  | VNull
  | VBool (b : bool)
  | VNumber (n : Z)
  | VString (s : string)
  | VCustom (cid : Z)
  | VArray (items : list VPackSlice)
  | VObject (members : list (string * VPackSlice)).

Module VPack.

Definition isNone (s : VPackSlice) : bool :=
  match s with VNone => true | _ => false end.
Definition isNull (s : VPackSlice) : bool :=
  match s with VNull => true | _ => false end.
Definition isString (s : VPackSlice) : bool :=
  match s with VString _ => true | _ => false end.
Definition isObject (s : VPackSlice) : bool :=
  match s with VObject _ => true | _ => false end.

(** [ObjectIterator] lookup: the first member with the name. *)
Fixpoint lookup_member (members : list (string * VPackSlice)) (attr : string)
  : VPackSlice :=
  match members with
  | [] => VNone
  | (k, v) :: rest => if String.eqb k attr then v else lookup_member rest attr
  end.

(** [slice.get(attr)].  velocypack raises on a slice that is no object;
    [insert], [update] and [replace] test [isObject] first, [remove] and
    [newObjectForRemove] only test [isString].  The embedding answers
    [VNone] there, so it follows the code on objects (and, for [remove], on
    strings), and what is stated about slices of another kind is stated
    about the embedding alone. *)
Definition get (s : VPackSlice) (attr : string) : VPackSlice :=
  match s with
  | VObject members => lookup_member members attr
  | _ => VNone
  end.

(** [slice.length()]: number of members of an object, of items of an array. *)
Definition length (s : VPackSlice) : Z :=
  match s with
  | VObject members => Z.of_nat (List.length members)
  | VArray items => Z.of_nat (List.length items)
  | _ => 0
  end.

(** [operator==] on slices compares the encoded bytes; on the decoded
    values that is structural equality. *)
Fixpoint eqb (a b : VPackSlice) {struct a} : bool :=
  match a, b with
  | VNone, VNone => true
  | VNull, VNull => true
  | VBool x, VBool y => Bool.eqb x y
  | VNumber x, VNumber y => Z.eqb x y
  | VString x, VString y => String.eqb x y
  | VCustom x, VCustom y => Z.eqb x y
  | VArray xs, VArray ys =>
      (fix items (xs ys : list VPackSlice) {struct xs} : bool :=
         match xs, ys with
         | [], [] => true
         | x :: xs', y :: ys' => eqb x y && items xs' ys'
         | _, _ => false
         end) xs ys
  | VObject xs, VObject ys =>
      (fix members (xs ys : list (string * VPackSlice)) {struct xs} : bool :=
         match xs, ys with
         | [], [] => true
         | (k, x) :: xs', (l, y) :: ys' =>
             String.eqb k l && eqb x y && members xs' ys'
         | _, _ => false
         end) xs ys
  | _, _ => false
  end.

(** The names of the system attributes ([StaticStrings]). *)
Definition KeyString : string := "_key"%string.
Definition IdString : string := "_id"%string.
Definition RevString : string := "_rev"%string.
Definition FromString : string := "_from"%string.
Definition ToString : string := "_to"%string.

(** [Transaction::extractKeyFromDocument]: the [_key] of a document. *)
Definition extractKeyFromDocument (doc : VPackSlice) : VPackSlice :=
  get doc KeyString.

End VPack.

(** ** Markers and document handles *)

Inductive TRI_df_marker_type_t : Set :=
  | TRI_DF_MARKER_HEADER
  | TRI_DF_MARKER_FOOTER
  | TRI_DF_MARKER_COL_HEADER
  | TRI_DF_MARKER_PROLOGUE
  | TRI_DF_MARKER_VPACK_DOCUMENT
  | TRI_DF_MARKER_VPACK_REMOVE
  | TRI_DF_MARKER_OTHER.

#[global] Instance TRI_df_marker_type_t_eq_dec : EqDecision TRI_df_marker_type_t.
Proof. solve_decision. Defined.

(** A marker of a datafile or of the write-ahead log: its type, its tick,
    its size in bytes and the VelocyPack payload it carries. *)
Record Marker : Type := {
  m_type : TRI_df_marker_type_t;
  m_tick : Z;
  m_size : Z;
  m_vpack : VPackSlice
}.

(** [TRI_doc_mptr_t], the document handle ("master pointer"): the file the
    current version lives in, the hash of the key, and the pointer to the
    marker data of the current version ([None] is [nullptr]). *)
Record TRI_doc_mptr_t : Type := {
  _fid : Z;
  _fidIsWal : bool;
  _hash : Z;
  _dataptr : option Marker
}.

Module Mptr.

(** A handle as [request()] hands it out. *)
Definition fresh : TRI_doc_mptr_t :=
  {| _fid := 0; _fidIsWal := false; _hash := 0; _dataptr := None |}.

Definition vpack (h : TRI_doc_mptr_t) : option VPackSlice :=
  m_vpack <$> _dataptr h.

Definition setVPack (h : TRI_doc_mptr_t) (mem : option Marker) : TRI_doc_mptr_t :=
  {| _fid := _fid h; _fidIsWal := _fidIsWal h; _hash := _hash h; _dataptr := mem |}.

Definition setVPackFromMarker (h : TRI_doc_mptr_t) (marker : Marker) : TRI_doc_mptr_t :=
  setVPack h (Some marker).

Definition setHash (h : TRI_doc_mptr_t) (hash : Z) : TRI_doc_mptr_t :=
  {| _fid := _fid h; _fidIsWal := _fidIsWal h; _hash := hash; _dataptr := _dataptr h |}.

Definition setFid (h : TRI_doc_mptr_t) (fid : Z) (isWal : bool) : TRI_doc_mptr_t :=
  {| _fid := fid; _fidIsWal := isWal; _hash := _hash h; _dataptr := _dataptr h |}.

Definition getFid (h : TRI_doc_mptr_t) : Z := _fid h.

(** [markerSize()]: the size of the marker the handle points into. *)
Definition markerSize (h : TRI_doc_mptr_t) : Z :=
  match _dataptr h with Some m => m_size m | None => 0 end.

(** [revisionIdAsSlice()]: the [_rev] of the version the handle points to. *)
Definition revisionIdAsSlice (h : TRI_doc_mptr_t) : VPackSlice :=
  match vpack h with
  | Some doc => VPack.get doc VPack.RevString
  | None => VNone
  end.

(** The key of the version the handle points to. *)
Definition key (h : TRI_doc_mptr_t) : VPackSlice :=
  match vpack h with
  | Some doc => VPack.extractKeyFromDocument doc
  | None => VNone
  end.

End Mptr.

(** The pool of handles, [_masterPointers].  A handle is a slot; [mp_free]
    are the slots [request()] can still hand out, and an empty free list is
    the allocation failure that makes [request()] return [nullptr]. *)
Record MasterPointers : Type := {
  mp_slots : gmap nat TRI_doc_mptr_t;
  mp_free : list nat
}.

Module MasterPointersOps.

Definition request (p : MasterPointers) : option (nat * MasterPointers) :=
  match mp_free p with
  | [] => None
  | h :: rest =>
      Some (h, {| mp_slots := <[h := Mptr.fresh]> (mp_slots p); mp_free := rest |})
  end.

Definition release (p : MasterPointers) (h : nat) : MasterPointers :=
  {| mp_slots := delete h (mp_slots p); mp_free := h :: mp_free p |}.

(** [*header = v] *)
Definition store (p : MasterPointers) (h : nat) (v : TRI_doc_mptr_t) : MasterPointers :=
  {| mp_slots := <[h := v]> (mp_slots p); mp_free := mp_free p |}.

(** [*header]; a slot that was never handed out reads as a fresh handle. *)
Definition load (p : MasterPointers) (h : nat) : TRI_doc_mptr_t :=
  default Mptr.fresh (mp_slots p !! h).

End MasterPointersOps.

(** ** Indexes *)

Inductive IndexType : Set :=
  | TRI_IDX_TYPE_UNKNOWN
  | TRI_IDX_TYPE_PRIMARY_INDEX
  | TRI_IDX_TYPE_GEO1_INDEX
  | TRI_IDX_TYPE_GEO2_INDEX
  | TRI_IDX_TYPE_HASH_INDEX
  | TRI_IDX_TYPE_EDGE_INDEX
  | TRI_IDX_TYPE_FULLTEXT_INDEX
  | TRI_IDX_TYPE_SKIPLIST_INDEX
  | TRI_IDX_TYPE_ROCKSDB_INDEX.

#[global] Instance IndexType_eq_dec : EqDecision IndexType.
Proof. solve_decision. Defined.

(** [arangodb::basics::AttributeName]: one step of an attribute path. *)
Record AttributeName : Set := {
  name : string;
  shouldExpand : bool
}.

#[global] Instance AttributeName_eq_dec : EqDecision AttributeName.
Proof. solve_decision. Defined.

(** An index object as the collection sees it through [arangodb::Index]:
    its definition and the handles it refers to.  The references are not
    owned: they are slots of the handle pool. *)
Record Index : Type := {
  idx_id : Z;
  idx_type : IndexType;
  idx_fields : list (list AttributeName);
  idx_unique : bool;
  idx_sparse : bool;
  idx_refs : gset nat
}.

Module IndexOps.

Definition isPersistent (idx : Index) : bool :=
  bool_decide (idx_type idx = TRI_IDX_TYPE_ROCKSDB_INDEX).

(** The primary index and the edge index cannot be dropped. *)
Definition canBeDropped (idx : Index) : bool :=
  negb (bool_decide (idx_type idx = TRI_IDX_TYPE_PRIMARY_INDEX)
        || bool_decide (idx_type idx = TRI_IDX_TYPE_EDGE_INDEX)).

Definition set_refs (idx : Index) (refs : gset nat) : Index :=
  {| idx_id := idx_id idx; idx_type := idx_type idx;
     idx_fields := idx_fields idx; idx_unique := idx_unique idx;
     idx_sparse := idx_sparse idx; idx_refs := refs |}.

End IndexOps.

(** The index implementations (Indexes/HashIndex, SkiplistIndex, ...) are
    collaborators behind [insert(handle, isRollback)] and
    [remove(handle, isRollback)], each with a result.  What an
    implementation answers is its own business (a unique index refuses a
    second document with the same values, an allocation may fail, ...), so
    the answer is a parameter: given the index, the handle pool, the handle
    and the rollback flag. *)
Class IndexImplementations : Type := {
  insert_result : Index → gmap nat TRI_doc_mptr_t → nat → bool → ErrorCode;
  remove_result : Index → gmap nat TRI_doc_mptr_t → nat → bool → ErrorCode
}.

Section IndexCalls.
Context `{IndexImplementations}.

(** Modelled from the spec: [idx->insert(trx, header, isRollback)] of an
    index implementation.  The index refers to the handle once an insert
    has succeeded; a failed insert leaves the index as it was. *)
Definition Index_insert (idx : Index) (pool : MasterPointers) (header : nat)
    (isRollback : bool) : ErrorCode * Index :=
  let res := insert_result idx (mp_slots pool) header isRollback in
  if is_error res then (res, idx)
  else (res, IndexOps.set_refs idx ({[ header ]} ∪ idx_refs idx)).

(** Modelled from the spec: [idx->remove(trx, header, isRollback)] of an
    index implementation.  The index no longer refers to the handle once a
    remove has succeeded; a failed remove leaves the index as it was. *)
Definition Index_remove (idx : Index) (pool : MasterPointers) (header : nat)
    (isRollback : bool) : ErrorCode * Index :=
  let res := remove_result idx (mp_slots pool) header isRollback in
  if is_error res then (res, idx)
  else (res, IndexOps.set_refs idx (idx_refs idx ∖ {[ header ]})).

End IndexCalls.

(** Modelled from the spec: the primary index (Indexes/PrimaryIndex) is the
    unique key → handle index.  [lookupKey] finds the handle of a key,
    [insertKey] enters a handle under the key of its document and reports
    the handle already there instead, [removeKey] takes the entry out and
    returns it.  Keys are strings; a slice that is no string finds nothing. *)
Module PrimaryIndex.

Definition lookupKey (keys : gmap string nat) (key : VPackSlice) : option nat :=
  match key with
  | VString k => keys !! k
  | _ => None
  end.

Definition insertKey (keys : gmap string nat) (pool : MasterPointers) (header : nat)
  : ErrorCode * option nat * gmap string nat :=
  match Mptr.key (MasterPointersOps.load pool header) with
  | VString k =>
      match keys !! k with
      | Some found => (TRI_ERROR_NO_ERROR, Some found, keys)
      | None => (TRI_ERROR_NO_ERROR, None, <[k := header]> keys)
      end
  | _ => (TRI_ERROR_INTERNAL, None, keys)
  end.

Definition removeKey (keys : gmap string nat) (key : VPackSlice)
  : option nat * gmap string nat :=
  match key with
  | VString k =>
      match keys !! k with
      | Some found => (Some found, delete k keys)
      | None => (None, keys)
      end
  | _ => (None, keys)
  end.

Definition size (keys : gmap string nat) : Z := Z.of_nat (base.size keys).

End PrimaryIndex.

(** ** The collection *)

Inductive TRI_col_type_e : Set :=
  | TRI_COL_TYPE_DOCUMENT
  | TRI_COL_TYPE_EDGE.

#[global] Instance TRI_col_type_e_eq_dec : EqDecision TRI_col_type_e.
Proof. solve_decision. Defined.

(** [DatafileStatisticsContainer]: the per-datafile counters. *)
Record DatafileStatisticsContainer : Type := {
  numberAlive : Z;
  numberDead : Z;
  numberDeletions : Z;
  sizeAlive : Z;
  sizeDead : Z
}.

(** The members of [TRI_collection_t] that the modelled functions read or
    write.  [_primaryIndex] is the key table of the index object at position
    0 of [_indexes] ([primaryIndex()] casts [_indexes[0]]); the descriptor of
    that object stays at position 0 of [_indexes].  [_keyGenerator] holds the
    keys the generator was told about with [track]. *)
Record TRI_collection_t : Type := {
  _info_type : TRI_col_type_e;
  _info_name : string;
  _info_id : Z;
  _info_planId : Z;
  _info_revision : Z;
  _info_indexBuckets : Z;
  _tickMax : Z;
  _datafileStatistics : gmap Z DatafileStatisticsContainer;
  _masterPointers : MasterPointers;
  _numberDocuments : Z;
  _primaryIndex : gmap string nat;
  _indexes : list Index;
  _cleanupIndexes : Z;
  _persistentIndexes : Z;
  _useSecondaryIndexes : bool;
  _keyGenerator : gset string
}.

Module Col.

Definition set_masterPointers (c : TRI_collection_t) (p : MasterPointers) :=
  {| _info_type := _info_type c; _info_name := _info_name c;
     _info_id := _info_id c; _info_planId := _info_planId c;
     _info_revision := _info_revision c;
     _info_indexBuckets := _info_indexBuckets c; _tickMax := _tickMax c;
     _datafileStatistics := _datafileStatistics c;
     _masterPointers := p; _numberDocuments := _numberDocuments c;
     _primaryIndex := _primaryIndex c; _indexes := _indexes c;
     _cleanupIndexes := _cleanupIndexes c;
     _persistentIndexes := _persistentIndexes c;
     _useSecondaryIndexes := _useSecondaryIndexes c;
     _keyGenerator := _keyGenerator c |}.

Definition set_numberDocuments (c : TRI_collection_t) (n : Z) :=
  {| _info_type := _info_type c; _info_name := _info_name c;
     _info_id := _info_id c; _info_planId := _info_planId c;
     _info_revision := _info_revision c;
     _info_indexBuckets := _info_indexBuckets c; _tickMax := _tickMax c;
     _datafileStatistics := _datafileStatistics c;
     _masterPointers := _masterPointers c; _numberDocuments := n;
     _primaryIndex := _primaryIndex c; _indexes := _indexes c;
     _cleanupIndexes := _cleanupIndexes c;
     _persistentIndexes := _persistentIndexes c;
     _useSecondaryIndexes := _useSecondaryIndexes c;
     _keyGenerator := _keyGenerator c |}.

Definition set_primaryIndex (c : TRI_collection_t) (keys : gmap string nat) :=
  {| _info_type := _info_type c; _info_name := _info_name c;
     _info_id := _info_id c; _info_planId := _info_planId c;
     _info_revision := _info_revision c;
     _info_indexBuckets := _info_indexBuckets c; _tickMax := _tickMax c;
     _datafileStatistics := _datafileStatistics c;
     _masterPointers := _masterPointers c;
     _numberDocuments := _numberDocuments c;
     _primaryIndex := keys; _indexes := _indexes c;
     _cleanupIndexes := _cleanupIndexes c;
     _persistentIndexes := _persistentIndexes c;
     _useSecondaryIndexes := _useSecondaryIndexes c;
     _keyGenerator := _keyGenerator c |}.

Definition set_indexes (c : TRI_collection_t) (indexes : list Index)
    (cleanup persistent : Z) :=
  {| _info_type := _info_type c; _info_name := _info_name c;
     _info_id := _info_id c; _info_planId := _info_planId c;
     _info_revision := _info_revision c;
     _info_indexBuckets := _info_indexBuckets c; _tickMax := _tickMax c;
     _datafileStatistics := _datafileStatistics c;
     _masterPointers := _masterPointers c;
     _numberDocuments := _numberDocuments c;
     _primaryIndex := _primaryIndex c; _indexes := indexes;
     _cleanupIndexes := cleanup; _persistentIndexes := persistent;
     _useSecondaryIndexes := _useSecondaryIndexes c;
     _keyGenerator := _keyGenerator c |}.

(** [_info.setRevision], [_tickMax = ...] and [_keyGenerator->track]. *)
Definition set_recovery (c : TRI_collection_t) (revision tickMax : Z)
    (tracked : gset string) :=
  {| _info_type := _info_type c; _info_name := _info_name c;
     _info_id := _info_id c; _info_planId := _info_planId c;
     _info_revision := revision;
     _info_indexBuckets := _info_indexBuckets c; _tickMax := tickMax;
     _datafileStatistics := _datafileStatistics c;
     _masterPointers := _masterPointers c;
     _numberDocuments := _numberDocuments c;
     _primaryIndex := _primaryIndex c; _indexes := _indexes c;
     _cleanupIndexes := _cleanupIndexes c;
     _persistentIndexes := _persistentIndexes c;
     _useSecondaryIndexes := _useSecondaryIndexes c;
     _keyGenerator := tracked |}.

Definition set_datafileStatistics (c : TRI_collection_t)
    (stats : gmap Z DatafileStatisticsContainer) :=
  {| _info_type := _info_type c; _info_name := _info_name c;
     _info_id := _info_id c; _info_planId := _info_planId c;
     _info_revision := _info_revision c;
     _info_indexBuckets := _info_indexBuckets c; _tickMax := _tickMax c;
     _datafileStatistics := stats;
     _masterPointers := _masterPointers c;
     _numberDocuments := _numberDocuments c;
     _primaryIndex := _primaryIndex c; _indexes := _indexes c;
     _cleanupIndexes := _cleanupIndexes c;
     _persistentIndexes := _persistentIndexes c;
     _useSecondaryIndexes := _useSecondaryIndexes c;
     _keyGenerator := _keyGenerator c |}.

(** The secondary indexes: [_indexes] from position 1 on. *)
Definition secondaries (c : TRI_collection_t) : list Index := tail (_indexes c).

(** [_indexes] with the entries from position 1 on replaced. *)
Definition with_secondaries (c : TRI_collection_t) (secs : list Index)
  : TRI_collection_t :=
  match _indexes c with
  | [] => c
  | primary :: _ =>
      set_indexes c (primary :: secs) (_cleanupIndexes c) (_persistentIndexes c)
  end.

(** [*header] and [*header = v] on the pool of the collection. *)
Definition load (c : TRI_collection_t) (header : nat) : TRI_doc_mptr_t :=
  MasterPointersOps.load (_masterPointers c) header.

Definition store (c : TRI_collection_t) (header : nat) (v : TRI_doc_mptr_t)
  : TRI_collection_t :=
  set_masterPointers c (MasterPointersOps.store (_masterPointers c) header v).

End Col.

(** ** Low-level index mutation *)

Section Workers.
Context `{IndexImplementations}.

(** [TRI_collection_t::setLastRevision] with [VocbaseCollectionInfo::setRevision] *)
Definition setLastRevision (c : TRI_collection_t) (rid : Z) (force : bool)
  : TRI_collection_t :=
  if 0 <? rid then
    if force || (_info_revision c <? rid)
    then Col.set_recovery c rid (_tickMax c) (_keyGenerator c)
    else c
  else c.

(** [TRI_collection_t::lookupDocument] *)
Definition lookupDocument (c : TRI_collection_t) (key : VPackSlice)
  : ErrorCode * option nat :=
  if negb (VPack.isString key) then (TRI_ERROR_ARANGO_DOCUMENT_KEY_BAD, None)
  else
    match PrimaryIndex.lookupKey (_primaryIndex c) key with
    | None => (TRI_ERROR_ARANGO_DOCUMENT_NOT_FOUND, None)
    | Some header => (TRI_ERROR_NO_ERROR, Some header)
    end.

(** [TRI_collection_t::checkRevision] *)
Definition checkRevision (expected found : VPackSlice) : ErrorCode :=
  if negb (VPack.isNone expected) && negb (VPack.eqb found expected)
  then TRI_ERROR_ARANGO_CONFLICT
  else TRI_ERROR_NO_ERROR.

(** [TRI_collection_t::insertPrimaryIndex] *)
Definition insertPrimaryIndex (c : TRI_collection_t) (header : nat)
  : ErrorCode * TRI_collection_t :=
  let '(res, found, keys) :=
    PrimaryIndex.insertKey (_primaryIndex c) (_masterPointers c) header in
  let c' := Col.set_primaryIndex c keys in
  if is_error res then (res, c')
  else
    match found with
    | None => (TRI_ERROR_NO_ERROR, c')
    | Some _ => (TRI_ERROR_ARANGO_UNIQUE_CONSTRAINT_VIOLATED, c')
    end.

(** The loop of [insertSecondaryIndexes] over [indexes[1 .. n-1]], with the
    running [result]. *)
Fixpoint insertSecondaryLoop (useSecondary : bool) (pool : MasterPointers)
    (header : nat) (isRollback : bool) (indexes : list Index)
    (result : ErrorCode) : ErrorCode * list Index :=
  match indexes with
  | [] => (result, [])
  | idx :: rest =>
      if negb useSecondary && negb (IndexOps.isPersistent idx) then
        let '(r, rest') :=
          insertSecondaryLoop useSecondary pool header isRollback rest result in
        (r, idx :: rest')
      else
        let '(res, idx') := Index_insert idx pool header isRollback in
        if bool_decide (res = TRI_ERROR_OUT_OF_MEMORY) then (res, idx' :: rest)
        else
          let result' :=
            if is_error res then
              if bool_decide (res = TRI_ERROR_ARANGO_UNIQUE_CONSTRAINT_VIOLATED)
                 || bool_decide (result = TRI_ERROR_NO_ERROR)
              then res else result
            else result in
          let '(r, rest') :=
            insertSecondaryLoop useSecondary pool header isRollback rest result' in
          (r, idx' :: rest')
  end.

(** [TRI_collection_t::insertSecondaryIndexes] *)
Definition insertSecondaryIndexes (c : TRI_collection_t) (header : nat)
    (isRollback : bool) : ErrorCode * TRI_collection_t :=
  let useSecondary := _useSecondaryIndexes c in
  if negb useSecondary && (_persistentIndexes c =? 0) then (TRI_ERROR_NO_ERROR, c)
  else
    let '(result, secs) :=
      insertSecondaryLoop useSecondary (_masterPointers c) header isRollback
        (Col.secondaries c) TRI_ERROR_NO_ERROR in
    (result, Col.with_secondaries c secs).

(** [TRI_collection_t::deletePrimaryIndex] *)
Definition deletePrimaryIndex (c : TRI_collection_t) (header : nat)
  : ErrorCode * TRI_collection_t :=
  let '(found, keys) :=
    PrimaryIndex.removeKey (_primaryIndex c) (Mptr.key (Col.load c header)) in
  match found with
  | None => (TRI_ERROR_ARANGO_DOCUMENT_NOT_FOUND, Col.set_primaryIndex c keys)
  | Some _ => (TRI_ERROR_NO_ERROR, Col.set_primaryIndex c keys)
  end.

(** The loop of [deleteSecondaryIndexes]. *)
Fixpoint deleteSecondaryLoop (useSecondary : bool) (pool : MasterPointers)
    (header : nat) (isRollback : bool) (indexes : list Index)
    (result : ErrorCode) : ErrorCode * list Index :=
  match indexes with
  | [] => (result, [])
  | idx :: rest =>
      if negb useSecondary && negb (IndexOps.isPersistent idx) then
        let '(r, rest') :=
          deleteSecondaryLoop useSecondary pool header isRollback rest result in
        (r, idx :: rest')
      else
        let '(res, idx') := Index_remove idx pool header isRollback in
        let result' := if is_error res then res else result in
        let '(r, rest') :=
          deleteSecondaryLoop useSecondary pool header isRollback rest result' in
        (r, idx' :: rest')
  end.

(** [TRI_collection_t::deleteSecondaryIndexes] *)
Definition deleteSecondaryIndexes (c : TRI_collection_t) (header : nat)
    (isRollback : bool) : ErrorCode * TRI_collection_t :=
  let useSecondary := _useSecondaryIndexes c in
  if negb useSecondary && (_persistentIndexes c =? 0) then (TRI_ERROR_NO_ERROR, c)
  else
    let '(result, secs) :=
      deleteSecondaryLoop useSecondary (_masterPointers c) header isRollback
        (Col.secondaries c) TRI_ERROR_NO_ERROR in
    (result, Col.with_secondaries c secs).

End Workers.

(** ** Operations, the transaction and the write-ahead log *)

Inductive TRI_voc_document_operation_e : Set :=
  | TRI_VOC_DOCUMENT_OPERATION_UNKNOWN
  | TRI_VOC_DOCUMENT_OPERATION_INSERT
  | TRI_VOC_DOCUMENT_OPERATION_UPDATE
  | TRI_VOC_DOCUMENT_OPERATION_REPLACE
  | TRI_VOC_DOCUMENT_OPERATION_REMOVE.

#[global] Instance TRI_voc_document_operation_e_eq_dec :
  EqDecision TRI_voc_document_operation_e.
Proof. solve_decision. Defined.

Inductive StatusType : Set := CREATED | INDEXED | HANDLED | SWAPPED | REVERTED.

#[global] Instance StatusType_eq_dec : EqDecision StatusType.
Proof. solve_decision. Defined.

(** Modelled from the spec: the operation record (Wal/DocumentOperation.h is
    not part of the sources at hand) is a tagged variant insert / update /
    replace / remove that captures the target handle, the marker payload and
    what a revert needs: the content of the handle before the operation and
    how far the operation got. *)
Record DocumentOperation : Type := {
  op_type : TRI_voc_document_operation_e;
  op_marker : Marker;
  op_header : option nat;
  op_oldHeader : TRI_doc_mptr_t;
  op_tick : Z;
  op_status : StatusType
}.

(** [OperationOptions], as far as the collection reads it. *)
Record OperationOptions : Type := {
  recoveryMarker : option Marker;
  waitForSync : bool;
  keepNull : bool;
  mergeObjects : bool;
  ignoreRevs : bool;
  isRestore : bool
}.

(** What the collection sees of the running transaction: the role of the
    server, and the operations that were handed to the write-ahead log, each
    with the tick it got. *)
Record Transaction : Type := {
  trx_isDBServer : bool;
  trx_lastTick : Z;
  trx_operations : list (TRI_voc_document_operation_e * Marker * Z)
}.

(** The result parameters of update, replace and remove. *)
Record Outputs : Type := {
  out_mptr : TRI_doc_mptr_t;
  out_resultMarkerTick : Z;
  out_prevRev : VPackSlice;
  out_previous : TRI_doc_mptr_t
}.

(** The collection together with what the entry points touch besides it:
    the transaction and the hybrid logical clock of the process. *)
Record World : Type := {
  w_collection : TRI_collection_t;
  w_trx : Transaction;
  w_clock : Z
}.

(** Helpers of other translation units that the entry points call.  Their
    code is not part of the sources at hand and nothing proved below depends
    on what they compute, so they are parameters.
    - [TRI_StringToRid] parses a revision and tells whether it is of the old
      format; [TRI_RidToString] prints one.
    - [VPackCollection_merge left right mergeValues nullMeansRemove] is the
      deep merge of velocypack.
    - [shardKeysChanged name old new] is the cluster check.
    - [CrudMarker_size] is the size of a freshly built log marker.
    - [addOperation_result] is what the write-ahead log answers to an
      operation (success or a storage error).
    - [unordered_map_iteration] is the order in which a range-based [for]
      goes through a [std::unordered_map] that holds the given entries
      (listed as they were emplaced): the standard library decides it, and
      all that is known is that every entry comes once. *)
Class Environment : Type := {
  TRI_StringToRid : string → Z * bool;
  TRI_RidToString : Z → string;
  TRI_ExtractRevisionIdAsSlice : VPackSlice → VPackSlice;
  VPackCollection_merge : VPackSlice → VPackSlice → bool → bool → VPackSlice;
  shardKeysChanged : string → VPackSlice → VPackSlice → bool;
  CrudMarker_size : TRI_df_marker_type_t → VPackSlice → Z;
  addOperation_result : Transaction → DocumentOperation → ErrorCode;
  unordered_map_iteration : list (string * VPackSlice) → list (string * VPackSlice);
  unordered_map_iteration_permutes entries : unordered_map_iteration entries ≡ₚ entries
}.

Module Op.

Definition make (marker : Marker) (type : TRI_voc_document_operation_e)
  : DocumentOperation :=
  {| op_type := type; op_marker := marker; op_header := None;
     op_oldHeader := Mptr.fresh; op_tick := 0; op_status := CREATED |}.

Definition set_header (op : DocumentOperation) (header : nat) : DocumentOperation :=
  {| op_type := op_type op; op_marker := op_marker op; op_header := Some header;
     op_oldHeader := op_oldHeader op; op_tick := op_tick op;
     op_status := op_status op |}.

Definition set_status (op : DocumentOperation) (s : StatusType) : DocumentOperation :=
  {| op_type := op_type op; op_marker := op_marker op; op_header := op_header op;
     op_oldHeader := op_oldHeader op; op_tick := op_tick op; op_status := s |}.

(** [operation.init()]: remember the handle as it is now. *)
Definition init (op : DocumentOperation) (c : TRI_collection_t) : DocumentOperation :=
  match op_header op with
  | Some header =>
      if bool_decide (op_type op = TRI_VOC_DOCUMENT_OPERATION_INSERT) then op
      else
        {| op_type := op_type op; op_marker := op_marker op;
           op_header := op_header op; op_oldHeader := Col.load c header;
           op_tick := op_tick op; op_status := op_status op |}
  | None => op
  end.

(** [operation.indexed()] *)
Definition indexed (op : DocumentOperation) : DocumentOperation :=
  set_status op INDEXED.

(** The operation after the log has taken it with [tick]. *)
Definition handled (op : DocumentOperation) (tick : Z) : DocumentOperation :=
  {| op_type := op_type op; op_marker := op_marker op; op_header := op_header op;
     op_oldHeader := op_oldHeader op; op_tick := tick; op_status := HANDLED |}.

End Op.

Module Out.

Definition set_mptr (o : Outputs) (m : TRI_doc_mptr_t) : Outputs :=
  {| out_mptr := m; out_resultMarkerTick := out_resultMarkerTick o;
     out_prevRev := out_prevRev o; out_previous := out_previous o |}.

Definition set_resultMarkerTick (o : Outputs) (t : Z) : Outputs :=
  {| out_mptr := out_mptr o; out_resultMarkerTick := t;
     out_prevRev := out_prevRev o; out_previous := out_previous o |}.

Definition set_prevRev (o : Outputs) (r : VPackSlice) : Outputs :=
  {| out_mptr := out_mptr o; out_resultMarkerTick := out_resultMarkerTick o;
     out_prevRev := r; out_previous := out_previous o |}.

Definition set_previous (o : Outputs) (p : TRI_doc_mptr_t) : Outputs :=
  {| out_mptr := out_mptr o; out_resultMarkerTick := out_resultMarkerTick o;
     out_prevRev := out_prevRev o; out_previous := p |}.

End Out.

Module Wd.

Definition set_collection (w : World) (c : TRI_collection_t) : World :=
  {| w_collection := c; w_trx := w_trx w; w_clock := w_clock w |}.

Definition set_trx (w : World) (t : Transaction) : World :=
  {| w_collection := w_collection w; w_trx := t; w_clock := w_clock w |}.

(** Modelled from the spec: [TRI_HybridLogicalClock()] (VocBase/ticks) gives
    a value strictly larger than every value it gave before. *)
Definition TRI_HybridLogicalClock (w : World) : Z * World :=
  (w_clock w + 1,
   {| w_collection := w_collection w; w_trx := w_trx w; w_clock := w_clock w + 1 |}).

End Wd.

Section Log.
Context `{Environment}.

(** [arangodb::wal::CrudMarker(type, tid, slice)] *)
Definition CrudMarker (type : TRI_df_marker_type_t) (slice : VPackSlice) : Marker :=
  {| m_type := type; m_tick := 0; m_size := CrudMarker_size type slice;
     m_vpack := slice |}.

(** Modelled from the spec: [TRI_AddOperationTransaction] (transaction.cpp)
    hands the operation to the write-ahead log, which answers with success
    and a tick or with a storage error.  On success the operation is on the
    log under a new tick; on an error nothing was appended. *)
Definition TRI_AddOperationTransaction (trx : Transaction)
    (operation : DocumentOperation) (waitForSync : bool)
  : ErrorCode * Transaction * DocumentOperation * bool :=
  let res := addOperation_result trx operation in
  if is_error res then (res, trx, operation, waitForSync)
  else
    let tick := trx_lastTick trx + 1 in
    (res,
     {| trx_isDBServer := trx_isDBServer trx; trx_lastTick := tick;
        trx_operations :=
          trx_operations trx ++ [(op_type operation, op_marker operation, tick)] |},
     Op.handled operation tick, waitForSync).

End Log.

(** ** Building the stored objects *)

Section Objects.
Context `{Environment}.

(** The test both loops of [mergeObjectsForUpdate] apply to a member name:
    non-empty, starting with an underscore, and one of the five system
    attributes. *)
Definition isSystemAttribute (key : string) : bool :=
  match key with
  | String c _ =>
      Ascii.eqb c "_"%char
      && (String.eqb key VPack.KeyString || String.eqb key VPack.IdString
          || String.eqb key VPack.RevString || String.eqb key VPack.FromString
          || String.eqb key VPack.ToString)
  | EmptyString => false
  end.

Definition members_of (s : VPackSlice) : list (string * VPackSlice) :=
  match s with VObject ms => ms | _ => [] end.

(** Modelled from the spec: [TRI_SanitizeObjectWithEdges] (VelocyPackHelper)
    adds the user-supplied attributes, that is all members but the system
    attributes. *)
Definition TRI_SanitizeObjectWithEdges (value : VPackSlice)
  : list (string * VPackSlice) :=
  List.filter (λ kv, negb (isSystemAttribute kv.1)) (members_of value).

(** [b.add(name, value)] when [cond] holds *)
Definition add_if (cond : bool) (key : string) (value : VPackSlice)
  : list (string * VPackSlice) :=
  if cond then [(key, value)] else [].

(** [TRI_collection_t::newObjectForReplace] *)
Definition newObjectForReplace (oldValue newValue fromSlice toSlice : VPackSlice)
    (isEdgeCollection : bool) (rev : string) : VPackSlice :=
  VObject
    ([(VPack.KeyString, VPack.get oldValue VPack.KeyString);
      (VPack.IdString, VPack.get oldValue VPack.IdString)]
     ++ (if isEdgeCollection
         then [(VPack.FromString, fromSlice); (VPack.ToString, toSlice)]
         else [])
     ++ [(VPack.RevString, VString rev)]
     ++ TRI_SanitizeObjectWithEdges newValue).

(** [TRI_collection_t::newObjectForRemove] *)
Definition newObjectForRemove (oldValue : VPackSlice) (rev : string) : VPackSlice :=
  VObject
    [(VPack.KeyString,
      if VPack.isString oldValue then oldValue
      else VPack.get oldValue VPack.KeyString);
     (VPack.RevString, VString rev)].

(** [newValues.find(key)] and the assignment to the value found, on the
    map of the new regular attributes.  The entries are listed as they were
    emplaced, which is of no account for [find] and for the assignment;
    the order of the iteration is [unordered_map_iteration]. *)
Fixpoint find_value (newValues : list (string * VPackSlice)) (key : string)
  : option VPackSlice :=
  match newValues with
  | [] => None
  | (k, v) :: rest => if String.eqb k key then Some v else find_value rest key
  end.

Fixpoint set_value (newValues : list (string * VPackSlice)) (key : string)
    (v : VPackSlice) : list (string * VPackSlice) :=
  match newValues with
  | [] => []
  | (k, x) :: rest =>
      if String.eqb k key then (k, v) :: rest else (k, x) :: set_value rest key v
  end.

(** First loop of [mergeObjectsForUpdate]: note [_from] and [_to], ignore
    the other system attributes, collect the regular ones ([emplace] keeps
    the first value of a name). *)
Fixpoint scanNewValue (members : list (string * VPackSlice))
    (fromSlice toSlice : VPackSlice) (newValues : list (string * VPackSlice))
  : VPackSlice * VPackSlice * list (string * VPackSlice) :=
  match members with
  | [] => (fromSlice, toSlice, newValues)
  | (key, value) :: rest =>
      if isSystemAttribute key then
        if String.eqb key VPack.FromString
        then scanNewValue rest value toSlice newValues
        else if String.eqb key VPack.ToString
        then scanNewValue rest fromSlice value newValues
        else scanNewValue rest fromSlice toSlice newValues
      else
        match find_value newValues key with
        | Some _ => scanNewValue rest fromSlice toSlice newValues
        | None => scanNewValue rest fromSlice toSlice (newValues ++ [(key, value)])
        end
  end.

(** Second loop: the regular attributes of the old value, each kept,
    merged or replaced. *)
Fixpoint mergeOldValue (members : list (string * VPackSlice))
    (mergeObjects keepNull : bool) (newValues : list (string * VPackSlice))
  : list (string * VPackSlice) * list (string * VPackSlice) :=
  match members with
  | [] => ([], newValues)
  | (key, old) :: rest =>
      if isSystemAttribute key then mergeOldValue rest mergeObjects keepNull newValues
      else
        match find_value newValues key with
        | None =>
            let '(added, nv) := mergeOldValue rest mergeObjects keepNull newValues in
            ((key, old) :: added, nv)
        | Some value =>
            let keep := keepNull || (negb (VPack.isNone value) && negb (VPack.isNull value)) in
            let here :=
              if mergeObjects && VPack.isObject old && VPack.isObject value
              then add_if keep key (VPackCollection_merge old value true (negb keepNull))
              else add_if keep key value in
            let '(added, nv) :=
              mergeOldValue rest mergeObjects keepNull (set_value newValues key VNone) in
            (here ++ added, nv)
        end
  end.

(** Third loop: the values that were only in the new object, out of the
    entries in the order the iteration gives them. *)
Definition remainingNewValues (keepNull : bool) (newValues : list (string * VPackSlice))
  : list (string * VPackSlice) :=
  List.filter
    (λ kv, negb (VPack.isNone kv.2) && negb (negb keepNull && VPack.isNull kv.2))
    newValues.

(** [TRI_collection_t::mergeObjectsForUpdate] *)
Definition mergeObjectsForUpdate (oldValue newValue : VPackSlice)
    (isEdgeCollection : bool) (rev : string) (mergeObjects keepNull : bool)
  : VPackSlice :=
  let keySlice := VPack.get oldValue VPack.KeyString in
  let idSlice := VPack.get oldValue VPack.IdString in
  let '(fromSlice, toSlice, newValues) :=
    scanNewValue (members_of newValue) VNone VNone [] in
  let fromSlice :=
    if isEdgeCollection && VPack.isNone fromSlice
    then VPack.get oldValue VPack.FromString else fromSlice in
  let toSlice :=
    if isEdgeCollection && VPack.isNone toSlice
    then VPack.get oldValue VPack.ToString else toSlice in
  let '(merged, newValues) :=
    mergeOldValue (members_of oldValue) mergeObjects keepNull newValues in
  VObject
    ([(VPack.KeyString, keySlice); (VPack.IdString, idSlice)]
     ++ (if isEdgeCollection
         then [(VPack.FromString, fromSlice); (VPack.ToString, toSlice)]
         else [])
     ++ [(VPack.RevString, VString rev)]
     ++ merged
     ++ remainingNewValues keepNull (unordered_map_iteration newValues)).

End Objects.

(** ** The mutation pipeline *)

Section Pipeline.
Context `{IndexImplementations} `{Environment}.

(** [TRI_collection_t::insertDocument], the low-level worker of insert.
    The caller holds the write lock and has pointed [header] at the new
    document. *)
Definition insertDocument (w : World) (header : nat)
    (operation : DocumentOperation) (mptr : TRI_doc_mptr_t) (waitForSync : bool)
  : ErrorCode * World * DocumentOperation * TRI_doc_mptr_t * bool :=
  (* insert into primary index first *)
  let '(res, c1) := insertPrimaryIndex (w_collection w) header in
  if is_error res then
    (* insert has failed *)
    (res, Wd.set_collection w c1, operation, mptr, waitForSync)
  else
    (* insert into secondary indexes *)
    let '(res, c2) := insertSecondaryIndexes c1 header false in
    if is_error res then
      let '(_, c3) := deleteSecondaryIndexes c2 header true in
      let '(_, c4) := deletePrimaryIndex c3 header in
      (res, Wd.set_collection w c4, operation, mptr, waitForSync)
    else
      let c3 := Col.set_numberDocuments c2 (_numberDocuments c2 + 1) in
      let operation := Op.indexed operation in
      let '(res, trx, operation, waitForSync) :=
        TRI_AddOperationTransaction (w_trx w) operation waitForSync in
      let w' := Wd.set_trx (Wd.set_collection w c3) trx in
      (res, w', operation,
       if is_error res then mptr else Col.load c3 header, waitForSync).

(** [TRI_collection_t::updateDocument], the low-level worker of update and
    replace. *)
Definition updateDocument (w : World) (revisionId : Z) (oldHeader : nat)
    (operation : DocumentOperation) (mptr : TRI_doc_mptr_t) (waitForSync : bool)
  : ErrorCode * World * DocumentOperation * TRI_doc_mptr_t * bool :=
  let c := w_collection w in
  (* save the old data, remember *)
  let oldData := Col.load c oldHeader in
  (* remove old document from secondary indexes *)
  let '(res, c1) := deleteSecondaryIndexes c oldHeader false in
  if is_error res then
    (* re-enter the document in case of failure, ignore errors during rollback *)
    let '(_, c2) := insertSecondaryIndexes c1 oldHeader true in
    (res, Wd.set_collection w c2, operation, mptr, waitForSync)
  else
    (* update the header. this will modify oldHeader, too *)
    let newHeader := oldHeader in
    let c2 :=
      Col.store c1 newHeader
        (Mptr.setVPack (Col.load c1 newHeader) (Some (op_marker operation))) in
    (* insert new document into secondary indexes *)
    let '(res, c3) := insertSecondaryIndexes c2 newHeader false in
    if is_error res then
      (* rollback *)
      let '(_, c4) := deleteSecondaryIndexes c3 newHeader true in
      (* copy back old header data *)
      let c5 := Col.store c4 oldHeader oldData in
      let '(_, c6) := insertSecondaryIndexes c5 oldHeader true in
      (res, Wd.set_collection w c6, operation, mptr, waitForSync)
    else
      let operation := Op.indexed operation in
      let '(res, trx, operation, waitForSync) :=
        TRI_AddOperationTransaction (w_trx w) operation waitForSync in
      let w' := Wd.set_trx (Wd.set_collection w c3) trx in
      (res, w', operation,
       if is_error res then mptr else Col.load c3 newHeader, waitForSync).

(** [TRI_collection_t::rollbackOperation] *)
Definition rollbackOperation (c : TRI_collection_t)
    (type : TRI_voc_document_operation_e) (header : nat) (oldData : TRI_doc_mptr_t)
  : ErrorCode * TRI_collection_t :=
  match type with
  | TRI_VOC_DOCUMENT_OPERATION_INSERT =>
      (* ignore any errors we're getting from this *)
      let '(_, c1) := deletePrimaryIndex c header in
      let '(_, c2) := deleteSecondaryIndexes c1 header true in
      (TRI_ERROR_NO_ERROR, Col.set_numberDocuments c2 (_numberDocuments c2 - 1))
  | TRI_VOC_DOCUMENT_OPERATION_UPDATE
  | TRI_VOC_DOCUMENT_OPERATION_REPLACE =>
      (* copy the existing header's state *)
      let copy := Col.load c header in
      (* remove the current values from the indexes *)
      let '(_, c1) := deleteSecondaryIndexes c header true in
      (* revert to the old state *)
      let c2 := Col.store c1 header oldData in
      (* re-insert old state *)
      let '(res, c3) := insertSecondaryIndexes c2 header true in
      (* revert again to the new state *)
      (res, Col.store c3 header copy)
  | TRI_VOC_DOCUMENT_OPERATION_REMOVE =>
      let '(res, c1) := insertPrimaryIndex c header in
      if is_error res then (res, c1)
      else
        let '(res, c2) := insertSecondaryIndexes c1 header true in
        (res, Col.set_numberDocuments c2 (_numberDocuments c2 + 1))
  | TRI_VOC_DOCUMENT_OPERATION_UNKNOWN => (TRI_ERROR_INTERNAL, c)
  end.

(** Modelled from the spec: [operation.revert()] (Wal/DocumentOperation.h).
    An operation that got as far as the indexes is unwound with
    [rollbackOperation]; the handle of a failed insert goes back to the
    pool; the handle of a failed update or replace gets its prior content
    back. *)
Definition revert (operation : DocumentOperation) (c : TRI_collection_t)
  : DocumentOperation * TRI_collection_t :=
  match op_status operation, op_header operation with
  | SWAPPED, _ | REVERTED, _ => (operation, c)
  | _, None => (Op.set_status operation REVERTED, c)
  | status, Some header =>
      let c1 :=
        if bool_decide (status = INDEXED) || bool_decide (status = HANDLED)
        then (rollbackOperation c (op_type operation) header
                (op_oldHeader operation)).2
        else c in
      let c2 :=
        match op_type operation with
        | TRI_VOC_DOCUMENT_OPERATION_INSERT =>
            Col.set_masterPointers c1
              (MasterPointersOps.release (_masterPointers c1) header)
        | TRI_VOC_DOCUMENT_OPERATION_UPDATE
        | TRI_VOC_DOCUMENT_OPERATION_REPLACE =>
            if bool_decide (status = CREATED) then c1
            else Col.store c1 header (op_oldHeader operation)
        | _ => c1
        end in
      (Op.set_status operation REVERTED, c2)
  end.

Definition copyString (s : VPackSlice) : string :=
  match s with VString x => x | _ => EmptyString end.

Definition documentOf (h : TRI_doc_mptr_t) : VPackSlice :=
  default VNone (Mptr.vpack h).

Definition isEdgeCollection (c : TRI_collection_t) : bool :=
  bool_decide (_info_type c = TRI_COL_TYPE_EDGE).

(** What update and replace do once the merged object is built: create
    the marker and the operation, run [updateDocument], revert on an
    error. *)
Definition runUpdate (w : World) (type : TRI_voc_document_operation_e)
    (built : VPackSlice) (revisionId : Z) (oldHeader : nat)
    (options : OperationOptions) (out : Outputs)
  : ErrorCode * Outputs * World :=
  let marker :=
    match recoveryMarker options with
    | None => CrudMarker TRI_DF_MARKER_VPACK_DOCUMENT built
    | Some m => m
    end in
  let operation :=
    Op.init (Op.set_header (Op.make marker type) oldHeader) (w_collection w) in
  let '(res, w1, operation, mptr, waitForSync) :=
    updateDocument w revisionId oldHeader operation (out_mptr out)
      (waitForSync options) in
  let out := Out.set_mptr out mptr in
  if is_error res then
    let '(_, c) := revert operation (w_collection w1) in
    (res, out, Wd.set_collection w1 c)
  else if waitForSync then
    (* store the tick that was used for writing the new document *)
    (res, Out.set_resultMarkerTick out (op_tick operation), w1)
  else (res, out, w1).

(** [TRI_collection_t::update] *)
Definition update (w : World) (newSlice : VPackSlice)
    (options : OperationOptions) (out : Outputs)
  : ErrorCode * Outputs * World :=
  let out := Out.set_resultMarkerTick out 0 in
  if negb (VPack.isObject newSlice) then
    (TRI_ERROR_ARANGO_DOCUMENT_TYPE_INVALID, out, w)
  else
    (* initialize the result *)
    let out :=
      Out.set_prevRev (Out.set_mptr out (Mptr.setVPack (out_mptr out) None)) VNone in
    let oldRev := TRI_ExtractRevisionIdAsSlice newSlice in
    if isRestore options && negb (VPack.isString oldRev) then
      (TRI_ERROR_ARANGO_DOCUMENT_REV_BAD, out, w)
    else
      let '(revisionId, w) :=
        if isRestore options then
          let '(rid, isOld) := TRI_StringToRid (copyString oldRev) in
          (* Do not tolerate old revision IDs *)
          if isOld then Wd.TRI_HybridLogicalClock w else (rid, w)
        else Wd.TRI_HybridLogicalClock w in
      let key := VPack.get newSlice VPack.KeyString in
      if VPack.isNone key then (TRI_ERROR_ARANGO_DOCUMENT_HANDLE_BAD, out, w)
      else
        let c := w_collection w in
        (* get the header pointer of the previous revision *)
        match lookupDocument c key with
        | (TRI_ERROR_NO_ERROR, Some oldHeader) =>
            let old := Col.load c oldHeader in
            let prevRev := Mptr.revisionIdAsSlice old in
            let out := Out.set_previous (Out.set_prevRev out prevRev) old in
            (* Check old revision: *)
            let res :=
              if negb (ignoreRevs options)
              then checkRevision (VPack.get newSlice VPack.RevString) prevRev
              else TRI_ERROR_NO_ERROR in
            if is_error res then (res, out, w)
            else if VPack.length newSlice <=? 1 then
              (* no need to do anything *)
              (TRI_ERROR_NO_ERROR, Out.set_mptr out old, w)
            else
              (* merge old and new values *)
              let merged :=
                mergeObjectsForUpdate (documentOf old) newSlice
                  (isEdgeCollection c) (TRI_RidToString revisionId)
                  (mergeObjects options) (keepNull options) in
              match recoveryMarker options with
              | None =>
                  if trx_isDBServer (w_trx w)
                     && shardKeysChanged (_info_name c) (documentOf old) merged
                  then (TRI_ERROR_CLUSTER_MUST_NOT_CHANGE_SHARDING_ATTRIBUTES, out, w)
                  else runUpdate w TRI_VOC_DOCUMENT_OPERATION_UPDATE merged
                         revisionId oldHeader options out
              | Some _ =>
                  runUpdate w TRI_VOC_DOCUMENT_OPERATION_UPDATE VNone
                    revisionId oldHeader options out
              end
        | (res, _) => (res, out, w)
        end.

(** [TRI_collection_t::replace] *)
Definition replace (w : World) (newSlice : VPackSlice)
    (options : OperationOptions) (out : Outputs)
  : ErrorCode * Outputs * World :=
  let out := Out.set_resultMarkerTick out 0 in
  if negb (VPack.isObject newSlice) then
    (TRI_ERROR_ARANGO_DOCUMENT_TYPE_INVALID, out, w)
  else
    let out := Out.set_prevRev out VNone in
    let isEdge := isEdgeCollection (w_collection w) in
    let fromSlice := if isEdge then VPack.get newSlice VPack.FromString else VNone in
    let toSlice := if isEdge then VPack.get newSlice VPack.ToString else VNone in
    if isEdge && negb (VPack.isString fromSlice) then
      (TRI_ERROR_ARANGO_INVALID_EDGE_ATTRIBUTE, out, w)
    else if isEdge && negb (VPack.isString toSlice) then
      (TRI_ERROR_ARANGO_INVALID_EDGE_ATTRIBUTE, out, w)
    else
      (* initialize the result *)
      let out := Out.set_mptr out (Mptr.setVPack (out_mptr out) None) in
      let oldRev := TRI_ExtractRevisionIdAsSlice newSlice in
      if isRestore options && negb (VPack.isString oldRev) then
        (TRI_ERROR_ARANGO_DOCUMENT_REV_BAD, out, w)
      else
        let '(revisionId, w) :=
          if isRestore options then
            let '(rid, isOld) := TRI_StringToRid (copyString oldRev) in
            (* Do not tolerate old revision ticks *)
            if isOld then Wd.TRI_HybridLogicalClock w else (rid, w)
          else Wd.TRI_HybridLogicalClock w in
        let c := w_collection w in
        let key := VPack.get newSlice VPack.KeyString in
        if VPack.isNone key then (TRI_ERROR_ARANGO_DOCUMENT_HANDLE_BAD, out, w)
        else
          match lookupDocument c key with
          | (TRI_ERROR_NO_ERROR, Some oldHeader) =>
              let old := Col.load c oldHeader in
              let prevRev := Mptr.revisionIdAsSlice old in
              let out := Out.set_previous (Out.set_prevRev out prevRev) old in
              (* Check old revision: *)
              let res :=
                if negb (ignoreRevs options)
                then checkRevision (VPack.get newSlice VPack.RevString) prevRev
                else TRI_ERROR_NO_ERROR in
              if is_error res then (res, out, w)
              else
                let built :=
                  newObjectForReplace (documentOf old) newSlice fromSlice toSlice
                    isEdge (TRI_RidToString revisionId) in
                if trx_isDBServer (w_trx w)
                   && shardKeysChanged (_info_name c) (documentOf old) built
                then (TRI_ERROR_CLUSTER_MUST_NOT_CHANGE_SHARDING_ATTRIBUTES, out, w)
                else runUpdate w TRI_VOC_DOCUMENT_OPERATION_REPLACE built
                       revisionId oldHeader options out
          | (res, _) => (res, out, w)
          end.

(** [TRI_collection_t::remove].  The slice is the key as a string or an
    object with the [_key]; on a slice of another kind [slice.get] raises
    in [newObjectForRemove], which the embedding does not follow. *)
Definition remove (w : World) (slice : VPackSlice)
    (options : OperationOptions) (out : Outputs)
  : ErrorCode * Outputs * World :=
  let out := Out.set_resultMarkerTick out 0 in
  (* create remove marker *)
  let oldRev := TRI_ExtractRevisionIdAsSlice slice in
  let '(revisionId, w) :=
    if isRestore options then
      if negb (VPack.isString oldRev) then Wd.TRI_HybridLogicalClock w
      else
        let '(rid, isOld) := TRI_StringToRid (copyString oldRev) in
        (* Do not tolerate old revisions *)
        if isOld then Wd.TRI_HybridLogicalClock w else (rid, w)
    else Wd.TRI_HybridLogicalClock w in
  let built := newObjectForRemove slice (TRI_RidToString revisionId) in
  let out := Out.set_prevRev out VNone in
  let marker :=
    match recoveryMarker options with
    | None => CrudMarker TRI_DF_MARKER_VPACK_REMOVE built
    | Some m => m
    end in
  let operation := Op.make marker TRI_VOC_DOCUMENT_OPERATION_REMOVE in
  let key :=
    if VPack.isString slice then slice else VPack.get slice VPack.KeyString in
  let c := w_collection w in
  (* get the header pointer of the previous revision *)
  match lookupDocument c key with
  | (TRI_ERROR_NO_ERROR, Some oldHeader) =>
      let old := Col.load c oldHeader in
      let prevRev := Mptr.revisionIdAsSlice old in
      let out := Out.set_previous (Out.set_prevRev out prevRev) old in
      (* Check old revision: *)
      let res :=
        if negb (ignoreRevs options) && VPack.isObject slice
        then checkRevision (VPack.get slice VPack.RevString) prevRev
        else TRI_ERROR_NO_ERROR in
      if is_error res then (res, out, w)
      else
        (* we found a document to remove *)
        let operation := Op.init (Op.set_header operation oldHeader) c in
        (* delete from indexes *)
        let '(res, c1) := deleteSecondaryIndexes c oldHeader false in
        if is_error res then
          let '(_, c2) := insertSecondaryIndexes c1 oldHeader true in
          (res, out, Wd.set_collection w c2)
        else
          let '(res, c2) := deletePrimaryIndex c1 oldHeader in
          if is_error res then
            let '(_, c3) := insertSecondaryIndexes c2 oldHeader true in
            (res, out, Wd.set_collection w c3)
          else
            let operation := Op.indexed operation in
            let c3 := Col.set_numberDocuments c2 (_numberDocuments c2 - 1) in
            let '(res, trx, operation, _) :=
              TRI_AddOperationTransaction (w_trx w) operation (waitForSync options) in
            let w1 := Wd.set_trx (Wd.set_collection w c3) trx in
            if is_error res then
              let '(_, c4) := revert operation c3 in
              (res, out, Wd.set_collection w1 c4)
            else
              (* store the tick that was used for removing the document *)
              (res, Out.set_resultMarkerTick out (op_tick operation), w1)
  | (res, _) => (res, out, w)
  end.

End Pipeline.

(** ** Timed collection locks *)

Module Lock.

Inductive LockMode : Set := Read | Write.

#[global] Instance LockMode_eq_dec : EqDecision LockMode.
Proof. solve_decision. Defined.

(** What the other threads hold of the collection's [_lock] at the moment
    this thread tries it. *)
Record LockView : Set := {
  others_readers : nat;
  others_writer : bool
}.

(** [TRY_READ_LOCKER] / [TRY_WRITE_LOCKER] followed by [isLocked()]: many
    readers or one writer. *)
Definition tryLock (mode : LockMode) (v : LockView) : bool :=
  match mode with
  | Read => negb (others_writer v)
  | Write => negb (others_writer v) && Nat.eqb (others_readers v) 0
  end.

(** What a guarded call into the deadlock detector does: it returns without
    a finding, it reports a deadlock, or it raises (its bookkeeping could
    not be allocated), with or without the registration it was asked for
    in place. *)
Inductive DetectorAnswer : Set := Fine | Deadlock | Throws (registered : bool).

(** One turn of the polling loop as the environment decides it: the state
    of the lock when it is tried, and what the detector would answer to
    [setReaderBlocked] / [setWriterBlocked] and to [detectDeadlock]. *)
Record Poll : Set := {
  seen : LockView;
  onSetBlocked : DetectorAnswer;
  onDetect : DetectorAnswer
}.

(** Modelled from the spec: the deadlock detector (Basics/DeadlockDetector.h
    is not part of the sources at hand) tracks, per thread, which
    collections it holds and which it is blocked waiting for.  This is its
    bookkeeping for the calling thread and this collection. *)
Record DeadlockDetector : Set := {
  det_blocked : option LockMode;
  det_active : option LockMode
}.

Inductive CallResult : Set :=
  | Returned (res : ErrorCode)
  | Raised.

(** Modelled from the spec: [addReader] / [addWriter] register the thread
    as active and, when it was blocked before, end that registration. *)
Definition addActive (det : DeadlockDetector) (mode : LockMode)
    (wasBlockedBefore : bool) : DeadlockDetector :=
  {| det_blocked := if wasBlockedBefore then None else det_blocked det;
     det_active := Some mode |}.

(** Modelled from the spec: [setReaderBlocked] / [setWriterBlocked] mark the
    thread as blocked.  A call that reports a deadlock has refused the
    registration; a call that raises may have made it. *)
Definition setBlocked (det : DeadlockDetector) (mode : LockMode)
    (answer : DetectorAnswer) : CallResult * DeadlockDetector :=
  match answer with
  | Fine =>
      (Returned TRI_ERROR_NO_ERROR,
       {| det_blocked := Some mode; det_active := det_active det |})
  | Deadlock => (Returned TRI_ERROR_DEADLOCK, det)
  | Throws registered =>
      (Raised,
       if registered
       then {| det_blocked := Some mode; det_active := det_active det |}
       else det)
  end.

(** Modelled from the spec: [detectDeadlock] evaluates the wait-for graph
    and changes nothing. *)
Definition detectDeadlock (answer : DetectorAnswer) : CallResult :=
  match answer with
  | Fine => Returned TRI_ERROR_NO_ERROR
  | Deadlock => Returned TRI_ERROR_DEADLOCK
  | Throws _ => Raised
  end.

(** Modelled from the spec: [unsetReaderBlocked] / [unsetWriterBlocked] end
    the registration as blocked. *)
Definition unsetBlocked (det : DeadlockDetector) : DeadlockDetector :=
  {| det_blocked := None; det_active := det_active det |}.

(** How an acquisition ends: the code returned, the lock the thread keeps
    ([locker.steal()]), the detector, and the value of [waited]. *)
Record Outcome : Set := {
  res : ErrorCode;
  locked : option LockMode;
  detector : DeadlockDetector;
  waited : Z
}.

(** [uint64_t] arithmetic *)
Definition wrap64 (x : Z) : Z := x mod 2 ^ 64.

(** The [while (true)] loop of [beginReadTimed] and of [beginWriteTimed]
    (the two differ in the locker and in the Reader / Writer calls of the
    detector, which is [mode]).  Every turn takes one [Poll]; when the
    polls run out the loop is still waiting, which is [None].  These are
    the calls that return, with a detector whose [addReader] / [addWriter]
    does not raise and whose [setReaderBlocked] / [setWriterBlocked] has
    not registered the thread when it reports a deadlock; [TimedLock]
    below has the loop without the two provisos. *)
Fixpoint timedLoop (mode : LockMode) (timeout sleepPeriod : Z)
    (polls : list Poll) (waited iterations : Z) (wasBlocked : bool)
    (det : DeadlockDetector) : option Outcome :=
  match polls with
  | [] => None
  | p :: rest =>
      if tryLock mode (seen p) then
        (* when we are here, we've got the lock: keep lock and exit loop *)
        Some {| res := TRI_ERROR_NO_ERROR; locked := Some mode;
                detector := addActive det mode wasBlocked; waited := waited |}
      else
        (* usleep(sleepPeriod); waited += sleepPeriod; *)
        let sleep (iterations : Z) (det : DeadlockDetector) :=
          let waited := wrap64 (waited + sleepPeriod) in
          if timeout <? waited then
            Some {| res := TRI_ERROR_LOCK_TIMEOUT; locked := None;
                    detector := unsetBlocked det; waited := waited |}
          else timedLoop mode timeout sleepPeriod rest waited iterations true det in
        (* catch (...): clean up! always exit *)
        let caught (wasBlocked : bool) (det : DeadlockDetector) :=
          Some {| res := TRI_ERROR_OUT_OF_MEMORY; locked := None;
                  detector := if wasBlocked then unsetBlocked det else det;
                  waited := waited |} in
        if negb wasBlocked then
          (* insert reader / writer *)
          let wasBlocked := true in
          match setBlocked det mode (onSetBlocked p) with
          | (Raised, det) => caught wasBlocked det
          | (Returned r, det) =>
              if bool_decide (r = TRI_ERROR_DEADLOCK) then
                (* deadlock *)
                Some {| res := TRI_ERROR_DEADLOCK; locked := None;
                        detector := det; waited := waited |}
              else sleep iterations det
          end
        else
          let iterations := iterations + 1 in
          if 5 <=? iterations then
            (* periodically check for deadlocks *)
            let iterations := 0 in
            match detectDeadlock (onDetect p) with
            | Raised => caught wasBlocked det
            | Returned r =>
                if bool_decide (r = TRI_ERROR_DEADLOCK) then
                  (* deadlock *)
                  Some {| res := TRI_ERROR_DEADLOCK; locked := None;
                          detector := unsetBlocked det; waited := waited |}
                else sleep iterations det
            end
          else sleep iterations det
  end.

(** The default of a timeout of 0: 15 minutes, in microseconds. *)
Definition defaultTimeout : Z := 15 * 60 * 1000 * 1000.

(** The body shared by [beginReadTimed] and [beginWriteTimed].
    [nolockHeaders] is [Transaction::_makeNolockHeaders]: [None] is the
    null pointer, otherwise the names of the collections not to lock. *)
Definition beginTimed (mode : LockMode) (nolockHeaders : option (gset string))
    (c : TRI_collection_t) (timeout sleepPeriod : Z) (polls : list Poll)
    (det : DeadlockDetector) : option Outcome :=
  if match nolockHeaders with
     | Some names => bool_decide (_info_name c ∈ names)
     | None => false
     end
  then
    (* do not lock by command *)
    Some {| res := TRI_ERROR_NO_ERROR; locked := None; detector := det; waited := 0 |}
  else
    let waited := 0 in
    (* we don't allow looping forever. limit waiting to 15 minutes max. *)
    let timeout := if timeout =? 0 then defaultTimeout else timeout in
    let iterations := 0 in
    let wasBlocked := false in
    timedLoop mode timeout sleepPeriod polls waited iterations wasBlocked det.

(** [TRI_collection_t::beginReadTimed] *)
Definition beginReadTimed := beginTimed Read.

(** [TRI_collection_t::beginWriteTimed] *)
Definition beginWriteTimed := beginTimed Write.

End Lock.

(** ** Timed collection locks, with the exits by exception

    The loop of [beginReadTimed] and [beginWriteTimed] once more, with a
    detector that is free in two places where the code has no guard:
    [addReader] / [addWriter] is called before the [try] block, so an
    exception of it leaves the function; and after a deadlock that
    [setReaderBlocked] / [setWriterBlocked] reports the function returns
    without [unsetReaderBlocked] / [unsetWriterBlocked]. *)

Module TimedLock.
Import Lock.

(** What [addReader] / [addWriter] does once the lock is taken: it
    registers the thread and returns, or it raises (its bookkeeping could
    not be allocated), with or without its effect on the registrations. *)
Inductive ActiveAnswer : Set := Registers | Fails (done : bool).

(** One turn of the loop: the poll, what [addReader] / [addWriter] would
    do, and whether a [setReaderBlocked] / [setWriterBlocked] that reports
    a deadlock has registered the thread as blocked all the same. *)
Record Turn : Set := {
  poll : Poll;
  onAddActive : ActiveAnswer;
  deadlockRegisters : bool
}.

(** Modelled from the spec: [addReader] / [addWriter] register the thread
    as active and end its registration as blocked, as [Lock.addActive]
    does, unless the call raises before it gets there. *)
Definition addActive (det : DeadlockDetector) (mode : LockMode)
    (wasBlockedBefore : bool) (answer : ActiveAnswer)
  : CallResult * DeadlockDetector :=
  match answer with
  | Registers =>
      (Returned TRI_ERROR_NO_ERROR, Lock.addActive det mode wasBlockedBefore)
  | Fails done =>
      (Raised, if done then Lock.addActive det mode wasBlockedBefore else det)
  end.

(** Modelled from the spec: [setReaderBlocked] / [setWriterBlocked] as
    [Lock.setBlocked], but for a call that reports a deadlock: it may have
    registered the thread. *)
Definition setBlocked (det : DeadlockDetector) (mode : LockMode)
    (answer : DetectorAnswer) (registers : bool) : CallResult * DeadlockDetector :=
  match answer with
  | Deadlock =>
      (Returned TRI_ERROR_DEADLOCK,
       if registers
       then {| det_blocked := Some mode; det_active := det_active det |}
       else det)
  | _ => Lock.setBlocked det mode answer
  end.

(** How a call ends: it returns, or an exception leaves it.  The locker of
    the turn is destroyed on the way out, so the thread does not keep the
    lock then; what is left is the detector and the value of [waited]. *)
Inductive Exit : Set :=
  | Returns (o : Outcome)
  | Propagates (det : DeadlockDetector) (waited : Z).

(** The [while (true)] loop of [beginReadTimed] and of [beginWriteTimed]. *)
Fixpoint timedLoop (mode : LockMode) (timeout sleepPeriod : Z)
    (turns : list Turn) (waited iterations : Z) (wasBlocked : bool)
    (det : DeadlockDetector) : option Exit :=
  match turns with
  | [] => None
  | t :: rest =>
      let p := poll t in
      if tryLock mode (seen p) then
        (* when we are here, we've got the lock *)
        match addActive det mode wasBlocked (onAddActive t) with
        | (Raised, det) => Some (Propagates det waited)
        | (Returned _, det) =>
            (* keep lock and exit loop *)
            Some (Returns {| res := TRI_ERROR_NO_ERROR; locked := Some mode;
                             detector := det; waited := waited |})
        end
      else
        (* usleep(sleepPeriod); waited += sleepPeriod; *)
        let sleep (iterations : Z) (det : DeadlockDetector) :=
          let waited := wrap64 (waited + sleepPeriod) in
          if timeout <? waited then
            Some (Returns {| res := TRI_ERROR_LOCK_TIMEOUT; locked := None;
                             detector := unsetBlocked det; waited := waited |})
          else timedLoop mode timeout sleepPeriod rest waited iterations true det in
        (* catch (...): clean up! always exit *)
        let caught (wasBlocked : bool) (det : DeadlockDetector) :=
          Some (Returns {| res := TRI_ERROR_OUT_OF_MEMORY; locked := None;
                           detector := if wasBlocked then unsetBlocked det else det;
                           waited := waited |}) in
        if negb wasBlocked then
          (* insert reader / writer *)
          let wasBlocked := true in
          match setBlocked det mode (onSetBlocked p) (deadlockRegisters t) with
          | (Raised, det) => caught wasBlocked det
          | (Returned r, det) =>
              if bool_decide (r = TRI_ERROR_DEADLOCK) then
                (* deadlock *)
                Some (Returns {| res := TRI_ERROR_DEADLOCK; locked := None;
                                 detector := det; waited := waited |})
              else sleep iterations det
          end
        else
          let iterations := iterations + 1 in
          if 5 <=? iterations then
            (* periodically check for deadlocks *)
            let iterations := 0 in
            match detectDeadlock (onDetect p) with
            | Raised => caught wasBlocked det
            | Returned r =>
                if bool_decide (r = TRI_ERROR_DEADLOCK) then
                  (* deadlock *)
                  Some (Returns {| res := TRI_ERROR_DEADLOCK; locked := None;
                                   detector := unsetBlocked det; waited := waited |})
                else sleep iterations det
            end
          else sleep iterations det
  end.

(** The body shared by [beginReadTimed] and [beginWriteTimed]. *)
Definition beginTimed (mode : LockMode) (nolockHeaders : option (gset string))
    (c : TRI_collection_t) (timeout sleepPeriod : Z) (turns : list Turn)
    (det : DeadlockDetector) : option Exit :=
  if match nolockHeaders with
     | Some names => bool_decide (_info_name c ∈ names)
     | None => false
     end
  then
    (* do not lock by command *)
    Some (Returns {| res := TRI_ERROR_NO_ERROR; locked := None; detector := det;
                     waited := 0 |})
  else
    let waited := 0 in
    (* we don't allow looping forever. limit waiting to 15 minutes max. *)
    let timeout := if timeout =? 0 then defaultTimeout else timeout in
    let iterations := 0 in
    let wasBlocked := false in
    timedLoop mode timeout sleepPeriod turns waited iterations wasBlocked det.

(** [TRI_collection_t::beginReadTimed] *)
Definition beginReadTimed := beginTimed Read.

(** [TRI_collection_t::beginWriteTimed] *)
Definition beginWriteTimed := beginTimed Write.

End TimedLock.

(** ** The index registry and index creation *)

(** What index creation needs from other translation units.
    - [TRI_ParseAttributeString] splits an attribute path into its steps.
    - [hasBatchInsert], [batchInsert_result]: the batch interface of an index
      implementation and what it answers to a block of handles.
    - [indexPool_numThreads]: the thread pool of the IndexPool feature
      ([None] when there is none).
    - [saveIndex_result]: what persisting the index definition through the
      storage engine answers. *)
Class IndexEnvironment : Type := {
  TRI_ParseAttributeString : string → list AttributeName;
  hasBatchInsert : Index → bool;
  batchInsert_result : Index → gmap nat TRI_doc_mptr_t → list nat → ErrorCode;
  indexPool_numThreads : option Z;
  saveIndex_result : Index → ErrorCode
}.

(** [std::string::operator<=], the order [std::sort] uses up to strictness. *)
Definition string_le (a b : string) : Prop := String.leb a b = true.

#[global] Instance string_le_dec : RelDecision string_le.
Proof. intros a b. unfold string_le. apply _. Defined.

Section Registry.
Context `{IndexImplementations} `{IndexEnvironment}.

(** [TRI_collection_t::allIndexes] *)
Definition allIndexes (c : TRI_collection_t) : list Index := _indexes c.

(** [TRI_collection_t::addIndex] *)
Definition addIndex (c : TRI_collection_t) (idx : Index) : TRI_collection_t :=
  Col.set_indexes c (_indexes c ++ [idx])
    (if bool_decide (idx_type idx = TRI_IDX_TYPE_FULLTEXT_INDEX)
     then _cleanupIndexes c + 1 else _cleanupIndexes c)
    (if IndexOps.isPersistent idx
     then _persistentIndexes c + 1 else _persistentIndexes c).

(** The loop of [removeIndex]: the position of the first index that can be
    dropped and has the id. *)
Fixpoint removeIndexLoop (indexes : list Index) (iid : Z)
  : option (Index * list Index) :=
  match indexes with
  | [] => None
  | idx :: rest =>
      if negb (IndexOps.canBeDropped idx) then
        match removeIndexLoop rest iid with
        | Some (found, rest') => Some (found, idx :: rest')
        | None => None
        end
      else if idx_id idx =? iid then Some (idx, rest)
      else
        match removeIndexLoop rest iid with
        | Some (found, rest') => Some (found, idx :: rest')
        | None => None
        end
  end.

(** [TRI_collection_t::removeIndex] *)
Definition removeIndex (c : TRI_collection_t) (iid : Z)
  : option Index * TRI_collection_t :=
  match removeIndexLoop (_indexes c) iid with
  | Some (idx, rest) =>
      (Some idx,
       Col.set_indexes c rest
         (if bool_decide (idx_type idx = TRI_IDX_TYPE_FULLTEXT_INDEX)
          then _cleanupIndexes c - 1 else _cleanupIndexes c)
         (if IndexOps.isPersistent idx
          then _persistentIndexes c - 1 else _persistentIndexes c))
  | None => (None, c)
  end.

(** [TRI_collection_t::lookupIndex] *)
Definition lookupIndex (c : TRI_collection_t) (iid : Z) : option Index :=
  List.find (λ idx, idx_id idx =? iid) (_indexes c).

(** [fields[j][k]]; a read past the end, undefined in C++, gives [None]
    here and so compares unequal to every step that is there. *)
Definition step_at (fields : list (list AttributeName)) (j k : nat)
  : option AttributeName :=
  fields !! j ≫= (λ path, path !! k).

Definition path_size (fields : list (list AttributeName)) (j : nat) : nat :=
  default 0%nat (List.length <$> fields !! j).

(** The [k] loop: [idxFields[a][k] == paths[b][k]] for all [k < fieldSize]. *)
Definition stepsEqual (idxFields paths : list (list AttributeName))
    (a b fieldSize : nat) : bool :=
  forallb (λ k, bool_decide (step_at idxFields a k = step_at paths b k))
    (seq 0 fieldSize).

(** "any permutation of attributes is allowed": for every [i] some [j] with
    [idxFields[i].size() == paths[j].size()] whose steps agree; the steps
    compared are those of [idxFields[j]] and [paths[j]], as in the source. *)
Definition matchAnyOrder (idxFields paths : list (list AttributeName)) (n : nat)
  : bool :=
  forallb
    (λ i,
       let fieldSize := path_size idxFields i in
       existsb
         (λ j, Nat.eqb fieldSize (path_size paths j)
               && stepsEqual idxFields paths j j fieldSize)
         (seq 0 n))
    (seq 0 n).

(** "attributes need to be present in a given order" *)
Definition matchInOrder (idxFields paths : list (list AttributeName)) (n : nat)
  : bool :=
  forallb
    (λ i,
       let fieldSize := path_size idxFields i in
       Nat.eqb fieldSize (path_size paths i)
       && stepsEqual idxFields paths i i fieldSize)
    (seq 0 n).

(** The tests [LookupPathIndexDocumentCollection] applies to one index. *)
Definition pathIndexMatches (paths : list (list AttributeName)) (type : IndexType)
    (sparsity : Z) (unique allowAnyAttributeOrder : bool) (idx : Index) : bool :=
  if negb (bool_decide (idx_type idx = type)) then false
  else
    let flagsDiffer :=
      negb (Bool.eqb unique (idx_unique idx))
      || (negb (sparsity =? -1)
          && negb (sparsity =? (if idx_sparse idx then 1 else 0))) in
    let typeOk :=
      match idx_type idx with
      | TRI_IDX_TYPE_HASH_INDEX
      | TRI_IDX_TYPE_SKIPLIST_INDEX
      | TRI_IDX_TYPE_ROCKSDB_INDEX => negb flagsDiffer
      | _ => false
      end in
    if negb typeOk then false
    else
      let idxFields := idx_fields idx in
      let n := List.length idxFields in
      if negb (Nat.eqb n (List.length paths)) then false
      else if allowAnyAttributeOrder then matchAnyOrder idxFields paths n
      else matchInOrder idxFields paths n.

(** [LookupPathIndexDocumentCollection] (a build with RocksDB indexes) *)
Definition LookupPathIndexDocumentCollection (c : TRI_collection_t)
    (paths : list (list AttributeName)) (type : IndexType) (sparsity : Z)
    (unique allowAnyAttributeOrder : bool) : option Index :=
  List.find (pathIndexMatches paths type sparsity unique allowAnyAttributeOrder)
    (allIndexes c).

(** [NamesByAttributeNames]: for a hash index the attribute names are
    sorted first, so that an index on a, b is the same as one on b, a. *)
Definition NamesByAttributeNames (attributes : list string) (isHashIndex : bool)
  : ErrorCode * list (list AttributeName) :=
  let copy := if isHashIndex then merge_sort string_le attributes else attributes in
  (TRI_ERROR_NO_ERROR, map TRI_ParseAttributeString copy).

(** The handles of the primary index in the order [lookupSequential] walks
    them; the order of the table, here that of [map_to_list]. *)
Definition sequentialHandles (c : TRI_collection_t) : list nat :=
  (map_to_list (_primaryIndex c)).*2.

(** The loop of [fillIndexSequential] *)
Fixpoint fillLoop (idx : Index) (pool : MasterPointers) (handles : list nat)
  : ErrorCode * Index :=
  match handles with
  | [] => (TRI_ERROR_NO_ERROR, idx)
  | mptr :: rest =>
      let '(res, idx') := Index_insert idx pool mptr false in
      if is_error res then (res, idx') else fillLoop idx' pool rest
  end.

(** [TRI_collection_t::fillIndexSequential] *)
Definition fillIndexSequential (c : TRI_collection_t) (idx : Index)
  : ErrorCode * Index :=
  fillLoop idx (_masterPointers c) (sequentialHandles c).

(** [idx->batchInsert(trx, &documents, numThreads)] *)
Definition Index_batchInsert (idx : Index) (pool : MasterPointers)
    (documents : list nat) : ErrorCode * Index :=
  let res := batchInsert_result idx (mp_slots pool) documents in
  if is_error res then (res, idx)
  else (res, IndexOps.set_refs idx (list_to_set documents ∪ idx_refs idx)).

(** The loop of [fillIndexBatch]: [documents] collects handles, a full
    block is inserted and an error ends the loop. *)
Fixpoint batchLoop (idx : Index) (pool : MasterPointers) (blockSize : nat)
    (handles documents : list nat) : ErrorCode * Index * list nat :=
  match handles with
  | [] => (TRI_ERROR_NO_ERROR, idx, documents)
  | mptr :: rest =>
      let documents := documents ++ [mptr] in
      if Nat.eqb (List.length documents) blockSize then
        let '(res, idx') := Index_batchInsert idx pool documents in
        if is_error res then (res, idx', [])
        else batchLoop idx' pool blockSize rest []
      else batchLoop idx pool blockSize rest documents
  end.

(** [TRI_collection_t::fillIndexBatch] *)
Definition fillIndexBatch (c : TRI_collection_t) (idx : Index)
  : ErrorCode * Index :=
  let nrUsed := base.size (_primaryIndex c) in
  (* process documents a million at a time *)
  let blockSize := Nat.min nrUsed (1024 * 1024) in
  let blockSize := if Nat.eqb blockSize 0 then 1%nat else blockSize in
  let '(res, idx1, documents) :=
    batchLoop idx (_masterPointers c) blockSize (sequentialHandles c) [] in
  (* process the remainder of the documents *)
  if negb (is_error res) && negb (Nat.eqb (List.length documents) 0)
  then Index_batchInsert idx1 (_masterPointers c) documents
  else (res, idx1).

(** [TRI_collection_t::fillIndex] *)
Definition fillIndex (c : TRI_collection_t) (idx : Index) (skipPersistent : bool)
  : ErrorCode * Index :=
  if negb (_useSecondaryIndexes c) then (TRI_ERROR_NO_ERROR, idx)
  else if IndexOps.isPersistent idx && skipPersistent then (TRI_ERROR_NO_ERROR, idx)
  else
    let nrUsed := PrimaryIndex.size (_primaryIndex c) in
    if bool_decide (is_Some indexPool_numThreads) && hasBatchInsert idx
       && (256 * 1024 <? nrUsed) && (1 <? _info_indexBuckets c)
    then fillIndexBatch c idx
    else fillIndexSequential c idx.

(** What the two creators do after the parameters are turned into paths:
    look for an index with the definition, else build one, fill it and
    register it.  Results: the index, [created], the collection and the
    server tick ([Index::generateId] draws from it).  [fillIndex] is
    called without its third argument; neither a hash nor a skiplist index
    is persistent, so the default of [skipPersistent] plays no role. *)
Definition createPathIndex (c : TRI_collection_t) (tick : Z)
    (fields : list (list AttributeName)) (type : IndexType)
    (iid : Z) (sparse unique : bool)
  : option Index * bool * TRI_collection_t * Z :=
  let sparsity := if sparse then 1 else 0 in
  match LookupPathIndexDocumentCollection c fields type sparsity unique false with
  | Some idx => (Some idx, false, c, tick)
  | None =>
      let '(iid, tick) := if iid =? 0 then (tick + 1, tick + 1) else (iid, tick) in
      let idx :=
        {| idx_id := iid; idx_type := type; idx_fields := fields;
           idx_unique := unique; idx_sparse := sparse; idx_refs := ∅ |} in
      (* initializes the index with all existing documents *)
      let '(res, idx) := fillIndex c idx true in
      if is_error res then (None, false, c, tick)
      else
        (* store index and return *)
        (Some idx, true, addIndex c idx, tick)
  end.

(** [CreateHashIndexDocumentCollection] *)
Definition CreateHashIndexDocumentCollection (c : TRI_collection_t) (tick : Z)
    (attributes : list string) (iid : Z) (sparse unique : bool)
  : option Index * bool * TRI_collection_t * Z :=
  let '(res, fields) := NamesByAttributeNames attributes true in
  if is_error res then (None, false, c, tick)
  else createPathIndex c tick fields TRI_IDX_TYPE_HASH_INDEX iid sparse unique.

(** [CreateSkiplistIndexDocumentCollection] *)
Definition CreateSkiplistIndexDocumentCollection (c : TRI_collection_t) (tick : Z)
    (attributes : list string) (iid : Z) (sparse unique : bool)
  : option Index * bool * TRI_collection_t * Z :=
  let '(res, fields) := NamesByAttributeNames attributes false in
  if is_error res then (None, false, c, tick)
  else createPathIndex c tick fields TRI_IDX_TYPE_SKIPLIST_INDEX iid sparse unique.

(** The tail shared by [ensureHashIndex] and [ensureSkiplistIndex]: an
    index that was created is saved, and a failure to save gives null. *)
Definition ensureSaved (r : option Index * bool * TRI_collection_t * Z)
  : option Index * bool * TRI_collection_t * Z :=
  let '(idx, created, c, tick) := r in
  match idx with
  | Some i =>
      if created && is_error (saveIndex_result i) then (None, created, c, tick)
      else (idx, created, c, tick)
  | None => (idx, created, c, tick)
  end.

(** [TRI_collection_t::ensureHashIndex] *)
Definition ensureHashIndex (c : TRI_collection_t) (tick : Z) (iid : Z)
    (attributes : list string) (sparse unique : bool) :=
  ensureSaved (CreateHashIndexDocumentCollection c tick attributes iid sparse unique).

(** [TRI_collection_t::ensureSkiplistIndex] *)
Definition ensureSkiplistIndex (c : TRI_collection_t) (tick : Z) (iid : Z)
    (attributes : list string) (sparse unique : bool) :=
  ensureSaved (CreateSkiplistIndexDocumentCollection c tick attributes iid sparse unique).

(** [TRI_collection_t::lookupHashIndex] *)
Definition lookupHashIndex (c : TRI_collection_t) (attributes : list string)
    (sparsity : Z) (unique : bool) : option Index :=
  let '(res, fields) := NamesByAttributeNames attributes true in
  if is_error res then None
  else LookupPathIndexDocumentCollection c fields TRI_IDX_TYPE_HASH_INDEX
         sparsity unique true.

(** [TRI_collection_t::lookupSkiplistIndex] *)
Definition lookupSkiplistIndex (c : TRI_collection_t) (attributes : list string)
    (sparsity : Z) (unique : bool) : option Index :=
  let '(res, fields) := NamesByAttributeNames attributes false in
  if is_error res then None
  else LookupPathIndexDocumentCollection c fields TRI_IDX_TYPE_SKIPLIST_INDEX
         sparsity unique true.

End Registry.

(** ** Replaying the markers when a collection is opened *)

(** [TRI_datafile_t], as far as the iterator touches it. *)
Record TRI_datafile_t : Type := {
  df_fid : Z;
  df_dataMin : Z;
  df_dataMax : Z;
  df_tickMin : Z;
  df_tickMax : Z
}.

(** [OpenIteratorState].  [st_dfi] is the pointer [_dfi] to one of the
    containers of [st_stats], as the file id of that container; [None] is
    the null pointer the state starts with. *)
Record OpenIteratorState : Type := {
  st_fid : Z;
  st_stats : gmap Z DatafileStatisticsContainer;
  st_dfi : option Z;
  st_deletions : Z;
  st_documents : Z;
  st_initialCount : Z
}.

(** Helpers of other translation units that the replay calls.
    - [extractRevision]: the revision that
      [Transaction::extractKeyAndRevFromDocument] decodes from a marker
      payload.
    - [AlignedSize]: a size rounded up to the alignment of markers
      ([DatafileHelper]); [AlignedMarkerSize] applies it to the size of a
      marker.
    - [calculateHash]: the hash the primary index computes for a key.
    - [resize_result]: what [primaryIndex->resize] answers when the table is
      prepared for the initial count of the collection.
    - [create_result]: what [_datafileStatistics.create] answers for a file
      id, given the containers that are there: success, or the code of the
      exception it raises ([TRI_ERROR_INTERNAL] for one that is no
      [basics::Exception]). *)
Class ReplayEnvironment : Type := {
  extractRevision : VPackSlice → Z;
  AlignedSize : Z → Z;
  calculateHash : VPackSlice → Z;
  resize_result : Z → ErrorCode;
  create_result : gmap Z DatafileStatisticsContainer → Z → ErrorCode
}.

Module Stats.

Definition zero : DatafileStatisticsContainer :=
  {| numberAlive := 0; numberDead := 0; numberDeletions := 0;
     sizeAlive := 0; sizeDead := 0 |}.

(** [numberAlive++; sizeAlive += size] *)
Definition alive (size : Z) (d : DatafileStatisticsContainer) :=
  {| numberAlive := numberAlive d + 1; numberDead := numberDead d;
     numberDeletions := numberDeletions d; sizeAlive := sizeAlive d + size;
     sizeDead := sizeDead d |}.

(** [numberAlive--; sizeAlive -= size; numberDead++; sizeDead += size] *)
Definition dead (size : Z) (d : DatafileStatisticsContainer) :=
  {| numberAlive := numberAlive d - 1; numberDead := numberDead d + 1;
     numberDeletions := numberDeletions d; sizeAlive := sizeAlive d - size;
     sizeDead := sizeDead d + size |}.

(** [numberDeletions++] *)
Definition deletion (d : DatafileStatisticsContainer) :=
  {| numberAlive := numberAlive d; numberDead := numberDead d;
     numberDeletions := numberDeletions d + 1; sizeAlive := sizeAlive d;
     sizeDead := sizeDead d |}.

End Stats.

Section Replay.
Context `{IndexImplementations} `{ReplayEnvironment}.

Definition AlignedMarkerSize (marker : Marker) : Z := AlignedSize (m_size marker).

(** Modelled from the spec: [Transaction::extractKeyAndRevFromDocument]
    extracts key and revision of a marker payload; the key is the [_key]
    that [extractKeyFromDocument] gives. *)
Definition extractKeyAndRevFromDocument (slice : VPackSlice) : VPackSlice * Z :=
  (VPack.extractKeyFromDocument slice, extractRevision slice).

Definition initialState : OpenIteratorState :=
  {| st_fid := 0; st_stats := ∅; st_dfi := None; st_deletions := 0;
     st_documents := 0; st_initialCount := -1 |}.

Definition set_stats (st : OpenIteratorState)
    (stats : gmap Z DatafileStatisticsContainer) : OpenIteratorState :=
  {| st_fid := st_fid st; st_stats := stats; st_dfi := st_dfi st;
     st_deletions := st_deletions st; st_documents := st_documents st;
     st_initialCount := st_initialCount st |}.

(** [FindDatafileStats]: the container of the file, created when missing.
    The pointer it returns is the file id. *)
Definition FindDatafileStats (st : OpenIteratorState) (fid : Z)
  : Z * OpenIteratorState :=
  match st_stats st !! fid with
  | Some _ => (fid, st)
  | None => (fid, set_stats st (<[fid := Stats.zero]> (st_stats st)))
  end.

(** An update through a pointer to a container; a null pointer, or one to
    no container, is the crash [None]. *)
Definition through (dfi : option Z)
    (f : DatafileStatisticsContainer → DatafileStatisticsContainer)
    (st : OpenIteratorState) : option OpenIteratorState :=
  fid ← dfi;
  d ← st_stats st !! fid;
  Some (set_stats st (<[fid := f d]> (st_stats st))).

(** [if (state->_fid != fid) { state->_fid = fid; state->_dfi = FindDatafileStats(state, fid); }] *)
Definition enterDatafile (st : OpenIteratorState) (fid : Z) : OpenIteratorState :=
  if bool_decide (st_fid st ≠ fid) then
    let '(dfi, st1) := FindDatafileStats st fid in
    {| st_fid := fid; st_stats := st_stats st1; st_dfi := Some dfi;
       st_deletions := st_deletions st1; st_documents := st_documents st1;
       st_initialCount := st_initialCount st1 |}
  else st.

(** [_keyGenerator->track(p, length)], with [p] from [keySlice.getString].
    The key of a marker is a string; on another slice [getString] raises,
    which the embedding does not follow: it files the empty key. *)
Definition track (c : TRI_collection_t) (keySlice : VPackSlice) : TRI_collection_t :=
  Col.set_recovery c (_info_revision c) (_tickMax c)
    ({[ match keySlice with VString k => k | _ => EmptyString end ]}
     ∪ _keyGenerator c).

(** [OpenIteratorHandleDocumentMarker] *)
Definition OpenIteratorHandleDocumentMarker (marker : Marker)
    (datafile : TRI_datafile_t) (st : OpenIteratorState) (c : TRI_collection_t)
  : option (ErrorCode * OpenIteratorState * TRI_collection_t) :=
  let fid := df_fid datafile in
  let '(keySlice, revisionId) := extractKeyAndRevFromDocument (m_vpack marker) in
  let c := setLastRevision c revisionId false in
  let c := track c keySlice in
  let st :=
    {| st_fid := st_fid st; st_stats := st_stats st; st_dfi := st_dfi st;
       st_deletions := st_deletions st; st_documents := st_documents st + 1;
       st_initialCount := st_initialCount st |} in
  let st := enterDatafile st fid in
  match PrimaryIndex.lookupKey (_primaryIndex c) keySlice with
  | None =>
      (* it is a new entry *)
      match MasterPointersOps.request (_masterPointers c) with
      | None => Some (TRI_ERROR_OUT_OF_MEMORY, st, c)
      | Some (header, pool) =>
          let h :=
            Mptr.setVPackFromMarker
              (Mptr.setHash (Mptr.setFid Mptr.fresh fid false)
                 (calculateHash keySlice)) marker in
          let c := Col.store (Col.set_masterPointers c pool) header h in
          (* insert into primary index *)
          let '(res, _, keys) :=
            PrimaryIndex.insertKey (_primaryIndex c) (_masterPointers c) header in
          let c := Col.set_primaryIndex c keys in
          if is_error res then
            Some (res,
                  st,
                  Col.set_masterPointers c
                    (MasterPointersOps.release (_masterPointers c) header))
          else
            let c := Col.set_numberDocuments c (_numberDocuments c + 1) in
            (* update the datafile info *)
            st ← through (st_dfi st) (Stats.alive (AlignedMarkerSize marker)) st;
            Some (TRI_ERROR_NO_ERROR, st, c)
      end
  | Some found =>
      (* it is an update *)
      (* save the old data *)
      let oldData := Col.load c found in
      (* update the header info *)
      let c :=
        Col.store c found
          (Mptr.setVPackFromMarker (Mptr.setFid oldData fid false) marker) in
      (* update the datafile info *)
      let '(dfi, st) :=
        if bool_decide (Mptr.getFid oldData = st_fid st) then (st_dfi st, st)
        else
          let '(p, st1) := FindDatafileStats st (Mptr.getFid oldData) in
          (Some p, st1) in
      st ← (if bool_decide (is_Some (Mptr.vpack oldData)) then
              let size := Mptr.markerSize oldData in
              through dfi (Stats.dead (AlignedSize size)) st
            else Some st);
      st ← through (st_dfi st) (Stats.alive (AlignedMarkerSize marker)) st;
      Some (TRI_ERROR_NO_ERROR, st, c)
  end.

(** [OpenIteratorHandleDeletionMarker] *)
Definition OpenIteratorHandleDeletionMarker (marker : Marker)
    (datafile : TRI_datafile_t) (st : OpenIteratorState) (c : TRI_collection_t)
  : option (ErrorCode * OpenIteratorState * TRI_collection_t) :=
  let '(keySlice, revisionId) := extractKeyAndRevFromDocument (m_vpack marker) in
  let c := setLastRevision c revisionId false in
  let c := track c keySlice in
  let st :=
    {| st_fid := st_fid st; st_stats := st_stats st; st_dfi := st_dfi st;
       st_deletions := st_deletions st + 1; st_documents := st_documents st;
       st_initialCount := st_initialCount st |} in
  let st := enterDatafile st (df_fid datafile) in
  match PrimaryIndex.lookupKey (_primaryIndex c) keySlice with
  | None =>
      (* it is a new entry, so we missed the create *)
      st ← through (st_dfi st) Stats.deletion st;
      Some (TRI_ERROR_NO_ERROR, st, c)
  | Some found =>
      (* it is a real delete *)
      let old := Col.load c found in
      let '(dfi, st) :=
        if bool_decide (Mptr.getFid old = st_fid st) then (st_dfi st, st)
        else
          let '(p, st1) := FindDatafileStats st (Mptr.getFid old) in
          (Some p, st1) in
      let size := AlignedSize (Mptr.markerSize old) in
      st ← through dfi (Stats.dead (AlignedSize size)) st;
      st ← through (st_dfi st) Stats.deletion st;
      let '(_, c) := deletePrimaryIndex c found in
      let c := Col.set_numberDocuments c (_numberDocuments c - 1) in
      (* free the header *)
      let c :=
        Col.set_masterPointers c
          (MasterPointersOps.release (_masterPointers c) found) in
      Some (TRI_ERROR_NO_ERROR, st, c)
  end.

Definition isStructuralMarker (type : TRI_df_marker_type_t) : bool :=
  bool_decide (type = TRI_DF_MARKER_HEADER)
  || bool_decide (type = TRI_DF_MARKER_FOOTER)
  || bool_decide (type = TRI_DF_MARKER_COL_HEADER)
  || bool_decide (type = TRI_DF_MARKER_PROLOGUE).

(** [OpenIterator] *)
Definition OpenIterator (marker : Marker) (st : OpenIteratorState)
    (datafile : TRI_datafile_t) (c : TRI_collection_t)
  : option (bool * OpenIteratorState * TRI_datafile_t * TRI_collection_t) :=
  let tick := m_tick marker in
  let type := m_type marker in
  '(res, st, dataMin, dataMax, c) ←
    match type with
    | TRI_DF_MARKER_VPACK_DOCUMENT =>
        '(res, st, c) ← OpenIteratorHandleDocumentMarker marker datafile st c;
        Some (res, st,
              (if df_dataMin datafile =? 0 then tick else df_dataMin datafile),
              (if df_dataMax datafile <? tick then tick else df_dataMax datafile),
              c)
    | TRI_DF_MARKER_VPACK_REMOVE =>
        '(res, st, c) ← OpenIteratorHandleDeletionMarker marker datafile st c;
        Some (res, st, df_dataMin datafile, df_dataMax datafile, c)
    | _ =>
        let st :=
          if bool_decide (type = TRI_DF_MARKER_HEADER)
          then (FindDatafileStats st (df_fid datafile)).2 else st in
        Some (TRI_ERROR_NO_ERROR, st, df_dataMin datafile, df_dataMax datafile, c)
    end;
  let datafile :=
    {| df_fid := df_fid datafile; df_dataMin := dataMin; df_dataMax := dataMax;
       df_tickMin := if df_tickMin datafile =? 0 then tick else df_tickMin datafile;
       df_tickMax := if df_tickMax datafile <? tick then tick else df_tickMax datafile |} in
  let c :=
    if (_tickMax c <? tick) && negb (isStructuralMarker type)
    then Col.set_recovery c (_info_revision c) tick (_keyGenerator c)
    else c in
  Some (negb (is_error res), st, datafile, c).

(** The scan of one datafile: the markers in their order, until the
    iterator refuses one.  The [bool] tells whether the scan went through. *)
Fixpoint iterateDatafile (markers : list Marker) (st : OpenIteratorState)
    (datafile : TRI_datafile_t) (c : TRI_collection_t)
  : option (bool * OpenIteratorState * TRI_datafile_t * TRI_collection_t) :=
  match markers with
  | [] => Some (true, st, datafile, c)
  | marker :: rest =>
      match OpenIterator marker st datafile c with
      | Some (ok, st, datafile, c) =>
          if ok then iterateDatafile rest st datafile c
          else Some (false, st, datafile, c)
      | None => None
      end
  end.

(** Modelled from the spec: [iterateDatafiles] scans all persisted markers
    across the datafiles, in ascending tick order, and ends at the first
    marker the callback refuses. *)
Fixpoint iterateDatafiles (files : list (TRI_datafile_t * list Marker))
    (st : OpenIteratorState) (c : TRI_collection_t)
  : option (bool * OpenIteratorState * list TRI_datafile_t * TRI_collection_t) :=
  match files with
  | [] => Some (true, st, [], c)
  | (datafile, markers) :: rest =>
      match iterateDatafile markers st datafile c with
      | Some (ok, st, datafile, c) =>
          if ok then
            match iterateDatafiles rest st c with
            | Some (ok, st, files', c) => Some (ok, st, datafile :: files', c)
            | None => None
            end
          else Some (false, st, datafile :: rest.*1, c)
      | None => None
      end
  end.

(** The loop over [openState._stats] at the end of the replay: [create]
    enters the container of a file, and an exception ends the loop. *)
Fixpoint createStatistics (entries : list (Z * DatafileStatisticsContainer))
    (stats : gmap Z DatafileStatisticsContainer)
  : ErrorCode * gmap Z DatafileStatisticsContainer :=
  match entries with
  | [] => (TRI_ERROR_NO_ERROR, stats)
  | (fid, d) :: rest =>
      let res := create_result stats fid in
      if is_error res then (res, stats)
      else createStatistics rest (<[fid := d]> stats)
  end.

(** [IterateMarkersCollection].  The result of the scan is not looked at, as
    in the source; the containers are walked in the order of
    [map_to_list]. *)
Definition IterateMarkersCollection (c : TRI_collection_t) (initialCount : Z)
    (files : list (TRI_datafile_t * list Marker))
  : option (ErrorCode * list TRI_datafile_t * TRI_collection_t) :=
  (* initialize state for iteration *)
  let res :=
    if bool_decide (initialCount ≠ -1) then resize_result initialCount
    else TRI_ERROR_NO_ERROR in
  if is_error res then Some (res, files.*1, c)
  else
    let openState :=
      if bool_decide (initialCount ≠ -1) then
        {| st_fid := 0; st_stats := ∅; st_dfi := None; st_deletions := 0;
           st_documents := 0; st_initialCount := initialCount |}
      else initialState in
    (* read all documents and fill primary index *)
    match iterateDatafiles files openState c with
    | Some (_, openState, files, c) =>
        (* update the real statistics for the collection *)
        let '(res, stats) :=
          createStatistics (map_to_list (st_stats openState))
            (_datafileStatistics c) in
        Some (res, files, Col.set_datafileStatistics c stats)
    | None => None
    end.

End Replay.

(** ** Collection names *)

(** [lo <= c && c <= hi] on characters. *)
Definition between (lo hi ch : ascii) : bool :=
  (N_of_ascii lo <=? N_of_ascii ch)%N && (N_of_ascii ch <=? N_of_ascii hi)%N.

(** The loop of [IsAllowedName] over [name.c_str()], with the counter
    [length]: it ends at the terminating NUL with the number of characters
    it has seen, and a character that is not allowed makes the function
    return false, which is [None]. *)
Fixpoint IsAllowedNameLoop (allowSystem : bool) (ptr : string) (length : nat)
  : option nat :=
  match ptr with
  | EmptyString => Some length
  | String ch rest =>
      if Ascii.eqb ch "000" then Some length
      else
        let ok :=
          if Nat.eqb length 0 then
            if allowSystem then
              Ascii.eqb ch "_" || between "a" "z" ch || between "A" "Z" ch
            else between "a" "z" ch || between "A" "Z" ch
          else
            Ascii.eqb ch "_" || Ascii.eqb ch "-" || between "0" "9" ch
            || between "a" "z" ch || between "A" "Z" ch in
        if negb ok then None else IsAllowedNameLoop allowSystem rest (S length)
  end.

(** [TRI_collection_t::IsAllowedName].  The constant [TRI_COL_NAME_LENGTH]
    comes from a header that is not part of the sources at hand and is a
    parameter. *)
Definition IsAllowedName (TRI_COL_NAME_LENGTH : nat) (allowSystem : bool)
    (name : string) : bool :=
  match IsAllowedNameLoop allowSystem name 0 with
  | None => false
  | Some length =>
      (* invalid name length *)
      negb (Nat.eqb length 0 || (TRI_COL_NAME_LENGTH <? length)%nat)
  end.

(** ** Reading and inserting a document *)

(** What [insert] needs from other translation units.
    - [KeyGenerator_generate], [KeyGenerator_validate]: the key generator of
      the collection (VocBase/KeyGenerator), given the keys it has tracked:
      the key it generates for a tick of the server (the empty string when
      it has run out of keys), and what it answers to a key of the user.
    - [TRI_ValidateDocumentIdKeyGenerator]: the syntax check of a document
      id, as it stands in [_from] and [_to].
    - [hashString]: the hash velocypack computes for a string slice. *)
Class InsertEnvironment : Type := {
  KeyGenerator_generate : gset string → Z → string;
  KeyGenerator_validate : gset string → string → bool → ErrorCode;
  TRI_ValidateDocumentIdKeyGenerator : string → bool;
  hashString : VPackSlice → Z
}.

Section ReadAndInsert.
Context `{IndexImplementations} `{Environment} `{InsertEnvironment}.

(** [TRI_collection_t::read], for [lock = false]. *)
Definition read (c : TRI_collection_t) (key : string) (mptr : TRI_doc_mptr_t)
  : ErrorCode * TRI_doc_mptr_t :=
  let mptr := Mptr.setVPack mptr None in
  let slice := VString key in
  match lookupDocument c slice with
  | (TRI_ERROR_NO_ERROR, Some header) =>
      (* we found a document, now copy it over *)
      (TRI_ERROR_NO_ERROR, Col.load c header)
  | (res, _) => (res, mptr)
  end.

(** [TRI_collection_t::newObjectForInsert].  Results: the code, the object
    built, the hash of the key, the world (the clock may have ticked) and
    the tick of the server ([TRI_NewTickServer] draws from it).  The key
    generator is asked with the keys it has tracked. *)
Definition newObjectForInsert (w : World) (tick : Z)
    (value fromSlice toSlice : VPackSlice) (isEdgeCollection isRestore : bool)
  : ErrorCode * VPackSlice * Z * World * Z :=
  let c := w_collection w in
  (* _key *)
  let s := VPack.get value VPack.KeyString in
  let '(res, s, newRev, w, tick) :=
    if VPack.isNone s then
      let '(newRev, w) := Wd.TRI_HybridLogicalClock w in
      let tick := tick + 1 in
      let keyString := KeyGenerator_generate (_keyGenerator c) tick in
      if String.eqb keyString EmptyString
      then (TRI_ERROR_ARANGO_OUT_OF_KEYS, s, newRev, w, tick)
      else (TRI_ERROR_NO_ERROR, VString keyString, newRev, w, tick)
    else if negb (VPack.isString s)
    then (TRI_ERROR_ARANGO_DOCUMENT_KEY_BAD, s, 0, w, tick)
    else
      (KeyGenerator_validate (_keyGenerator c) (copyString s) isRestore, s, 0, w, tick) in
  if is_error res then (res, VNone, 0, w, tick)
  else
    (* _id *)
    let idSlice :=
      VCustom
        (if trx_isDBServer (w_trx w)
            && match _info_name c with
               | String ch _ => negb (Ascii.eqb ch "_")
               | EmptyString => true
               end
         then _info_planId c else _info_id c) in
    let hash := hashString s in
    (* _rev *)
    let oldRev := TRI_ExtractRevisionIdAsSlice value in
    if isRestore && negb (VPack.isString oldRev)
    then (TRI_ERROR_ARANGO_DOCUMENT_REV_BAD, VNone, hash, w, tick)
    else
      let '(rev, w) :=
        if isRestore then
          let '(oldRevision, isOld) := TRI_StringToRid (copyString oldRev) in
          if isOld then Wd.TRI_HybridLogicalClock w else (oldRevision, w)
        else if newRev =? 0 then Wd.TRI_HybridLogicalClock w else (newRev, w) in
      (TRI_ERROR_NO_ERROR,
       VObject
         ([(VPack.KeyString, s); (VPack.IdString, idSlice)]
          ++ (if isEdgeCollection
              then [(VPack.FromString, fromSlice); (VPack.ToString, toSlice)]
              else [])
          ++ [(VPack.RevString, VString (TRI_RidToString rev))]
          (* add other attributes after the system attributes *)
          ++ TRI_SanitizeObjectWithEdges value),
       hash, w, tick).

(** [TRI_collection_t::insert], for [lock = false].  The slice is an
    object: on any other slice the [get] of velocypack raises, which is the
    result [None]. *)
Definition insert (w : World) (tick : Z) (slice : VPackSlice)
    (options : OperationOptions) (out : Outputs)
  : option (ErrorCode * Outputs * World * Z) :=
  if negb (VPack.isObject slice) then None
  else
    let out := Out.set_resultMarkerTick out 0 in
    let isEdgeCollection := isEdgeCollection (w_collection w) in
    let fromSlice :=
      if isEdgeCollection then VPack.get slice VPack.FromString else VNone in
    let toSlice :=
      if isEdgeCollection then VPack.get slice VPack.ToString else VNone in
    if isEdgeCollection
       && (negb (VPack.isString fromSlice)
           || negb (TRI_ValidateDocumentIdKeyGenerator (copyString fromSlice)))
    then Some (TRI_ERROR_ARANGO_INVALID_EDGE_ATTRIBUTE, out, w, tick)
    else if isEdgeCollection
            && (negb (VPack.isString toSlice)
                || negb (TRI_ValidateDocumentIdKeyGenerator (copyString toSlice)))
    then Some (TRI_ERROR_ARANGO_INVALID_EDGE_ATTRIBUTE, out, w, tick)
    else
      let '(res, newSlice, hash, w, tick) :=
        match recoveryMarker options with
        | None =>
            newObjectForInsert w tick slice fromSlice toSlice isEdgeCollection
              (isRestore options)
        | Some _ =>
            (TRI_ERROR_NO_ERROR, slice,
             hashString (VPack.extractKeyFromDocument slice), w, tick)
        end in
      if is_error res then Some (res, out, w, tick)
      else
        let out := Out.set_mptr out (Mptr.setVPack (out_mptr out) None) in
        (* create marker *)
        let marker :=
          match recoveryMarker options with
          | None => CrudMarker TRI_DF_MARKER_VPACK_DOCUMENT newSlice
          | Some m => m
          end in
        (* now insert into indexes *)
        let operation := Op.make marker TRI_VOC_DOCUMENT_OPERATION_INSERT in
        let c := w_collection w in
        (* create a new header *)
        match MasterPointersOps.request (_masterPointers c) with
        | None =>
            (* out of memory. no harm done here. just return the error *)
            Some (TRI_ERROR_OUT_OF_MEMORY, out, w, tick)
        | Some (header, pool) =>
            let operation := Op.set_header operation header in
            (* update the header we got *)
            let c := Col.set_masterPointers c pool in
            let c :=
              Col.store c header
                (Mptr.setVPack (Mptr.setHash (Col.load c header) hash) (Some marker)) in
            (* insert into indexes *)
            let '(res, w1, operation, mptr, _) :=
              insertDocument (Wd.set_collection w c) header operation (out_mptr out)
                (waitForSync options) in
            let out := Out.set_mptr out mptr in
            if is_error res then
              let '(_, c) := revert operation (w_collection w1) in
              Some (res, out, Wd.set_collection w1 c, tick)
            else
              (* store the tick that was used for writing the document *)
              Some (res, Out.set_resultMarkerTick out (op_tick operation), w1, tick)
        end.

End ReadAndInsert.

(** ** Vocabulary of the statements *)

(** *** Secondary indexes *)

(** The loops over the secondary indexes skip an index that is not
    persistent while the secondary indexes are switched off. *)
Definition attempted (useSecondary : bool) (idx : Index) : bool :=
  useSecondary || IndexOps.isPersistent idx.

(** The index with a reference to the handle added. *)
Definition referring (header : nat) (idx : Index) : Index :=
  IndexOps.set_refs idx ({[ header ]} ∪ idx_refs idx).

(** What the insert loop can have done to an index: nothing, or entered the
    handle. *)
Definition touched (useSecondary : bool) (header : nat) (idx idx' : Index) : Prop :=
  idx' = idx ∨ (attempted useSecondary idx = true ∧ idx' = referring header idx).

(** One turn of the result bookkeeping of [insertSecondaryIndexes]. *)
Definition prefer (result res : ErrorCode) : ErrorCode :=
  if is_error res then
    if bool_decide (res = TRI_ERROR_ARANGO_UNIQUE_CONSTRAINT_VIOLATED)
       || bool_decide (result = TRI_ERROR_NO_ERROR)
    then res else result
  else result.

(** The first answer that is an error, [TRI_ERROR_NO_ERROR] when none is. *)
Definition firstError (answers : list ErrorCode) : ErrorCode :=
  default TRI_ERROR_NO_ERROR (List.find is_error answers).

(** The error to report for the answers of the indexes: a unique-constraint
    violation when there is one, else the first error. *)
Definition preferred (answers : list ErrorCode) : ErrorCode :=
  if bool_decide (TRI_ERROR_ARANGO_UNIQUE_CONSTRAINT_VIOLATED ∈ answers)
  then TRI_ERROR_ARANGO_UNIQUE_CONSTRAINT_VIOLATED
  else firstError answers.

Section Attempts.
Context `{IndexImplementations}.

(** An index after the insert loop has been at it. *)
Definition attempt (useSecondary : bool) (pool : MasterPointers) (header : nat)
    (isRollback : bool) (idx : Index) : Index :=
  if attempted useSecondary idx
  then (Index_insert idx pool header isRollback).2 else idx.

End Attempts.

(** Two index objects with the same definition; the references may differ. *)
Definition sameDefinition (a b : Index) : Prop :=
  idx_id a = idx_id b ∧ idx_type a = idx_type b ∧ idx_fields a = idx_fields b
  ∧ idx_unique a = idx_unique b ∧ idx_sparse a = idx_sparse b.

(** *** Options *)

(** The options with [ignoreRevs] set to [b]. *)
Definition withIgnoreRevs (options : OperationOptions) (b : bool) : OperationOptions :=
  {| recoveryMarker := recoveryMarker options; waitForSync := waitForSync options;
     keepNull := keepNull options; mergeObjects := mergeObjects options;
     ignoreRevs := b; isRestore := isRestore options |}.

(** *** Timed locks *)

(** A poll at which the lock cannot be taken in [mode]. *)
Definition busy (mode : Lock.LockMode) (p : Lock.Poll) : Prop :=
  Lock.tryLock mode (Lock.seen p) = false.

(** A poll at which the detector has nothing to report. *)
Definition quiet (p : Lock.Poll) : Prop :=
  Lock.onSetBlocked p = Lock.Fine ∧ Lock.onDetect p = Lock.Fine.

(** A round of five polls at which the lock is taken, the detector finding
    nothing when it is asked at the fifth. *)
Definition uneventful (mode : Lock.LockMode) (round : list Lock.Poll) : Prop :=
  ∃ qs q,
    round = qs ++ [q] ∧ length qs = 4%nat ∧ Forall (busy mode) qs
    ∧ busy mode q ∧ Lock.onDetect q = Lock.Fine.

(** The timeout the loop works with. *)
Definition effectiveTimeout (timeout : Z) : Z :=
  if timeout =? 0 then Lock.defaultTimeout else timeout.

(** The collection is in the no-lock override set. *)
Definition nolocked (nolockHeaders : option (gset string)) (c : TRI_collection_t)
  : bool :=
  match nolockHeaders with
  | Some names => bool_decide (_info_name c ∈ names)
  | None => false
  end.

(** *** Replay *)

(** The iterator state points at the container of the file it is in. *)
Definition ready (st : OpenIteratorState) : Prop :=
  st_dfi st = Some (st_fid st) ∧ is_Some (st_stats st !! st_fid st).

(** The revision high-water mark after a marker of revision [rid]. *)
Definition revisionAfter (revision rid : Z) : Z :=
  if 0 <? rid then if revision <? rid then rid else revision else revision.

(** The handle [h] holds the version [marker] of datafile [fid]. *)
Definition pointsTo (c : TRI_collection_t) (h : nat) (fid : Z) (marker : Marker) : Prop :=
  Mptr.getFid (Col.load c h) = fid ∧ _dataptr (Col.load c h) = Some marker.


(** *** After an insert *)

(** The index after a pass of the insert loop in which every attempted
    index took the handle. *)
Definition entered (useSecondary : bool) (header : nat) (idx : Index) : Index :=
  if attempted useSecondary idx then referring header idx else idx.

(** *** Merging for an update *)

(** What an update makes of one regular attribute: [old] is the value the
    stored document has under the name, [new] the value the delta gives
    ([None]: the name does not occur).  A value that is null goes away
    unless [keepNull] is set; two objects are merged when [mergeObjects] is
    set; else the new value replaces the old one. *)
Definition updatedAttribute `{Environment} (mergeObjects keepNull : bool)
    (old new : option VPackSlice) : VPackSlice :=
  match new with
  | None => default VNone old
  | Some v =>
      if keepNull || (negb (VPack.isNone v) && negb (VPack.isNull v)) then
        match old with
        | Some o =>
            if mergeObjects && VPack.isObject o && VPack.isObject v
            then VPackCollection_merge o v true (negb keepNull)
            else v
        | None => v
        end
      else VNone
  end.

(** *** The index registry *)

(** The number of fulltext indexes and of persistent indexes in a list. *)
Definition fulltextIndexes (indexes : list Index) : Z :=
  Z.of_nat
    (length (List.filter
               (λ idx, bool_decide (idx_type idx = TRI_IDX_TYPE_FULLTEXT_INDEX))
               indexes)).

Definition persistentIndexes (indexes : list Index) : Z :=
  Z.of_nat (length (List.filter IndexOps.isPersistent indexes)).

(** The statistics of the registry are right: [_cleanupIndexes] counts the
    fulltext indexes and [_persistentIndexes] the persistent ones. *)
Definition counted (c : TRI_collection_t) : Prop :=
  _cleanupIndexes c = fulltextIndexes (_indexes c)
  ∧ _persistentIndexes c = persistentIndexes (_indexes c).

(** *** Collection names *)

(** What [c_str()] shows of a string: the characters before the first
    NUL. *)
Fixpoint c_str (s : string) : string :=
  match s with
  | EmptyString => EmptyString
  | String ch rest => if Ascii.eqb ch "000" then EmptyString else String ch (c_str rest)
  end.

(** A letter, and for a system name also the underscore. *)
Definition nameStart (allowSystem : bool) (ch : ascii) : bool :=
  (allowSystem && Ascii.eqb ch "_") || between "a" "z" ch || between "A" "Z" ch.

(** A letter, a digit, the underscore or the hyphen. *)
Definition nameChar (ch : ascii) : bool :=
  Ascii.eqb ch "_" || Ascii.eqb ch "-" || between "0" "9" ch
  || between "a" "z" ch || between "A" "Z" ch.

(** A name of 1 to [maxLength] characters that starts as a name starts and
    goes on with name characters. *)
Definition wellFormedName (maxLength : nat) (allowSystem : bool) (s : string) : bool :=
  match s with
  | EmptyString => false
  | String ch rest =>
      nameStart allowSystem ch && forallb nameChar (list_ascii_of_string rest)
      && (String.length s <=? maxLength)%nat
  end.

(** The string starts with an underscore. *)
Definition startsWithUnderscore (s : string) : bool :=
  match s with
  | String ch _ => Ascii.eqb ch "_"
  | EmptyString => false
  end.

(** *** A collection whose documents are accounted for *)

(** Every key of the primary index leads to a handle that is in use and
    holds a document of that key, no handle is on the free list twice, and
    the document counter is the number of keys. *)
Definition consistent (c : TRI_collection_t) : Prop :=
  (∀ k h, _primaryIndex c !! k = Some h →
          Mptr.key (Col.load c h) = VString k
          ∧ h ∉ mp_free (_masterPointers c))
  ∧ NoDup (mp_free (_masterPointers c))
  ∧ _numberDocuments c = PrimaryIndex.size (_primaryIndex c).

(** A document or deletion marker whose payload has a string [_key]. *)
Definition keyed (marker : Marker) : bool :=
  match m_type marker with
  | TRI_DF_MARKER_VPACK_DOCUMENT | TRI_DF_MARKER_VPACK_REMOVE =>
      VPack.isString (VPack.extractKeyFromDocument (m_vpack marker))
  | _ => true
  end.

(** Datafiles as the replay expects them: the file id is not 0, the value
    the iterator state starts with, and the markers are keyed. *)
Definition replayable (files : list (TRI_datafile_t * list Marker)) : bool :=
  forallb (λ file, negb (df_fid file.1 =? 0) && forallb keyed file.2) files.

(** The number of markers of a type. *)
Definition markersOfType (type : TRI_df_marker_type_t) (markers : list Marker) : Z :=
  Z.of_nat (length (filter (λ m, m_type m = type) markers)).

(** The marks of a datafile and of the collection cover a marker: its tick
    is not above the tick range of the file nor, for a marker that is not
    structural, above [_tickMax]; a document marker is inside the data range
    of the file; and for a document or deletion marker the revision is not
    above the revision of the collection and the key generator has tracked
    the key. *)
Definition covered `{ReplayEnvironment} (marker : Marker) (datafile : TRI_datafile_t)
    (c : TRI_collection_t) : Prop :=
  m_tick marker <= df_tickMax datafile
  ∧ (isStructuralMarker (m_type marker) = false → m_tick marker <= _tickMax c)
  ∧ (m_type marker = TRI_DF_MARKER_VPACK_DOCUMENT →
     m_tick marker <= df_dataMax datafile)
  ∧ (m_type marker = TRI_DF_MARKER_VPACK_DOCUMENT
     ∨ m_type marker = TRI_DF_MARKER_VPACK_REMOVE →
     (0 < extractRevision (m_vpack marker) →
      extractRevision (m_vpack marker) <= _info_revision c)
     ∧ ∀ k, VPack.extractKeyFromDocument (m_vpack marker) = VString k →
            k ∈ _keyGenerator c).

(** The marks of the collection have not gone down. *)
Definition raised (c c' : TRI_collection_t) : Prop :=
  _tickMax c <= _tickMax c' ∧ _info_revision c <= _info_revision c'
  ∧ _keyGenerator c ⊆ _keyGenerator c'.

(** The same datafile with marks that have not gone down. *)
Definition extended (datafile datafile' : TRI_datafile_t) : Prop :=
  df_fid datafile' = df_fid datafile
  ∧ df_tickMax datafile <= df_tickMax datafile'
  ∧ df_dataMax datafile <= df_dataMax datafile'.

(** ** A sample deployment

    Concrete collaborators and a small collection, on which the functions
    above can be run. *)

Module Sample.

(** *** Index implementations *)

(** The values a document has under the paths of an index (paths of one
    step). *)
Definition indexedValues (idx : Index) (h : TRI_doc_mptr_t) : VPackSlice :=
  match Mptr.vpack h with
  | Some doc =>
      VArray (map (λ path, match path with
                           | step :: _ => VPack.get doc (name step)
                           | [] => VNone
                           end) (idx_fields idx))
  | None => VNone
  end.

(** Another handle the index refers to has the same values. *)
Definition clashes (idx : Index) (slots : gmap nat TRI_doc_mptr_t) (header : nat)
  : bool :=
  existsb
    (λ other,
       negb (Nat.eqb other header)
       && VPack.eqb (indexedValues idx (default Mptr.fresh (slots !! other)))
                    (indexedValues idx (default Mptr.fresh (slots !! header))))
    (elements (idx_refs idx)).

(** Indexes whose allocations fail are those with an id in [exhausted]; a
    unique index refuses a second document with the same values unless the
    insert is part of a rollback; a remove goes through. *)
Definition indexes (exhausted : gset Z) : IndexImplementations :=
  {| insert_result idx slots header isRollback :=
       if bool_decide (idx_id idx ∈ exhausted) then TRI_ERROR_OUT_OF_MEMORY
       else if idx_unique idx && negb isRollback && clashes idx slots header
       then TRI_ERROR_ARANGO_UNIQUE_CONSTRAINT_VIOLATED
       else TRI_ERROR_NO_ERROR;
     remove_result _ _ _ _ := TRI_ERROR_NO_ERROR |}.

(** *** Revisions as decimal strings *)

Fixpoint parseRid (s : string) (acc : Z) : Z :=
  match s with
  | EmptyString => acc
  | String c rest => parseRid rest (10 * acc + (Z.of_N (N_of_ascii c) - 48))
  end.

Fixpoint printRid (fuel : nat) (n : Z) (acc : string) : string :=
  match fuel with
  | O => acc
  | S fuel' =>
      let acc := String (ascii_of_N (Z.to_N (48 + n mod 10))) acc in
      if n / 10 =? 0 then acc else printRid fuel' (n / 10) acc
  end.

(** The newer members first, then the members only the older object has. *)
Definition merge (left right : VPackSlice) : VPackSlice :=
  match left, right with
  | VObject ls, VObject rs =>
      VObject (rs ++ List.filter
                       (λ kv, VPack.isNone (VPack.lookup_member rs kv.1)) ls)
  | _, _ => right
  end.

(** Index implementations that never run out of memory. *)
Definition healthy : IndexImplementations := indexes ∅.

(** Helpers that print and parse revisions in decimal, a log that takes
    every operation, and a map of new values that is gone through from the
    entry emplaced last to the one emplaced first. *)
Definition environment : Environment :=
  {| TRI_StringToRid s := (parseRid s 0, false);
     TRI_RidToString rid := printRid 20 rid EmptyString;
     TRI_ExtractRevisionIdAsSlice slice := VPack.get slice VPack.RevString;
     VPackCollection_merge left right _ _ := merge left right;
     shardKeysChanged _ _ _ := false;
     CrudMarker_size _ slice := 24 + 8 * VPack.length slice;
     addOperation_result _ _ := TRI_ERROR_NO_ERROR;
     unordered_map_iteration := reverse;
     unordered_map_iteration_permutes := reverse_Permutation |}.

(** Attribute names without dots: a path of one step. *)
Definition indexEnvironment : IndexEnvironment :=
  {| TRI_ParseAttributeString s := [{| name := s; shouldExpand := false |}];
     hasBatchInsert _ := false;
     batchInsert_result _ _ _ := TRI_ERROR_NO_ERROR;
     indexPool_numThreads := None;
     saveIndex_result _ := TRI_ERROR_NO_ERROR |}.

Definition replayEnvironment : ReplayEnvironment :=
  {| extractRevision slice :=
       match VPack.get slice VPack.RevString with
       | VString s => parseRid s 0
       | _ => 0
       end;
     AlignedSize n := (n + 7) / 8 * 8;
     calculateHash _ := 0;
     resize_result _ := TRI_ERROR_NO_ERROR;
     create_result stats fid :=
       if stats !! fid is Some _ then TRI_ERROR_INTERNAL
       else TRI_ERROR_NO_ERROR |}.

(** *** Documents, handles and a collection *)

Definition person (key rev : string) (x y : Z) : VPackSlice :=
  VObject [(VPack.KeyString, VString key); (VPack.IdString, VCustom 7);
           (VPack.RevString, VString rev);
           ("x"%string, VNumber x); ("y"%string, VNumber y)].

Definition markerOf (type : TRI_df_marker_type_t) (tick : Z) (doc : VPackSlice)
  : Marker :=
  {| m_type := type; m_tick := tick; m_size := 24 + 8 * VPack.length doc;
     m_vpack := doc |}.

Definition handleOf (doc : VPackSlice) : TRI_doc_mptr_t :=
  {| _fid := 1; _fidIsWal := false; _hash := 0;
     _dataptr := Some (markerOf TRI_DF_MARKER_VPACK_DOCUMENT 1 doc) |}.

Definition step (s : string) : list AttributeName :=
  [{| name := s; shouldExpand := false |}].

Definition primaryDescriptor : Index :=
  {| idx_id := 0; idx_type := TRI_IDX_TYPE_PRIMARY_INDEX;
     idx_fields := [step VPack.KeyString]; idx_unique := true;
     idx_sparse := false; idx_refs := ∅ |}.

(** A unique hash index on [x] and a skiplist index on [y]; both refer to
    the one document there is. *)
Definition uniqueOnX : Index :=
  {| idx_id := 11; idx_type := TRI_IDX_TYPE_HASH_INDEX;
     idx_fields := [step "x"]; idx_unique := true; idx_sparse := false;
     idx_refs := {[ 1%nat ]} |}.

Definition skiplistOnY : Index :=
  {| idx_id := 12; idx_type := TRI_IDX_TYPE_SKIPLIST_INDEX;
     idx_fields := [step "y"]; idx_unique := false; idx_sparse := false;
     idx_refs := {[ 1%nat ]} |}.

(** The collection [users] with the document [a] of revision 1 in slot 1. *)
Definition users : TRI_collection_t :=
  {| _info_type := TRI_COL_TYPE_DOCUMENT; _info_name := "users";
     _info_id := 7; _info_planId := 7; _info_revision := 1;
     _info_indexBuckets := 1; _tickMax := 1; _datafileStatistics := ∅;
     _masterPointers :=
       {| mp_slots := {[ 1%nat := handleOf (person "a" "1" 5 8) ]};
          mp_free := [3%nat; 4%nat] |};
     _numberDocuments := 1;
     _primaryIndex := {[ "a"%string := 1%nat ]};
     _indexes := [primaryDescriptor; uniqueOnX; skiplistOnY];
     _cleanupIndexes := 0; _persistentIndexes := 0;
     _useSecondaryIndexes := true; _keyGenerator := ∅ |}.

(** A second person with the [x] of the first, the first once more with
    other values, and three deltas for the first: one that names a revision
    the document does not have, one that is the key alone, and one that is
    the key and the revision the document has. *)
Definition clashing : VPackSlice := person "b" "2" 5 9.

Definition duplicate : VPackSlice := person "a" "2" 6 9.

Definition stale : VPackSlice :=
  VObject [(VPack.KeyString, VString "a"); (VPack.RevString, VString "7");
           ("x"%string, VNumber 6)].

Definition keyOnly : VPackSlice := VObject [(VPack.KeyString, VString "a")].

Definition touch : VPackSlice :=
  VObject [(VPack.KeyString, VString "a"); (VPack.RevString, VString "1")].

(** [users] with a second handle, slot 2, prepared for an insert. *)
Definition pending (doc : VPackSlice) : TRI_collection_t :=
  Col.store users 2 (handleOf doc).

Definition world (c : TRI_collection_t) : World :=
  {| w_collection := c;
     w_trx := {| trx_isDBServer := false; trx_lastTick := 0; trx_operations := [] |};
     w_clock := 41 |}.

Definition insertOf (doc : VPackSlice) : DocumentOperation :=
  Op.set_header
    (Op.make (markerOf TRI_DF_MARKER_VPACK_DOCUMENT 0 doc)
       TRI_VOC_DOCUMENT_OPERATION_INSERT) 2.

Definition options : OperationOptions :=
  {| recoveryMarker := None; waitForSync := false; keepNull := true;
     mergeObjects := true; ignoreRevs := false; isRestore := false |}.

Definition outputs : Outputs :=
  {| out_mptr := Mptr.fresh; out_resultMarkerTick := 0; out_prevRev := VNone;
     out_previous := Mptr.fresh |}.

(** *** A lock that a writer holds *)

Definition held : Lock.Poll :=
  {| Lock.seen := {| Lock.others_readers := 0; Lock.others_writer := true |};
     Lock.onSetBlocked := Lock.Fine; Lock.onDetect := Lock.Fine |}.



Definition idle : Lock.DeadlockDetector :=
  {| Lock.det_blocked := None; Lock.det_active := None |}.

(** *** A datafile to replay *)

Definition emptied : TRI_collection_t :=
  {| _info_type := TRI_COL_TYPE_DOCUMENT; _info_name := "users";
     _info_id := 7; _info_planId := 7; _info_revision := 0;
     _info_indexBuckets := 1; _tickMax := 0; _datafileStatistics := ∅;
     _masterPointers := {| mp_slots := ∅; mp_free := [1%nat; 2%nat] |};
     _numberDocuments := 0; _primaryIndex := ∅;
     _indexes := [primaryDescriptor];
     _cleanupIndexes := 0; _persistentIndexes := 0;
     _useSecondaryIndexes := false; _keyGenerator := ∅ |}.

Definition datafile : TRI_datafile_t :=
  {| df_fid := 1; df_dataMin := 0; df_dataMax := 0; df_tickMin := 0;
     df_tickMax := 0 |}.

Definition tombstone (key rev : string) : VPackSlice :=
  VObject [(VPack.KeyString, VString key); (VPack.RevString, VString rev)].

Definition journal : list Marker :=
  [markerOf TRI_DF_MARKER_VPACK_DOCUMENT 1 (person "k" "1" 0 0);
   markerOf TRI_DF_MARKER_VPACK_DOCUMENT 2 (person "k" "2" 1 0);
   markerOf TRI_DF_MARKER_VPACK_REMOVE 3 (tombstone "k" "3")].

End Sample.

(** ** More of the sample deployment: index definitions *)

Module RegistryCases.

(** A storage engine that cannot persist an index definition. *)
Definition failingEngine : IndexEnvironment :=
  {| TRI_ParseAttributeString s := [{| name := s; shouldExpand := false |}];
     hasBatchInsert _ := false;
     batchInsert_result _ _ _ := TRI_ERROR_NO_ERROR;
     indexPool_numThreads := None;
     saveIndex_result _ := TRI_ERROR_INTERNAL |}.

(** A skiplist index on [a] and [b]. *)
Definition skiplistOnAB : Index :=
  {| idx_id := 21; idx_type := TRI_IDX_TYPE_SKIPLIST_INDEX;
     idx_fields := [Sample.step "a"; Sample.step "b"]; idx_unique := false;
     idx_sparse := false; idx_refs := {[ 1%nat ]} |}.

(** The sample collection with that index as its only secondary index. *)
Definition withSkiplistOnAB : TRI_collection_t :=
  Col.set_indexes Sample.users [Sample.primaryDescriptor; skiplistOnAB] 0 0.

End RegistryCases.

(** ** More of the sample deployment: inserting *)

Module InsertCases.

(** A key generator that hands out the tick of the server in decimal and
    takes every key of 1 to 254 characters; document ids are taken as
    they come; the hash of a key is not looked at. *)
Definition insertEnvironment : InsertEnvironment :=
  {| KeyGenerator_generate _ tick := Sample.printRid 20 tick EmptyString;
     KeyGenerator_validate _ key _ :=
       if Nat.eqb (String.length key) 0 || (254 <? String.length key)%nat
       then TRI_ERROR_ARANGO_DOCUMENT_KEY_BAD else TRI_ERROR_NO_ERROR;
     TRI_ValidateDocumentIdKeyGenerator id := negb (String.eqb id EmptyString);
     hashString _ := 0 |}.

(** A document without a key, and one that asks for the key of the first
    person. *)
Definition newcomer : VPackSlice :=
  VObject [("x"%string, VNumber 6); ("y"%string, VNumber 9)].

Definition impostor : VPackSlice :=
  VObject [(VPack.KeyString, VString "a"); ("x"%string, VNumber 6)].

End InsertCases.

(** ** More of the sample deployment: locks *)

Module LockCases.

(** A turn at which nobody holds the lock, one at which two readers hold
    it, and one at which a writer holds it and the detector would report a
    deadlock when asked to look for one. *)
Definition released : Lock.Poll :=
  {| Lock.seen := {| Lock.others_readers := 0; Lock.others_writer := false |};
     Lock.onSetBlocked := Lock.Fine; Lock.onDetect := Lock.Fine |}.

Definition shared : Lock.Poll :=
  {| Lock.seen := {| Lock.others_readers := 2; Lock.others_writer := false |};
     Lock.onSetBlocked := Lock.Fine; Lock.onDetect := Lock.Fine |}.

Definition stuck : Lock.Poll :=
  {| Lock.seen := {| Lock.others_readers := 0; Lock.others_writer := true |};
     Lock.onSetBlocked := Lock.Fine; Lock.onDetect := Lock.Deadlock |}.



End LockCases.

(** ** More of the sample deployment: a rollback that fails *)

Module RollbackCases.

(** Index implementations as the healthy ones, but for the skiplist index
    on [y]: it takes a handle and cannot let it go, its remove runs out of
    memory. *)
Definition stubborn : IndexImplementations :=
  {| insert_result := @insert_result Sample.healthy;
     remove_result idx _ _ _ :=
       if idx_id idx =? idx_id Sample.skiplistOnY then TRI_ERROR_OUT_OF_MEMORY
       else TRI_ERROR_NO_ERROR |}.

End RollbackCases.

(** * Properties *)

(** ** Result codes, slices and records *)

Lemma is_error_true r : is_error r = true ↔ r ≠ TRI_ERROR_NO_ERROR.
Proof. unfold is_error. apply bool_decide_eq_true. Qed.

Lemma is_error_false r : is_error r = false ↔ r = TRI_ERROR_NO_ERROR.
Proof.
  unfold is_error. rewrite bool_decide_eq_false. split; [|congruence].
  intros Hn. destruct (decide (r = TRI_ERROR_NO_ERROR)); [done | contradiction].
Qed.

Lemma is_error_no_error : is_error TRI_ERROR_NO_ERROR = false.
Proof. done. Qed.

(** Induction on slices that reaches into arrays and objects. *)
Lemma VPackSlice_nested_ind (P : VPackSlice → Prop) :
  P VNone → P VNull → (∀ b, P (VBool b)) → (∀ n, P (VNumber n)) →
  (∀ s, P (VString s)) → (∀ n, P (VCustom n)) →
  (∀ items, Forall P items → P (VArray items)) →
  (∀ members, Forall (λ kv, P kv.2) members → P (VObject members)) →
  ∀ s, P s.
Proof.
  intros HNone HNull HBool HNum HStr HCus HArr HObj.
  fix IH 1. intros [ | | b | n | s | n | items | members ].
  - exact HNone.
  - exact HNull.
  - apply HBool.
  - apply HNum.
  - apply HStr.
  - apply HCus.
  - apply HArr. induction items as [|x xs IHxs]; constructor; [apply IH | exact IHxs].
  - apply HObj. induction members as [|[k x] xs IHxs]; constructor; [apply IH | exact IHxs].
Qed.

Lemma slice_eqb_eq (a : VPackSlice) : ∀ b, VPack.eqb a b = true ↔ a = b.
Proof.
  induction a as [ | | x | x | x | x | xs IH | xs IH ] using VPackSlice_nested_ind;
    intros [ | | y | y | y | y | ys | ys ]; simpl; try (split; [discriminate | discriminate]);
    try (split; congruence).
  - rewrite Bool.eqb_true_iff. split; congruence.
  - rewrite Z.eqb_eq. split; congruence.
  - rewrite String.eqb_eq. split; congruence.
  - rewrite Z.eqb_eq. split; congruence.
  - revert ys. induction IH as [|x xs Hx _ IHxs]; intros [|y ys]; simpl;
      try (split; congruence).
    rewrite andb_true_iff, Hx, IHxs. split; [intros [-> E]; congruence | intros E; split; congruence].
  - revert ys. induction IH as [|[k x] xs Hx _ IHxs]; intros [|[l y] ys]; simpl;
      try (split; congruence).
    rewrite !andb_true_iff, String.eqb_eq. simpl in Hx. rewrite Hx, IHxs.
    split; [intros [[-> ->] E]; congruence | intros E; repeat split; congruence].
Qed.

Lemma slice_eqb_false a b : a ≠ b → VPack.eqb a b = false.
Proof.
  intros Hne. destruct (VPack.eqb a b) eqn:E; [|done]. by apply slice_eqb_eq in E.
Qed.

Lemma isNone_false s : s ≠ VNone → VPack.isNone s = false.
Proof. by destruct s. Qed.

Lemma set_primaryIndex_same c : Col.set_primaryIndex c (_primaryIndex c) = c.
Proof. by destruct c. Qed.

Lemma set_refs_same idx : IndexOps.set_refs idx (idx_refs idx) = idx.
Proof. by destruct idx. Qed.

Lemma set_refs_set_refs idx r1 r2 :
  IndexOps.set_refs (IndexOps.set_refs idx r1) r2 = IndexOps.set_refs idx r2.
Proof. done. Qed.

Lemma with_secondaries_same c : Col.with_secondaries c (Col.secondaries c) = c.
Proof.
  unfold Col.with_secondaries, Col.secondaries.
  destruct c as [? ? ? ? ? ? ? ? ? ? ? idxs ? ? ? ?]; simpl. by destruct idxs.
Qed.

Lemma secondaries_with_secondaries c secs :
  _indexes c ≠ [] → Col.secondaries (Col.with_secondaries c secs) = secs.
Proof.
  unfold Col.secondaries, Col.with_secondaries. by destruct (_indexes c).
Qed.

Lemma Wd_set_collection_same w : Wd.set_collection w (w_collection w) = w.
Proof. by destruct w. Qed.

Lemma load_store p h v :
  MasterPointersOps.load (MasterPointersOps.store p h v) h = v.
Proof.
  unfold MasterPointersOps.load, MasterPointersOps.store. cbn.
  by rewrite lookup_insert_eq.
Qed.

Lemma insertKey_absent keys pool h k :
  Mptr.key (MasterPointersOps.load pool h) = VString k →
  keys !! k = None →
  PrimaryIndex.insertKey keys pool h = (TRI_ERROR_NO_ERROR, None, <[k := h]> keys).
Proof. intros Hk Hn. unfold PrimaryIndex.insertKey. by rewrite Hk, Hn. Qed.

(** ** Which error the insert loop reports *)

Lemma fold_prefer answers : ∀ result,
  fold_left prefer answers result
  = if bool_decide (TRI_ERROR_ARANGO_UNIQUE_CONSTRAINT_VIOLATED ∈ answers)
    then TRI_ERROR_ARANGO_UNIQUE_CONSTRAINT_VIOLATED
    else if is_error result then result else firstError answers.
Proof.
  induction answers as [|v vs IH]; intros result.
  - rewrite bool_decide_eq_false_2 by (by intros ?%elem_of_nil).
    unfold firstError. cbn. destruct (is_error result) eqn:E; [done|].
    by apply is_error_false in E.
  - cbn [fold_left]. rewrite IH. unfold prefer, firstError. cbn [List.find].
    destruct (decide (v = TRI_ERROR_ARANGO_UNIQUE_CONSTRAINT_VIOLATED)) as [->|Hv].
    + rewrite (bool_decide_eq_true_2 (_ ∈ _ :: _)) by constructor.
      by destruct (bool_decide (_ ∈ vs)).
    + assert (Hin : bool_decide (TRI_ERROR_ARANGO_UNIQUE_CONSTRAINT_VIOLATED ∈ v :: vs)
                    = bool_decide (TRI_ERROR_ARANGO_UNIQUE_CONSTRAINT_VIOLATED ∈ vs)).
      { apply bool_decide_ext. rewrite elem_of_cons.
        split; [intros [E|E]; [congruence | exact E] | by right]. }
      rewrite Hin. destruct (bool_decide (_ ∈ vs)); [done|].
      rewrite (bool_decide_eq_false_2 (v = _)) by done. cbn [orb].
      destruct (is_error v) eqn:Ev.
      * destruct (decide (result = TRI_ERROR_NO_ERROR)) as [->|Hr].
        -- rewrite bool_decide_eq_true_2 by done. by rewrite Ev.
        -- rewrite (bool_decide_eq_false_2 (result = _)) by done.
           by rewrite (proj2 (is_error_true result) Hr).
      * done.
Qed.

Lemma fold_prefer_preferred answers :
  fold_left prefer answers TRI_ERROR_NO_ERROR = preferred answers.
Proof. by rewrite fold_prefer. Qed.

(** ** The loop of insertSecondaryIndexes *)

Section Loops.
Context `{IndexImplementations}.
Variables (useSecondary : bool) (pool : MasterPointers) (header : nat).

Lemma Index_insert_eq idx isRollback :
  Index_insert idx pool header isRollback
  = (insert_result idx (mp_slots pool) header isRollback,
     (Index_insert idx pool header isRollback).2).
Proof. unfold Index_insert. by destruct (is_error _). Qed.

Lemma Index_insert_refused idx isRollback :
  insert_result idx (mp_slots pool) header isRollback ≠ TRI_ERROR_NO_ERROR →
  (Index_insert idx pool header isRollback).2 = idx.
Proof. intros E%is_error_true. unfold Index_insert. by rewrite E. Qed.

Lemma attempted_skip idx :
  negb useSecondary && negb (IndexOps.isPersistent idx) = negb (attempted useSecondary idx).
Proof. unfold attempted. by destruct useSecondary, (IndexOps.isPersistent idx). Qed.

Lemma insertSecondaryLoop_skip isRollback idx rest result :
  attempted useSecondary idx = false →
  insertSecondaryLoop useSecondary pool header isRollback (idx :: rest) result
  = ((insertSecondaryLoop useSecondary pool header isRollback rest result).1,
     idx :: (insertSecondaryLoop useSecondary pool header isRollback rest result).2).
Proof.
  intros E. cbn [insertSecondaryLoop]. rewrite attempted_skip, E. cbn [negb].
  by destruct (insertSecondaryLoop _ _ _ _ _ _).
Qed.

Lemma insertSecondaryLoop_stop isRollback idx rest result :
  attempted useSecondary idx = true →
  insert_result idx (mp_slots pool) header isRollback = TRI_ERROR_OUT_OF_MEMORY →
  insertSecondaryLoop useSecondary pool header isRollback (idx :: rest) result
  = (TRI_ERROR_OUT_OF_MEMORY, idx :: rest).
Proof.
  intros E Hoom. cbn [insertSecondaryLoop]. rewrite attempted_skip, E. cbn [negb].
  rewrite Index_insert_eq, Index_insert_refused by (by rewrite Hoom).
  by rewrite Hoom.
Qed.

Lemma insertSecondaryLoop_go isRollback idx rest result :
  attempted useSecondary idx = true →
  insert_result idx (mp_slots pool) header isRollback ≠ TRI_ERROR_OUT_OF_MEMORY →
  insertSecondaryLoop useSecondary pool header isRollback (idx :: rest) result
  = ((insertSecondaryLoop useSecondary pool header isRollback rest
        (prefer result (insert_result idx (mp_slots pool) header isRollback))).1,
     (Index_insert idx pool header isRollback).2
     :: (insertSecondaryLoop useSecondary pool header isRollback rest
           (prefer result (insert_result idx (mp_slots pool) header isRollback))).2).
Proof.
  intros E Hoom. cbn [insertSecondaryLoop]. rewrite attempted_skip, E. cbn [negb].
  rewrite Index_insert_eq. rewrite (bool_decide_eq_false_2 _ Hoom).
  fold (prefer result (insert_result idx (mp_slots pool) header isRollback)).
  by destruct (insertSecondaryLoop _ _ _ _ _ _).
Qed.

Lemma insertSecondaryLoop_all isRollback indexes : ∀ result,
  (∀ idx, idx ∈ List.filter (attempted useSecondary) indexes →
          insert_result idx (mp_slots pool) header isRollback ≠ TRI_ERROR_OUT_OF_MEMORY) →
  insertSecondaryLoop useSecondary pool header isRollback indexes result
  = (fold_left prefer
       (map (λ idx, insert_result idx (mp_slots pool) header isRollback)
          (List.filter (attempted useSecondary) indexes)) result,
     map (attempt useSecondary pool header isRollback) indexes).
Proof.
  induction indexes as [|idx rest IH]; intros result Hoom; [done|].
  cbn [List.filter map] in *. unfold attempt at 1.
  destruct (attempted useSecondary idx) eqn:Ea.
  - rewrite insertSecondaryLoop_go; [|done|apply Hoom, elem_of_cons; by left].
    rewrite IH by (intros i Hi; apply Hoom, elem_of_cons; by right). done.
  - rewrite insertSecondaryLoop_skip by done. by rewrite IH.
Qed.

Lemma insertSecondaryLoop_oom isRollback before idx after : ∀ result,
  (∀ i, i ∈ List.filter (attempted useSecondary) before →
        insert_result i (mp_slots pool) header isRollback ≠ TRI_ERROR_OUT_OF_MEMORY) →
  attempted useSecondary idx = true →
  insert_result idx (mp_slots pool) header isRollback = TRI_ERROR_OUT_OF_MEMORY →
  insertSecondaryLoop useSecondary pool header isRollback (before ++ idx :: after) result
  = (TRI_ERROR_OUT_OF_MEMORY,
     map (attempt useSecondary pool header isRollback) before ++ idx :: after).
Proof.
  intros result Hb Ha Hoom. revert result.
  induction before as [|b before IH]; intros result.
  - by apply insertSecondaryLoop_stop.
  - cbn [List.filter map app] in *. unfold attempt at 1.
    destruct (attempted useSecondary b) eqn:Eb.
    + rewrite insertSecondaryLoop_go; [|done|apply Hb, elem_of_cons; by left].
      rewrite IH by (intros i Hi; apply Hb, elem_of_cons; by right). done.
    + rewrite insertSecondaryLoop_skip by done. by rewrite IH.
Qed.
End Loops.

(** ** Undoing the insert loop *)

Lemma refs_without_absent (refs : gset nat) (h : nat) :
  h ∉ refs → refs ∖ {[ h ]} = refs.
Proof. intros Hn. by apply difference_disjoint_L, disjoint_singleton_r. Qed.

Lemma refs_without_added (refs : gset nat) (h : nat) :
  h ∉ refs → ({[ h ]} ∪ refs) ∖ {[ h ]} = refs.
Proof.
  intros Hn. rewrite difference_union_distr_l_L, difference_diag_L.
  rewrite (left_id_L ∅ (∪)). by apply refs_without_absent.
Qed.

Section Rollback.
Context `{IndexImplementations}.
Variables (useSecondary : bool) (pool : MasterPointers) (header : nat).

Lemma Index_insert_touched idx isRollback :
  attempted useSecondary idx = true →
  touched useSecondary header idx (Index_insert idx pool header isRollback).2.
Proof.
  intros Ha. unfold Index_insert. destruct (is_error _); [by left | by right].
Qed.

Lemma touched_refl indexes : Forall2 (touched useSecondary header) indexes indexes.
Proof. induction indexes; constructor; [by left | done]. Qed.

Lemma insertSecondaryLoop_touched isRollback indexes : ∀ result,
  Forall2 (touched useSecondary header) indexes
    (insertSecondaryLoop useSecondary pool header isRollback indexes result).2.
Proof.
  induction indexes as [|idx rest IH]; intros result; [constructor|].
  destruct (attempted useSecondary idx) eqn:Ea.
  - destruct (decide (insert_result idx (mp_slots pool) header isRollback
                      = TRI_ERROR_OUT_OF_MEMORY)) as [Hoom|Hoom].
    + rewrite insertSecondaryLoop_stop by done. apply touched_refl.
    + rewrite insertSecondaryLoop_go by done. constructor; [|apply IH].
      by apply Index_insert_touched.
  - rewrite insertSecondaryLoop_skip by done. constructor; [by left | apply IH].
Qed.

Lemma deleteSecondaryLoop_cons isRollback idx rest result :
  (deleteSecondaryLoop useSecondary pool header isRollback (idx :: rest) result).2
  = (if attempted useSecondary idx
     then (Index_remove idx pool header isRollback).2 else idx)
    :: (deleteSecondaryLoop useSecondary pool header isRollback rest
          (if attempted useSecondary idx
           then (if is_error (Index_remove idx pool header isRollback).1
                 then (Index_remove idx pool header isRollback).1 else result)
           else result)).2.
Proof.
  cbn [deleteSecondaryLoop]. rewrite attempted_skip.
  destruct (attempted useSecondary idx); cbn [negb].
  - destruct (Index_remove idx pool header isRollback) as [res idx'].
    cbn [fst snd]. by destruct (deleteSecondaryLoop _ _ _ _ _ _).
  - by destruct (deleteSecondaryLoop _ _ _ _ _ _).
Qed.

Lemma Index_remove_absent idx isRollback :
  header ∉ idx_refs idx → (Index_remove idx pool header isRollback).2 = idx.
Proof.
  intros Hn. unfold Index_remove. destruct (is_error _); [done|].
  cbn [snd]. rewrite refs_without_absent by done. apply set_refs_same.
Qed.

Lemma Index_remove_referring idx :
  header ∉ idx_refs idx →
  remove_result (referring header idx) (mp_slots pool) header true = TRI_ERROR_NO_ERROR →
  (Index_remove (referring header idx) pool header true).2 = idx.
Proof.
  intros Hn Hok. unfold Index_remove. rewrite Hok. cbn.
  unfold referring. rewrite set_refs_set_refs.
  rewrite refs_without_added by done. apply set_refs_same.
Qed.

Lemma deleteSecondaryLoop_undo indexes : ∀ indexes' result,
  Forall2 (touched useSecondary header) indexes indexes' →
  (∀ idx, idx ∈ indexes → header ∉ idx_refs idx) →
  (∀ idx, idx ∈ indexes → attempted useSecondary idx = true →
     remove_result (referring header idx) (mp_slots pool) header true = TRI_ERROR_NO_ERROR) →
  (deleteSecondaryLoop useSecondary pool header true indexes' result).2 = indexes.
Proof.
  induction indexes as [|idx rest IH]; intros indexes' result Ht Hfresh Hrb.
  - by inversion Ht.
  - inversion Ht as [|? idx' ? rest' Hi Hrest]; subst.
    rewrite deleteSecondaryLoop_cons. f_equal.
    + destruct Hi as [->|[Ha ->]].
      * destruct (attempted useSecondary idx); [|done].
        apply Index_remove_absent, Hfresh, elem_of_cons. by left.
      * assert (Ha' : attempted useSecondary (referring header idx) = true) by exact Ha.
        rewrite Ha'. apply Index_remove_referring.
        -- apply Hfresh, elem_of_cons. by left.
        -- apply Hrb; [apply elem_of_cons; by left | done].
    + apply IH; [done | |]; intros i Hi'; [apply Hfresh | apply Hrb];
        apply elem_of_cons; by right.
Qed.
End Rollback.

(** ** Insert of a document *)

Section InsertFacts.
Context `{IndexImplementations} `{Environment}.

Lemma prefer_error result answer :
  result ≠ TRI_ERROR_NO_ERROR ∨ answer ≠ TRI_ERROR_NO_ERROR →
  prefer result answer ≠ TRI_ERROR_NO_ERROR.
Proof.
  unfold prefer. intros Hor.
  destruct (is_error answer) eqn:Ea.
  - apply is_error_true in Ea.
    destruct (bool_decide (answer = _)); [done|]. cbn [orb].
    destruct (decide (result = TRI_ERROR_NO_ERROR)) as [->|Hr].
    + by rewrite bool_decide_eq_true_2.
    + by rewrite bool_decide_eq_false_2.
  - apply is_error_false in Ea. by destruct Hor.
Qed.

Lemma prefer_cases result answer :
  prefer result answer = result
  ∨ (prefer result answer = answer ∧ answer ≠ TRI_ERROR_NO_ERROR).
Proof.
  unfold prefer. destruct (is_error answer) eqn:Ea; [|by left].
  apply is_error_true in Ea. destruct (_ || _); [by right | by left].
Qed.

Lemma insertSecondaryLoop_fails useSecondary pool header isRollback indexes :
  ∀ result,
  result ≠ TRI_ERROR_NO_ERROR
  ∨ (∃ idx, idx ∈ indexes ∧ attempted useSecondary idx = true
            ∧ insert_result idx (mp_slots pool) header isRollback ≠ TRI_ERROR_NO_ERROR) →
  (insertSecondaryLoop useSecondary pool header isRollback indexes result).1
  ≠ TRI_ERROR_NO_ERROR.
Proof.
  induction indexes as [|idx rest IH]; intros result Hor.
  - destruct Hor as [Hr|(i & Hi & _)]; [done | by apply elem_of_nil in Hi].
  - destruct (attempted useSecondary idx) eqn:Ea.
    + destruct (decide (insert_result idx (mp_slots pool) header isRollback
                        = TRI_ERROR_OUT_OF_MEMORY)) as [Hoom|Hoom].
      * by rewrite insertSecondaryLoop_stop.
      * rewrite insertSecondaryLoop_go by done. cbn [fst]. apply IH.
        destruct Hor as [Hr|(i & Hi & Hai & Hne)].
        -- left. apply prefer_error. by left.
        -- apply elem_of_cons in Hi as [->|Hi].
           ++ left. apply prefer_error. by right.
           ++ right. by exists i.
    + rewrite insertSecondaryLoop_skip by done. cbn [fst]. apply IH.
      destruct Hor as [Hr|(i & Hi & Hai & Hne)]; [by left|].
      apply elem_of_cons in Hi as [->|Hi]; [congruence|]. right. by exists i.
Qed.

Lemma insertSecondaryLoop_origin useSecondary pool header isRollback indexes :
  ∀ result,
  let r := (insertSecondaryLoop useSecondary pool header isRollback indexes result).1 in
  r = result
  ∨ (∃ idx, idx ∈ indexes ∧ attempted useSecondary idx = true
            ∧ insert_result idx (mp_slots pool) header isRollback = r).
Proof.
  induction indexes as [|idx rest IH]; intros result; [by left|].
  destruct (attempted useSecondary idx) eqn:Ea.
  - destruct (decide (insert_result idx (mp_slots pool) header isRollback
                      = TRI_ERROR_OUT_OF_MEMORY)) as [Hoom|Hoom].
    + rewrite insertSecondaryLoop_stop by done. right. exists idx.
      split; [apply elem_of_cons; by left | done].
    + rewrite insertSecondaryLoop_go by done. cbn [fst].
      destruct (IH (prefer result (insert_result idx (mp_slots pool) header isRollback)))
        as [Hr|(i & Hi & Hai & Hri)].
      * rewrite Hr. destruct (prefer_cases result
                                (insert_result idx (mp_slots pool) header isRollback))
          as [->|[-> _]]; [by left|].
        right. exists idx. split; [apply elem_of_cons; by left | done].
      * right. exists i. split; [apply elem_of_cons; by right | done].
  - rewrite insertSecondaryLoop_skip by done. cbn [fst].
    destruct (IH result) as [Hr|(i & Hi & Hai & Hri)]; [by left|].
    right. exists i. split; [apply elem_of_cons; by right | done].
Qed.

Lemma loop_runs (useSec : bool) (pi : Z) :
  useSec = true ∨ pi ≠ 0 → negb useSec && (pi =? 0) = false.
Proof.
  intros [->|Hp]; [done|]. apply Z.eqb_neq in Hp. rewrite Hp. by destruct useSec.
Qed.

Lemma insertPrimaryIndex_absent c header k :
  Mptr.key (Col.load c header) = VString k →
  _primaryIndex c !! k = None →
  insertPrimaryIndex c header
  = (TRI_ERROR_NO_ERROR, Col.set_primaryIndex c (<[k := header]> (_primaryIndex c))).
Proof.
  intros Hk Hn. unfold insertPrimaryIndex, PrimaryIndex.insertKey.
  unfold Col.load in Hk. by rewrite Hk, Hn.
Qed.

Lemma deletePrimaryIndex_present c header k found :
  Mptr.key (Col.load c header) = VString k →
  _primaryIndex c !! k = Some found →
  deletePrimaryIndex c header
  = (TRI_ERROR_NO_ERROR, Col.set_primaryIndex c (delete k (_primaryIndex c))).
Proof.
  intros Hk Hf. unfold deletePrimaryIndex, PrimaryIndex.removeKey.
  by rewrite Hk, Hf.
Qed.

Lemma insertSecondaryIndexes_run c header isRollback :
  _useSecondaryIndexes c = true ∨ _persistentIndexes c ≠ 0 →
  insertSecondaryIndexes c header isRollback
  = ((insertSecondaryLoop (_useSecondaryIndexes c) (_masterPointers c) header
        isRollback (Col.secondaries c) TRI_ERROR_NO_ERROR).1,
     Col.with_secondaries c
       (insertSecondaryLoop (_useSecondaryIndexes c) (_masterPointers c) header
          isRollback (Col.secondaries c) TRI_ERROR_NO_ERROR).2).
Proof.
  intros Hrun. unfold insertSecondaryIndexes. rewrite (loop_runs _ _ Hrun).
  by destruct (insertSecondaryLoop _ _ _ _ _ _).
Qed.

Lemma deleteSecondaryIndexes_run c header isRollback :
  _useSecondaryIndexes c = true ∨ _persistentIndexes c ≠ 0 →
  deleteSecondaryIndexes c header isRollback
  = ((deleteSecondaryLoop (_useSecondaryIndexes c) (_masterPointers c) header
        isRollback (Col.secondaries c) TRI_ERROR_NO_ERROR).1,
     Col.with_secondaries c
       (deleteSecondaryLoop (_useSecondaryIndexes c) (_masterPointers c) header
          isRollback (Col.secondaries c) TRI_ERROR_NO_ERROR).2).
Proof.
  intros Hrun. unfold deleteSecondaryIndexes. rewrite (loop_runs _ _ Hrun).
  by destruct (deleteSecondaryLoop _ _ _ _ _ _).
Qed.

Lemma unwound c secs keys :
  Col.set_primaryIndex
    (Col.with_secondaries
       (Col.with_secondaries (Col.set_primaryIndex c keys) secs)
       (Col.secondaries c))
    (_primaryIndex c) = c.
Proof.
  destruct c as [? ? ? ? ? ? ? ? ? ? ? idxs ? ? ? ?].
  unfold Col.with_secondaries, Col.secondaries. cbn. by destruct idxs.
Qed.

Lemma insertPrimaryIndex_present c header k found :
  Mptr.key (Col.load c header) = VString k →
  _primaryIndex c !! k = Some found →
  insertPrimaryIndex c header = (TRI_ERROR_ARANGO_UNIQUE_CONSTRAINT_VIOLATED, c).
Proof.
  intros Hk Hf. unfold insertPrimaryIndex, PrimaryIndex.insertKey.
  unfold Col.load in Hk. rewrite Hk, Hf. simpl. by rewrite set_primaryIndex_same.
Qed.

(** C2.  An insert whose key is in the primary index already returns the
    unique-constraint error and changes nothing: the collection (document
    counter, primary index, secondary indexes), the transaction and the
    result parameters are those before the call. *)
Theorem insertDocument_duplicate_key w header operation mptr waitForSync k found :
  Mptr.key (Col.load (w_collection w) header) = VString k →
  _primaryIndex (w_collection w) !! k = Some found →
  insertDocument w header operation mptr waitForSync
  = (TRI_ERROR_ARANGO_UNIQUE_CONSTRAINT_VIOLATED, w, operation, mptr, waitForSync).
Proof.
  intros Hk Hf. unfold insertDocument.
  rewrite (insertPrimaryIndex_present _ _ _ _ Hk Hf). simpl.
  by rewrite Wd_set_collection_same.
Qed.

(** C1.  When the insert of some secondary index fails, [insertDocument]
    returns the error of a secondary index that was attempted and failed;
    the key is out of the primary index again, the document counter was
    not touched, and the handles, the transaction and the result
    parameters are what they were before the call.  The result of
    [deleteSecondaryIndexes] is not looked at: when the rollback removes
    of the index implementations go through, for indexes that did not
    refer to the handle before, the references the secondary indexes took
    are gone again and the whole collection is the one before the call. *)
Theorem insertDocument_secondary_failure w header operation mptr waitForSync k :
  let c := w_collection w in
  Mptr.key (Col.load c header) = VString k →
  _primaryIndex c !! k = None →
  _useSecondaryIndexes c = true ∨ _persistentIndexes c ≠ 0 →
  (∃ idx, idx ∈ Col.secondaries c ∧ attempted (_useSecondaryIndexes c) idx = true
          ∧ insert_result idx (mp_slots (_masterPointers c)) header false
            ≠ TRI_ERROR_NO_ERROR) →
  ∃ res w',
    res ≠ TRI_ERROR_NO_ERROR
    ∧ (∃ idx, idx ∈ Col.secondaries c ∧ attempted (_useSecondaryIndexes c) idx = true
              ∧ insert_result idx (mp_slots (_masterPointers c)) header false = res)
    ∧ insertDocument w header operation mptr waitForSync
      = (res, w', operation, mptr, waitForSync)
    ∧ _primaryIndex (w_collection w') = _primaryIndex c
    ∧ _numberDocuments (w_collection w') = _numberDocuments c
    ∧ _masterPointers (w_collection w') = _masterPointers c
    ∧ w_trx w' = w_trx w
    ∧ ((∀ idx, idx ∈ Col.secondaries c → header ∉ idx_refs idx) →
       (∀ idx, idx ∈ Col.secondaries c →
          attempted (_useSecondaryIndexes c) idx = true →
          remove_result (referring header idx) (mp_slots (_masterPointers c)) header
            true
          = TRI_ERROR_NO_ERROR) →
       w' = w).
Proof.
  intros c Hk Hnone Hrun Hfail.
  set (us := _useSecondaryIndexes c) in *.
  set (pool := _masterPointers c) in *.
  pose proof (insertSecondaryLoop_fails us pool header false (Col.secondaries c)
                TRI_ERROR_NO_ERROR (or_intror Hfail)) as Herr.
  pose proof (insertSecondaryLoop_origin us pool header false (Col.secondaries c)
                TRI_ERROR_NO_ERROR) as Horigin.
  pose proof (insertSecondaryLoop_touched us pool header false (Col.secondaries c)
                TRI_ERROR_NO_ERROR) as Htouched.
  destruct (insertSecondaryLoop us pool header false (Col.secondaries c)
              TRI_ERROR_NO_ERROR) as [res secs'] eqn:Eout.
  cbn [fst snd] in Herr, Horigin, Htouched.
  assert (Hidx : _indexes c ≠ []).
  { destruct Hfail as (i & Hi & _). unfold Col.secondaries in Hi.
    destruct (_indexes c); [by apply elem_of_nil in Hi | done]. }
  set (c1 := Col.set_primaryIndex c (<[k:=header]> (_primaryIndex c))).
  set (c2 := Col.with_secondaries c1 secs').
  set (secs'' := (deleteSecondaryLoop us pool header true secs' TRI_ERROR_NO_ERROR).2).
  set (c3 := Col.with_secondaries c2 secs'').
  exists res, (Wd.set_collection w (Col.set_primaryIndex c3 (_primaryIndex c))).
  split; [done|]. split.
  { destruct Horigin as [Hr|Hex]; [done | exact Hex]. }
  assert (Hc3 : Col.load c3 header = Col.load c header
                ∧ _primaryIndex c3 = <[k:=header]> (_primaryIndex c)
                ∧ _numberDocuments c3 = _numberDocuments c
                ∧ _masterPointers c3 = _masterPointers c).
  { subst c3 c2 c1. unfold Col.with_secondaries, Col.load.
    destruct c as [? ? ? ? ? ? ? ? ? ? ? idxs ? ? ? ?]. by destruct idxs. }
  destruct Hc3 as (Hload & Hkeys3 & Hn3 & Hp3).
  split.
  { unfold insertDocument. fold c.
    rewrite (insertPrimaryIndex_absent c header k Hk Hnone), is_error_no_error.
    fold c1.
    rewrite (insertSecondaryIndexes_run c1) by exact Hrun.
    change (_useSecondaryIndexes c1) with us.
    change (_masterPointers c1) with pool.
    change (Col.secondaries c1) with (Col.secondaries c).
    rewrite Eout. cbn [fst snd]. rewrite (proj2 (is_error_true res) Herr).
    fold c2.
    assert (Hidx1 : _indexes c1 ≠ []) by exact Hidx.
    assert (Hc2 : _useSecondaryIndexes c2 = us
                  ∧ _persistentIndexes c2 = _persistentIndexes c
                  ∧ _masterPointers c2 = pool).
    { subst c2 c1 us pool. unfold Col.with_secondaries.
      destruct c as [? ? ? ? ? ? ? ? ? ? ? idxs ? ? ? ?]. by destruct idxs. }
    destruct Hc2 as (Hus & Hpi & Hmp).
    rewrite (deleteSecondaryIndexes_run c2) by (rewrite Hus, Hpi; exact Hrun).
    rewrite Hus, Hmp.
    replace (Col.secondaries c2) with secs'
      by (symmetry; apply secondaries_with_secondaries, Hidx1).
    cbn [snd]. fold secs''. fold c3.
    rewrite (deletePrimaryIndex_present c3 header k header);
      [| by rewrite Hload | rewrite Hkeys3; apply lookup_insert_eq].
    by rewrite Hkeys3, delete_insert_id. }
  split; [done|]. split; [exact Hn3|]. split; [exact Hp3|]. split; [done|].
  intros Hfresh Hrb.
  pose proof (deleteSecondaryLoop_undo us pool header (Col.secondaries c) secs'
                TRI_ERROR_NO_ERROR Htouched Hfresh Hrb) as Hundo.
  subst c3 secs''. rewrite Hundo. subst c2 c1. rewrite unwound. by destruct w.
Qed.
End InsertFacts.

(** ** The result of the insert loop *)

Section InsertLoopResult.
Context `{IndexImplementations} `{Environment}.

(** C9.  [insertSecondaryIndexes] goes on after a failure that is not
    out-of-memory: when no attempted index answers out-of-memory, every
    secondary index that is not skipped is attempted, and the result is a
    unique-constraint violation when some index answered one, else the
    first error, else success.  The first attempted index that answers
    out-of-memory ends the loop: the result is out-of-memory and the
    indexes after it are not touched. *)
Theorem insertSecondaryIndexes_goes_on c header isRollback :
  let useSecondary := _useSecondaryIndexes c in
  let pool := _masterPointers c in
  let answers :=
    map (λ idx, insert_result idx (mp_slots pool) header isRollback)
      (List.filter (attempted useSecondary) (Col.secondaries c)) in
  useSecondary = true ∨ _persistentIndexes c ≠ 0 →
  ((∀ idx, idx ∈ Col.secondaries c → attempted useSecondary idx = true →
      insert_result idx (mp_slots pool) header isRollback ≠ TRI_ERROR_OUT_OF_MEMORY) →
   insertSecondaryIndexes c header isRollback
   = (preferred answers,
      Col.with_secondaries c
        (map (attempt useSecondary pool header isRollback) (Col.secondaries c))))
  ∧ (∀ before idx after,
       Col.secondaries c = before ++ idx :: after →
       (∀ i, i ∈ before → attempted useSecondary i = true →
          insert_result i (mp_slots pool) header isRollback ≠ TRI_ERROR_OUT_OF_MEMORY) →
       attempted useSecondary idx = true →
       insert_result idx (mp_slots pool) header isRollback = TRI_ERROR_OUT_OF_MEMORY →
       insertSecondaryIndexes c header isRollback
       = (TRI_ERROR_OUT_OF_MEMORY,
          Col.with_secondaries c
            (map (attempt useSecondary pool header isRollback) before ++ idx :: after))).
Proof.
  intros useSecondary pool answers Hrun. split.
  - intros Hoom. rewrite insertSecondaryIndexes_run by exact Hrun.
    fold useSecondary pool.
    rewrite insertSecondaryLoop_all.
    + cbn [fst snd]. by rewrite fold_prefer_preferred.
    + intros idx [Hi Ha]%list_elem_of_In%filter_In. apply Hoom; [|done].
      by apply list_elem_of_In.
  - intros before idx after Hsplit Hb Ha Hoom.
    rewrite insertSecondaryIndexes_run by exact Hrun.
    fold useSecondary pool. rewrite Hsplit.
    rewrite insertSecondaryLoop_oom; [done | | done | done].
    intros i [Hi Hai]%list_elem_of_In%filter_In. apply Hb; [|done].
    by apply list_elem_of_In.
Qed.
End InsertLoopResult.

(** ** The revision check of update and replace *)

Section Revision.
Context `{IndexImplementations} `{Environment}.

Lemma checkRevision_absent found : checkRevision VNone found = TRI_ERROR_NO_ERROR.
Proof. done. Qed.

Lemma checkRevision_mismatch expected found :
  expected ≠ VNone → expected ≠ found →
  checkRevision expected found = TRI_ERROR_ARANGO_CONFLICT.
Proof.
  intros Hn Hd. unfold checkRevision.
  rewrite (isNone_false _ Hn), slice_eqb_false by congruence. done.
Qed.

Lemma lookupDocument_found c k header :
  _primaryIndex c !! k = Some header →
  lookupDocument c (VString k) = (TRI_ERROR_NO_ERROR, Some header).
Proof. intros Hf. unfold lookupDocument. cbn. by rewrite Hf. Qed.

(** The revision an update or replace works with, and the clock after it
    was determined. *)
Lemma revision_step (restore : bool) (oldRev : VPackSlice) w :
  ∃ revisionId w',
    (if restore then
       let '(rid, isOld) := TRI_StringToRid (copyString oldRev) in
       if isOld then Wd.TRI_HybridLogicalClock w else (rid, w)
     else Wd.TRI_HybridLogicalClock w) = (revisionId, w')
    ∧ w_collection w' = w_collection w ∧ w_trx w' = w_trx w.
Proof.
  destruct restore; [destruct (TRI_StringToRid _) as [rid [|]]|];
    eexists _, _; split; try reflexivity; done.
Qed.

(** C3.  With revision checking on ([ignoreRevs] not set), an update or a
    replace whose [_rev] is there and differs from the revision of the
    stored document returns [TRI_ERROR_ARANGO_CONFLICT], and the collection
    (handles and their documents, indexes, document counter) and the
    transaction are those before the call.  The hypotheses are what it
    takes to get as far as the check: an object with a key that is in the
    primary index, a revision string in restore mode, and for a replace in
    an edge collection the two edge attributes. *)
Theorem revision_mismatch_is_conflict w newSlice options out k oldHeader :
  let c := w_collection w in
  let expected := VPack.get newSlice VPack.RevString in
  VPack.isObject newSlice = true →
  ignoreRevs options = false →
  (isRestore options = true →
   VPack.isString (TRI_ExtractRevisionIdAsSlice newSlice) = true) →
  VPack.get newSlice VPack.KeyString = VString k →
  _primaryIndex c !! k = Some oldHeader →
  expected ≠ VNone →
  expected ≠ Mptr.revisionIdAsSlice (Col.load c oldHeader) →
  (∃ out' w',
     update w newSlice options out = (TRI_ERROR_ARANGO_CONFLICT, out', w')
     ∧ w_collection w' = c ∧ w_trx w' = w_trx w)
  ∧ ((isEdgeCollection c = true →
      VPack.isString (VPack.get newSlice VPack.FromString) = true
      ∧ VPack.isString (VPack.get newSlice VPack.ToString) = true) →
     ∃ out' w',
       replace w newSlice options out = (TRI_ERROR_ARANGO_CONFLICT, out', w')
       ∧ w_collection w' = c ∧ w_trx w' = w_trx w).
Proof.
  intros c expected Hobj Hcheck Hrestore Hkey Hfound Hsome Hdiff. split.
  - unfold update. rewrite Hobj. cbn [negb].
    assert (Hr : isRestore options
                 && negb (VPack.isString (TRI_ExtractRevisionIdAsSlice newSlice)) = false).
    { destruct (isRestore options); [by rewrite Hrestore | done]. }
    rewrite Hr.
    destruct (revision_step (isRestore options)
                (TRI_ExtractRevisionIdAsSlice newSlice) w)
      as (revisionId & w' & -> & Hc & Ht).
    rewrite Hkey. cbn [VPack.isNone]. rewrite Hc. fold c.
    rewrite (lookupDocument_found c k oldHeader Hfound).
    rewrite Hcheck. cbn [negb]. fold expected.
    rewrite (checkRevision_mismatch _ _ Hsome Hdiff). cbn.
    by eexists _, _.
  - intros Hedge. unfold replace. rewrite Hobj. cbn [negb]. fold c.
    assert (He : (isEdgeCollection c
                  && negb (VPack.isString
                             (if isEdgeCollection c
                              then VPack.get newSlice VPack.FromString else VNone)) = false)
                 ∧ (isEdgeCollection c
                    && negb (VPack.isString
                               (if isEdgeCollection c
                                then VPack.get newSlice VPack.ToString else VNone)) = false)).
    { destruct (isEdgeCollection c); [|done].
      destruct Hedge as [-> ->]; done. }
    destruct He as [-> ->].
    assert (Hr : isRestore options
                 && negb (VPack.isString (TRI_ExtractRevisionIdAsSlice newSlice)) = false).
    { destruct (isRestore options); [by rewrite Hrestore | done]. }
    rewrite Hr.
    destruct (revision_step (isRestore options)
                (TRI_ExtractRevisionIdAsSlice newSlice) w)
      as (revisionId & w' & -> & Hc & Ht).
    rewrite Hkey. cbn [VPack.isNone]. rewrite Hc. fold c.
    rewrite (lookupDocument_found c k oldHeader Hfound).
    rewrite Hcheck. cbn [negb]. fold expected.
    rewrite (checkRevision_mismatch _ _ Hsome Hdiff). cbn.
    by eexists _, _.
Qed.
End Revision.

(** ** An update with nothing to change *)

Section Noop.
Context `{IndexImplementations} `{Environment}.

Lemma key_only_has_no_rev newSlice k :
  VPack.isObject newSlice = true →
  VPack.length newSlice <= 1 →
  VPack.get newSlice VPack.KeyString = VString k →
  VPack.get newSlice VPack.RevString = VNone.
Proof.
  destruct newSlice as [ | | | | | | |members]; try done. intros _ Hlen Hkey.
  destruct members as [|[name v] [|? ?]]; cbn in *; [done| |lia].
  destruct (String.eqb_spec name VPack.KeyString) as [->|Hne]; [done|].
  unfold VPack.KeyString in *. by destruct (name =? "_key")%string.
Qed.

(** C4, as amended.  An update whose delta object has at most one member,
    so nothing but the [_key], is a no-op outside restore mode: it returns
    success with the current version of the document in the result handle,
    and the collection (no new revision) and the transaction (no new
    marker) are those before the call. *)
Theorem update_key_only_is_noop w newSlice options out k oldHeader :
  let c := w_collection w in
  VPack.isObject newSlice = true →
  VPack.length newSlice <= 1 →
  isRestore options = false →
  VPack.get newSlice VPack.KeyString = VString k →
  _primaryIndex c !! k = Some oldHeader →
  ∃ out' w',
    update w newSlice options out = (TRI_ERROR_NO_ERROR, out', w')
    ∧ out_mptr out' = Col.load c oldHeader
    ∧ w_collection w' = c
    ∧ w_trx w' = w_trx w.
Proof.
  intros c Hobj Hlen Hrestore Hkey Hfound.
  unfold update. rewrite Hobj, Hrestore. cbn [negb andb].
  rewrite Hkey. cbn [VPack.isNone Wd.TRI_HybridLogicalClock w_collection]. fold c.
  rewrite (lookupDocument_found c k oldHeader Hfound).
  rewrite (key_only_has_no_rev newSlice k Hobj Hlen Hkey), checkRevision_absent.
  assert (Hl : (VPack.length newSlice <=? 1) = true) by (by apply Z.leb_le).
  rewrite Hl. destruct (negb (ignoreRevs options)); cbn; by eexists _, _.
Qed.
End Noop.

(** ** Remove by key *)

Section Remove.
Context `{IndexImplementations} `{Environment}.

Lemma deleteSecondaryLoop_origin useSecondary pool header isRollback indexes :
  ∀ result,
  let r := (deleteSecondaryLoop useSecondary pool header isRollback indexes result).1 in
  r = result ∨ ∃ idx, remove_result idx (mp_slots pool) header isRollback = r.
Proof.
  induction indexes as [|idx rest IH]; intros result; [by left|].
  cbn [deleteSecondaryLoop].
  destruct (negb useSecondary && negb (IndexOps.isPersistent idx)).
  - specialize (IH result). destruct (deleteSecondaryLoop _ _ _ _ rest result).
    exact IH.
  - unfold Index_remove.
    set (a := remove_result idx (mp_slots pool) header isRollback).
    destruct (is_error a) eqn:Ea; cbn [fst snd].
    + rewrite Ea. specialize (IH a).
      destruct (deleteSecondaryLoop _ _ _ _ rest a). cbn [fst] in *.
      destruct IH as [->|Hex]; [right; by exists idx | by right].
    + rewrite Ea. specialize (IH result).
      destruct (deleteSecondaryLoop _ _ _ _ rest result). exact IH.
Qed.

Lemma deleteSecondaryIndexes_origin c header isRollback :
  (deleteSecondaryIndexes c header isRollback).1 = TRI_ERROR_NO_ERROR
  ∨ ∃ idx pool, remove_result idx pool header isRollback
                = (deleteSecondaryIndexes c header isRollback).1.
Proof.
  unfold deleteSecondaryIndexes. destruct (_ && _); [by left|].
  pose proof (deleteSecondaryLoop_origin (_useSecondaryIndexes c) (_masterPointers c)
                header isRollback (Col.secondaries c) TRI_ERROR_NO_ERROR) as Ho.
  destruct (deleteSecondaryLoop _ _ _ _ _ _) as [r secs]. cbn [fst] in *.
  destruct Ho as [->|[idx Hi]]; [by left | right; by eexists _, _].
Qed.

(** C10.  [checkRevision] succeeds whenever the expected revision is the
    none slice.  A remove by a bare key string never looks at
    [ignoreRevs], with every value of the flag it does the same, and
    when neither an index implementation nor the write-ahead log answers
    [TRI_ERROR_ARANGO_CONFLICT] the remove does not return it either. *)
Theorem remove_by_key_skips_revision_check w k options out :
  (∀ found, checkRevision VNone found = TRI_ERROR_NO_ERROR)
  ∧ (∀ b, remove w (VString k) (withIgnoreRevs options b) out
          = remove w (VString k) options out)
  ∧ ((∀ idx pool header isRollback,
        remove_result idx pool header isRollback ≠ TRI_ERROR_ARANGO_CONFLICT) →
     (∀ trx operation,
        addOperation_result trx operation ≠ TRI_ERROR_ARANGO_CONFLICT) →
     (remove w (VString k) options out).1.1 ≠ TRI_ERROR_ARANGO_CONFLICT).
Proof.
  split; [done|]. split.
  - intros b. unfold remove. cbn [VPack.isString VPack.isObject withIgnoreRevs
      isRestore recoveryMarker waitForSync ignoreRevs].
    by rewrite !andb_false_r.
  - intros Hidx Hwal. unfold remove. cbn [VPack.isString VPack.isObject].
    rewrite andb_false_r.
    destruct (if isRestore options then _ else _) as [revisionId w1].
    unfold lookupDocument. cbn [VPack.isString negb PrimaryIndex.lookupKey].
    destruct (_primaryIndex (w_collection w1) !! k) as [oldHeader|]; [|done].
    cbn [is_error]. rewrite is_error_no_error.
    pose proof (deleteSecondaryIndexes_origin (w_collection w1) oldHeader false) as Ho.
    destruct (deleteSecondaryIndexes (w_collection w1) oldHeader false) as [r1 c1].
    cbn [fst] in Ho.
    destruct (is_error r1) eqn:E1.
    { destruct (insertSecondaryIndexes c1 oldHeader true). cbn [fst].
      destruct Ho as [->|(idx & pool & Hr)]; [done|]. rewrite <- Hr. apply Hidx. }
    unfold deletePrimaryIndex.
    destruct (PrimaryIndex.removeKey _ _) as [[found|] keys].
    + rewrite is_error_no_error. unfold TRI_AddOperationTransaction.
      set (a := addOperation_result _ _).
      assert (Ha : a ≠ TRI_ERROR_ARANGO_CONFLICT) by apply Hwal.
      destruct (is_error a) eqn:Ea.
      * rewrite Ea. by destruct (revert _ _).
      * by rewrite Ea.
    + cbn. by destruct (insertSecondaryIndexes _ _ _).
Qed.
End Remove.

(** ** Timed locks *)

Section LockFacts.
Import Lock.
Variables (mode : LockMode) (timeout sleepPeriod : Z).

Lemma timedLoop_timeout_sound polls : ∀ waited iterations wasBlocked det o,
  timedLoop mode timeout sleepPeriod polls waited iterations wasBlocked det = Some o →
  res o = TRI_ERROR_LOCK_TIMEOUT →
  locked o = None ∧ timeout < Lock.waited o.
Proof.
  induction polls as [|p rest IH]; intros waited iterations wasBlocked det o; [done|].
  cbn [timedLoop]. destruct (tryLock mode (seen p)).
  { by intros [= <-]. }
  destruct wasBlocked; cbn [negb].
  - destruct (5 <=? iterations + 1).
    + destruct (onDetect p); cbn [detectDeadlock].
      * rewrite bool_decide_eq_false_2 by done.
        destruct (timeout <? wrap64 (waited + sleepPeriod)) eqn:Et;
          [intros [= <-] _; cbn; split; [done | by apply Z.ltb_lt] | apply IH].
      * rewrite bool_decide_eq_true_2 by done. by intros [= <-].
      * by intros [= <-].
    + destruct (timeout <? wrap64 (waited + sleepPeriod)) eqn:Et;
        [intros [= <-] _; cbn; split; [done | by apply Z.ltb_lt] | apply IH].
  - destruct (onSetBlocked p); cbn [setBlocked].
    + rewrite bool_decide_eq_false_2 by done.
      destruct (timeout <? wrap64 (waited + sleepPeriod)) eqn:Et;
        [intros [= <-] _; cbn; split; [done | by apply Z.ltb_lt] | apply IH].
    + rewrite bool_decide_eq_true_2 by done. by intros [= <-].
    + by intros [= <-].
Qed.

Hypothesis sleep_positive : 0 < sleepPeriod.
Hypothesis no_wrap : timeout + sleepPeriod < 2 ^ 64.

Lemma wrap64_small x : 0 <= x < 2 ^ 64 → wrap64 x = x.
Proof. intros Hx. unfold wrap64. by apply Z.mod_small. Qed.

Lemma timedLoop_times_out qs : ∀ rest waited iterations wasBlocked det,
  Forall (λ p, busy mode p ∧ quiet p) qs →
  0 <= waited <= timeout →
  waited + (Z.of_nat (length qs) - 1) * sleepPeriod <= timeout →
  timeout < waited + Z.of_nat (length qs) * sleepPeriod →
  ∃ o,
    timedLoop mode timeout sleepPeriod (qs ++ rest) waited iterations wasBlocked det
    = Some o
    ∧ res o = TRI_ERROR_LOCK_TIMEOUT ∧ locked o = None
    ∧ Lock.waited o = waited + Z.of_nat (length qs) * sleepPeriod
    ∧ det_blocked (detector o) = None.
Proof.
  induction qs as [|p qs IH]; intros rest waited iterations wasBlocked det Hq Hw Hle Hlt.
  { cbn in *. lia. }
  apply Forall_cons in Hq as [[Hbusy [Hset Hdet]] Hq].
  rewrite length_cons, Nat2Z.inj_succ in *.
  assert (Hsleep : ∀ its d,
    ∃ o,
      (if timeout <? wrap64 (waited + sleepPeriod)
       then Some {| res := TRI_ERROR_LOCK_TIMEOUT; locked := None;
                    detector := unsetBlocked d;
                    Lock.waited := wrap64 (waited + sleepPeriod) |}
       else timedLoop mode timeout sleepPeriod (qs ++ rest)
              (wrap64 (waited + sleepPeriod)) its true d) = Some o
      ∧ res o = TRI_ERROR_LOCK_TIMEOUT ∧ locked o = None
      ∧ Lock.waited o = waited + Z.succ (Z.of_nat (length qs)) * sleepPeriod
      ∧ det_blocked (detector o) = None).
  { intros its d. rewrite wrap64_small by lia.
    destruct (timeout <? waited + sleepPeriod) eqn:Et.
    - apply Z.ltb_lt in Et. destruct qs as [|q qs'].
      + eexists. split; [done|]. cbn. repeat split; lia.
      + rewrite length_cons, Nat2Z.inj_succ in Hle. lia.
    - apply Z.ltb_ge in Et. destruct (IH rest (waited + sleepPeriod) its true d)
        as (o & Ho & Hres & Hlock & Hwaited & Hblocked); [done | lia | lia | lia |].
      exists o. repeat split; [done | done | done | lia | done]. }
  cbn [app timedLoop]. unfold busy in Hbusy. rewrite Hbusy.
  destruct wasBlocked; cbn [negb].
  - destruct (5 <=? iterations + 1); [|apply Hsleep].
    rewrite Hdet. cbn [detectDeadlock]. rewrite bool_decide_eq_false_2 by done.
    apply Hsleep.
  - rewrite Hset. cbn [setBlocked]. rewrite bool_decide_eq_false_2 by done.
    apply Hsleep.
Qed.

Lemma timedLoop_bounded polls : ∀ waited iterations wasBlocked det o,
  0 <= waited <= timeout →
  timedLoop mode timeout sleepPeriod polls waited iterations wasBlocked det = Some o →
  0 <= Lock.waited o <= timeout + sleepPeriod.
Proof.
  induction polls as [|p rest IH]; intros waited iterations wasBlocked det o Hw; [done|].
  assert (Hsleep : ∀ its d,
    (if timeout <? wrap64 (waited + sleepPeriod)
     then Some {| res := TRI_ERROR_LOCK_TIMEOUT; locked := None;
                  detector := unsetBlocked d;
                  Lock.waited := wrap64 (waited + sleepPeriod) |}
     else timedLoop mode timeout sleepPeriod rest
            (wrap64 (waited + sleepPeriod)) its true d) = Some o →
    0 <= Lock.waited o <= timeout + sleepPeriod).
  { intros its d. rewrite wrap64_small by lia.
    destruct (timeout <? waited + sleepPeriod) eqn:Et.
    - intros [= <-]. cbn. lia.
    - apply Z.ltb_ge in Et. apply IH. lia. }
  cbn [timedLoop]. destruct (tryLock mode (seen p)).
  { intros [= <-]. cbn. lia. }
  destruct wasBlocked; cbn [negb].
  - destruct (5 <=? iterations + 1); [|apply Hsleep].
    destruct (onDetect p); cbn [detectDeadlock].
    + rewrite bool_decide_eq_false_2 by done. apply Hsleep.
    + rewrite bool_decide_eq_true_2 by done. intros [= <-]. cbn. lia.
    + intros [= <-]. cbn. lia.
  - destruct (onSetBlocked p); cbn [setBlocked].
    + rewrite bool_decide_eq_false_2 by done. apply Hsleep.
    + rewrite bool_decide_eq_true_2 by done. intros [= <-]. cbn. lia.
    + intros [= <-]. cbn. lia.
Qed.
End LockFacts.

Section LockExits.
Import Lock.

Lemma beginTimed_locks mode nolockHeaders c timeout sleepPeriod polls det :
  nolocked nolockHeaders c = false →
  beginTimed mode nolockHeaders c timeout sleepPeriod polls det
  = timedLoop mode (effectiveTimeout timeout) sleepPeriod polls 0 0 false det.
Proof. intros Hn. unfold beginTimed. fold (nolocked nolockHeaders c). by rewrite Hn. Qed.

Lemma beginTimed_nolock mode nolockHeaders c timeout sleepPeriod polls det :
  nolocked nolockHeaders c = true →
  beginTimed mode nolockHeaders c timeout sleepPeriod polls det
  = Some {| res := TRI_ERROR_NO_ERROR; locked := None; detector := det; waited := 0 |}.
Proof. intros Hn. unfold beginTimed. fold (nolocked nolockHeaders c). by rewrite Hn. Qed.

Lemma effectiveTimeout_nonneg timeout : 0 <= timeout → 0 <= effectiveTimeout timeout.
Proof.
  intros Ht. unfold effectiveTimeout, defaultTimeout. destruct (timeout =? 0); lia.
Qed.

(** C5.  In a timed acquisition ([beginReadTimed] is [beginTimed Read],
    [beginWriteTimed] is [beginTimed Write]) a timeout of 0 stands for 15
    minutes, in microseconds.  The call returns [TRI_ERROR_LOCK_TIMEOUT]
    only without the lock and with the sleep intervals summing up to more
    than the timeout, by at most one interval.  And when the lock stays
    taken and the detector finds nothing, the call returns
    [TRI_ERROR_LOCK_TIMEOUT] after the first interval that takes the sum
    over the timeout.  The intervals are positive and their sum fits into
    64 bits. *)
Theorem timed_lock_times_out mode nolockHeaders c timeout sleepPeriod polls det :
  0 < sleepPeriod →
  0 <= timeout →
  effectiveTimeout timeout + sleepPeriod < 2 ^ 64 →
  defaultTimeout = 15 * 60 * 1000000
  ∧ beginTimed mode nolockHeaders c 0 sleepPeriod polls det
    = beginTimed mode nolockHeaders c defaultTimeout sleepPeriod polls det
  ∧ (∀ o,
       beginTimed mode nolockHeaders c timeout sleepPeriod polls det = Some o →
       res o = TRI_ERROR_LOCK_TIMEOUT →
       locked o = None
       ∧ effectiveTimeout timeout < Lock.waited o
                                  <= effectiveTimeout timeout + sleepPeriod)
  ∧ (nolocked nolockHeaders c = false →
     ∀ qs rest,
       polls = qs ++ rest →
       Forall (λ p, busy mode p ∧ quiet p) qs →
       Z.of_nat (length qs) = effectiveTimeout timeout / sleepPeriod + 1 →
       ∃ o,
         beginTimed mode nolockHeaders c timeout sleepPeriod polls det = Some o
         ∧ res o = TRI_ERROR_LOCK_TIMEOUT ∧ locked o = None
         ∧ Lock.waited o = Z.of_nat (length qs) * sleepPeriod).
Proof.
  intros Hs Ht Hfit. pose proof (effectiveTimeout_nonneg timeout Ht) as Hnn.
  split; [done|]. split; [done|]. split.
  - intros o Ho Hres. destruct (nolocked nolockHeaders c) eqn:Hn.
    + rewrite beginTimed_nolock in Ho by done. injection Ho as <-. done.
    + rewrite beginTimed_locks in Ho by done.
      destruct (timedLoop_timeout_sound _ _ _ _ _ _ _ _ _ Ho Hres) as [Hl Hw].
      pose proof (timedLoop_bounded mode (effectiveTimeout timeout) sleepPeriod
                    Hs Hfit polls 0 0 false det o ltac:(lia) Ho).
      split; [done | lia].
  - intros Hn qs rest -> Hq Hlen. rewrite beginTimed_locks by done.
    pose proof (Z.mul_div_le (effectiveTimeout timeout) sleepPeriod Hs) as Hle.
    pose proof (Z.mul_succ_div_gt (effectiveTimeout timeout) sleepPeriod Hs) as Hgt.
    destruct (timedLoop_times_out mode (effectiveTimeout timeout) sleepPeriod
                Hs Hfit qs rest 0 0 false det Hq)
      as (o & Ho & Hres & Hlock & Hw & _); [lia | nia | nia |].
    exists o. repeat split; [done | done | done | lia].
Qed.
End LockExits.

Section TimedLockFacts.
Import Lock.
Variables (mode : LockMode) (timeout sleepPeriod : Z).




Hypothesis sleep_positive : 0 < sleepPeriod.
Hypothesis no_wrap : timeout + sleepPeriod < 2 ^ 64.

End TimedLockFacts.

Section TimedLockExits.
Import Lock.



End TimedLockExits.

(** ** Index creation *)

Lemma string_compare_trans_le : ∀ a b c : string,
  String.compare a b ≠ Gt → String.compare b c ≠ Gt → String.compare a c ≠ Gt.
Proof.
  induction a as [|x a IH]; intros [|y b] [|z c]; cbn; try done.
  unfold Ascii.compare.
  destruct (N.compare_spec (N_of_ascii x) (N_of_ascii y)) as [Exy|Lxy|Gxy];
    destruct (N.compare_spec (N_of_ascii y) (N_of_ascii z)) as [Eyz|Lyz|Gyz];
    try done; intros Hab Hbc.
  - rewrite Exy, Eyz, N.compare_refl. by apply (IH b c).
  - rewrite Exy. by rewrite (proj2 (N.compare_lt_iff _ _) Lyz).
  - rewrite <- Eyz. by rewrite (proj2 (N.compare_lt_iff _ _) Lxy).
  - assert (Hlt : (N_of_ascii x < N_of_ascii z)%N) by lia.
    by rewrite (proj2 (N.compare_lt_iff _ _) Hlt).
Qed.

Lemma string_leb_iff a b : String.leb a b = true ↔ String.compare a b ≠ Gt.
Proof. unfold String.leb. by destruct (String.compare a b). Qed.

#[global] Instance string_le_trans : Transitive string_le.
Proof.
  intros a b c. unfold string_le. rewrite !string_leb_iff.
  apply string_compare_trans_le.
Qed.

#[global] Instance string_le_total : Total string_le.
Proof. intros a b. apply String.leb_total. Qed.

#[global] Instance string_le_antisym : AntiSymm (=) string_le.
Proof. intros a b. apply String.leb_antisym. Qed.

Lemma merge_sort_permutation (l1 l2 : list string) :
  l1 ≡ₚ l2 → merge_sort string_le l1 = merge_sort string_le l2.
Proof.
  intros Hp. apply (Sorted_unique string_le); try apply Sorted_merge_sort; try apply _.
  by rewrite !merge_sort_Permutation.
Qed.

Lemma find_app {A} (f : A → bool) (l1 l2 : list A) :
  List.find f (l1 ++ l2)
  = match List.find f l1 with Some x => Some x | None => List.find f l2 end.
Proof. induction l1 as [|x l1 IH]; cbn; [done|]. by destruct (f x). Qed.

Section Create.
Context `{IndexImplementations} `{IndexEnvironment}.

Lemma matchInOrder_refl fields : matchInOrder fields fields (length fields) = true.
Proof.
  unfold matchInOrder. apply forallb_forall. intros i _.
  rewrite Nat.eqb_refl. cbn [andb]. unfold stepsEqual.
  apply forallb_forall. intros k _. by apply bool_decide_eq_true_2.
Qed.

Lemma Index_insert_sameDefinition idx pool h rb :
  sameDefinition idx (Index_insert idx pool h rb).2.
Proof. unfold Index_insert. by destruct (is_error _). Qed.

Lemma Index_batchInsert_sameDefinition idx pool docs :
  sameDefinition idx (Index_batchInsert idx pool docs).2.
Proof. unfold Index_batchInsert. by destruct (is_error _). Qed.

Lemma sameDefinition_trans a b c :
  sameDefinition a b → sameDefinition b c → sameDefinition a c.
Proof. unfold sameDefinition. intuition congruence. Qed.

Lemma fillLoop_sameDefinition pool handles : ∀ idx,
  sameDefinition idx (fillLoop idx pool handles).2.
Proof.
  induction handles as [|h rest IH]; intros idx; [done|]. cbn [fillLoop].
  pose proof (Index_insert_sameDefinition idx pool h false) as Hs.
  destruct (Index_insert idx pool h false) as [r idx']. cbn [snd] in Hs.
  destruct (is_error r); [done|]. eapply sameDefinition_trans; [exact Hs | apply IH].
Qed.

Lemma batchLoop_sameDefinition pool blockSize handles : ∀ idx documents,
  sameDefinition idx (batchLoop idx pool blockSize handles documents).1.2.
Proof.
  induction handles as [|h rest IH]; intros idx documents; [done|]. cbn [batchLoop].
  destruct (Nat.eqb _ _); [|apply IH].
  pose proof (Index_batchInsert_sameDefinition idx pool (documents ++ [h])) as Hs.
  destruct (Index_batchInsert idx pool (documents ++ [h])) as [r idx']. cbn [snd] in Hs.
  destruct (is_error r); [done|]. eapply sameDefinition_trans; [exact Hs | apply IH].
Qed.

Lemma fillIndex_sameDefinition c idx skipPersistent :
  sameDefinition idx (fillIndex c idx skipPersistent).2.
Proof.
  unfold fillIndex. destruct (negb _); [done|]. destruct (_ && skipPersistent); [done|].
  destruct (_ && _).
  - unfold fillIndexBatch.
    pose proof (batchLoop_sameDefinition (_masterPointers c)
      (if Nat.eqb (Nat.min (base.size (_primaryIndex c)) (1024 * 1024)) 0
       then 1%nat else Nat.min (base.size (_primaryIndex c)) (1024 * 1024))
      (sequentialHandles c) idx []) as Hs.
    destruct (batchLoop _ _ _ _ _) as [[r idx1] docs]. cbn [fst snd] in Hs.
    destruct (_ && _); [|done].
    eapply sameDefinition_trans; [exact Hs | apply Index_batchInsert_sameDefinition].
  - apply fillLoop_sameDefinition.
Qed.

Lemma pathIndexMatches_own fields type sparse unique idx :
  type = TRI_IDX_TYPE_HASH_INDEX ∨ type = TRI_IDX_TYPE_SKIPLIST_INDEX →
  idx_type idx = type → idx_fields idx = fields →
  idx_unique idx = unique → idx_sparse idx = sparse →
  pathIndexMatches fields type (if sparse then 1 else 0) unique false idx = true.
Proof.
  intros Htype Ht Hf Hu Hs. unfold pathIndexMatches.
  rewrite Ht, Hf, Hu, Hs. rewrite bool_decide_eq_true_2 by done. cbn [negb].
  rewrite Bool.eqb_reflx. cbn [negb orb].
  assert (Hsp : ((if sparse then 1 else 0) =? (if sparse then 1 else 0)) = true)
    by apply Z.eqb_refl.
  rewrite Hsp. rewrite andb_false_r.
  rewrite Nat.eqb_refl. cbn [negb].
  destruct Htype as [-> | ->]; cbn [negb]; apply matchInOrder_refl.
Qed.

Lemma lists_agree {A} (p q : list A) :
  length p = length q → (∀ k, (k < length p)%nat → p !! k = q !! k) → p = q.
Proof.
  intros Hlen Hk. apply list_eq. intros k.
  destruct (decide (k < length p)%nat) as [Hlt|Hge]; [by apply Hk|].
  rewrite !lookup_ge_None_2; [done | lia | lia].
Qed.

Lemma matchInOrder_fields idxFields paths :
  length idxFields = length paths →
  matchInOrder idxFields paths (length idxFields) = true →
  idxFields = paths.
Proof.
  intros Hlen Hm. unfold matchInOrder in Hm. rewrite forallb_forall in Hm.
  apply lists_agree; [done|]. intros i Hi.
  specialize (Hm i). rewrite in_seq in Hm.
  assert (Hin : (0 <= i < 0 + length idxFields)%nat) by lia.
  apply Hm, andb_true_iff in Hin as [Hsize Hsteps].
  apply Nat.eqb_eq in Hsize. unfold path_size in Hsize.
  destruct (lookup_lt_is_Some_2 idxFields i Hi) as [p Hp].
  assert (Hi' : (i < length paths)%nat) by lia.
  destruct (lookup_lt_is_Some_2 paths i Hi') as [q Hq].
  rewrite Hp, Hq in Hsize. cbn in Hsize. rewrite Hp, Hq. f_equal.
  apply lists_agree; [done|]. intros k Hk.
  unfold stepsEqual in Hsteps. rewrite forallb_forall in Hsteps.
  specialize (Hsteps k). rewrite in_seq in Hsteps. unfold path_size in Hsteps.
  rewrite Hp in Hsteps. cbn in Hsteps.
  assert (Hin : (0 <= k < 0 + length p)%nat) by lia.
  apply Hsteps, bool_decide_eq_true in Hin. rename Hin into Hstep.
  unfold step_at in Hstep. rewrite Hp, Hq in Hstep. exact Hstep.
Qed.

Lemma pathIndexMatches_fields paths type sparsity unique idx :
  pathIndexMatches paths type sparsity unique false idx = true →
  idx_fields idx = paths.
Proof.
  unfold pathIndexMatches. destruct (negb (bool_decide _)); [done|].
  destruct (negb _); [done|].
  destruct (Nat.eqb _ _) eqn:En; [|done]. apply Nat.eqb_eq in En. cbn [negb].
  by apply matchInOrder_fields.
Qed.

Lemma createPathIndex_fields c tick fields type iid sparse unique idx created c1 tick1 :
  createPathIndex c tick fields type iid sparse unique = (Some idx, created, c1, tick1) →
  idx_fields idx = fields.
Proof.
  unfold createPathIndex.
  destruct (LookupPathIndexDocumentCollection c fields type _ unique false)
    as [found|] eqn:Elook.
  - intros [= <- <- <- <-]. unfold LookupPathIndexDocumentCollection in Elook.
    apply find_some in Elook as [_ Hm]. by eapply pathIndexMatches_fields.
  - destruct (if iid =? 0 then _ else _) as [iid0 tick0].
    pose proof (fillIndex_sameDefinition c
      {| idx_id := iid0; idx_type := type; idx_fields := fields;
         idx_unique := unique; idx_sparse := sparse; idx_refs := ∅ |} true) as Hs.
    destruct (fillIndex c _ true) as [r filled]. cbn [snd] in Hs.
    destruct (is_error r); [done|].
    intros [= <- <- <- <-]. by destruct Hs as (_ & _ & <- & _).
Qed.

Lemma createPathIndex_again c tick fields type iid sparse unique idx created c1 tick1 :
  type = TRI_IDX_TYPE_HASH_INDEX ∨ type = TRI_IDX_TYPE_SKIPLIST_INDEX →
  createPathIndex c tick fields type iid sparse unique = (Some idx, created, c1, tick1) →
  ∀ iid' tick',
    createPathIndex c1 tick' fields type iid' sparse unique = (Some idx, false, c1, tick').
Proof.
  intros Htype. unfold createPathIndex at 1.
  destruct (LookupPathIndexDocumentCollection c fields type _ unique false)
    as [found|] eqn:Elook.
  - intros [= <- <- <- <-] iid' tick'. unfold createPathIndex. by rewrite Elook.
  - destruct (if iid =? 0 then _ else _) as [iid0 tick0].
    pose proof (fillIndex_sameDefinition c
      {| idx_id := iid0; idx_type := type; idx_fields := fields;
         idx_unique := unique; idx_sparse := sparse; idx_refs := ∅ |} true) as Hs.
    destruct (fillIndex c _ true) as [r filled]. cbn [snd] in Hs.
    destruct (is_error r); [done|].
    intros [= <- <- <- <-] iid' tick'. unfold createPathIndex.
    assert (Hfind : LookupPathIndexDocumentCollection (addIndex c filled) fields type
                      (if sparse then 1 else 0) unique false = Some filled).
    { unfold LookupPathIndexDocumentCollection, allIndexes, addIndex in *.
      cbn [_indexes Col.set_indexes]. rewrite find_app, Elook. cbn [List.find].
      destruct Hs as (_ & Ht & Hf & Hu & Hsp). cbn in Ht, Hf, Hu, Hsp.
      by rewrite pathIndexMatches_own. }
    by rewrite Hfind.
Qed.

(** C7.  Index creation is idempotent.  When the creator of hash indexes
    has returned an index, a second call with the attributes in any order
    and the same flags returns that index, reports that nothing was
    created and leaves the registry as it is.  The same holds for the
    creator of skiplist indexes and the attributes in the same order; and
    there the order counts: the creator returns an index it has returned
    before only for attributes that give the same paths in the same
    order. *)
Theorem index_creation_is_idempotent c tick attributes iid sparse unique :
  (∀ idx created c1 tick1,
     CreateHashIndexDocumentCollection c tick attributes iid sparse unique
     = (Some idx, created, c1, tick1) →
     ∀ attributes' iid' tick',
       attributes' ≡ₚ attributes →
       CreateHashIndexDocumentCollection c1 tick' attributes' iid' sparse unique
       = (Some idx, false, c1, tick'))
  ∧ (∀ idx created c1 tick1,
       CreateSkiplistIndexDocumentCollection c tick attributes iid sparse unique
       = (Some idx, created, c1, tick1) →
       (∀ iid' tick',
          CreateSkiplistIndexDocumentCollection c1 tick' attributes iid' sparse unique
          = (Some idx, false, c1, tick'))
       ∧ (∀ attributes' iid' tick' created' c2 tick2,
            CreateSkiplistIndexDocumentCollection c1 tick' attributes' iid' sparse unique
            = (Some idx, created', c2, tick2) →
            map TRI_ParseAttributeString attributes'
            = map TRI_ParseAttributeString attributes)).
Proof.
  split.
  - intros idx created c1 tick1 Hfirst attributes' iid' tick' Hperm.
    unfold CreateHashIndexDocumentCollection, NamesByAttributeNames in *.
    rewrite is_error_no_error in *.
    rewrite (merge_sort_permutation _ _ Hperm).
    eapply createPathIndex_again; [by left | exact Hfirst].
  - intros idx created c1 tick1 Hfirst.
    unfold CreateSkiplistIndexDocumentCollection, NamesByAttributeNames in *.
    rewrite is_error_no_error in *. split.
    + intros iid' tick'. eapply createPathIndex_again; [by right | exact Hfirst].
    + intros attributes' iid' tick' created' c2 tick2 Hsecond.
      unfold CreateSkiplistIndexDocumentCollection, NamesByAttributeNames in Hsecond.
      apply createPathIndex_fields in Hfirst, Hsecond. congruence.
Qed.
End Create.

(** ** Replay of the markers *)

Section ReplayFacts.
Context `{IndexImplementations} `{ReplayEnvironment}.

Lemma enterDatafile_ready st fid :
  st_fid st ≠ fid ∨ ready st →
  ready (enterDatafile st fid) ∧ st_fid (enterDatafile st fid) = fid
  ∧ st_deletions (enterDatafile st fid) = st_deletions st
  ∧ st_documents (enterDatafile st fid) = st_documents st.
Proof.
  intros Hor. unfold enterDatafile, FindDatafileStats.
  destruct (decide (st_fid st = fid)) as [<-|Hne].
  - rewrite bool_decide_eq_false_2 by (by intros ?).
    destruct Hor as [?|Hr]; [done|]. done.
  - rewrite bool_decide_eq_true_2 by done.
    destruct (st_stats st !! fid) eqn:E; cbn; unfold ready; cbn.
    + rewrite E. done.
    + rewrite lookup_insert_eq. done.
Qed.

Lemma through_ready st f :
  ready st →
  ∃ st', through (st_dfi st) f st = Some st' ∧ ready st'
         ∧ st_fid st' = st_fid st ∧ st_deletions st' = st_deletions st
         ∧ st_documents st' = st_documents st
         ∧ (∀ d, st_stats st !! st_fid st = Some d →
                 st_stats st' !! st_fid st = Some (f d)).
Proof.
  intros [Hdfi [d Hd]]. unfold through. rewrite Hdfi. cbn. rewrite Hd. cbn.
  eexists. split; [done|]. unfold ready. cbn. rewrite lookup_insert_eq.
  repeat split; try done. intros d' Hd'. congruence.
Qed.

Lemma through_other st fid f :
  ready st → is_Some (st_stats st !! fid) →
  ∃ st', through (Some fid) f st = Some st' ∧ ready st'
         ∧ st_fid st' = st_fid st ∧ st_deletions st' = st_deletions st
         ∧ st_documents st' = st_documents st.
Proof.
  intros [Hdfi [d Hd]] [d' Hd']. unfold through. cbn. rewrite Hd'. cbn.
  eexists. split; [done|]. unfold ready. cbn. split; [|done]. split; [done|].
  destruct (decide (fid = st_fid st)) as [->|Hne].
  - rewrite lookup_insert_eq. done.
  - rewrite lookup_insert_ne by done. by rewrite Hd.
Qed.

Lemma FindDatafileStats_ready st fid :
  ready st →
  let r := FindDatafileStats st fid in
  r.1 = fid ∧ ready r.2 ∧ is_Some (st_stats r.2 !! fid)
  ∧ st_fid r.2 = st_fid st ∧ st_deletions r.2 = st_deletions st
  ∧ st_documents r.2 = st_documents st.
Proof.
  intros [Hdfi [d Hd]]. unfold FindDatafileStats.
  destruct (st_stats st !! fid) eqn:E; cbn.
  - rewrite E. unfold ready. rewrite Hd. done.
  - unfold ready. cbn. rewrite lookup_insert_eq.
    destruct (decide (fid = st_fid st)) as [->|Hne]; [congruence|].
    rewrite lookup_insert_ne by done. rewrite Hd. done.
Qed.

(** The container an old version is accounted in: the current one, or the
    one [FindDatafileStats] finds. *)
Lemma retire st (oldFid : Z) f :
  ready st →
  ∃ st',
    (let '(dfi, st0) :=
       if bool_decide (oldFid = st_fid st) then (st_dfi st, st)
       else let '(p, st1) := FindDatafileStats st oldFid in (Some p, st1) in
     through dfi f st0) = Some st'
    ∧ ready st' ∧ st_fid st' = st_fid st ∧ st_deletions st' = st_deletions st
    ∧ st_documents st' = st_documents st.
Proof.
  intros Hr. destruct (bool_decide (oldFid = st_fid st)).
  - destruct (through_ready st f Hr) as (st' & -> & ? & ? & ? & ? & _). by exists st'.
  - pose proof (FindDatafileStats_ready st oldFid Hr) as Hf.
    destruct (FindDatafileStats st oldFid) as [p st1]. cbn in Hf.
    destruct Hf as (-> & Hr1 & Hs1 & Hf1 & Hd1 & Hdoc1).
    destruct (through_other st1 oldFid f Hr1 Hs1) as (st' & -> & ? & ? & ? & ?).
    exists st'. split; [done|]. split; [done|]. repeat split; congruence.
Qed.
End ReplayFacts.

Lemma revisionAfter_ge revision rid :
  revision <= revisionAfter revision rid
  ∧ (0 < rid → rid <= revisionAfter revision rid).
Proof.
  unfold revisionAfter. destruct (0 <? rid) eqn:E0; [|lia].
  destruct (revision <? rid) eqn:E1; lia.
Qed.

Section Handlers.
Context `{IndexImplementations} `{ReplayEnvironment}.

Lemma setLastRevision_eq c rid :
  setLastRevision c rid false
  = Col.set_recovery c (revisionAfter (_info_revision c) rid) (_tickMax c)
      (_keyGenerator c).
Proof.
  unfold setLastRevision, revisionAfter. destruct c; cbn.
  destruct (0 <? rid); [|done]. by destruct (_ <? rid).
Qed.




End Handlers.

Section Iterate.
Context `{IndexImplementations} `{ReplayEnvironment}.





End Iterate.

(** ** The statements on the sample deployment *)

Section OnTheSample.
#[local] Existing Instance Sample.healthy.
#[local] Existing Instance Sample.environment.
#[local] Existing Instance Sample.indexEnvironment.
#[local] Existing Instance Sample.replayEnvironment.

(** The insert of a second person with the [x] of the first fails in the
    unique index on [x] and leaves everything as it was. *)
Lemma insertDocument_secondary_failure_witness :
  ∃ res,
    res ≠ TRI_ERROR_NO_ERROR
    ∧ (∃ idx,
         idx ∈ Col.secondaries (Sample.pending Sample.clashing)
         ∧ attempted true idx = true
         ∧ insert_result idx (mp_slots (_masterPointers (Sample.pending Sample.clashing)))
             2 false = res)
    ∧ insertDocument (Sample.world (Sample.pending Sample.clashing)) 2
        (Sample.insertOf Sample.clashing) Mptr.fresh false
      = (res, Sample.world (Sample.pending Sample.clashing),
         Sample.insertOf Sample.clashing, Mptr.fresh, false).
Proof.
  destruct (insertDocument_secondary_failure
              (Sample.world (Sample.pending Sample.clashing)) 2
              (Sample.insertOf Sample.clashing) Mptr.fresh false "b")
    as (res & w' & Hres & Horigin & Hcall & _ & _ & _ & _ & Hunwound).
  - vm_compute. reflexivity.
  - vm_compute. reflexivity.
  - left. reflexivity.
  - exists Sample.uniqueOnX. split; [|split].
    + apply list_elem_of_here.
    + reflexivity.
    + vm_compute. discriminate.
  - exists res. split; [exact Hres|]. split; [exact Horigin|].
    rewrite Hcall. rewrite Hunwound; [reflexivity| |].
    + intros idx Hin.
      change (idx ∈ [Sample.uniqueOnX; Sample.skiplistOnY]) in Hin.
      apply list_elem_of_In in Hin. simpl in Hin.
      destruct Hin as [<-|[<-|[]]]; by vm_compute.
    + intros idx Hin _.
      change (idx ∈ [Sample.uniqueOnX; Sample.skiplistOnY]) in Hin.
      apply list_elem_of_In in Hin. simpl in Hin.
      destruct Hin as [<-|[<-|[]]]; reflexivity.
Defined.

(** The insert of a person whose key is there already is refused, and
    nothing has changed. *)
Lemma insertDocument_duplicate_key_witness :
  insertDocument (Sample.world (Sample.pending Sample.duplicate)) 2
    (Sample.insertOf Sample.duplicate) Mptr.fresh false
  = (TRI_ERROR_ARANGO_UNIQUE_CONSTRAINT_VIOLATED,
     Sample.world (Sample.pending Sample.duplicate),
     Sample.insertOf Sample.duplicate, Mptr.fresh, false).
Proof.
  apply (insertDocument_duplicate_key _ _ _ _ _ "a" 1%nat); vm_compute; reflexivity.
Defined.

(** After the unique index on [x] has refused the second person, the loop
    still enters the handle into the skiplist index on [y]; and when the
    index on [x] runs out of memory, the loop ends there. *)
Lemma insertSecondaryIndexes_goes_on_witness :
  insertSecondaryIndexes (Sample.pending Sample.clashing) 2 false
  = (TRI_ERROR_ARANGO_UNIQUE_CONSTRAINT_VIOLATED,
     Col.with_secondaries (Sample.pending Sample.clashing)
       [Sample.uniqueOnX; referring 2 Sample.skiplistOnY])
  ∧ @insertSecondaryIndexes (Sample.indexes {[ 11 ]}) (Sample.pending Sample.clashing)
      2 false
    = (TRI_ERROR_OUT_OF_MEMORY, Sample.pending Sample.clashing).
Proof.
  split.
  - pose proof (insertSecondaryIndexes_goes_on (Sample.pending Sample.clashing) 2 false)
      as Hloop.
    cbv zeta in Hloop. destruct Hloop as [Hgo _]; [left; reflexivity|].
    rewrite Hgo; [vm_compute; reflexivity|].
    intros idx Hin _.
    change (idx ∈ [Sample.uniqueOnX; Sample.skiplistOnY]) in Hin.
    apply list_elem_of_In in Hin. simpl in Hin.
    destruct Hin as [<-|[<-|[]]]; by vm_compute.
  - pose proof (@insertSecondaryIndexes_goes_on (Sample.indexes {[ 11 ]})
                  (Sample.pending Sample.clashing) 2 false) as Hloop.
    cbv zeta in Hloop. destruct Hloop as [_ Hoom]; [left; reflexivity|].
    rewrite (Hoom [] Sample.uniqueOnX [Sample.skiplistOnY]);
      [vm_compute; reflexivity | reflexivity | | reflexivity | vm_compute; reflexivity].
    intros i Hi. by apply elem_of_nil in Hi.
Defined.

(** An update and a replace that name revision 7 of a document whose
    revision is 1 are refused as conflicts. *)
Lemma revision_mismatch_is_conflict_witness :
  (∃ out' w',
     update (Sample.world Sample.users) Sample.stale Sample.options Sample.outputs
     = (TRI_ERROR_ARANGO_CONFLICT, out', w')
     ∧ w_collection w' = Sample.users
     ∧ w_trx w' = w_trx (Sample.world Sample.users))
  ∧ (∃ out' w',
       replace (Sample.world Sample.users) Sample.stale Sample.options Sample.outputs
       = (TRI_ERROR_ARANGO_CONFLICT, out', w')
       ∧ w_collection w' = Sample.users
       ∧ w_trx w' = w_trx (Sample.world Sample.users)).
Proof.
  destruct (revision_mismatch_is_conflict (Sample.world Sample.users) Sample.stale
              Sample.options Sample.outputs "a" 1%nat) as [Hupdate Hreplace].
  - reflexivity.
  - reflexivity.
  - intros Hrestore. discriminate Hrestore.
  - reflexivity.
  - vm_compute. reflexivity.
  - by vm_compute.
  - by vm_compute.
  - split; [exact Hupdate|]. apply Hreplace. intros Hedge. discriminate Hedge.
Defined.

(** An update of the first person with the key alone changes nothing. *)
Lemma update_key_only_is_noop_witness :
  ∃ out' w',
    update (Sample.world Sample.users) Sample.keyOnly Sample.options Sample.outputs
    = (TRI_ERROR_NO_ERROR, out', w')
    ∧ out_mptr out' = Col.load Sample.users 1
    ∧ w_collection w' = Sample.users
    ∧ w_trx w' = w_trx (Sample.world Sample.users).
Proof.
  apply (update_key_only_is_noop (Sample.world Sample.users) Sample.keyOnly
           Sample.options Sample.outputs "a" 1%nat).
  - reflexivity.
  - by vm_compute.
  - reflexivity.
  - reflexivity.
  - vm_compute. reflexivity.
Defined.

(** The delta [Sample.touch] holds system attributes only, the key and the
    revision the document has.  The update with it succeeds, hands a marker
    to the write-ahead log and gives the document the new revision 42. *)
Lemma update_of_system_attributes_writes :
  forallb isSystemAttribute (members_of Sample.touch).*1 = true
  ∧ TRI_SanitizeObjectWithEdges Sample.touch = []
  ∧ ∃ out' w',
      update (Sample.world Sample.users) Sample.touch Sample.options Sample.outputs
      = (TRI_ERROR_NO_ERROR, out', w')
      ∧ Mptr.revisionIdAsSlice (Col.load Sample.users 1) = VString "1"
      ∧ Mptr.revisionIdAsSlice (Col.load (w_collection w') 1) = VString "42"
      ∧ Mptr.revisionIdAsSlice (out_mptr out') = VString "42"
      ∧ trx_operations (w_trx (Sample.world Sample.users)) = []
      ∧ length (trx_operations (w_trx w')) = 1%nat
      ∧ w_collection w' ≠ Sample.users.
Proof.
  split; [reflexivity|]. split; [reflexivity|].
  eexists _, _. split; [vm_compute; reflexivity|].
  repeat split; try (vm_compute; reflexivity).
  intros Heq. apply (f_equal (λ c, Mptr.revisionIdAsSlice (Col.load c 1))) in Heq.
  vm_compute in Heq. discriminate Heq.
Defined.

(** The remove of the first person by its key goes through whatever
    [ignoreRevs] says. *)
Lemma remove_by_key_skips_revision_check_witness :
  remove (Sample.world Sample.users) (VString "a")
    (withIgnoreRevs Sample.options true) Sample.outputs
  = remove (Sample.world Sample.users) (VString "a") Sample.options Sample.outputs
  ∧ (remove (Sample.world Sample.users) (VString "a") Sample.options
       Sample.outputs).1.1 ≠ TRI_ERROR_ARANGO_CONFLICT.
Proof.
  destruct (remove_by_key_skips_revision_check (Sample.world Sample.users) "a"
              Sample.options Sample.outputs) as (_ & Hsame & Hnever).
  split; [apply Hsame|]. apply Hnever.
  - intros idx pool header isRollback. discriminate.
  - intros trx operation. discriminate.
Defined.

(** A reader that waits 4 microseconds a turn for a lock a writer keeps
    gives up, with a timeout of 10, after the third turn; and a timeout of
    0 is one of 15 minutes. *)
Lemma timed_lock_times_out_witness :
  Lock.beginReadTimed None Sample.users 0 4 (replicate 3 Sample.held) Sample.idle
  = Lock.beginReadTimed None Sample.users 900000000 4 (replicate 3 Sample.held)
      Sample.idle
  ∧ ∃ o,
      Lock.beginReadTimed None Sample.users 10 4 (replicate 3 Sample.held) Sample.idle
      = Some o
      ∧ Lock.res o = TRI_ERROR_LOCK_TIMEOUT ∧ Lock.locked o = None
      ∧ Lock.waited o = 12.
Proof.
  split.
  - destruct (timed_lock_times_out Lock.Read None Sample.users 0 4
                (replicate 3 Sample.held) Sample.idle) as (_ & Hdefault & _);
      [lia | lia | by vm_compute | exact Hdefault].
  - destruct (timed_lock_times_out Lock.Read None Sample.users 10 4
                (replicate 3 Sample.held) Sample.idle) as (_ & _ & _ & Hlive);
      [lia | lia | by vm_compute |].
    destruct (Hlive eq_refl (replicate 3 Sample.held) [] eq_refl)
      as (o & Ho & Hres & Hlocked & Hwaited).
    + repeat constructor.
    + reflexivity.
    + exists o. repeat split; [exact Ho | exact Hres | exact Hlocked | exact Hwaited].
Defined.



(** A hash index on [y], [x] is found again under [x], [y]; a skiplist
    index on [y], [x] is found again under [y], [x], while [x], [y] gives
    a new one. *)
Lemma index_creation_is_idempotent_witness :
  (∃ idx c1,
     CreateHashIndexDocumentCollection Sample.users 100 ["y"; "x"]%string 0 false false
     = (Some idx, true, c1, 101)
     ∧ CreateHashIndexDocumentCollection c1 101 ["x"; "y"]%string 0 false false
       = (Some idx, false, c1, 101))
  ∧ (∃ idx c1,
       CreateSkiplistIndexDocumentCollection Sample.users 100 ["y"; "x"]%string 0
         false false
       = (Some idx, true, c1, 101)
       ∧ CreateSkiplistIndexDocumentCollection c1 101 ["y"; "x"]%string 0 false false
         = (Some idx, false, c1, 101)
       ∧ (CreateSkiplistIndexDocumentCollection c1 101 ["x"; "y"]%string 0 false
            false).1.1.2 = true).
Proof.
  destruct (index_creation_is_idempotent Sample.users 100 ["y"; "x"]%string 0 false
              false) as [Hhash Hskiplist].
  split.
  - eexists _, _. split; [vm_compute; reflexivity|].
    eapply Hhash; [vm_compute; reflexivity | apply perm_swap].
  - eexists _, _. split; [vm_compute; reflexivity|].
    split; [eapply Hskiplist; vm_compute; reflexivity | vm_compute; reflexivity].
Defined.

End OnTheSample.

(** * Further properties of the mutation pipeline *)

Section InsertAndUndo.
Context `{IndexImplementations} `{Environment}.

Lemma insertSecondaryLoop_success useSecondary pool header isRollback indexes :
  ∀ result,
  (∀ idx, idx ∈ indexes → attempted useSecondary idx = true →
     insert_result idx (mp_slots pool) header isRollback = TRI_ERROR_NO_ERROR) →
  insertSecondaryLoop useSecondary pool header isRollback indexes result
  = (result, map (entered useSecondary header) indexes).
Proof.
  induction indexes as [|idx rest IH]; intros result Hok; [done|].
  assert (Hrest : ∀ i, i ∈ rest → attempted useSecondary i = true →
            insert_result i (mp_slots pool) header isRollback = TRI_ERROR_NO_ERROR).
  { intros i Hi. apply Hok, elem_of_cons. by right. }
  cbn [map]. unfold entered at 1.
  destruct (attempted useSecondary idx) eqn:Ea.
  - assert (Hidx : insert_result idx (mp_slots pool) header isRollback
                   = TRI_ERROR_NO_ERROR).
    { apply Hok; [apply elem_of_cons; by left | done]. }
    rewrite insertSecondaryLoop_go by (by rewrite ?Hidx).
    rewrite Hidx. unfold prefer. rewrite is_error_no_error.
    rewrite (IH result Hrest). cbn [fst snd]. f_equal. f_equal.
    unfold Index_insert. by rewrite Hidx.
  - rewrite insertSecondaryLoop_skip by done. by rewrite (IH result Hrest).
Qed.

Lemma entered_touched useSecondary header indexes :
  Forall2 (touched useSecondary header) indexes
    (map (entered useSecondary header) indexes).
Proof.
  induction indexes as [|idx rest IH]; cbn [map]; constructor; [|exact IH].
  unfold entered. destruct (attempted useSecondary idx) eqn:Ea; [by right | by left].
Qed.

Lemma secondaries_of_with_secondaries c secs :
  Col.secondaries c = [] ∧ secs = [] ∨ _indexes c ≠ [] →
  Col.secondaries (Col.with_secondaries c secs) = secs.
Proof.
  intros [[Hs ->]|Hne]; [|by apply secondaries_with_secondaries].
  unfold Col.with_secondaries, Col.secondaries in *.
  destruct (_indexes c) eqn:E; cbn; [by rewrite E | done].
Qed.

Lemma secondaries_shape c (f : Index → Index) :
  Col.secondaries c = [] ∧ map f (Col.secondaries c) = [] ∨ _indexes c ≠ [].
Proof.
  unfold Col.secondaries. destruct (_indexes c); [left | right]; done.
Qed.

(** The collection after the index phase of a successful insert. *)
Lemma insertDocument_indexed w header operation mptr waitForSync k :
  let c := w_collection w in
  let useSecondary := _useSecondaryIndexes c in
  Mptr.key (Col.load c header) = VString k →
  _primaryIndex c !! k = None →
  useSecondary = true ∨ _persistentIndexes c ≠ 0 →
  (∀ idx, idx ∈ Col.secondaries c → attempted useSecondary idx = true →
     insert_result idx (mp_slots (_masterPointers c)) header false
     = TRI_ERROR_NO_ERROR) →
  let c3 :=
    Col.set_numberDocuments
      (Col.with_secondaries
         (Col.set_primaryIndex c (<[k := header]> (_primaryIndex c)))
         (map (entered useSecondary header) (Col.secondaries c)))
      (_numberDocuments c + 1) in
  insertDocument w header operation mptr waitForSync
  = (let '(res, trx, operation, waitForSync) :=
       TRI_AddOperationTransaction (w_trx w) (Op.indexed operation) waitForSync in
     (res, Wd.set_trx (Wd.set_collection w c3) trx, operation,
      if is_error res then mptr else Col.load c3 header, waitForSync)).
Proof.
  intros c useSecondary Hk Hnone Hrun Hok c3. unfold insertDocument. fold c.
  rewrite (insertPrimaryIndex_absent c header k Hk Hnone), is_error_no_error.
  set (c1 := Col.set_primaryIndex c (<[k:=header]> (_primaryIndex c))) in *.
  rewrite (insertSecondaryIndexes_run c1) by exact Hrun.
  change (_useSecondaryIndexes c1) with useSecondary.
  change (_masterPointers c1) with (_masterPointers c).
  change (Col.secondaries c1) with (Col.secondaries c).
  rewrite insertSecondaryLoop_success by exact Hok.
  cbn [fst snd]. rewrite is_error_no_error.
  assert (Hn : _numberDocuments
                 (Col.with_secondaries c1
                    (map (entered useSecondary header) (Col.secondaries c)))
               = _numberDocuments c).
  { unfold Col.with_secondaries, c1. cbn. by destruct (_indexes c). }
  rewrite Hn. done.
Qed.

(** X1.  An insert of a document whose key is new, into a collection all of
    whose attempted secondary indexes take it and with a write-ahead log
    that accepts the operation, succeeds: the key is in the primary index
    and [lookupDocument] finds the handle under it, the document counter
    has grown by one, every attempted secondary index refers to the handle,
    the handle pool is untouched, the log holds one more operation, and
    the result parameter is the content of the handle. *)
Theorem insertDocument_enters_document w header operation mptr waitForSync k :
  let c := w_collection w in
  let useSecondary := _useSecondaryIndexes c in
  Mptr.key (Col.load c header) = VString k →
  _primaryIndex c !! k = None →
  useSecondary = true ∨ _persistentIndexes c ≠ 0 →
  (∀ idx, idx ∈ Col.secondaries c → attempted useSecondary idx = true →
     insert_result idx (mp_slots (_masterPointers c)) header false
     = TRI_ERROR_NO_ERROR) →
  addOperation_result (w_trx w) (Op.indexed operation) = TRI_ERROR_NO_ERROR →
  ∃ w',
    insertDocument w header operation mptr waitForSync
    = (TRI_ERROR_NO_ERROR, w',
       Op.handled (Op.indexed operation) (trx_lastTick (w_trx w) + 1),
       Col.load c header, waitForSync)
    ∧ lookupDocument (w_collection w') (VString k) = (TRI_ERROR_NO_ERROR, Some header)
    ∧ _primaryIndex (w_collection w') = <[k := header]> (_primaryIndex c)
    ∧ _numberDocuments (w_collection w') = _numberDocuments c + 1
    ∧ Col.secondaries (w_collection w')
      = map (entered useSecondary header) (Col.secondaries c)
    ∧ _masterPointers (w_collection w') = _masterPointers c
    ∧ trx_operations (w_trx w')
      = trx_operations (w_trx w)
        ++ [(op_type operation, op_marker operation, trx_lastTick (w_trx w) + 1)].
Proof.
  intros c useSecondary Hk Hnone Hrun Hok Hwal.
  rewrite (insertDocument_indexed w header operation mptr waitForSync k Hk Hnone Hrun Hok).
  fold c useSecondary. unfold TRI_AddOperationTransaction.
  rewrite Hwal, is_error_no_error.
  set (c1 := Col.set_primaryIndex c (<[k:=header]> (_primaryIndex c))).
  set (secs := map (entered useSecondary header) (Col.secondaries c)).
  assert (Hshape : _primaryIndex (Col.with_secondaries c1 secs)
                   = <[k:=header]> (_primaryIndex c)
                   ∧ _masterPointers (Col.with_secondaries c1 secs) = _masterPointers c).
  { unfold Col.with_secondaries, c1. cbn. by destruct (_indexes c). }
  destruct Hshape as [Hkeys Hpool].
  set (c3 := Col.set_numberDocuments (Col.with_secondaries c1 secs)
               (_numberDocuments c + 1)).
  assert (Hload : Col.load c3 header = Col.load c header).
  { unfold Col.load. change (_masterPointers c3)
      with (_masterPointers (Col.with_secondaries c1 secs)). by rewrite Hpool. }
  rewrite Hload.
  rewrite is_error_no_error.
  eexists. split; [reflexivity|].
  split; [|split; [|split; [|split; [|split]]]].
  - unfold lookupDocument. cbn. rewrite Hkeys. by rewrite lookup_insert_eq.
  - cbn. exact Hkeys.
  - cbn. unfold Col.with_secondaries, c1. cbn. by destruct (_indexes c).
  - change (Col.secondaries (Col.with_secondaries c1 secs) = secs).
    apply secondaries_of_with_secondaries.
    change (Col.secondaries c1) with (Col.secondaries c).
    change (_indexes c1) with (_indexes c).
    apply secondaries_shape.
  - cbn. exact Hpool.
  - reflexivity.
Qed.

(** X2.  [rollbackOperation] undoes the index phase of an insert.  After
    [insertDocument] has entered a new key into the primary index and the
    handle into the secondary indexes, whatever the write-ahead log answered,
    the rollback of the insert gives back the collection from before the
    insert: the primary index, the secondary indexes and the document
    counter.  The rollback removes of the index implementations are taken
    to go through. *)
Theorem rollbackOperation_undoes_insert w header operation mptr waitForSync k oldData :
  let c := w_collection w in
  let useSecondary := _useSecondaryIndexes c in
  Mptr.key (Col.load c header) = VString k →
  _primaryIndex c !! k = None →
  useSecondary = true ∨ _persistentIndexes c ≠ 0 →
  (∀ idx, idx ∈ Col.secondaries c → header ∉ idx_refs idx) →
  (∀ idx, idx ∈ Col.secondaries c → attempted useSecondary idx = true →
     insert_result idx (mp_slots (_masterPointers c)) header false
     = TRI_ERROR_NO_ERROR) →
  (∀ idx, idx ∈ Col.secondaries c → attempted useSecondary idx = true →
     remove_result (referring header idx) (mp_slots (_masterPointers c)) header true
     = TRI_ERROR_NO_ERROR) →
  rollbackOperation
    (w_collection (insertDocument w header operation mptr waitForSync).1.1.1.2)
    TRI_VOC_DOCUMENT_OPERATION_INSERT header oldData
  = (TRI_ERROR_NO_ERROR, c).
Proof.
  intros c useSecondary Hk Hnone Hrun Hfresh Hok Hrb.
  rewrite (insertDocument_indexed w header operation mptr waitForSync k Hk Hnone Hrun Hok).
  fold c useSecondary.
  destruct (TRI_AddOperationTransaction _ _ _) as [[[res trx] op'] wfs'].
  cbn [fst snd w_collection Wd.set_trx Wd.set_collection].
  set (c1 := Col.set_primaryIndex c (<[k:=header]> (_primaryIndex c))).
  set (secs := map (entered useSecondary header) (Col.secondaries c)).
  set (c2 := Col.with_secondaries c1 secs).
  set (c3 := Col.set_numberDocuments c2 (_numberDocuments c + 1)).
  assert (Hc2 : _useSecondaryIndexes c2 = useSecondary
                ∧ _persistentIndexes c2 = _persistentIndexes c
                ∧ _masterPointers c2 = _masterPointers c
                ∧ _primaryIndex c2 = <[k:=header]> (_primaryIndex c)).
  { unfold c2, c1, Col.with_secondaries. cbn. by destruct (_indexes c). }
  destruct Hc2 as (Hus & Hpi & Hmp & Hkeys).
  assert (Hsecs : Col.secondaries c2 = secs).
  { apply secondaries_of_with_secondaries.
    change (Col.secondaries c1) with (Col.secondaries c).
    change (_indexes c1) with (_indexes c). apply secondaries_shape. }
  unfold rollbackOperation.
  rewrite (deletePrimaryIndex_present c3 header k header).
  2:{ unfold Col.load. change (_masterPointers c3) with (_masterPointers c2).
      rewrite Hmp. exact Hk. }
  2:{ change (_primaryIndex c3) with (_primaryIndex c2). rewrite Hkeys.
      apply lookup_insert_eq. }
  change (_primaryIndex c3) with (_primaryIndex c2).
  rewrite Hkeys, delete_insert_id by done.
  set (c4 := Col.set_primaryIndex c3 (_primaryIndex c)).
  rewrite (deleteSecondaryIndexes_run c4).
  2:{ change (_useSecondaryIndexes c4) with (_useSecondaryIndexes c2).
      change (_persistentIndexes c4) with (_persistentIndexes c2).
      rewrite Hus, Hpi. exact Hrun. }
  change (_useSecondaryIndexes c4) with (_useSecondaryIndexes c2).
  change (_masterPointers c4) with (_masterPointers c2).
  change (Col.secondaries c4) with (Col.secondaries c2).
  rewrite Hus, Hmp, Hsecs.
  rewrite (deleteSecondaryLoop_undo useSecondary (_masterPointers c) header
             (Col.secondaries c) secs TRI_ERROR_NO_ERROR
             (entered_touched _ _ _) Hfresh Hrb).
  f_equal. unfold c4, c3, c2, c1, Col.with_secondaries, Col.secondaries.
  destruct c as [? ? ? ? ? ? ? ? ? n ? idxs ? ? ? ?]. cbn.
  destruct idxs; cbn; by rewrite Z.add_simpl_r.
Qed.
End InsertAndUndo.

Section PipelineOnTheSample.
#[local] Existing Instance Sample.healthy.
#[local] Existing Instance Sample.environment.

(** A second person with values of its own is entered under its key, and
    both secondary indexes refer to its handle. *)
Lemma insertDocument_enters_document_witness :
  ∃ w',
    insertDocument (Sample.world (Sample.pending (Sample.person "b" "2" 6 9))) 2
      (Sample.insertOf (Sample.person "b" "2" 6 9)) Mptr.fresh false
    = (TRI_ERROR_NO_ERROR, w',
       Op.handled (Op.indexed (Sample.insertOf (Sample.person "b" "2" 6 9))) 1,
       Sample.handleOf (Sample.person "b" "2" 6 9), false)
    ∧ lookupDocument (w_collection w') (VString "b") = (TRI_ERROR_NO_ERROR, Some 2%nat)
    ∧ _primaryIndex (w_collection w') = <["b"%string := 2%nat]> {[ "a"%string := 1%nat ]}
    ∧ _numberDocuments (w_collection w') = 2
    ∧ Col.secondaries (w_collection w')
      = [referring 2 Sample.uniqueOnX; referring 2 Sample.skiplistOnY]
    ∧ _masterPointers (w_collection w')
      = _masterPointers (Sample.pending (Sample.person "b" "2" 6 9))
    ∧ trx_operations (w_trx w')
      = [(TRI_VOC_DOCUMENT_OPERATION_INSERT,
          Sample.markerOf TRI_DF_MARKER_VPACK_DOCUMENT 0 (Sample.person "b" "2" 6 9), 1)].
Proof.
  apply (insertDocument_enters_document
           (Sample.world (Sample.pending (Sample.person "b" "2" 6 9))) 2
           (Sample.insertOf (Sample.person "b" "2" 6 9)) Mptr.fresh false "b").
  - vm_compute. reflexivity.
  - vm_compute. reflexivity.
  - left. reflexivity.
  - intros idx Hin _.
    change (idx ∈ [Sample.uniqueOnX; Sample.skiplistOnY]) in Hin.
    apply list_elem_of_In in Hin. simpl in Hin.
    destruct Hin as [<-|[<-|[]]]; vm_compute; reflexivity.
  - reflexivity.
Defined.

(** Undoing that insert gives the collection with the pending handle. *)
Lemma rollbackOperation_undoes_insert_witness :
  rollbackOperation
    (w_collection
       (insertDocument (Sample.world (Sample.pending (Sample.person "b" "2" 6 9))) 2
          (Sample.insertOf (Sample.person "b" "2" 6 9)) Mptr.fresh false).1.1.1.2)
    TRI_VOC_DOCUMENT_OPERATION_INSERT 2 Mptr.fresh
  = (TRI_ERROR_NO_ERROR, Sample.pending (Sample.person "b" "2" 6 9)).
Proof.
  apply (rollbackOperation_undoes_insert
           (Sample.world (Sample.pending (Sample.person "b" "2" 6 9))) 2
           (Sample.insertOf (Sample.person "b" "2" 6 9)) Mptr.fresh false "b").
  - vm_compute. reflexivity.
  - vm_compute. reflexivity.
  - left. reflexivity.
  - intros idx Hin.
    change (idx ∈ [Sample.uniqueOnX; Sample.skiplistOnY]) in Hin.
    apply list_elem_of_In in Hin. simpl in Hin.
    destruct Hin as [<-|[<-|[]]]; by vm_compute.
  - intros idx Hin _.
    change (idx ∈ [Sample.uniqueOnX; Sample.skiplistOnY]) in Hin.
    apply list_elem_of_In in Hin. simpl in Hin.
    destruct Hin as [<-|[<-|[]]]; vm_compute; reflexivity.
  - intros idx Hin _.
    change (idx ∈ [Sample.uniqueOnX; Sample.skiplistOnY]) in Hin.
    apply list_elem_of_In in Hin. simpl in Hin.
    destruct Hin as [<-|[<-|[]]]; reflexivity.
Defined.
End PipelineOnTheSample.

(** ** The low-level worker of update and replace *)

Section UpdateDocument.
Context `{IndexImplementations} `{Environment}.

(** The loops over the secondary indexes change [_indexes] and nothing
    else. *)
Lemma set_indexes_same c :
  Col.set_indexes c (_indexes c) (_cleanupIndexes c) (_persistentIndexes c) = c.
Proof. by destruct c. Qed.

Lemma with_secondaries_indexes c secs :
  ∃ idxs, Col.with_secondaries c secs
          = Col.set_indexes c idxs (_cleanupIndexes c) (_persistentIndexes c).
Proof.
  unfold Col.with_secondaries. destruct (_indexes c) eqn:E.
  - exists []. rewrite <- E. by rewrite set_indexes_same.
  - by eexists.
Qed.

Lemma insertSecondaryIndexes_indexes c header isRollback :
  ∃ idxs, (insertSecondaryIndexes c header isRollback).2
          = Col.set_indexes c idxs (_cleanupIndexes c) (_persistentIndexes c).
Proof.
  unfold insertSecondaryIndexes. destruct (_ && _).
  - exists (_indexes c). by rewrite set_indexes_same.
  - destruct (insertSecondaryLoop _ _ _ _ _ _) as [r secs]. cbn [snd].
    apply with_secondaries_indexes.
Qed.

Lemma deleteSecondaryIndexes_indexes c header isRollback :
  ∃ idxs, (deleteSecondaryIndexes c header isRollback).2
          = Col.set_indexes c idxs (_cleanupIndexes c) (_persistentIndexes c).
Proof.
  unfold deleteSecondaryIndexes. destruct (_ && _).
  - exists (_indexes c). by rewrite set_indexes_same.
  - destruct (deleteSecondaryLoop _ _ _ _ _ _) as [r secs]. cbn [snd].
    apply with_secondaries_indexes.
Qed.

Lemma load_store_other p h h' v :
  h' ≠ h → MasterPointersOps.load (MasterPointersOps.store p h v) h'
           = MasterPointersOps.load p h'.
Proof.
  intros Hne. unfold MasterPointersOps.load, MasterPointersOps.store. cbn.
  by rewrite lookup_insert_ne.
Qed.

(** X3.  [updateDocument] touches one handle and the secondary indexes:
    whatever it returns, the primary index, the document counter, the free
    list of the handle pool, the content of every other handle and the
    clock are what they were. *)
Theorem updateDocument_touches_one_handle w revisionId oldHeader operation mptr
    waitForSync :
  let c := w_collection w in
  let w' := (updateDocument w revisionId oldHeader operation mptr waitForSync).1.1.1.2 in
  let c' := w_collection w' in
  _primaryIndex c' = _primaryIndex c
  ∧ _numberDocuments c' = _numberDocuments c
  ∧ mp_free (_masterPointers c') = mp_free (_masterPointers c)
  ∧ (∀ h, h ≠ oldHeader → Col.load c' h = Col.load c h)
  ∧ w_clock w' = w_clock w.
Proof.
  intros c. unfold updateDocument. fold c.
  destruct (deleteSecondaryIndexes_indexes c oldHeader false) as [i1 E1].
  destruct (deleteSecondaryIndexes c oldHeader false) as [r1 c1].
  cbn [snd] in E1. subst c1.
  set (c1 := Col.set_indexes c i1 _ _).
  destruct (is_error r1).
  { destruct (insertSecondaryIndexes_indexes c1 oldHeader true) as [i2 E2].
    destruct (insertSecondaryIndexes c1 oldHeader true) as [r2 c2].
    cbn [snd] in E2. subst c2. cbn. done. }
  set (c2 := Col.store c1 oldHeader _).
  destruct (insertSecondaryIndexes_indexes c2 oldHeader false) as [i3 E3].
  destruct (insertSecondaryIndexes c2 oldHeader false) as [r3 c3].
  cbn [snd] in E3. subst c3.
  set (c3 := Col.set_indexes c2 i3 _ _).
  destruct (is_error r3).
  { destruct (deleteSecondaryIndexes_indexes c3 oldHeader true) as [i4 E4].
    destruct (deleteSecondaryIndexes c3 oldHeader true) as [r4 c4].
    cbn [snd] in E4. subst c4.
    set (c4 := Col.set_indexes c3 i4 _ _).
    set (c5 := Col.store c4 oldHeader _).
    destruct (insertSecondaryIndexes_indexes c5 oldHeader true) as [i6 E6].
    destruct (insertSecondaryIndexes c5 oldHeader true) as [r6 c6].
    cbn [snd] in E6. subst c6. cbn.
    repeat (split; [done|]). split; [|done].
    intros h Hne. unfold Col.load. cbn. by rewrite !load_store_other. }
  destruct (TRI_AddOperationTransaction _ _ _) as [[[r4 trx] op'] wfs']. cbn.
  repeat (split; [done|]). split; [|done].
  intros h Hne. unfold Col.load. cbn. by rewrite load_store_other.
Qed.

(** X4.  A failure of [updateDocument] in an index leaves the document as
    it was.  When the write-ahead log would accept the operation and
    [updateDocument] still returns an error, the handle has the content
    from before the call, nothing went to the log, and the operation and
    the result parameters are those the caller passed. *)
Theorem updateDocument_failure_keeps_document w revisionId oldHeader operation mptr
    waitForSync res w' operation' mptr' waitForSync' :
  updateDocument w revisionId oldHeader operation mptr waitForSync
  = (res, w', operation', mptr', waitForSync') →
  addOperation_result (w_trx w) (Op.indexed operation) = TRI_ERROR_NO_ERROR →
  res ≠ TRI_ERROR_NO_ERROR →
  Col.load (w_collection w') oldHeader = Col.load (w_collection w) oldHeader
  ∧ w_trx w' = w_trx w
  ∧ operation' = operation ∧ mptr' = mptr ∧ waitForSync' = waitForSync.
Proof.
  intros Hcall Hwal Herr. unfold updateDocument in Hcall.
  set (c := w_collection w) in *.
  destruct (deleteSecondaryIndexes_indexes c oldHeader false) as [i1 E1].
  destruct (deleteSecondaryIndexes c oldHeader false) as [r1 c1].
  cbn [snd] in E1. subst c1.
  set (c1 := Col.set_indexes c i1 _ _) in *.
  destruct (is_error r1).
  { destruct (insertSecondaryIndexes_indexes c1 oldHeader true) as [i2 E2].
    destruct (insertSecondaryIndexes c1 oldHeader true) as [r2 c2].
    cbn [snd] in E2. subst c2. by simplify_eq. }
  set (c2 := Col.store c1 oldHeader _) in *.
  destruct (insertSecondaryIndexes_indexes c2 oldHeader false) as [i3 E3].
  destruct (insertSecondaryIndexes c2 oldHeader false) as [r3 c3].
  cbn [snd] in E3. subst c3.
  set (c3 := Col.set_indexes c2 i3 _ _) in *.
  destruct (is_error r3).
  { destruct (deleteSecondaryIndexes_indexes c3 oldHeader true) as [i4 E4].
    destruct (deleteSecondaryIndexes c3 oldHeader true) as [r4 c4].
    cbn [snd] in E4. subst c4.
    set (c4 := Col.set_indexes c3 i4 _ _) in *.
    set (c5 := Col.store c4 oldHeader _) in *.
    destruct (insertSecondaryIndexes_indexes c5 oldHeader true) as [i6 E6].
    destruct (insertSecondaryIndexes c5 oldHeader true) as [r6 c6].
    cbn [snd] in E6. subst c6. simplify_eq.
    split; [|done]. unfold Col.load. cbn. by rewrite load_store. }
  unfold TRI_AddOperationTransaction in Hcall.
  rewrite Hwal, is_error_no_error in Hcall. by simplify_eq.
Qed.
End UpdateDocument.

Section UpdateDocumentOnTheSample.
#[local] Existing Instance Sample.environment.

(** The marker of a new version of the first person with [x = 6], and the
    attempt to store it while the index on [x] cannot allocate. *)
Lemma updateDocument_failure_keeps_document_witness :
  let operation :=
    Op.init
      (Op.set_header
         (Op.make (Sample.markerOf TRI_DF_MARKER_VPACK_DOCUMENT 0
                     (Sample.person "a" "2" 6 8))
            TRI_VOC_DOCUMENT_OPERATION_UPDATE) 1) Sample.users in
  let r :=
    @updateDocument (Sample.indexes {[ 11 ]}) Sample.environment
      (Sample.world Sample.users) 2 1 operation Mptr.fresh false in
  r.1.1.1.1 = TRI_ERROR_OUT_OF_MEMORY
  ∧ Col.load (w_collection r.1.1.1.2) 1 = Col.load Sample.users 1
  ∧ w_trx r.1.1.1.2 = w_trx (Sample.world Sample.users)
  ∧ r.1.1.2 = operation ∧ r.1.2 = Mptr.fresh ∧ r.2 = false.
Proof.
  cbv zeta. split; [vm_compute; reflexivity|].
  eapply (@updateDocument_failure_keeps_document (Sample.indexes {[ 11 ]})
            Sample.environment (Sample.world Sample.users) 2 1 _ Mptr.fresh false
            TRI_ERROR_OUT_OF_MEMORY).
  - vm_compute. reflexivity.
  - reflexivity.
  - discriminate.
Defined.
End UpdateDocumentOnTheSample.

(** ** The object an update stores *)

Section Merge.
Context `{Environment}.

Lemma find_value_app l1 l2 a :
  find_value (l1 ++ l2) a
  = match find_value l1 a with Some v => Some v | None => find_value l2 a end.
Proof.
  induction l1 as [|[k v] l1 IH]; [done|]. cbn. by destruct (String.eqb k a).
Qed.

Lemma lookup_member_find l a :
  VPack.lookup_member l a = default VNone (find_value l a).
Proof.
  induction l as [|[k v] l IH]; [done|]. cbn. by destruct (String.eqb k a).
Qed.

Lemma find_value_set_other nv key x a :
  key ≠ a → find_value (set_value nv key x) a = find_value nv a.
Proof.
  intros Hne. induction nv as [|[k v] nv IH]; [done|]. cbn.
  destruct (String.eqb_spec k key) as [->|Hk]; cbn.
  - by rewrite (proj2 (String.eqb_neq key a) Hne).
  - destruct (String.eqb k a); [done | exact IH].
Qed.

Lemma find_value_set_same nv a v x :
  find_value nv a = Some v → find_value (set_value nv a x) a = Some x.
Proof.
  induction nv as [|[k w] nv IH]; [done|]. cbn.
  destruct (String.eqb_spec k a) as [->|Hk]; cbn.
  - by rewrite String.eqb_refl.
  - rewrite (proj2 (String.eqb_neq k a) Hk). exact IH.
Qed.

Lemma set_value_keys nv key x : (set_value nv key x).*1 = nv.*1.
Proof.
  induction nv as [|[k v] nv IH]; [done|]. cbn.
  destruct (String.eqb k key); cbn; [done | by rewrite IH].
Qed.

Lemma find_value_None l a : find_value l a = None ↔ a ∉ l.*1.
Proof.
  induction l as [|[k v] l IH]; cbn.
  - split; [intros _ Hin; by apply elem_of_nil in Hin | done].
  - rewrite not_elem_of_cons. destruct (String.eqb_spec k a) as [->|Hk].
    + split; [done | by intros [? _]].
    + rewrite IH. split; [by intros ? | by intros [_ ?]].
Qed.

Lemma system_name_differs a key :
  isSystemAttribute a = false → isSystemAttribute key = true → key ≠ a.
Proof. intros Ha Hk ->. congruence. Qed.

(** The first loop: the map holds, for a regular name, the first value the
    delta gives it. *)
Lemma scanNewValue_find members a : ∀ fromSlice toSlice nv,
  isSystemAttribute a = false →
  find_value (scanNewValue members fromSlice toSlice nv).2 a
  = match find_value nv a with Some v => Some v | None => find_value members a end.
Proof.
  induction members as [|[key value] rest IH]; intros fromSlice toSlice nv Ha.
  - cbn. by destruct (find_value nv a).
  - cbn [scanNewValue find_value].
    destruct (isSystemAttribute key) eqn:Ek.
    + rewrite (proj2 (String.eqb_neq key a) (system_name_differs _ _ Ha Ek)).
      destruct (String.eqb key VPack.FromString); [by apply IH|].
      destruct (String.eqb key VPack.ToString); by apply IH.
    + destruct (find_value nv key) as [w|] eqn:Ew.
      * rewrite IH by done.
        destruct (String.eqb_spec key a) as [->|Hk]; [by rewrite Ew | done].
      * rewrite IH by done. rewrite find_value_app. cbn.
        destruct (String.eqb_spec key a) as [->|Hk].
        -- by rewrite Ew.
        -- by destruct (find_value nv a).
Qed.

Lemma scanNewValue_keys members : ∀ fromSlice toSlice nv,
  NoDup nv.*1 → NoDup (scanNewValue members fromSlice toSlice nv).2.*1.
Proof.
  induction members as [|[key value] rest IH]; intros fromSlice toSlice nv Hnd;
    [done|].
  cbn [scanNewValue]. destruct (isSystemAttribute key).
  - destruct (String.eqb key VPack.FromString); [by apply IH|].
    destruct (String.eqb key VPack.ToString); by apply IH.
  - destruct (find_value nv key) as [w|] eqn:Ew; [by apply IH|].
    apply IH. rewrite fmap_app. cbn. apply NoDup_app. split; [done|].
    split; [|apply NoDup_singleton].
    intros x Hx Hin. apply list_elem_of_singleton in Hin as ->.
    by apply find_value_None in Ew.
Qed.

(** The second loop, seen from one regular name. *)
Lemma mergeOldValue_find mo kn a members : ∀ nv,
  isSystemAttribute a = false →
  let r := mergeOldValue members mo kn nv in
  r.2.*1 = nv.*1
  ∧ match find_value nv a with
    | None => find_value r.1 a = find_value members a ∧ find_value r.2 a = None
    | Some v =>
        match find_value members a with
        | None => find_value r.1 a = None ∧ find_value r.2 a = Some v
        | Some o =>
            find_value r.2 a = Some VNone
            ∧ find_value r.1 a
              = if kn || (negb (VPack.isNone v) && negb (VPack.isNull v))
                then Some (if mo && VPack.isObject o && VPack.isObject v
                           then VPackCollection_merge o v true (negb kn) else v)
                else None
        end
    end.
Proof.
  induction members as [|[key old] rest IH]; intros nv Ha.
  - cbn. split; [done|]. by destruct (find_value nv a).
  - cbn [mergeOldValue find_value]. destruct (isSystemAttribute key) eqn:Ek.
    { rewrite (proj2 (String.eqb_neq key a) (system_name_differs _ _ Ha Ek)).
      by apply IH. }
    destruct (find_value nv key) as [value|] eqn:Ev.
    + specialize (IH (set_value nv key VNone) Ha). cbv zeta in IH.
      destruct (mergeOldValue rest mo kn (set_value nv key VNone)) as [added nv'].
      cbn [fst snd] in *. destruct IH as [Hkeys IH].
      rewrite set_value_keys in Hkeys. split; [done|].
      destruct (String.eqb_spec key a) as [->|Hk].
      * rewrite Ev. rewrite (find_value_set_same _ _ _ VNone Ev) in IH.
        rewrite find_value_app.
        assert (Hrest : find_value nv' a = Some VNone
                        ∧ (kn = false → find_value added a = None)).
        { destruct (find_value rest a); destruct IH as [E1 E2]; (split; [done|]).
          - intros ->. by rewrite E2.
          - done. }
        destruct Hrest as [Hnv Hadded]. split; [done|].
        destruct (mo && VPack.isObject old && VPack.isObject value);
          unfold add_if;
          destruct (kn || (negb (VPack.isNone value) && negb (VPack.isNull value)))
            eqn:Ekeep; cbn; rewrite ?String.eqb_refl; try done;
          apply Hadded; by destruct kn.
      * rewrite (find_value_set_other _ _ _ _ Hk) in IH.
        rewrite find_value_app.
        assert (Hhere : ∀ x, find_value (add_if
                   (kn || (negb (VPack.isNone value) && negb (VPack.isNull value)))
                   key x) a = None).
        { intros x. unfold add_if. destruct (_ || _); [|done]. cbn.
          by rewrite (proj2 (String.eqb_neq key a) Hk). }
        destruct (mo && VPack.isObject old && VPack.isObject value);
          rewrite Hhere; exact IH.
    + specialize (IH nv Ha). cbv zeta in IH.
      destruct (mergeOldValue rest mo kn nv) as [added nv'].
      cbn [fst snd find_value] in *. destruct IH as [Hkeys IH]. split; [done|].
      destruct (String.eqb_spec key a) as [->|Hk].
      * rewrite Ev in *. by destruct IH.
      * exact IH.
Qed.

Lemma find_value_filter_None (p : string * VPackSlice → bool) l a :
  find_value l a = None → find_value (List.filter p l) a = None.
Proof.
  rewrite !find_value_None. intros Hn Hin. apply Hn.
  apply list_elem_of_fmap in Hin as [[k v] [-> Hin]].
  apply list_elem_of_In, filter_In in Hin as [Hin _].
  apply list_elem_of_fmap. exists (k, v). split; [done|]. by apply list_elem_of_In.
Qed.

(** The third loop takes the values that are still there. *)
Lemma remainingNewValues_find kn nv a :
  NoDup nv.*1 →
  find_value (remainingNewValues kn nv) a
  = match find_value nv a with
    | Some v =>
        if negb (VPack.isNone v) && negb (negb kn && VPack.isNull v)
        then Some v else None
    | None => None
    end.
Proof.
  unfold remainingNewValues. induction nv as [|[k x] nv IH]; intros Hnd; [done|].
  cbn in Hnd. apply NoDup_cons in Hnd as [Hk Hnd]. cbn [List.filter find_value snd].
  destruct (String.eqb_spec k a) as [->|Hne].
  - destruct (negb (VPack.isNone x) && negb (negb kn && VPack.isNull x)).
    + cbn. by rewrite String.eqb_refl.
    + apply find_value_filter_None. by apply find_value_None.
  - destruct (negb (VPack.isNone x) && negb (negb kn && VPack.isNull x)).
    + cbn. rewrite (proj2 (String.eqb_neq k a) Hne). by apply IH.
    + by apply IH.
Qed.

(** A map with one value a name: what [find] answers does not depend on
    the order of the entries. *)
Lemma find_value_elem l a v :
  NoDup l.*1 → find_value l a = Some v ↔ (a, v) ∈ l.
Proof.
  induction l as [|[k x] l IH]; intros Hnd.
  - cbn. split; [done | intros Hin; by apply elem_of_nil in Hin].
  - cbn in Hnd. apply NoDup_cons in Hnd as [Hk Hnd]. cbn [find_value].
    rewrite elem_of_cons. destruct (String.eqb_spec k a) as [->|Hne].
    + split.
      * intros [= ->]. by left.
      * intros [[= ->]|Hin]; [done|]. exfalso. apply Hk.
        apply list_elem_of_fmap. by exists (a, v).
    + rewrite (IH Hnd). split; [by right|]. by intros [[= -> ->]|Hin].
Qed.

Lemma find_value_permutation l l' a :
  l ≡ₚ l' → NoDup l'.*1 → find_value l a = find_value l' a.
Proof.
  intros Hp Hnd'.
  assert (Hnd : NoDup l.*1) by (by rewrite Hp).
  destruct (find_value l a) as [v|] eqn:E.
  - symmetry. apply (find_value_elem l' a v Hnd'). rewrite <- Hp.
    by apply (find_value_elem l a v Hnd).
  - destruct (find_value l' a) as [v'|] eqn:E'; [|done].
    apply (find_value_elem l' a v' Hnd') in E'. rewrite <- Hp in E'.
    apply (find_value_elem l a v' Hnd) in E'. congruence.
Qed.

Lemma regular_name a :
  isSystemAttribute a = false →
  String.eqb VPack.KeyString a = false ∧ String.eqb VPack.IdString a = false
  ∧ String.eqb VPack.FromString a = false ∧ String.eqb VPack.ToString a = false
  ∧ String.eqb VPack.RevString a = false.
Proof.
  intros Ha. repeat split; apply String.eqb_neq; intros <-; discriminate Ha.
Qed.

(** X5.  What [mergeObjectsForUpdate] builds.  The object has the [_key]
    and the [_id] of the stored document and the new revision as [_rev],
    whatever the delta says about them.  A regular attribute that the delta
    does not name keeps its value; one that the delta names gets the first
    value the delta gives it, merged with the old value when both are
    objects and [mergeObjects] is set; and a null value removes the
    attribute unless [keepNull] is set. *)
Theorem mergeObjectsForUpdate_attributes oldValue newValue isEdge rev mo kn :
  let merged := mergeObjectsForUpdate oldValue newValue isEdge rev mo kn in
  VPack.get merged VPack.KeyString = VPack.get oldValue VPack.KeyString
  ∧ VPack.get merged VPack.IdString = VPack.get oldValue VPack.IdString
  ∧ VPack.get merged VPack.RevString = VString rev
  ∧ ∀ a, isSystemAttribute a = false →
      VPack.get merged a
      = updatedAttribute mo kn (find_value (members_of oldValue) a)
          (find_value (members_of newValue) a).
Proof.
  intros merged. unfold merged, mergeObjectsForUpdate.
  pose proof (scanNewValue_find (members_of newValue)) as Hscan.
  pose proof (scanNewValue_keys (members_of newValue) VNone VNone []
                (NoDup_nil_2 (A := string))) as Hnd.
  destruct (scanNewValue (members_of newValue) VNone VNone [])
    as [[fromSlice toSlice] nv] eqn:Es.
  pose proof (mergeOldValue_find mo kn) as Hmerge.
  destruct (mergeOldValue (members_of oldValue) mo kn nv) as [added nv'] eqn:Em.
  split; [done|]. split; [done|]. split; [by destruct isEdge|].
  intros a Ha.
  specialize (Hscan a VNone VNone [] Ha). rewrite Es in Hscan.
  cbn [snd find_value] in Hscan, Hnd.
  specialize (Hmerge a (members_of oldValue) nv Ha). cbv zeta in Hmerge.
  rewrite Em in Hmerge. cbn [fst snd] in Hmerge. destruct Hmerge as [Hkeys Hmerge].
  destruct (regular_name a Ha) as (Hkey & Hid & Hfrom & Hto & Hrev).
  assert (Hget : VPack.get
            (VObject
               ([(VPack.KeyString, VPack.get oldValue VPack.KeyString);
                 (VPack.IdString, VPack.get oldValue VPack.IdString)]
                ++ (if isEdge
                    then [(VPack.FromString,
                           if isEdge && VPack.isNone fromSlice
                           then VPack.get oldValue VPack.FromString else fromSlice);
                          (VPack.ToString,
                           if isEdge && VPack.isNone toSlice
                           then VPack.get oldValue VPack.ToString else toSlice)]
                    else [])
                ++ [(VPack.RevString, VString rev)]
                ++ added ++ remainingNewValues kn (unordered_map_iteration nv'))) a
          = default VNone
              (find_value
                 (added ++ remainingNewValues kn (unordered_map_iteration nv')) a)).
  { cbn [VPack.get app VPack.lookup_member]. rewrite Hkey, Hid.
    destruct isEdge; cbn [app VPack.lookup_member];
      rewrite ?Hfrom, ?Hto, Hrev; apply lookup_member_find. }
  assert (Hnd' : NoDup nv'.*1) by (by rewrite Hkeys).
  rewrite Hget, find_value_app, remainingNewValues_find
    by (by rewrite (unordered_map_iteration_permutes nv')).
  rewrite (find_value_permutation _ nv' a (unordered_map_iteration_permutes nv') Hnd').
  rewrite Hscan in Hmerge. unfold updatedAttribute.
  destruct (find_value (members_of newValue) a) as [v|].
  - destruct (find_value (members_of oldValue) a) as [o|];
      destruct Hmerge as [E1 E2]; rewrite E1, E2.
    + destruct (kn || (negb (VPack.isNone v) && negb (VPack.isNull v))); done.
    + destruct v, kn; done.
  - destruct Hmerge as [E1 E2]. rewrite E1, E2.
    by destruct (find_value (members_of oldValue) a).
Qed.
End Merge.

(** ** The entry points update, replace and remove *)

Section EntryPoints.
Context `{IndexImplementations} `{Environment}.

Lemma deleteSecondaryIndexes_frame c header isRollback r c1 :
  deleteSecondaryIndexes c header isRollback = (r, c1) →
  _masterPointers c1 = _masterPointers c ∧ _primaryIndex c1 = _primaryIndex c
  ∧ _numberDocuments c1 = _numberDocuments c.
Proof.
  intros E. destruct (deleteSecondaryIndexes_indexes c header isRollback) as [i Hi].
  rewrite E in Hi. cbn [snd] in Hi. by subst c1.
Qed.

Lemma insertSecondaryIndexes_frame c header isRollback r c1 :
  insertSecondaryIndexes c header isRollback = (r, c1) →
  _masterPointers c1 = _masterPointers c ∧ _primaryIndex c1 = _primaryIndex c
  ∧ _numberDocuments c1 = _numberDocuments c.
Proof.
  intros E. destruct (insertSecondaryIndexes_indexes c header isRollback) as [i Hi].
  rewrite E in Hi. cbn [snd] in Hi. by subst c1.
Qed.

(** X6.  A successful update.  Outside restore and recovery, an update of
    a document that is there, with a delta of more than one member that
    passes the revision check and, on a DB server, leaves the sharding
    keys as they are, stores the object [mergeObjectsForUpdate] builds
    under the revision the clock gives (its attributes that only the delta
    has in the order in which the [std::unordered_map] of the new values
    is gone through): when the secondary indexes take the change and the
    write-ahead log accepts the operation, the result is
    [TRI_ERROR_NO_ERROR], the handle of the key points to the marker with
    the merged object, the result parameters hold the new and the previous
    version, the log has one more update operation, and primary index and
    document counter are unchanged. *)
Theorem update_stores_merged_document w newSlice options out k oldHeader c1 c3 :
  let c := w_collection w in
  let old := Col.load c oldHeader in
  let merged :=
    mergeObjectsForUpdate (documentOf old) newSlice (isEdgeCollection c)
      (TRI_RidToString (w_clock w + 1)) (mergeObjects options) (keepNull options) in
  let marker := CrudMarker TRI_DF_MARKER_VPACK_DOCUMENT merged in
  let new := Mptr.setVPack old (Some marker) in
  let operation :=
    Op.init (Op.set_header (Op.make marker TRI_VOC_DOCUMENT_OPERATION_UPDATE) oldHeader)
      c in
  VPack.isObject newSlice = true →
  isRestore options = false →
  recoveryMarker options = None →
  VPack.get newSlice VPack.KeyString = VString k →
  _primaryIndex c !! k = Some oldHeader →
  (ignoreRevs options = false →
   checkRevision (VPack.get newSlice VPack.RevString) (Mptr.revisionIdAsSlice old)
   = TRI_ERROR_NO_ERROR) →
  1 < VPack.length newSlice →
  trx_isDBServer (w_trx w) && shardKeysChanged (_info_name c) (documentOf old) merged
  = false →
  deleteSecondaryIndexes c oldHeader false = (TRI_ERROR_NO_ERROR, c1) →
  insertSecondaryIndexes (Col.store c1 oldHeader new) oldHeader false
  = (TRI_ERROR_NO_ERROR, c3) →
  addOperation_result (w_trx w) (Op.indexed operation) = TRI_ERROR_NO_ERROR →
  ∃ out' w',
    update w newSlice options out = (TRI_ERROR_NO_ERROR, out', w')
    ∧ w_collection w' = c3
    ∧ Col.load c3 oldHeader = new
    ∧ documentOf new = merged
    ∧ out_mptr out' = new
    ∧ out_previous out' = old
    ∧ out_prevRev out' = Mptr.revisionIdAsSlice old
    ∧ _primaryIndex c3 = _primaryIndex c
    ∧ _numberDocuments c3 = _numberDocuments c
    ∧ trx_operations (w_trx w')
      = trx_operations (w_trx w)
        ++ [(TRI_VOC_DOCUMENT_OPERATION_UPDATE, marker, trx_lastTick (w_trx w) + 1)]
    ∧ w_clock w' = w_clock w + 1.
Proof.
  intros c old merged marker new operation Hobj Hrestore Hrecovery Hkey Hfound
    Hcheck Hlen Hshard Hdel Hins Hwal.
  destruct (deleteSecondaryIndexes_frame _ _ _ _ _ Hdel) as (Hp1 & Hk1 & Hn1).
  destruct (insertSecondaryIndexes_frame _ _ _ _ _ Hins) as (Hp3 & Hk3 & Hn3).
  assert (Hload1 : Col.load c1 oldHeader = old).
  { unfold Col.load. by rewrite Hp1. }
  assert (Hload3 : Col.load c3 oldHeader = new).
  { unfold Col.load. rewrite Hp3. cbn. apply load_store. }
  unfold update. rewrite Hobj, Hrestore. cbn [negb andb].
  rewrite Hkey. cbn [VPack.isNone Wd.TRI_HybridLogicalClock w_collection]. fold c.
  rewrite (lookupDocument_found c k oldHeader Hfound). fold old.
  assert (Hrev : (if negb (ignoreRevs options)
                  then checkRevision (VPack.get newSlice VPack.RevString)
                         (Mptr.revisionIdAsSlice old)
                  else TRI_ERROR_NO_ERROR) = TRI_ERROR_NO_ERROR).
  { destruct (ignoreRevs options); [done|]. by apply Hcheck. }
  rewrite Hrev, is_error_no_error.
  assert (Hl : (VPack.length newSlice <=? 1) = false) by (apply Z.leb_gt; lia).
  rewrite Hl, Hrecovery. cbn [w_trx]. fold merged. rewrite Hshard.
  unfold runUpdate. rewrite Hrecovery. fold marker.
  cbn [w_collection]. fold c. fold operation.
  unfold updateDocument. cbn [w_collection]. fold c. rewrite Hdel, is_error_no_error.
  rewrite Hload1. fold old.
  change (op_marker operation) with marker. fold new.
  rewrite Hins, is_error_no_error.
  unfold TRI_AddOperationTransaction. cbn [w_trx]. rewrite Hwal, is_error_no_error.
  rewrite Hload3.
  destruct (waitForSync options); eexists _, _; (split; [reflexivity|]);
    cbn; rewrite ?Hk3, ?Hn3; cbn; rewrite ?Hk1, ?Hn1; done.
Qed.

(** X7.  A successful remove.  Outside restore and recovery, the remove of
    a document that is there and passes the revision check takes the key
    out of the primary index and counts the documents down by one; a
    lookup of the key no longer finds it; the log has one more remove
    operation, whose marker carries the key and the new revision; the
    handle pool is not touched. *)
Theorem remove_takes_document_out w slice options out k oldHeader c1 :
  let c := w_collection w in
  let old := Col.load c oldHeader in
  let marker :=
    CrudMarker TRI_DF_MARKER_VPACK_REMOVE
      (newObjectForRemove slice (TRI_RidToString (w_clock w + 1))) in
  let operation :=
    Op.init (Op.set_header (Op.make marker TRI_VOC_DOCUMENT_OPERATION_REMOVE) oldHeader)
      c in
  (if VPack.isString slice then slice else VPack.get slice VPack.KeyString)
  = VString k →
  isRestore options = false →
  recoveryMarker options = None →
  _primaryIndex c !! k = Some oldHeader →
  Mptr.key old = VString k →
  (ignoreRevs options = false → VPack.isObject slice = true →
   checkRevision (VPack.get slice VPack.RevString) (Mptr.revisionIdAsSlice old)
   = TRI_ERROR_NO_ERROR) →
  deleteSecondaryIndexes c oldHeader false = (TRI_ERROR_NO_ERROR, c1) →
  addOperation_result (w_trx w) (Op.indexed operation) = TRI_ERROR_NO_ERROR →
  ∃ out' w',
    remove w slice options out = (TRI_ERROR_NO_ERROR, out', w')
    ∧ _primaryIndex (w_collection w') = delete k (_primaryIndex c)
    ∧ lookupDocument (w_collection w') (VString k)
      = (TRI_ERROR_ARANGO_DOCUMENT_NOT_FOUND, None)
    ∧ _numberDocuments (w_collection w') = _numberDocuments c - 1
    ∧ _indexes (w_collection w') = _indexes c1
    ∧ _masterPointers (w_collection w') = _masterPointers c
    ∧ out_previous out' = old
    ∧ out_prevRev out' = Mptr.revisionIdAsSlice old
    ∧ trx_operations (w_trx w')
      = trx_operations (w_trx w)
        ++ [(TRI_VOC_DOCUMENT_OPERATION_REMOVE, marker, trx_lastTick (w_trx w) + 1)].
Proof.
  intros c old marker operation Hkey Hrestore Hrecovery Hfound Hold Hcheck Hdel Hwal.
  destruct (deleteSecondaryIndexes_frame _ _ _ _ _ Hdel) as (Hp1 & Hk1 & Hn1).
  unfold remove. rewrite Hrestore, Hrecovery.
  cbn [Wd.TRI_HybridLogicalClock w_collection]. fold c. rewrite Hkey.
  rewrite (lookupDocument_found c k oldHeader Hfound). fold old.
  assert (Hrev : (if negb (ignoreRevs options) && VPack.isObject slice
                  then checkRevision (VPack.get slice VPack.RevString)
                         (Mptr.revisionIdAsSlice old)
                  else TRI_ERROR_NO_ERROR) = TRI_ERROR_NO_ERROR).
  { destruct (ignoreRevs options); [done|]. cbn [negb andb].
    destruct (VPack.isObject slice) eqn:Eo; [by apply Hcheck | done]. }
  rewrite Hrev, is_error_no_error. rewrite Hdel, is_error_no_error.
  rewrite (deletePrimaryIndex_present c1 oldHeader k oldHeader).
  2:{ unfold Col.load. rewrite Hp1. exact Hold. }
  2:{ by rewrite Hk1. }
  rewrite is_error_no_error. fold marker. fold operation.
  unfold TRI_AddOperationTransaction. cbn [w_trx]. rewrite Hwal, is_error_no_error.
  eexists _, _. split; [reflexivity|]. cbn. rewrite Hk1, Hn1, Hp1.
  unfold lookupDocument. cbn. rewrite lookup_delete_eq. done.
Qed.

(** X8.  A remove of a key that is not there changes nothing.  The
    request names its key as the code demands it (the assertions of
    [remove] and of [newObjectForRemove]): the slice is a string, or it is
    an object whose [_key] is a string.  When the primary index has no
    handle for that key, [remove] returns
    [TRI_ERROR_ARANGO_DOCUMENT_NOT_FOUND], reports no previous revision and
    no marker tick, and the collection and the transaction are those before
    the call. *)
Theorem remove_unknown_key w slice options out k :
  slice = VString k
  ∨ VPack.isObject slice = true ∧ VPack.get slice VPack.KeyString = VString k →
  _primaryIndex (w_collection w) !! k = None →
  ∃ out' w',
    remove w slice options out = (TRI_ERROR_ARANGO_DOCUMENT_NOT_FOUND, out', w')
    ∧ out_prevRev out' = VNone ∧ out_resultMarkerTick out' = 0
    ∧ w_collection w' = w_collection w ∧ w_trx w' = w_trx w.
Proof.
  intros Hslice Hnone. unfold remove.
  assert (Hstep : ∃ revisionId w1,
            (if isRestore options then
               if negb (VPack.isString (TRI_ExtractRevisionIdAsSlice slice))
               then Wd.TRI_HybridLogicalClock w
               else
                 let '(rid, isOld) :=
                   TRI_StringToRid (copyString (TRI_ExtractRevisionIdAsSlice slice)) in
                 if isOld then Wd.TRI_HybridLogicalClock w else (rid, w)
             else Wd.TRI_HybridLogicalClock w) = (revisionId, w1)
            ∧ w_collection w1 = w_collection w ∧ w_trx w1 = w_trx w).
  { destruct (isRestore options); [|by eexists _, _].
    destruct (negb _); [by eexists _, _|].
    destruct (TRI_StringToRid _) as [rid [|]]; by eexists _, _. }
  destruct Hstep as (revisionId & w1 & -> & Hc & Ht).
  assert (Hkey : (if VPack.isString slice then slice
                  else VPack.get slice VPack.KeyString) = VString k).
  { destruct Hslice as [->|[Hobj Hkey]]; [done|]. by destruct slice. }
  rewrite Hkey. unfold lookupDocument. cbn [VPack.isString negb PrimaryIndex.lookupKey].
  rewrite Hc, Hnone. by eexists _, _.
Qed.

(** X9.  An update or a replace of a key that is not there changes
    nothing.  For an object that gets as far as the lookup (in restore mode
    it carries a revision string, for a replace in an edge collection the
    two edge attributes), when the primary index has no handle for the
    [_key], both return [TRI_ERROR_ARANGO_DOCUMENT_HANDLE_BAD] if there is
    no [_key], [TRI_ERROR_ARANGO_DOCUMENT_KEY_BAD] if it is no string and
    [TRI_ERROR_ARANGO_DOCUMENT_NOT_FOUND] else; the collection and the
    transaction are those before the call. *)
Theorem update_replace_unknown_key w newSlice options out :
  let c := w_collection w in
  let key := VPack.get newSlice VPack.KeyString in
  let code :=
    if VPack.isNone key then TRI_ERROR_ARANGO_DOCUMENT_HANDLE_BAD
    else if VPack.isString key then TRI_ERROR_ARANGO_DOCUMENT_NOT_FOUND
    else TRI_ERROR_ARANGO_DOCUMENT_KEY_BAD in
  VPack.isObject newSlice = true →
  (isRestore options = true →
   VPack.isString (TRI_ExtractRevisionIdAsSlice newSlice) = true) →
  PrimaryIndex.lookupKey (_primaryIndex c) key = None →
  (∃ out' w',
     update w newSlice options out = (code, out', w')
     ∧ w_collection w' = c ∧ w_trx w' = w_trx w)
  ∧ ((isEdgeCollection c = true →
      VPack.isString (VPack.get newSlice VPack.FromString) = true
      ∧ VPack.isString (VPack.get newSlice VPack.ToString) = true) →
     ∃ out' w',
       replace w newSlice options out = (code, out', w')
       ∧ w_collection w' = c ∧ w_trx w' = w_trx w).
Proof.
  intros c key code Hobj Hrestore Hnone.
  assert (Hr : isRestore options
               && negb (VPack.isString (TRI_ExtractRevisionIdAsSlice newSlice)) = false).
  { destruct (isRestore options); [by rewrite Hrestore | done]. }
  split.
  - unfold update. rewrite Hobj. cbn [negb]. rewrite Hr.
    destruct (revision_step (isRestore options)
                (TRI_ExtractRevisionIdAsSlice newSlice) w)
      as (revisionId & w' & -> & Hc & Ht).
    fold key. unfold code. destruct (VPack.isNone key) eqn:En; [by eexists _, _|].
    rewrite Hc. fold c. unfold lookupDocument. rewrite Hnone.
    destruct (VPack.isString key); cbn; by eexists _, _.
  - intros Hedge. unfold replace. rewrite Hobj. cbn [negb]. fold c.
    assert (He : (isEdgeCollection c
                  && negb (VPack.isString
                             (if isEdgeCollection c
                              then VPack.get newSlice VPack.FromString else VNone)) = false)
                 ∧ (isEdgeCollection c
                    && negb (VPack.isString
                               (if isEdgeCollection c
                                then VPack.get newSlice VPack.ToString else VNone)) = false)).
    { destruct (isEdgeCollection c); [|done].
      destruct Hedge as [-> ->]; done. }
    destruct He as [-> ->]. rewrite Hr.
    destruct (revision_step (isRestore options)
                (TRI_ExtractRevisionIdAsSlice newSlice) w)
      as (revisionId & w' & -> & Hc & Ht).
    fold key. unfold code. destruct (VPack.isNone key) eqn:En; [by eexists _, _|].
    rewrite Hc. fold c. unfold lookupDocument. rewrite Hnone.
    destruct (VPack.isString key); cbn; by eexists _, _.
Qed.
End EntryPoints.

Section EntryPointsOnTheSample.
#[local] Existing Instance Sample.healthy.
#[local] Existing Instance Sample.environment.

(** The first person gets [x = 6] and two attributes it did not have: the
    stored object keeps key, id and [y], carries the revision 42 that the
    clock gives, and has the two new attributes last, in the order of the
    sample's map, which is not the order of the delta. *)
Lemma update_stores_merged_document_witness :
  let delta :=
    VObject [(VPack.KeyString, VString "a"); ("x"%string, VNumber 6);
             ("p"%string, VNumber 1); ("q"%string, VNumber 2)] in
  let r := update (Sample.world Sample.users) delta Sample.options Sample.outputs in
  r.1.1 = TRI_ERROR_NO_ERROR
  ∧ documentOf (Col.load (w_collection r.2) 1)
    = VObject [(VPack.KeyString, VString "a"); (VPack.IdString, VCustom 7);
               (VPack.RevString, VString "42");
               ("x"%string, VNumber 6); ("y"%string, VNumber 8);
               ("q"%string, VNumber 2); ("p"%string, VNumber 1)]
  ∧ out_previous r.1.2 = Col.load Sample.users 1
  ∧ _primaryIndex (w_collection r.2) = _primaryIndex Sample.users
  ∧ _numberDocuments (w_collection r.2) = 1
  ∧ length (trx_operations (w_trx r.2)) = 1%nat.
Proof.
  cbv zeta.
  edestruct (update_stores_merged_document (Sample.world Sample.users)
               (VObject [(VPack.KeyString, VString "a"); ("x"%string, VNumber 6);
                         ("p"%string, VNumber 1); ("q"%string, VNumber 2)])
               Sample.options Sample.outputs "a" 1%nat)
    as (out' & w' & Hcall & Hc & Hload & Hdoc & _ & Hprev & _ & Hkeys & Hn & Hops & _).
  - reflexivity.
  - reflexivity.
  - reflexivity.
  - reflexivity.
  - reflexivity.
  - intros _. vm_compute. reflexivity.
  - by vm_compute.
  - reflexivity.
  - vm_compute. reflexivity.
  - vm_compute. reflexivity.
  - reflexivity.
  - rewrite Hcall. cbn [fst snd]. rewrite Hc, Hload, Hdoc, Hprev, Hkeys, Hn, Hops.
    repeat split; vm_compute; reflexivity.
Defined.

(** The remove of the first person empties the collection. *)
Lemma remove_takes_document_out_witness :
  let r := remove (Sample.world Sample.users) (VString "a") Sample.options
             Sample.outputs in
  r.1.1 = TRI_ERROR_NO_ERROR
  ∧ _primaryIndex (w_collection r.2) = delete "a"%string (_primaryIndex Sample.users)
  ∧ lookupDocument (w_collection r.2) (VString "a")
    = (TRI_ERROR_ARANGO_DOCUMENT_NOT_FOUND, None)
  ∧ _numberDocuments (w_collection r.2) = 0
  ∧ length (trx_operations (w_trx r.2)) = 1%nat.
Proof.
  cbv zeta.
  edestruct (remove_takes_document_out (Sample.world Sample.users) (VString "a")
               Sample.options Sample.outputs "a" 1%nat)
    as (out' & w' & Hcall & Hkeys & Hlookup & Hn & _ & _ & _ & _ & Hops).
  - reflexivity.
  - reflexivity.
  - reflexivity.
  - reflexivity.
  - vm_compute. reflexivity.
  - intros _ Hobj. discriminate Hobj.
  - vm_compute. reflexivity.
  - reflexivity.
  - rewrite Hcall. cbn [fst snd]. rewrite Hkeys, Hlookup, Hn, Hops.
    repeat split; vm_compute; reflexivity.
Defined.

(** Nobody has the key [z], whether the request is the key or an object
    with it. *)
Lemma remove_unknown_key_witness :
  (∃ out' w',
     remove (Sample.world Sample.users) (VString "z") Sample.options Sample.outputs
     = (TRI_ERROR_ARANGO_DOCUMENT_NOT_FOUND, out', w')
     ∧ out_prevRev out' = VNone ∧ out_resultMarkerTick out' = 0
     ∧ w_collection w' = Sample.users
     ∧ w_trx w' = w_trx (Sample.world Sample.users))
  ∧ (∃ out' w',
       remove (Sample.world Sample.users)
         (VObject [(VPack.KeyString, VString "z"); (VPack.RevString, VString "1")])
         Sample.options Sample.outputs
       = (TRI_ERROR_ARANGO_DOCUMENT_NOT_FOUND, out', w')
       ∧ out_prevRev out' = VNone ∧ out_resultMarkerTick out' = 0
       ∧ w_collection w' = Sample.users
       ∧ w_trx w' = w_trx (Sample.world Sample.users)).
Proof.
  split.
  - apply (remove_unknown_key (Sample.world Sample.users) (VString "z")
             Sample.options Sample.outputs "z").
    + left. reflexivity.
    + vm_compute. reflexivity.
  - apply (remove_unknown_key (Sample.world Sample.users)
             (VObject [(VPack.KeyString, VString "z"); (VPack.RevString, VString "1")])
             Sample.options Sample.outputs "z").
    + right. split; reflexivity.
    + vm_compute. reflexivity.
Defined.

Lemma update_replace_unknown_key_witness :
  let delta := VObject [(VPack.KeyString, VString "z"); ("x"%string, VNumber 6)] in
  (∃ out' w',
     update (Sample.world Sample.users) delta Sample.options Sample.outputs
     = (TRI_ERROR_ARANGO_DOCUMENT_NOT_FOUND, out', w')
     ∧ w_collection w' = Sample.users
     ∧ w_trx w' = w_trx (Sample.world Sample.users))
  ∧ (∃ out' w',
       replace (Sample.world Sample.users) delta Sample.options Sample.outputs
       = (TRI_ERROR_ARANGO_DOCUMENT_NOT_FOUND, out', w')
       ∧ w_collection w' = Sample.users
       ∧ w_trx w' = w_trx (Sample.world Sample.users)).
Proof.
  cbv zeta.
  destruct (update_replace_unknown_key (Sample.world Sample.users)
              (VObject [(VPack.KeyString, VString "z"); ("x"%string, VNumber 6)])
              Sample.options Sample.outputs) as [Hupdate Hreplace].
  - reflexivity.
  - intros Hrestore. discriminate Hrestore.
  - vm_compute. reflexivity.
  - split; [exact Hupdate|]. apply Hreplace. intros Hedge. discriminate Hedge.
Defined.
End EntryPointsOnTheSample.

(** * Further properties of the index registry *)

Section RegistryFacts.
Context `{IndexImplementations} `{IndexEnvironment}.

Lemma removeIndexLoop_found indexes iid : ∀ idx rest,
  removeIndexLoop indexes iid = Some (idx, rest) →
  IndexOps.canBeDropped idx = true ∧ idx_id idx = iid
  ∧ ∃ before after,
      indexes = before ++ idx :: after ∧ rest = before ++ after
      ∧ ∀ i, i ∈ before → IndexOps.canBeDropped i = true → idx_id i ≠ iid.
Proof.
  induction indexes as [|i0 l IH]; intros idx rest; [done|]. cbn [removeIndexLoop].
  destruct (IndexOps.canBeDropped i0) eqn:Ed; cbn [negb].
  - destruct (idx_id i0 =? iid) eqn:Eid.
    + intros [= <- <-]. apply Z.eqb_eq in Eid. split; [done|]. split; [done|].
      exists [], l. split; [done|]. split; [done|].
      intros i Hi. by apply elem_of_nil in Hi.
    + destruct (removeIndexLoop l iid) as [[found rest']|]; [|done].
      intros [= <- <-]. destruct (IH found rest' eq_refl)
        as (Hd & Hi & before & after & -> & -> & Hb).
      split; [done|]. split; [done|]. exists (i0 :: before), after.
      split; [done|]. split; [done|].
      intros i [->|Hin]%elem_of_cons; [intros _; by apply Z.eqb_neq | by apply Hb].
  - destruct (removeIndexLoop l iid) as [[found rest']|]; [|done].
    intros [= <- <-]. destruct (IH found rest' eq_refl)
      as (Hd & Hi & before & after & -> & -> & Hb).
    split; [done|]. split; [done|]. exists (i0 :: before), after.
    split; [done|]. split; [done|].
    intros i [->|Hin]%elem_of_cons; [congruence | by apply Hb].
Qed.

Lemma removeIndexLoop_none indexes iid :
  removeIndexLoop indexes iid = None →
  ∀ i, i ∈ indexes → IndexOps.canBeDropped i = true → idx_id i ≠ iid.
Proof.
  induction indexes as [|i0 l IH]; [intros _ i Hi; by apply elem_of_nil in Hi|].
  cbn [removeIndexLoop]. destruct (IndexOps.canBeDropped i0) eqn:Ed; cbn [negb].
  - destruct (idx_id i0 =? iid) eqn:Eid; [done|].
    destruct (removeIndexLoop l iid) as [[found rest']|]; [done|].
    intros _ i [->|Hin]%elem_of_cons; [intros _; by apply Z.eqb_neq | by apply IH].
  - destruct (removeIndexLoop l iid) as [[found rest']|]; [done|].
    intros _ i [->|Hin]%elem_of_cons; [congruence | by apply IH].
Qed.

(** X10.  [removeIndex] takes out the first index with the id that can be
    dropped, and only that one: the indexes before and after it stay in
    their order, so the primary index and an edge index are never removed,
    whatever their id; the two statistics are counted down when the index
    is a fulltext or a persistent one; documents and handles are not
    touched.  When no index that can be dropped has the id, the result is
    null and the collection is unchanged. *)
Theorem removeIndex_drops_first_match c iid :
  match removeIndex c iid with
  | (Some idx, c') =>
      IndexOps.canBeDropped idx = true ∧ idx_id idx = iid
      ∧ (∃ before after,
           _indexes c = before ++ idx :: after ∧ _indexes c' = before ++ after
           ∧ ∀ i, i ∈ before → IndexOps.canBeDropped i = true → idx_id i ≠ iid)
      ∧ _cleanupIndexes c'
        = _cleanupIndexes c
          - (if bool_decide (idx_type idx = TRI_IDX_TYPE_FULLTEXT_INDEX) then 1 else 0)
      ∧ _persistentIndexes c'
        = _persistentIndexes c - (if IndexOps.isPersistent idx then 1 else 0)
      ∧ _primaryIndex c' = _primaryIndex c
      ∧ _masterPointers c' = _masterPointers c
      ∧ _numberDocuments c' = _numberDocuments c
  | (None, c') =>
      c' = c
      ∧ ∀ i, i ∈ _indexes c → IndexOps.canBeDropped i = true → idx_id i ≠ iid
  end.
Proof.
  unfold removeIndex.
  destruct (removeIndexLoop (_indexes c) iid) as [[idx rest]|] eqn:E.
  - destruct (removeIndexLoop_found _ _ _ _ E) as (Hd & Hi & before & after & Hc & -> & Hb).
    split; [done|]. split; [done|]. split; [by exists before, after|]. cbn.
    split; [destruct (bool_decide _); lia|].
    split; [destruct (IndexOps.isPersistent idx); lia | done].
  - split; [done|]. by apply removeIndexLoop_none.
Qed.

Lemma fulltextIndexes_app l1 l2 :
  fulltextIndexes (l1 ++ l2) = fulltextIndexes l1 + fulltextIndexes l2.
Proof. unfold fulltextIndexes. rewrite List.filter_app, List.length_app. lia. Qed.

Lemma persistentIndexes_app l1 l2 :
  persistentIndexes (l1 ++ l2) = persistentIndexes l1 + persistentIndexes l2.
Proof. unfold persistentIndexes. rewrite List.filter_app, List.length_app. lia. Qed.

Lemma fulltextIndexes_cons idx l :
  fulltextIndexes (idx :: l)
  = (if bool_decide (idx_type idx = TRI_IDX_TYPE_FULLTEXT_INDEX) then 1 else 0)
    + fulltextIndexes l.
Proof.
  unfold fulltextIndexes. cbn [List.filter].
  destruct (bool_decide _); cbn [length]; lia.
Qed.

Lemma persistentIndexes_cons idx l :
  persistentIndexes (idx :: l)
  = (if IndexOps.isPersistent idx then 1 else 0) + persistentIndexes l.
Proof.
  unfold persistentIndexes. cbn [List.filter].
  destruct (IndexOps.isPersistent idx); cbn [length]; lia.
Qed.

Lemma addIndex_counted c idx : counted c → counted (addIndex c idx).
Proof.
  intros [Hf Hp]. unfold counted, addIndex. cbn.
  rewrite fulltextIndexes_app, persistentIndexes_app,
    fulltextIndexes_cons, persistentIndexes_cons, Hf, Hp.
  split; [destruct (bool_decide _) | destruct (IndexOps.isPersistent idx)];
    unfold fulltextIndexes, persistentIndexes; cbn; lia.
Qed.

Lemma removeIndex_counted c iid : counted c → counted (removeIndex c iid).2.
Proof.
  intros [Hf Hp]. unfold removeIndex.
  destruct (removeIndexLoop (_indexes c) iid) as [[idx rest]|] eqn:E; [|done].
  destruct (removeIndexLoop_found _ _ _ _ E) as (_ & _ & before & after & Hc & -> & _).
  unfold counted. cbn. rewrite Hf, Hp, Hc.
  rewrite !fulltextIndexes_app, !persistentIndexes_app,
    fulltextIndexes_cons, persistentIndexes_cons.
  split; [destruct (bool_decide _) | destruct (IndexOps.isPersistent idx)]; lia.
Qed.

(** X11.  The registry keeps its statistics right.  When [_cleanupIndexes]
    is the number of fulltext indexes and [_persistentIndexes] the number
    of persistent indexes in [_indexes], the same holds after [addIndex],
    after [removeIndex] and after the creators of hash and skiplist
    indexes, whatever they return. *)
Theorem registry_keeps_statistics c :
  counted c →
  (∀ idx, counted (addIndex c idx))
  ∧ (∀ iid, counted (removeIndex c iid).2)
  ∧ (∀ tick attributes iid sparse unique,
       counted (CreateHashIndexDocumentCollection c tick attributes iid sparse
                  unique).1.2
       ∧ counted (CreateSkiplistIndexDocumentCollection c tick attributes iid sparse
                    unique).1.2).
Proof.
  intros Hc. split; [intros idx; by apply addIndex_counted|].
  split; [intros iid; by apply removeIndex_counted|].
  assert (Hcreate : ∀ tick fields type iid sparse unique,
            counted (createPathIndex c tick fields type iid sparse unique).1.2).
  { intros tick fields type iid sparse unique. unfold createPathIndex.
    destruct (LookupPathIndexDocumentCollection _ _ _ _ _ _); [done|].
    destruct (if iid =? 0 then _ else _) as [iid0 tick0].
    destruct (fillIndex c _ true) as [r filled].
    destruct (is_error r); [done|]. cbn. by apply addIndex_counted. }
  intros tick attributes iid sparse unique.
  unfold CreateHashIndexDocumentCollection, CreateSkiplistIndexDocumentCollection,
    NamesByAttributeNames.
  rewrite is_error_no_error. split; apply Hcreate.
Qed.

Lemma no_persistent_index l :
  persistentIndexes l = 0 → ∀ idx, idx ∈ l → IndexOps.isPersistent idx = false.
Proof.
  induction l as [|i0 l IH]; [intros _ idx Hi; by apply elem_of_nil in Hi|].
  rewrite persistentIndexes_cons. intros Hz idx [->|Hin]%elem_of_cons.
  - destruct (IndexOps.isPersistent i0); [|done].
    unfold persistentIndexes in Hz. lia.
  - apply IH; [|done]. destruct (IndexOps.isPersistent i0);
      unfold persistentIndexes in *; lia.
Qed.

Lemma insertSecondaryLoop_idle pool header isRollback indexes : ∀ result,
  (∀ idx, idx ∈ indexes → IndexOps.isPersistent idx = false) →
  insertSecondaryLoop false pool header isRollback indexes result = (result, indexes).
Proof.
  induction indexes as [|idx rest IH]; intros result Hn; [done|].
  cbn [insertSecondaryLoop negb andb].
  rewrite (Hn idx) by (apply elem_of_cons; by left). cbn [negb].
  rewrite IH; [done|]. intros i Hi. apply Hn, elem_of_cons. by right.
Qed.

Lemma deleteSecondaryLoop_idle pool header isRollback indexes : ∀ result,
  (∀ idx, idx ∈ indexes → IndexOps.isPersistent idx = false) →
  deleteSecondaryLoop false pool header isRollback indexes result = (result, indexes).
Proof.
  induction indexes as [|idx rest IH]; intros result Hn; [done|].
  cbn [deleteSecondaryLoop negb andb].
  rewrite (Hn idx) by (apply elem_of_cons; by left). cbn [negb].
  rewrite IH; [done|]. intros i Hi. apply Hn, elem_of_cons. by right.
Qed.

(** X12.  The early exit of the loops over the secondary indexes is sound.
    With the statistics right, [insertSecondaryIndexes] and
    [deleteSecondaryIndexes] return what their loops return, also when they
    leave at once because the secondary indexes are switched off and
    [_persistentIndexes] is 0: no index would have been attempted. *)
Theorem secondary_loops_exit_early_soundly c header isRollback :
  counted c →
  insertSecondaryIndexes c header isRollback
  = ((insertSecondaryLoop (_useSecondaryIndexes c) (_masterPointers c) header
        isRollback (Col.secondaries c) TRI_ERROR_NO_ERROR).1,
     Col.with_secondaries c
       (insertSecondaryLoop (_useSecondaryIndexes c) (_masterPointers c) header
          isRollback (Col.secondaries c) TRI_ERROR_NO_ERROR).2)
  ∧ deleteSecondaryIndexes c header isRollback
    = ((deleteSecondaryLoop (_useSecondaryIndexes c) (_masterPointers c) header
          isRollback (Col.secondaries c) TRI_ERROR_NO_ERROR).1,
       Col.with_secondaries c
         (deleteSecondaryLoop (_useSecondaryIndexes c) (_masterPointers c) header
            isRollback (Col.secondaries c) TRI_ERROR_NO_ERROR).2).
Proof.
  intros [_ Hp].
  destruct (_useSecondaryIndexes c) eqn:Eu.
  { split; [rewrite insertSecondaryIndexes_run | rewrite deleteSecondaryIndexes_run];
      rewrite ?Eu; try done; by left. }
  destruct (decide (_persistentIndexes c = 0)) as [Hz|Hnz].
  2:{ split; [rewrite insertSecondaryIndexes_run | rewrite deleteSecondaryIndexes_run];
        rewrite ?Eu; try done; by right. }
  assert (Hnone : ∀ idx, idx ∈ Col.secondaries c → IndexOps.isPersistent idx = false).
  { intros idx Hin. apply (no_persistent_index (_indexes c)); [congruence|].
    unfold Col.secondaries in Hin. destruct (_indexes c); [done|].
    apply elem_of_cons. by right. }
  unfold insertSecondaryIndexes, deleteSecondaryIndexes. rewrite Eu, Hz. cbn [negb andb Z.eqb].
  rewrite insertSecondaryLoop_idle, deleteSecondaryLoop_idle by done.
  cbn [fst snd]. by rewrite with_secondaries_same.
Qed.

(** X13.  An index that was added is found and can be removed again.  For
    an index whose id no index of the collection has, [lookupIndex] finds
    it after [addIndex] and finds the other ids as before; and when the
    index can be dropped, [removeIndex] returns it and gives back the
    collection from before [addIndex], statistics included. *)
Theorem addIndex_then_lookup_and_remove c idx :
  (∀ i, i ∈ _indexes c → idx_id i ≠ idx_id idx) →
  lookupIndex (addIndex c idx) (idx_id idx) = Some idx
  ∧ (∀ iid, iid ≠ idx_id idx → lookupIndex (addIndex c idx) iid = lookupIndex c iid)
  ∧ (IndexOps.canBeDropped idx = true →
     removeIndex (addIndex c idx) (idx_id idx) = (Some idx, c)).
Proof.
  intros Hfresh.
  assert (Hfind : List.find (λ i, idx_id i =? idx_id idx) (_indexes c) = None).
  { destruct (List.find _ (_indexes c)) as [i|] eqn:E; [|done].
    apply find_some in E as [Hin Hid]. apply Z.eqb_eq in Hid.
    by apply list_elem_of_In, Hfresh in Hin. }
  split; [|split].
  - unfold lookupIndex, addIndex. cbn [_indexes Col.set_indexes].
    rewrite find_app, Hfind. cbn. by rewrite Z.eqb_refl.
  - intros iid Hne. unfold lookupIndex, addIndex. cbn [_indexes Col.set_indexes].
    rewrite find_app. clear Hfind.
    destruct (List.find _ (_indexes c)); [done|]. cbn.
    by rewrite (proj2 (Z.eqb_neq (idx_id idx) iid)).
  - intros Hd. unfold removeIndex, addIndex. cbn [_indexes Col.set_indexes].
    assert (Hloop : ∀ l, (∀ i, i ∈ l → idx_id i ≠ idx_id idx) →
              removeIndexLoop (l ++ [idx]) (idx_id idx) = Some (idx, l)).
    { induction l as [|i0 l IH]; intros Hl.
      - cbn. by rewrite Hd, Z.eqb_refl.
      - cbn [app removeIndexLoop].
        rewrite IH by (intros i Hi; apply Hl, elem_of_cons; by right).
        rewrite (proj2 (Z.eqb_neq (idx_id i0) (idx_id idx)))
          by (apply Hl, elem_of_cons; by left).
        by destruct (negb (IndexOps.canBeDropped i0)). }
    rewrite (Hloop _ Hfresh). f_equal.
    destruct c as [? ? ? ? ? ? ? ? ? ? ? ? cl pe ? ?]. unfold Col.set_indexes. cbn.
    destruct (bool_decide _), (IndexOps.isPersistent idx);
      rewrite ?Z.add_simpl_r; reflexivity.
Qed.
End RegistryFacts.

Section RegistryOnTheSample.
#[local] Existing Instance Sample.healthy.
#[local] Existing Instance Sample.indexEnvironment.

(** The sample collection has no fulltext and no persistent index, and says
    so; that stays true when the index on [y] is dropped and when a hash
    index on [z] is created. *)
Lemma registry_keeps_statistics_witness :
  counted (removeIndex Sample.users 12).2
  ∧ counted (CreateHashIndexDocumentCollection Sample.users 50 ["z"%string] 0 false
               false).1.2.
Proof.
  destruct (registry_keeps_statistics Sample.users) as (_ & Hremove & Hcreate).
  - split; reflexivity.
  - split; [apply Hremove|]. apply (Hcreate 50 ["z"%string] 0 false false).
Defined.

(** In the collection that is being recovered the secondary indexes are
    off: both functions leave at once, as their loops would. *)
Lemma secondary_loops_exit_early_soundly_witness :
  insertSecondaryIndexes Sample.emptied 1 false = (TRI_ERROR_NO_ERROR, Sample.emptied)
  ∧ deleteSecondaryIndexes Sample.emptied 1 false = (TRI_ERROR_NO_ERROR, Sample.emptied).
Proof.
  destruct (secondary_loops_exit_early_soundly Sample.emptied 1 false) as [Hi Hd].
  - split; reflexivity.
  - rewrite Hi, Hd. split; reflexivity.
Defined.

(** A skiplist index on [z] with the id 13 is added, found and removed. *)
Lemma addIndex_then_lookup_and_remove_witness :
  let idx :=
    {| idx_id := 13; idx_type := TRI_IDX_TYPE_SKIPLIST_INDEX;
       idx_fields := [Sample.step "z"]; idx_unique := false; idx_sparse := false;
       idx_refs := ∅ |} in
  lookupIndex (addIndex Sample.users idx) 13 = Some idx
  ∧ lookupIndex (addIndex Sample.users idx) 11 = Some Sample.uniqueOnX
  ∧ removeIndex (addIndex Sample.users idx) 13 = (Some idx, Sample.users).
Proof.
  cbv zeta.
  destruct (addIndex_then_lookup_and_remove Sample.users
              {| idx_id := 13; idx_type := TRI_IDX_TYPE_SKIPLIST_INDEX;
                 idx_fields := [Sample.step "z"]; idx_unique := false;
                 idx_sparse := false; idx_refs := ∅ |}) as (Hfound & Hothers & Hremove).
  - intros i Hin.
    change (i ∈ [Sample.primaryDescriptor; Sample.uniqueOnX; Sample.skiplistOnY]) in Hin.
    apply list_elem_of_In in Hin. simpl in Hin.
    destruct Hin as [<-|[<-|[<-|[]]]]; discriminate.
  - split; [exact Hfound|]. split; [|by apply Hremove].
    rewrite Hothers; [reflexivity | discriminate].
Defined.
End RegistryOnTheSample.

(** ** Looking up and creating path indexes *)

Section PathIndexes.
Context `{IndexImplementations} `{IndexEnvironment}.

Lemma matchAnyOrder_position idxFields paths j :
  length idxFields = length paths →
  (∀ p, p ∈ idxFields ++ paths → length p = 1%nat) →
  is_Some (paths !! j) →
  idxFields !! j = paths !! j →
  matchAnyOrder idxFields paths (length idxFields) = true.
Proof.
  intros Hlen Hone [q Hq] Hj. unfold matchAnyOrder.
  assert (Hjlt : (j < length idxFields)%nat).
  { rewrite Hlen. by eapply lookup_lt_Some. }
  assert (Hsize : ∀ l i, (∀ p, p ∈ l → length p = 1%nat) → (i < length l)%nat →
            path_size l i = 1%nat).
  { intros l i Hl Hi. unfold path_size.
    destruct (lookup_lt_is_Some_2 l i Hi) as [p Hp]. rewrite Hp. cbn.
    apply Hl. by eapply list_elem_of_lookup_2. }
  apply forallb_forall. intros i Hi. apply in_seq in Hi.
  apply existsb_exists. exists j. split; [apply in_seq; lia|].
  rewrite (Hsize idxFields i), (Hsize paths j); try lia.
  - cbn. rewrite andb_true_r. apply bool_decide_eq_true_2.
    unfold step_at. by rewrite Hj.
  - intros p Hp. apply Hone, elem_of_app. by right.
  - intros p Hp. apply Hone, elem_of_app. by left.
Qed.

(** X14.  The lookup that allows any order of the attributes compares, for
    every position [j], the path of the index at [j] with the path asked
    for at [j].  For paths of one step each, an index of the type and the
    flags asked for, with as many fields as there are paths, therefore
    matches as soon as it agrees with the request in one position,
    whatever the other positions hold; the lookup then returns an index. *)
Theorem any_order_lookup_matches_on_one_position c paths type sparsity unique idx j :
  idx ∈ allIndexes c →
  idx_type idx = type →
  type = TRI_IDX_TYPE_HASH_INDEX ∨ type = TRI_IDX_TYPE_SKIPLIST_INDEX
  ∨ type = TRI_IDX_TYPE_ROCKSDB_INDEX →
  idx_unique idx = unique →
  sparsity = -1 ∨ sparsity = (if idx_sparse idx then 1 else 0) →
  length (idx_fields idx) = length paths →
  (∀ p, p ∈ idx_fields idx ++ paths → length p = 1%nat) →
  is_Some (paths !! j) →
  idx_fields idx !! j = paths !! j →
  pathIndexMatches paths type sparsity unique true idx = true
  ∧ is_Some (LookupPathIndexDocumentCollection c paths type sparsity unique true).
Proof.
  intros Hin Htype Hkind Hunique Hsparse Hlen Hone Hj Hagree.
  assert (Hmatch : pathIndexMatches paths type sparsity unique true idx = true).
  { unfold pathIndexMatches. rewrite Htype, bool_decide_eq_true_2 by done.
    cbn [negb]. rewrite <- Hunique, Bool.eqb_reflx. cbn [negb orb].
    assert (Hs : negb (sparsity =? -1)
                 && negb (sparsity =? (if idx_sparse idx then 1 else 0)) = false).
    { destruct Hsparse as [-> | ->]; [done|]. rewrite Z.eqb_refl.
      by rewrite andb_false_r. }
    rewrite Hs, Hlen, Nat.eqb_refl. cbn [negb].
    rewrite <- Hlen.
    destruct Hkind as [-> | [-> | ->]]; cbn [negb];
      by apply (matchAnyOrder_position _ _ j). }
  split; [done|]. unfold LookupPathIndexDocumentCollection.
  destruct (List.find _ (allIndexes c)) as [found|] eqn:E; [by eexists|].
  apply list_elem_of_In in Hin.
  by rewrite (find_none _ _ E idx Hin) in Hmatch.
Qed.

Lemma matchInOrder_anyOrder idxFields paths n :
  matchInOrder idxFields paths n = true → matchAnyOrder idxFields paths n = true.
Proof.
  unfold matchInOrder, matchAnyOrder. rewrite !forallb_forall.
  intros Hm i Hi. apply existsb_exists. exists i. split; [done|]. by apply Hm.
Qed.

Lemma pathIndexMatches_anyOrder paths type (sparse : bool) unique idx :
  pathIndexMatches paths type (if sparse then 1 else 0) unique false idx = true →
  ∀ sparsity, sparsity = -1 ∨ sparsity = (if sparse then 1 else 0) →
  pathIndexMatches paths type sparsity unique true idx = true.
Proof.
  unfold pathIndexMatches. destruct (negb (bool_decide _)); [done|].
  destruct (Bool.eqb unique (idx_unique idx)); cbn [negb orb]; [|by destruct (idx_type idx)].
  intros Hm sparsity Hs.
  assert (Hflags : negb (sparsity =? -1)
                   && negb (sparsity =? (if idx_sparse idx then 1 else 0))
                   = false).
  { destruct Hs as [-> | ->]; [done|].
    destruct (negb ((if sparse then 1 else 0) =? -1)
              && negb ((if sparse then 1 else 0) =? (if idx_sparse idx then 1 else 0)))
      eqn:E; [|done].
    by destruct (idx_type idx). }
  rewrite Hflags.
  destruct (negb ((if sparse then 1 else 0) =? -1)
            && negb ((if sparse then 1 else 0) =? (if idx_sparse idx then 1 else 0)));
    [by destruct (idx_type idx)|].
  destruct (negb match idx_type idx with
                 | TRI_IDX_TYPE_HASH_INDEX | TRI_IDX_TYPE_SKIPLIST_INDEX
                 | TRI_IDX_TYPE_ROCKSDB_INDEX => negb false
                 | _ => false
                 end); [done|].
  destruct (negb (Nat.eqb _ _)); [done|]. by apply matchInOrder_anyOrder.
Qed.

Lemma createPathIndex_registered c tick fields type iid sparse unique idx created c1
    tick1 :
  type = TRI_IDX_TYPE_HASH_INDEX ∨ type = TRI_IDX_TYPE_SKIPLIST_INDEX →
  createPathIndex c tick fields type iid sparse unique = (Some idx, created, c1, tick1) →
  LookupPathIndexDocumentCollection c1 fields type (if sparse then 1 else 0) unique false
  = Some idx.
Proof.
  intros Htype Hcreate.
  pose proof (createPathIndex_again c tick fields type iid sparse unique idx created
                c1 tick1 Htype Hcreate 0 0) as Hagain.
  unfold createPathIndex in Hagain.
  destruct (LookupPathIndexDocumentCollection c1 fields type _ unique false)
    as [found|]; [by inversion Hagain|].
  cbn in Hagain. destruct (fillIndex c1 _ true) as [r filled].
  destruct (is_error r); by inversion Hagain.
Qed.

Lemma lookup_after_create c tick fields type iid sparse unique idx created c1 tick1 :
  type = TRI_IDX_TYPE_HASH_INDEX ∨ type = TRI_IDX_TYPE_SKIPLIST_INDEX →
  createPathIndex c tick fields type iid sparse unique = (Some idx, created, c1, tick1) →
  ∀ sparsity, sparsity = -1 ∨ sparsity = (if sparse then 1 else 0) →
  ∃ found,
    LookupPathIndexDocumentCollection c1 fields type sparsity unique true = Some found
    ∧ idx_type found = type ∧ idx_unique found = unique
    ∧ length (idx_fields found) = length fields.
Proof.
  intros Htype Hcreate sparsity Hs.
  pose proof (createPathIndex_registered _ _ _ _ _ _ _ _ _ _ _ Htype Hcreate) as Hreg.
  unfold LookupPathIndexDocumentCollection in *.
  apply find_some in Hreg as [Hin Hm].
  pose proof (pathIndexMatches_anyOrder _ _ _ _ _ Hm sparsity Hs) as Hany.
  destruct (List.find (pathIndexMatches fields type sparsity unique true) (allIndexes c1))
    as [found|] eqn:E; [|by rewrite (find_none _ _ E idx Hin) in Hany].
  exists found. split; [done|]. apply find_some in E as [_ Hf].
  unfold pathIndexMatches in Hf.
  destruct (decide (idx_type found = type)) as [Ht|Ht].
  2:{ by rewrite (bool_decide_eq_false_2 _ Ht) in Hf. }
  rewrite (bool_decide_eq_true_2 _ Ht) in Hf. cbn [negb] in Hf.
  destruct (Bool.eqb unique (idx_unique found)) eqn:Eu.
  2:{ cbn in Hf. by destruct (idx_type found). }
  apply Bool.eqb_prop in Eu.
  destruct (Nat.eqb (length (idx_fields found)) (length fields)) eqn:En.
  2:{ cbn in Hf. by destruct (negb _). }
  apply Nat.eqb_eq in En. done.
Qed.

(** X15.  What a creator has returned, the lookups find.  After the
    creator of hash indexes has returned an index, [lookupHashIndex] with
    the attributes in any order, the same uniqueness and the sparsity of
    the index (or -1, any) returns a hash index with that uniqueness and
    as many fields; the same for the creator of skiplist indexes,
    [lookupSkiplistIndex] and the attributes in the same order. *)
Theorem lookup_finds_created_index (hash : bool) c tick attributes iid sparse unique
    idx created c1 tick1 :
  (if hash then CreateHashIndexDocumentCollection
   else CreateSkiplistIndexDocumentCollection) c tick attributes iid sparse unique
  = (Some idx, created, c1, tick1) →
  ∀ attributes' sparsity,
    (if hash then attributes' ≡ₚ attributes else attributes' = attributes) →
    sparsity = -1 ∨ sparsity = (if sparse then 1 else 0) →
    ∃ found,
      (if hash then lookupHashIndex else lookupSkiplistIndex) c1 attributes' sparsity
        unique = Some found
      ∧ idx_type found
        = (if hash then TRI_IDX_TYPE_HASH_INDEX else TRI_IDX_TYPE_SKIPLIST_INDEX)
      ∧ idx_unique found = unique
      ∧ length (idx_fields found) = length attributes.
Proof.
  destruct hash; intros Hcreate attributes' sparsity Hattrs Hs.
  - unfold CreateHashIndexDocumentCollection, NamesByAttributeNames in Hcreate.
    rewrite is_error_no_error in Hcreate.
    unfold lookupHashIndex, NamesByAttributeNames. rewrite is_error_no_error.
    rewrite (merge_sort_permutation attributes' attributes Hattrs).
    destruct (lookup_after_create _ _ _ _ _ _ _ _ _ _ _ (or_introl eq_refl) Hcreate
                sparsity Hs) as (found & Hf & Ht & Hu & Hl).
    exists found. rewrite Hl, length_map.
    repeat (split; [done|]).
    apply Permutation_length, merge_sort_Permutation.
  - subst attributes'.
    unfold CreateSkiplistIndexDocumentCollection, NamesByAttributeNames in Hcreate.
    rewrite is_error_no_error in Hcreate.
    unfold lookupSkiplistIndex, NamesByAttributeNames. rewrite is_error_no_error.
    destruct (lookup_after_create _ _ _ _ _ _ _ _ _ _ _ (or_intror eq_refl) Hcreate
                sparsity Hs) as (found & Hf & Ht & Hu & Hl).
    exists found. by rewrite Hl, length_map.
Qed.

(** X16.  An index that could not be saved stays registered.  When
    [ensureHashIndex] or [ensureSkiplistIndex] has created an index and the
    storage engine fails to save its definition, the call returns null with
    [created] set, but the index is in the registry: every later call
    with the same definition finds it there and returns it, with [created]
    unset and without another attempt to save it. *)
Theorem ensureIndex_keeps_unsaved_index (hash : bool) c tick iid attributes sparse
    unique c1 tick1 :
  (if hash then ensureHashIndex else ensureSkiplistIndex) c tick iid attributes sparse
    unique
  = (None, true, c1, tick1) →
  ∃ idx,
    idx ∈ _indexes c1
    ∧ saveIndex_result idx ≠ TRI_ERROR_NO_ERROR
    ∧ ∀ tick' iid',
        (if hash then ensureHashIndex else ensureSkiplistIndex) c1 tick' iid' attributes
          sparse unique
        = (Some idx, false, c1, tick').
Proof.
  intros Hensure.
  assert (Hgen : ∀ fields type,
            type = TRI_IDX_TYPE_HASH_INDEX ∨ type = TRI_IDX_TYPE_SKIPLIST_INDEX →
            ensureSaved (createPathIndex c tick fields type iid sparse unique)
            = (None, true, c1, tick1) →
            ∃ idx,
              idx ∈ _indexes c1 ∧ saveIndex_result idx ≠ TRI_ERROR_NO_ERROR
              ∧ ∀ tick' iid',
                  ensureSaved (createPathIndex c1 tick' fields type iid' sparse unique)
                  = (Some idx, false, c1, tick')).
  { intros fields type Htype Hsaved. unfold ensureSaved in Hsaved at 1.
    destruct (createPathIndex c tick fields type iid sparse unique)
      as [[[[idx|] created] c'] tick'] eqn:Ecreate.
    2:{ unfold createPathIndex in Ecreate.
        destruct (LookupPathIndexDocumentCollection _ _ _ _ _ _); [done|].
        destruct (if iid =? 0 then _ else _) as [iid0 tick0].
        destruct (fillIndex c _ true) as [r filled].
        destruct (is_error r); simplify_eq. }
    destruct (created && is_error (saveIndex_result idx)) eqn:Efail; [|done].
    apply andb_true_iff in Efail as [-> Hfail]. apply is_error_true in Hfail.
    simplify_eq. exists idx.
    pose proof (createPathIndex_registered _ _ _ _ _ _ _ _ _ _ _ Htype Ecreate) as Hreg.
    split; [|split; [done|]].
    - unfold LookupPathIndexDocumentCollection in Hreg.
      apply find_some in Hreg as [Hin _]. by apply list_elem_of_In.
    - intros tick' iid'.
      by rewrite (createPathIndex_again _ _ _ _ _ _ _ _ _ _ _ Htype Ecreate iid' tick'). }
  destruct hash.
  - unfold ensureHashIndex, CreateHashIndexDocumentCollection, NamesByAttributeNames
      in *.
    rewrite is_error_no_error in *. by apply Hgen; [left|].
  - unfold ensureSkiplistIndex, CreateSkiplistIndexDocumentCollection,
      NamesByAttributeNames in *.
    rewrite is_error_no_error in *. by apply Hgen; [right|].
Qed.

Lemma fillLoop_refs pool handles : ∀ idx idx',
  fillLoop idx pool handles = (TRI_ERROR_NO_ERROR, idx') →
  idx_refs idx' = list_to_set handles ∪ idx_refs idx.
Proof.
  induction handles as [|h rest IH]; intros idx idx'.
  - intros [= <-]. cbn. by rewrite (left_id_L ∅ (∪)).
  - cbn [fillLoop]. unfold Index_insert.
    destruct (is_error (insert_result idx (mp_slots pool) h false)) eqn:E.
    + cbn. rewrite E. intros [= Hr _]. by rewrite Hr in E.
    + cbn. rewrite E. intros Hrest. rewrite (IH _ _ Hrest). cbn.
      rewrite (assoc_L (∪)). f_equal. apply (comm_L (∪)).
Qed.

Lemma batchLoop_refs pool blockSize handles : ∀ idx documents idx' documents',
  batchLoop idx pool blockSize handles documents
  = (TRI_ERROR_NO_ERROR, idx', documents') →
  idx_refs idx' ∪ list_to_set documents'
  = idx_refs idx ∪ list_to_set documents ∪ list_to_set handles.
Proof.
  induction handles as [|h rest IH]; intros idx documents idx' documents'.
  - intros [= <- <-]. cbn. by rewrite (right_id_L ∅ (∪)).
  - cbn [batchLoop]. destruct (Nat.eqb _ _).
    + unfold Index_batchInsert.
      destruct (is_error (batchInsert_result idx (mp_slots pool) (documents ++ [h])))
        eqn:E.
      * cbn. rewrite E. intros [= Hr _ _]. by rewrite Hr in E.
      * cbn. rewrite E. intros Hrest. rewrite (IH _ _ _ _ Hrest). cbn.
        rewrite list_to_set_app_L, list_to_set_cons. cbn.
        rewrite !(right_id_L ∅ (∪)).
        rewrite (comm_L (∪) (list_to_set documents ∪ {[h]})).
        by rewrite <- !(assoc_L (∪)).
    + intros Hrest. rewrite (IH _ _ _ _ Hrest).
      rewrite list_to_set_app_L, list_to_set_cons. cbn.
      rewrite !(right_id_L ∅ (∪)). by rewrite <- !(assoc_L (∪)).
Qed.

Lemma fillIndex_refs c idx idx' :
  fillIndex c idx true = (TRI_ERROR_NO_ERROR, idx') →
  idx_refs idx'
  = if _useSecondaryIndexes c && negb (IndexOps.isPersistent idx)
    then list_to_set (sequentialHandles c) ∪ idx_refs idx
    else idx_refs idx.
Proof.
  unfold fillIndex. destruct (_useSecondaryIndexes c); cbn [negb andb];
    [|by intros [= <-]].
  destruct (IndexOps.isPersistent idx); cbn [negb andb]; [by intros [= <-]|].
  destruct (_ && _).
  - unfold fillIndexBatch.
    destruct (batchLoop _ _ _ _ _) as [[r idx1] documents] eqn:Eloop.
    destruct (is_error r) eqn:Er; cbn [negb andb].
    { intros [= -> _]. done. }
    apply is_error_false in Er. subst r.
    apply batchLoop_refs in Eloop. cbn in Eloop.
    rewrite (right_id_L ∅ (∪)) in Eloop.
    destruct (Nat.eqb (length documents) 0) eqn:Ed; cbn [negb].
    + intros [= <-]. apply Nat.eqb_eq, nil_length_inv in Ed. subst documents.
      cbn in Eloop. rewrite (right_id_L ∅ (∪)) in Eloop. rewrite Eloop.
      apply (comm_L (∪)).
    + unfold Index_batchInsert. destruct (is_error _) eqn:E.
      * intros [= Hr _]. by rewrite Hr in E.
      * intros [= _ <-]. cbn. rewrite (comm_L (∪) (list_to_set documents)), Eloop.
        apply (comm_L (∪)).
  - apply fillLoop_refs.
Qed.

(** X17.  A new index covers the documents that are there.  When a creator
    of hash or skiplist indexes reports that it has created the index, the
    new index is the last one of the registry, its id is the one asked for (or the next
    tick of the server when 0 was asked for), and it refers to the handle
    of every document of the primary index; when the secondary indexes
    are switched off, it is registered empty instead. *)
Theorem created_index_covers_documents (hash : bool) c tick attributes iid sparse unique
    idx c1 tick1 :
  (if hash then CreateHashIndexDocumentCollection
   else CreateSkiplistIndexDocumentCollection) c tick attributes iid sparse unique
  = (Some idx, true, c1, tick1) →
  c1 = addIndex c idx
  ∧ _indexes c1 = _indexes c ++ [idx]
  ∧ idx_id idx = (if iid =? 0 then tick + 1 else iid)
  ∧ tick1 = (if iid =? 0 then tick + 1 else tick)
  ∧ idx_refs idx
    = (if _useSecondaryIndexes c then list_to_set (sequentialHandles c) else ∅).
Proof.
  intros Hcreate.
  assert (Hgen : ∀ fields type,
            type = TRI_IDX_TYPE_HASH_INDEX ∨ type = TRI_IDX_TYPE_SKIPLIST_INDEX →
            createPathIndex c tick fields type iid sparse unique
            = (Some idx, true, c1, tick1) →
            c1 = addIndex c idx
            ∧ _indexes c1 = _indexes c ++ [idx]
            ∧ idx_id idx = (if iid =? 0 then tick + 1 else iid)
            ∧ tick1 = (if iid =? 0 then tick + 1 else tick)
            ∧ idx_refs idx
              = (if _useSecondaryIndexes c then list_to_set (sequentialHandles c)
                 else ∅)).
  { intros fields type Htype. unfold createPathIndex.
    destruct (LookupPathIndexDocumentCollection _ _ _ _ _ _); [done|].
    destruct (iid =? 0) eqn:Eiid.
    - pose proof (fillIndex_sameDefinition c
        {| idx_id := tick + 1; idx_type := type; idx_fields := fields;
           idx_unique := unique; idx_sparse := sparse; idx_refs := ∅ |} true) as Hs.
      pose proof (fillIndex_refs c
        {| idx_id := tick + 1; idx_type := type; idx_fields := fields;
           idx_unique := unique; idx_sparse := sparse; idx_refs := ∅ |}) as Hrefs.
      destruct (fillIndex c _ true) as [r filled]. cbn [snd] in Hs.
      destruct (is_error r) eqn:Er; [done|]. apply is_error_false in Er. subst r.
      intros [= <- <- <-]. specialize (Hrefs filled eq_refl).
      destruct Hs as (Hid & _). cbn in Hid.
      repeat (split; [done|]).
      rewrite Hrefs. cbn [idx_refs]. unfold IndexOps.isPersistent. cbn [idx_type].
      destruct Htype as [-> | ->]; cbn; destruct (_useSecondaryIndexes c); cbn;
        by rewrite ?(right_id_L ∅ (∪)).
    - pose proof (fillIndex_sameDefinition c
        {| idx_id := iid; idx_type := type; idx_fields := fields;
           idx_unique := unique; idx_sparse := sparse; idx_refs := ∅ |} true) as Hs.
      pose proof (fillIndex_refs c
        {| idx_id := iid; idx_type := type; idx_fields := fields;
           idx_unique := unique; idx_sparse := sparse; idx_refs := ∅ |}) as Hrefs.
      destruct (fillIndex c _ true) as [r filled]. cbn [snd] in Hs.
      destruct (is_error r) eqn:Er; [done|]. apply is_error_false in Er. subst r.
      intros [= <- <- <-]. specialize (Hrefs filled eq_refl).
      destruct Hs as (Hid & _). cbn in Hid.
      repeat (split; [done|]).
      rewrite Hrefs. cbn [idx_refs]. unfold IndexOps.isPersistent. cbn [idx_type].
      destruct Htype as [-> | ->]; cbn; destruct (_useSecondaryIndexes c); cbn;
        by rewrite ?(right_id_L ∅ (∪)). }
  destruct hash.
  - unfold CreateHashIndexDocumentCollection, NamesByAttributeNames in Hcreate.
    rewrite is_error_no_error in Hcreate.
    exact (Hgen _ _ (or_introl eq_refl) Hcreate).
  - unfold CreateSkiplistIndexDocumentCollection, NamesByAttributeNames in Hcreate.
    rewrite is_error_no_error in Hcreate.
    exact (Hgen _ _ (or_intror eq_refl) Hcreate).
Qed.
End PathIndexes.

Section PathIndexesOnTheSample.
#[local] Existing Instance Sample.healthy.
#[local] Existing Instance Sample.indexEnvironment.

(** The skiplist index on [a], [b] is what a lookup for [a], [c] returns. *)
Lemma any_order_lookup_matches_on_one_position_witness :
  pathIndexMatches [Sample.step "a"; Sample.step "c"] TRI_IDX_TYPE_SKIPLIST_INDEX (-1)
    false true RegistryCases.skiplistOnAB = true
  ∧ is_Some (LookupPathIndexDocumentCollection RegistryCases.withSkiplistOnAB
               [Sample.step "a"; Sample.step "c"] TRI_IDX_TYPE_SKIPLIST_INDEX (-1)
               false true)
  ∧ lookupSkiplistIndex RegistryCases.withSkiplistOnAB ["a"%string; "c"%string] (-1)
      false
    = Some RegistryCases.skiplistOnAB.
Proof.
  destruct (any_order_lookup_matches_on_one_position RegistryCases.withSkiplistOnAB
              [Sample.step "a"; Sample.step "c"] TRI_IDX_TYPE_SKIPLIST_INDEX (-1) false
              RegistryCases.skiplistOnAB 0) as [Hmatch Hfound];
    [..| split; [exact Hmatch | split; [exact Hfound | reflexivity]]].
  - apply elem_of_cons. right. apply list_elem_of_here.
  - reflexivity.
  - right. left. reflexivity.
  - reflexivity.
  - left. reflexivity.
  - reflexivity.
  - intros p Hin.
    change (p ∈ [Sample.step "a"; Sample.step "b"; Sample.step "a"; Sample.step "c"])
      in Hin.
    apply list_elem_of_In in Hin. simpl in Hin.
    destruct Hin as [<-|[<-|[<-|[<-|[]]]]]; reflexivity.
  - by eexists.
  - reflexivity.
Defined.

(** A hash index created on [y], [x] is found under [x], [y]. *)
Lemma lookup_finds_created_index_witness :
  let c1 :=
    (CreateHashIndexDocumentCollection Sample.users 50 ["y"%string; "x"%string] 0 false
       false).1.2 in
  ∃ found,
    lookupHashIndex c1 ["x"%string; "y"%string] (-1) false = Some found
    ∧ idx_type found = TRI_IDX_TYPE_HASH_INDEX
    ∧ idx_unique found = false
    ∧ length (idx_fields found) = 2%nat.
Proof.
  cbv zeta.
  assert (Hcreate : ∃ idx,
            CreateHashIndexDocumentCollection Sample.users 50 ["y"%string; "x"%string] 0
              false false
            = (Some idx, true,
               (CreateHashIndexDocumentCollection Sample.users 50
                  ["y"%string; "x"%string] 0 false false).1.2, 51)).
  { eexists. vm_compute. reflexivity. }
  destruct Hcreate as [idx Hcreate].
  apply (lookup_finds_created_index true Sample.users 50 ["y"%string; "x"%string] 0
           false false idx true _ 51 Hcreate ["x"%string; "y"%string] (-1)).
  - exact (perm_swap "y"%string "x"%string []).
  - left. reflexivity.
Defined.

(** With an engine that cannot save, the hash index on [z] is reported as
    not there; the next call returns it. *)
Lemma ensureIndex_keeps_unsaved_index_witness :
  let c1 :=
    (@ensureHashIndex Sample.healthy RegistryCases.failingEngine Sample.users 50 0
       ["z"%string] false false).1.2 in
  ∃ idx,
    idx ∈ _indexes c1
    ∧ @saveIndex_result RegistryCases.failingEngine idx ≠ TRI_ERROR_NO_ERROR
    ∧ @ensureHashIndex Sample.healthy RegistryCases.failingEngine c1 60 0 ["z"%string]
        false false
      = (Some idx, false, c1, 60).
Proof.
  cbv zeta.
  edestruct (@ensureIndex_keeps_unsaved_index Sample.healthy RegistryCases.failingEngine
               true Sample.users 50 0 ["z"%string] false false)
    as (idx & Hin & Hsave & Hagain).
  - vm_compute. reflexivity.
  - exists idx. split; [exact Hin|]. split; [exact Hsave|]. apply (Hagain 60 0).
Defined.

(** The skiplist index created on [z] gets the id 51 and refers to the one
    document there is. *)
Lemma created_index_covers_documents_witness :
  let r :=
    CreateSkiplistIndexDocumentCollection Sample.users 50 ["z"%string] 0 false false in
  ∃ idx,
    r = (Some idx, true, addIndex Sample.users idx, 51)
    ∧ idx_id idx = 51
    ∧ idx_refs idx = list_to_set (sequentialHandles Sample.users)
    ∧ sequentialHandles Sample.users = [1%nat].
Proof.
  cbv zeta.
  edestruct (created_index_covers_documents false Sample.users 50 ["z"%string] 0 false
               false) as (Hc1 & _ & Hid & Htick & Hrefs).
  - vm_compute. reflexivity.
  - eexists. split; [|split; [exact Hid|split; [exact Hrefs|]]].
    + vm_compute. reflexivity.
    + vm_compute. reflexivity.
Defined.
End PathIndexesOnTheSample.

(** * Collection names *)

Lemma c_str_append s junk : c_str (s ++ String "000" junk) = c_str s.
Proof.
  induction s as [|ch rest IH]; [done|].
  change (c_str (String ch (rest ++ String "000" junk)) = c_str (String ch rest)).
  cbn [c_str]. by rewrite IH.
Qed.

Lemma IsAllowedNameLoop_c_str allowSystem s : ∀ n,
  IsAllowedNameLoop allowSystem (c_str s) n = IsAllowedNameLoop allowSystem s n.
Proof.
  induction s as [|ch rest IH]; intros n; [done|]. cbn.
  destruct (Ascii.eqb ch "000") eqn:E; [done|]. cbn. rewrite E.
  destruct (negb _); [done | apply IH].
Qed.

Lemma c_str_no_NUL s : forallb (λ ch, negb (Ascii.eqb ch "000"))
                         (list_ascii_of_string (c_str s)) = true.
Proof.
  induction s as [|ch rest IH]; [done|]. cbn.
  destruct (Ascii.eqb ch "000") eqn:E; [done|]. cbn. by rewrite E.
Qed.

(** The loop after its first turn. *)
Lemma IsAllowedNameLoop_tail allowSystem s : ∀ n,
  forallb (λ ch, negb (Ascii.eqb ch "000")) (list_ascii_of_string s) = true →
  IsAllowedNameLoop allowSystem s (S n)
  = if forallb nameChar (list_ascii_of_string s)
    then Some (S n + String.length s)%nat else None.
Proof.
  induction s as [|ch rest IH]; intros n Hn.
  - cbn. f_equal. lia.
  - cbn in Hn. apply andb_true_iff in Hn as [Hch Hrest].
    apply negb_true_iff in Hch. cbn [IsAllowedNameLoop]. rewrite Hch.
    cbn [Nat.eqb list_ascii_of_string forallb]. fold (nameChar ch).
    destruct (nameChar ch); cbn [negb andb]; [|done].
    rewrite IH by done.
    destruct (forallb nameChar (list_ascii_of_string rest)); [|done].
    cbn. f_equal. lia.
Qed.

Lemma IsAllowedName_wellFormed maxLength allowSystem s :
  forallb (λ ch, negb (Ascii.eqb ch "000")) (list_ascii_of_string s) = true →
  IsAllowedName maxLength allowSystem s = wellFormedName maxLength allowSystem s.
Proof.
  intros Hn. unfold IsAllowedName, wellFormedName. destruct s as [|ch rest]; [done|].
  cbn in Hn. apply andb_true_iff in Hn as [Hch Hrest]. apply negb_true_iff in Hch.
  cbn [IsAllowedNameLoop]. rewrite Hch. cbn [Nat.eqb].
  assert (Hstart : (if allowSystem
                    then Ascii.eqb ch "_" || between "a" "z" ch || between "A" "Z" ch
                    else between "a" "z" ch || between "A" "Z" ch)
                   = nameStart allowSystem ch).
  { unfold nameStart. by destruct allowSystem. }
  rewrite Hstart. destruct (nameStart allowSystem ch); cbn [negb andb]; [|done].
  rewrite IsAllowedNameLoop_tail by done.
  destruct (forallb nameChar (list_ascii_of_string rest)); [|done].
  change (1 + String.length rest)%nat with (S (String.length rest)).
  cbn [String.length Nat.eqb orb negb andb].
  destruct (Nat.ltb_spec maxLength (S (String.length rest)));
    destruct (Nat.leb_spec (S (String.length rest)) maxLength); cbn; try done; lia.
Qed.

Lemma IsAllowedName_c_str maxLength allowSystem name :
  IsAllowedName maxLength allowSystem name
  = IsAllowedName maxLength allowSystem (c_str name).
Proof. unfold IsAllowedName. by rewrite IsAllowedNameLoop_c_str. Qed.

(** X18.  [IsAllowedName] looks at the C string of the name, the characters
    before the first NUL, and accepts it exactly when it has between 1 and
    [TRI_COL_NAME_LENGTH] characters, starts with a letter (or, when system
    names are allowed, an underscore) and goes on with letters, digits,
    underscores and hyphens. *)
Theorem IsAllowedName_accepts_wellformed_names maxLength allowSystem name :
  IsAllowedName maxLength allowSystem name
  = wellFormedName maxLength allowSystem (c_str name).
Proof.
  rewrite <- IsAllowedName_wellFormed by apply c_str_no_NUL.
  apply IsAllowedName_c_str.
Qed.

Lemma wellFormedName_system maxLength s :
  wellFormedName maxLength false s
  = wellFormedName maxLength true s && negb (startsWithUnderscore s).
Proof.
  destruct s as [|ch rest]; [done|]. cbn [wellFormedName startsWithUnderscore].
  unfold nameStart. cbn [andb].
  destruct (Ascii.eqb_spec ch "_") as [->|Hne]; cbn [negb orb].
  - cbn. by rewrite andb_false_r.
  - by rewrite andb_true_r.
Qed.

Lemma startsWithUnderscore_c_str s :
  startsWithUnderscore (c_str s) = startsWithUnderscore s.
Proof.
  destruct s as [|ch rest]; [done|]. cbn.
  destruct (Ascii.eqb_spec ch "000") as [->|Hne]; done.
Qed.

(** X19.  System names.  A name is allowed as a regular name exactly when
    it is allowed as a system name and does not start with an underscore;
    so the test with [allowSystem] set to "the name starts with an
    underscore" is the test with [allowSystem] set.  With a maximal length
    of 0 no name is allowed, and what follows a NUL in the name is not
    looked at. *)
Theorem IsAllowedName_system_names maxLength allowSystem name junk :
  IsAllowedName maxLength false name
  = IsAllowedName maxLength true name && negb (startsWithUnderscore name)
  ∧ IsAllowedName maxLength (startsWithUnderscore name) name
    = IsAllowedName maxLength true name
  ∧ IsAllowedName 0 allowSystem name = false
  ∧ IsAllowedName maxLength allowSystem (name ++ String "000" junk)
    = IsAllowedName maxLength allowSystem name.
Proof.
  assert (Hsys : IsAllowedName maxLength false name
                 = IsAllowedName maxLength true name
                   && negb (startsWithUnderscore name)).
  { rewrite (IsAllowedName_c_str _ false), (IsAllowedName_c_str _ true).
    rewrite !IsAllowedName_wellFormed by apply c_str_no_NUL.
    by rewrite wellFormedName_system, startsWithUnderscore_c_str. }
  split; [exact Hsys|]. split; [|split].
  - destruct (startsWithUnderscore name) eqn:E; [done|].
    rewrite Hsys, ?E. cbn [negb]. by rewrite andb_true_r.
  - rewrite IsAllowedName_c_str, IsAllowedName_wellFormed by apply c_str_no_NUL.
    unfold wellFormedName. destruct (c_str name); [done|]. cbn.
    by rewrite andb_false_r.
  - by rewrite IsAllowedName_c_str, c_str_append, <- IsAllowedName_c_str.
Qed.

(** * Reading and inserting a document *)

Section InsertFacts2.
Context `{IndexImplementations} `{Environment} `{InsertEnvironment}.

Lemma insertPrimaryIndex_cases c header :
  (∃ k,
     Mptr.key (Col.load c header) = VString k ∧ _primaryIndex c !! k = None
     ∧ insertPrimaryIndex c header
       = (TRI_ERROR_NO_ERROR, Col.set_primaryIndex c (<[k := header]> (_primaryIndex c))))
  ∨ (∃ res, res ≠ TRI_ERROR_NO_ERROR ∧ insertPrimaryIndex c header = (res, c)).
Proof.
  unfold insertPrimaryIndex, PrimaryIndex.insertKey, Col.load.
  destruct (Mptr.key (MasterPointersOps.load (_masterPointers c) header))
    as [ | |b|n|k|cid|items|members] eqn:Ek;
    try (right; exists TRI_ERROR_INTERNAL; split; [done|]; cbn;
         by rewrite set_primaryIndex_same).
  destruct (_primaryIndex c !! k) as [found|] eqn:Ef.
  - right. exists TRI_ERROR_ARANGO_UNIQUE_CONSTRAINT_VIOLATED. split; [done|]. cbn.
    by rewrite set_primaryIndex_same.
  - left. by exists k.
Qed.

Lemma insertDocument_succeeded w header operation mptr waitForSync w' operation'
    mptr' waitForSync' :
  insertDocument w header operation mptr waitForSync
  = (TRI_ERROR_NO_ERROR, w', operation', mptr', waitForSync') →
  ∃ k,
    Mptr.key (Col.load (w_collection w) header) = VString k
    ∧ _primaryIndex (w_collection w) !! k = None
    ∧ _primaryIndex (w_collection w') = <[k := header]> (_primaryIndex (w_collection w))
    ∧ _numberDocuments (w_collection w') = _numberDocuments (w_collection w) + 1
    ∧ _masterPointers (w_collection w') = _masterPointers (w_collection w)
    ∧ mptr' = Col.load (w_collection w) header
    ∧ operation' = Op.handled (Op.indexed operation) (trx_lastTick (w_trx w) + 1)
    ∧ w_clock w' = w_clock w.
Proof.
  unfold insertDocument. set (c := w_collection w).
  destruct (insertPrimaryIndex_cases c header)
    as [(k & Hkey & Hnone & ->)|(res & Hne & ->)].
  2:{ rewrite (proj2 (is_error_true res) Hne). intros [= -> _ _ _ _]. done. }
  rewrite is_error_no_error.
  set (c1 := Col.set_primaryIndex c (<[k:=header]> (_primaryIndex c))).
  destruct (insertSecondaryIndexes c1 header false) as [r2 c2] eqn:E2.
  destruct (insertSecondaryIndexes_frame _ _ _ _ _ E2) as (Hp & Hk & Hn).
  destruct (is_error r2) eqn:Er2.
  { destruct (deleteSecondaryIndexes c2 header true) as [r3 c3].
    destruct (deletePrimaryIndex c3 header) as [r4 c4].
    intros [= -> _ _ _ _]. done. }
  unfold TRI_AddOperationTransaction.
  destruct (is_error (addOperation_result (w_trx w) (Op.indexed operation))) eqn:Ea.
  { intros [= Hr _ _ _ _]. by rewrite Hr in Ea. }
  intros [= _ <- <- <- _]. exists k. cbn. unfold Col.load in *. cbn.
  rewrite Hk, Hn, Hp, ?Ea. done.
Qed.

Lemma insertDocument_failed w header operation mptr waitForSync res w' operation'
    mptr' waitForSync' :
  insertDocument w header operation mptr waitForSync
  = (res, w', operation', mptr', waitForSync') →
  res ≠ TRI_ERROR_NO_ERROR →
  _masterPointers (w_collection w') = _masterPointers (w_collection w)
  ∧ w_trx w' = w_trx w ∧ w_clock w' = w_clock w ∧ mptr' = mptr
  ∧ ((operation' = operation
      ∧ _primaryIndex (w_collection w') = _primaryIndex (w_collection w)
      ∧ _numberDocuments (w_collection w') = _numberDocuments (w_collection w))
     ∨ (operation' = Op.indexed operation
        ∧ ∃ k,
            Mptr.key (Col.load (w_collection w) header) = VString k
            ∧ _primaryIndex (w_collection w) !! k = None
            ∧ _primaryIndex (w_collection w')
              = <[k := header]> (_primaryIndex (w_collection w))
            ∧ _numberDocuments (w_collection w')
              = _numberDocuments (w_collection w) + 1)).
Proof.
  unfold insertDocument. set (c := w_collection w).
  destruct (insertPrimaryIndex_cases c header)
    as [(k & Hkey & Hnone & ->)|(res0 & Hne & ->)].
  2:{ rewrite (proj2 (is_error_true res0) Hne). intros [= <- <- <- <- <-] _. cbn.
      repeat (split; [done|]). by left. }
  rewrite is_error_no_error.
  set (c1 := Col.set_primaryIndex c (<[k:=header]> (_primaryIndex c))).
  destruct (insertSecondaryIndexes c1 header false) as [r2 c2] eqn:E2.
  destruct (insertSecondaryIndexes_frame _ _ _ _ _ E2) as (Hp & Hk & Hn).
  destruct (is_error r2) eqn:Er2.
  { destruct (deleteSecondaryIndexes c2 header true) as [r3 c3] eqn:E3.
    destruct (deleteSecondaryIndexes_frame _ _ _ _ _ E3) as (Hp3 & Hk3 & Hn3).
    rewrite (deletePrimaryIndex_present c3 header k header).
    2:{ unfold Col.load. rewrite Hp3, Hp. exact Hkey. }
    2:{ rewrite Hk3, Hk. apply lookup_insert_eq. }
    intros [= <- <- <- <- <-] _. cbn. rewrite Hp3, Hp, Hk3, Hk, Hn3, Hn. cbn.
    rewrite delete_insert_id by done. repeat (split; [done|]). by left. }
  unfold TRI_AddOperationTransaction.
  destruct (is_error (addOperation_result (w_trx w) (Op.indexed operation))) eqn:Ea.
  2:{ intros [= <- _ _ _ _] Hne. apply is_error_false in Ea. done. }
  intros [= <- <- <- <- <-] _. cbn. rewrite Hp, Hk, Hn, ?Ea.
  repeat (split; [done|]). right. split; [done|]. by exists k.
Qed.

(** What [insert] does up to the call of [insertDocument]: the checks of
    the edge attributes and the object built leave the collection and the
    transaction alone. *)
Lemma newObjectForInsert_frame w tick value fromSlice toSlice isEdge isRestore :
  let r := newObjectForInsert w tick value fromSlice toSlice isEdge isRestore in
  w_collection r.1.2 = w_collection w ∧ w_trx r.1.2 = w_trx w
  ∧ w_clock w <= w_clock r.1.2.
Proof.
  unfold newObjectForInsert, Wd.TRI_HybridLogicalClock.
  repeat case_match; simplify_eq; cbn [fst snd w_collection w_trx w_clock];
    (split; [reflexivity | split; [reflexivity | lia]]).
Qed.

Lemma insert_prepared w tick slice fromSlice toSlice isEdge options :
  let r :=
    match recoveryMarker options with
    | None => newObjectForInsert w tick slice fromSlice toSlice isEdge (isRestore options)
    | Some _ =>
        (TRI_ERROR_NO_ERROR, slice, hashString (VPack.extractKeyFromDocument slice), w,
         tick)
    end in
  w_collection r.1.2 = w_collection w ∧ w_trx r.1.2 = w_trx w
  ∧ w_clock w <= w_clock r.1.2.
Proof.
  destruct (recoveryMarker options); [cbn; repeat split; lia|].
  apply newObjectForInsert_frame.
Qed.

(** X20.  A document that was inserted can be read.  When [insert] returns
    [TRI_ERROR_NO_ERROR], the key of the stored document (the one of the
    request, or the one the key generator made) was not in the primary
    index before and maps to the new handle now, the document counter has
    grown by one, the result parameter is the content of that handle, and
    [read] of the key returns it. *)
Theorem insert_then_read w tick slice options out out' w' tick' mptr0 :
  insert w tick slice options out = Some (TRI_ERROR_NO_ERROR, out', w', tick') →
  ∃ k header,
    Mptr.key (out_mptr out') = VString k
    ∧ _primaryIndex (w_collection w) !! k = None
    ∧ _primaryIndex (w_collection w') = <[k := header]> (_primaryIndex (w_collection w))
    ∧ _numberDocuments (w_collection w') = _numberDocuments (w_collection w) + 1
    ∧ read (w_collection w') k mptr0 = (TRI_ERROR_NO_ERROR, out_mptr out')
    ∧ w_clock w <= w_clock w'.
Proof.
  unfold insert. destruct (negb (VPack.isObject slice)); [done|].
  set (isEdge := isEdgeCollection (w_collection w)).
  set (fromSlice := if isEdge then VPack.get slice VPack.FromString else VNone).
  set (toSlice := if isEdge then VPack.get slice VPack.ToString else VNone).
  destruct (isEdge && _); [done|]. destruct (isEdge && _); [done|].
  pose proof (insert_prepared w tick slice fromSlice toSlice isEdge options) as Hprep.
  cbv zeta in Hprep.
  destruct (match recoveryMarker options with
            | None => _ | Some _ => _ end) as [[[[res newSlice] hash] w1] tick1].
  cbn [fst snd] in Hprep. destruct Hprep as (Hc & Ht & Hclock).
  destruct (is_error res) eqn:Eres.
  { intros [= -> _ _ _]. done. }
  destruct (MasterPointersOps.request (_masterPointers (w_collection w1)))
    as [[header pool]|]; [|done].
  set (marker := match recoveryMarker options with
                 | None => CrudMarker TRI_DF_MARKER_VPACK_DOCUMENT newSlice
                 | Some m => m end).
  set (c1 := Col.store _ header _).
  destruct (insertDocument _ header _ _ _) as [[[[res2 w2] op2] mptr2] wfs2] eqn:Edoc.
  destruct (is_error res2) eqn:Eres2.
  { destruct (revert op2 (w_collection w2)). intros [= -> _ _ _]. done. }
  intros [= -> <- <- _].
  apply insertDocument_succeeded in Edoc
    as (k & Hkey & Hnone & Hkeys & Hn & Hpool & Hmptr & _ & Hclock2).
  cbn [w_collection Wd.set_collection w_clock] in *.
  exists k, header. cbn [out_mptr Out.set_resultMarkerTick Out.set_mptr].
  rewrite <- Hc.
  split; [by rewrite Hmptr|]. split; [exact Hnone|]. split; [exact Hkeys|].
  split; [exact Hn|]. split; [|lia].
  unfold read, lookupDocument. cbn. rewrite Hkeys, lookup_insert_eq.
  unfold Col.load. by rewrite Hpool, Hmptr.
Qed.

(** What an [insert] that fails leaves behind. *)
Lemma insert_failed w tick slice options out res out' w' tick' :
  insert w tick slice options out = Some (res, out', w', tick') →
  res ≠ TRI_ERROR_NO_ERROR →
  let c := w_collection w in
  let c' := w_collection w' in
  _primaryIndex c' = _primaryIndex c
  ∧ _numberDocuments c' = _numberDocuments c
  ∧ mp_free (_masterPointers c') = mp_free (_masterPointers c)
  ∧ (∀ h, h ∉ mp_free (_masterPointers c) → Col.load c' h = Col.load c h)
  ∧ w_trx w' = w_trx w
  ∧ out_resultMarkerTick out' = 0.
Proof.
  unfold insert. destruct (negb (VPack.isObject slice)); [done|].
  set (isEdge := isEdgeCollection (w_collection w)).
  set (fromSlice := if isEdge then VPack.get slice VPack.FromString else VNone).
  set (toSlice := if isEdge then VPack.get slice VPack.ToString else VNone).
  destruct (isEdge && _); [by intros [= <- <- <- <-] _|].
  destruct (isEdge && _); [by intros [= <- <- <- <-] _|].
  pose proof (insert_prepared w tick slice fromSlice toSlice isEdge options) as Hprep.
  cbv zeta in Hprep.
  destruct (match recoveryMarker options with
            | None => _ | Some _ => _ end) as [[[[res1 newSlice] hash] w1] tick1].
  cbn [fst snd] in Hprep. destruct Hprep as (Hc & Ht & _).
  destruct w1 as [c0 trx0 clock0]. cbn [w_collection w_trx] in Hc, Ht. subst c0 trx0.
  cbn [w_collection].
  set (c := w_collection w).
  destruct (is_error res1) eqn:Eres.
  { by intros [= <- <- <- <-] _. }
  unfold MasterPointersOps.request.
  destruct (mp_free (_masterPointers c)) as [|header rest] eqn:Efree.
  { by intros [= <- <- <- <-] _. }
  set (marker := match recoveryMarker options with
                 | None => CrudMarker TRI_DF_MARKER_VPACK_DOCUMENT newSlice
                 | Some m => m end).
  set (operation := Op.set_header (Op.make marker TRI_VOC_DOCUMENT_OPERATION_INSERT)
                      header).
  set (c1 := Col.store _ header _).
  assert (Hc1 : _primaryIndex c1 = _primaryIndex c
                ∧ _numberDocuments c1 = _numberDocuments c
                ∧ mp_free (_masterPointers c1) = rest
                ∧ ∀ h, h ≠ header →
                    mp_slots (_masterPointers c1) !! h = mp_slots (_masterPointers c) !! h).
  { repeat (split; [done|]). intros h Hne. unfold c1. cbn.
    by rewrite !lookup_insert_ne. }
  destruct Hc1 as (Hkeys1 & Hn1 & Hfree1 & Hslots1).
  destruct (insertDocument _ header _ _ _) as [[[[res2 w2] op2] mptr2] wfs2] eqn:Edoc.
  destruct (is_error res2) eqn:Eres2.
  2:{ intros [= <- _ _ _] Hne. by apply is_error_false in Eres2. }
  apply is_error_true in Eres2.
  destruct (insertDocument_failed _ _ _ _ _ _ _ _ _ _ Edoc Eres2)
    as (Hpool & Htrx & _ & _ & Hcase).
  cbn [w_collection Wd.set_collection w_trx] in Hpool, Htrx, Hcase.
  assert (Hreleased : ∀ c2,
            _masterPointers c2 = _masterPointers c1 →
            let c3 := Col.set_masterPointers c2
                        (MasterPointersOps.release (_masterPointers c2) header) in
            mp_free (_masterPointers c3) = header :: rest
            ∧ ∀ h, h ∉ header :: rest → Col.load c3 h = Col.load c h).
  { intros c2 Hp c3. unfold c3, Col.load, MasterPointersOps.load,
      MasterPointersOps.release. cbn. rewrite Hp, Hfree1. split; [done|].
    intros h Hh. apply not_elem_of_cons in Hh as [Hne _].
    by rewrite lookup_delete_ne, Hslots1. }
  destruct Hcase as [(-> & Hkeys & Hn)|(-> & k & Hkey & Hnone & Hkeys & Hn)].
  - cbn. intros [= <- <- <- <-] _. cbn [w_collection Wd.set_collection w_trx
      out_resultMarkerTick Out.set_mptr Out.set_resultMarkerTick].
    destruct (Hreleased (w_collection w2) Hpool) as [Hf Hl].
    split; [cbn; by rewrite Hkeys|]. split; [cbn; by rewrite Hn|].
    split; [exact Hf|]. split; [exact Hl|]. done.
  - unfold revert. cbn [op_status op_header Op.indexed Op.set_status operation
      Op.set_header Op.make op_type].
    rewrite bool_decide_eq_true_2 by done. cbn [orb].
    unfold rollbackOperation.
    rewrite (deletePrimaryIndex_present (w_collection w2) header k header).
    2:{ unfold Col.load. rewrite Hpool. exact Hkey. }
    2:{ rewrite Hkeys. apply lookup_insert_eq. }
    set (c3 := Col.set_primaryIndex (w_collection w2) _).
    destruct (deleteSecondaryIndexes c3 header true) as [r4 c4] eqn:E4.
    destruct (deleteSecondaryIndexes_frame _ _ _ _ _ E4) as (Hp4 & Hk4 & Hn4).
    cbn [snd]. intros [= <- <- <- <-] _. cbn [w_collection Wd.set_collection w_trx
      out_resultMarkerTick Out.set_mptr Out.set_resultMarkerTick].
    set (c5 := Col.set_numberDocuments c4 (_numberDocuments c4 - 1)).
    destruct (Hreleased c5) as [Hf Hl].
    { unfold c5. cbn. rewrite Hp4. unfold c3. cbn. exact Hpool. }
    split; [cbn; rewrite Hk4; unfold c3; cbn;
            by rewrite Hkeys, Hkeys1, delete_insert_id|].
    split; [cbn; rewrite Hn4; unfold c3; cbn; rewrite Hn, Hn1; lia|].
    split; [exact Hf|]. split; [exact Hl|]. done.
Qed.

(** X21.  An insert that fails leaves no document behind.  Whatever made
    [insert] return an error (the edge attributes, the key, the revision in
    restore mode, no free handle, the primary or a secondary index, the
    write-ahead log), the primary index and the document counter are what
    they were, the handle it took is free again, the handles that are in
    use have their content, nothing was appended to the log, and the
    result tick is 0. *)
Theorem failed_insert_leaves_no_document w tick slice options out res out' w' tick' :
  insert w tick slice options out = Some (res, out', w', tick') →
  res ≠ TRI_ERROR_NO_ERROR →
  let c := w_collection w in
  let c' := w_collection w' in
  _primaryIndex c' = _primaryIndex c
  ∧ _numberDocuments c' = _numberDocuments c
  ∧ mp_free (_masterPointers c') = mp_free (_masterPointers c)
  ∧ (∀ h, h ∉ mp_free (_masterPointers c) → Col.load c' h = Col.load c h)
  ∧ w_trx w' = w_trx w
  ∧ out_resultMarkerTick out' = 0.
Proof.
  intros Hcall Hres c c'.
  destruct (insert_failed w tick slice options out res out' w' tick' Hcall Hres)
    as (Hkeys & Hn & Hfree & Hloads & Htrx & Htick).
  split_and!; [exact Hkeys | exact Hn | exact Hfree | exact Hloads | exact Htrx
               | exact Htick].
Qed.

(** X22.  The system attributes of an inserted document.  When
    [newObjectForInsert] succeeds, the object has a string [_key]: the one
    the key generator made for the next tick of the server when the value
    has no [_key], else the [_key] of the value, which the key generator
    has accepted; the hash is the hash of that key; [_id] is the custom
    value with the plan id (on a database server, for a collection whose
    name does not start with an underscore) or the id of the collection;
    and outside restore mode [_rev] is the print of the value of the clock
    after the call, which is later than the clock before it. *)
Theorem newObjectForInsert_system_attributes w tick value fromSlice toSlice isEdge
    isRestore built hash w' tick' :
  newObjectForInsert w tick value fromSlice toSlice isEdge isRestore
  = (TRI_ERROR_NO_ERROR, built, hash, w', tick') →
  let c := w_collection w in
  ∃ k,
    VPack.get built VPack.KeyString = VString k
    ∧ hash = hashString (VString k)
    ∧ (if VPack.isNone (VPack.get value VPack.KeyString)
       then k = KeyGenerator_generate (_keyGenerator c) (tick + 1)
            ∧ k ≠ EmptyString ∧ tick' = tick + 1
       else VPack.get value VPack.KeyString = VString k
            ∧ KeyGenerator_validate (_keyGenerator c) k isRestore = TRI_ERROR_NO_ERROR
            ∧ tick' = tick)
    ∧ VPack.get built VPack.IdString
      = VCustom (if trx_isDBServer (w_trx w)
                    && negb (startsWithUnderscore (_info_name c))
                 then _info_planId c else _info_id c)
    ∧ (isRestore = false →
       VPack.get built VPack.RevString = VString (TRI_RidToString (w_clock w'))
       ∧ w_clock w < w_clock w').
Proof.
  intros Hcall c. unfold newObjectForInsert in Hcall. fold c in Hcall.
  assert (Hid : (trx_isDBServer (w_trx w)
                 && match _info_name c with
                    | String ch _ => negb (Ascii.eqb ch "_")
                    | EmptyString => true
                    end)
                = (trx_isDBServer (w_trx w)
                   && negb (startsWithUnderscore (_info_name c)))).
  { by destruct (_info_name c). }
  destruct (VPack.isNone (VPack.get value VPack.KeyString)) eqn:Enone.
  - cbn [Wd.TRI_HybridLogicalClock] in Hcall.
    destruct (String.eqb (KeyGenerator_generate (_keyGenerator c) (tick + 1))
                EmptyString) eqn:Eempty; [done|].
    apply String.eqb_neq in Eempty. rewrite is_error_no_error in Hcall.
    cbn [w_trx] in Hcall. rewrite Hid in Hcall.
    exists (KeyGenerator_generate (_keyGenerator c) (tick + 1)).
    destruct isRestore.
    + destruct (negb (VPack.isString _)); [done|]. cbn [andb] in Hcall.
      destruct (TRI_StringToRid _) as [rid [|]]; cbn in Hcall;
        injection Hcall as <- <- <- <-; by destruct isEdge.
    + cbn [andb] in Hcall.
      destruct (w_clock w + 1 =? 0) eqn:Ez; cbn in Hcall;
        injection Hcall as <- <- <- <-; (repeat (split; [by destruct isEdge|]));
        cbn; lia.
  - destruct (VPack.get value VPack.KeyString) as [ | |b|n|k|cid|items|members] eqn:Ekey;
      try done.
    cbn [VPack.isString negb copyString] in Hcall.
    destruct (is_error (KeyGenerator_validate (_keyGenerator c) k isRestore)) eqn:Ev.
    { apply is_error_true in Ev. by injection Hcall as Hres _ _ _ _. }
    apply is_error_false in Ev. rewrite Hid in Hcall. exists k.
    destruct isRestore.
    + destruct (negb (VPack.isString _)); [done|]. cbn [andb] in Hcall.
      destruct (TRI_StringToRid _) as [rid [|]]; cbn in Hcall;
        injection Hcall as <- <- <- <-; by destruct isEdge.
    + cbn in Hcall. injection Hcall as <- <- <- <-.
      (repeat (split; [by destruct isEdge|])).
      cbn; lia.
Qed.
End InsertFacts2.

Section InsertOnTheSample.
#[local] Existing Instance Sample.healthy.
#[local] Existing Instance Sample.environment.
#[local] Existing Instance InsertCases.insertEnvironment.

(** The newcomer gets a key from the key generator and can be read. *)
Lemma insert_then_read_witness :
  ∃ out' w' tick' k header,
    insert (Sample.world Sample.users) 50 InsertCases.newcomer Sample.options
      Sample.outputs
    = Some (TRI_ERROR_NO_ERROR, out', w', tick')
    ∧ Mptr.key (out_mptr out') = VString k
    ∧ _primaryIndex Sample.users !! k = None
    ∧ _primaryIndex (w_collection w') = <[k := header]> (_primaryIndex Sample.users)
    ∧ _numberDocuments (w_collection w') = 2
    ∧ read (w_collection w') k Mptr.fresh = (TRI_ERROR_NO_ERROR, out_mptr out').
Proof.
  assert (Hcall : ∃ out' w' tick',
            insert (Sample.world Sample.users) 50 InsertCases.newcomer Sample.options
              Sample.outputs
            = Some (TRI_ERROR_NO_ERROR, out', w', tick')).
  { do 3 eexists. vm_compute. reflexivity. }
  destruct Hcall as (out' & w' & tick' & Hcall).
  destruct (insert_then_read _ _ _ _ _ _ _ _ Mptr.fresh Hcall)
    as (k & header & Hkey & Hnone & Hkeys & Hn & Hread & _).
  exists out', w', tick', k, header.
  split; [exact Hcall|]. split; [exact Hkey|]. split; [exact Hnone|].
  split; [exact Hkeys|]. split; [exact Hn|]. exact Hread.
Defined.

(** The impostor asks for the key of the first person. *)
Lemma failed_insert_leaves_no_document_witness :
  ∃ out' w' tick',
    insert (Sample.world Sample.users) 50 InsertCases.impostor Sample.options
      Sample.outputs
    = Some (TRI_ERROR_ARANGO_UNIQUE_CONSTRAINT_VIOLATED, out', w', tick')
    ∧ _primaryIndex (w_collection w') = _primaryIndex Sample.users
    ∧ _numberDocuments (w_collection w') = 1
    ∧ mp_free (_masterPointers (w_collection w')) = [3%nat; 4%nat]
    ∧ Col.load (w_collection w') 1 = Col.load Sample.users 1
    ∧ w_trx w' = w_trx (Sample.world Sample.users)
    ∧ out_resultMarkerTick out' = 0.
Proof.
  assert (Hcall : ∃ out' w' tick',
            insert (Sample.world Sample.users) 50 InsertCases.impostor Sample.options
              Sample.outputs
            = Some (TRI_ERROR_ARANGO_UNIQUE_CONSTRAINT_VIOLATED, out', w', tick')).
  { do 3 eexists. vm_compute. reflexivity. }
  destruct Hcall as (out' & w' & tick' & Hcall).
  destruct (failed_insert_leaves_no_document _ _ _ _ _ _ _ _ _ Hcall)
    as (Hkeys & Hn & Hfree & Hloads & Htrx & Htick); [discriminate|].
  exists out', w', tick'.
  split; [exact Hcall|]. split; [exact Hkeys|]. split; [exact Hn|].
  split; [exact Hfree|]. split; [|split; [exact Htrx | exact Htick]].
  apply Hloads. change (1%nat ∉ [3%nat; 4%nat]).
  rewrite !not_elem_of_cons. repeat split; try discriminate. apply not_elem_of_nil.
Defined.

(** The object built for the newcomer. *)
Lemma newObjectForInsert_system_attributes_witness :
  ∃ built hash w' k,
    newObjectForInsert (Sample.world Sample.users) 50 InsertCases.newcomer VNone VNone
      false false
    = (TRI_ERROR_NO_ERROR, built, hash, w', 51)
    ∧ VPack.get built VPack.KeyString = VString k
    ∧ k = Sample.printRid 20 51 EmptyString
    ∧ VPack.get built VPack.IdString = VCustom 7
    ∧ VPack.get built VPack.RevString = VString (TRI_RidToString (w_clock w'))
    ∧ 41 < w_clock w'.
Proof.
  assert (Hcall : ∃ built hash w',
            newObjectForInsert (Sample.world Sample.users) 50 InsertCases.newcomer
              VNone VNone false false
            = (TRI_ERROR_NO_ERROR, built, hash, w', 51)).
  { do 3 eexists. vm_compute. reflexivity. }
  destruct Hcall as (built & hash & w' & Hcall).
  destruct (newObjectForInsert_system_attributes _ _ _ _ _ _ _ _ _ _ _ Hcall)
    as (k & Hkey & _ & Hgen & Hid & Hrev).
  destruct (Hrev eq_refl) as [Hrev1 Hrev2].
  exists built, hash, w', k.
  split; [exact Hcall|]. split; [exact Hkey|]. split; [exact (proj1 Hgen)|].
  split; [exact Hid|]. split; [exact Hrev1 | exact Hrev2].
Defined.

End InsertOnTheSample.

(** * Replay: the collection stays consistent *)

Section ReplayConsistency.
Context `{IndexImplementations} `{ReplayEnvironment}.

Lemma consistent_same c c' :
  _primaryIndex c' = _primaryIndex c →
  _masterPointers c' = _masterPointers c →
  _numberDocuments c' = _numberDocuments c →
  consistent c → consistent c'.
Proof.
  unfold consistent, Col.load. intros -> -> ->. done.
Qed.

Lemma consistent_injective c k k' h :
  consistent c → _primaryIndex c !! k = Some h → _primaryIndex c !! k' = Some h →
  k = k'.
Proof.
  intros (Hkeys & _) Hk Hk'.
  destruct (Hkeys _ _ Hk) as [E _]. destruct (Hkeys _ _ Hk') as [E' _]. congruence.
Qed.

Lemma size_insert_new (keys : gmap string nat) k h :
  keys !! k = None →
  PrimaryIndex.size (<[k := h]> keys) = PrimaryIndex.size keys + 1.
Proof.
  intros Hnone. unfold PrimaryIndex.size. rewrite map_size_insert_None by done. lia.
Qed.

Lemma size_delete_old (keys : gmap string nat) k h :
  keys !! k = Some h →
  PrimaryIndex.size (delete k keys) = PrimaryIndex.size keys - 1.
Proof.
  intros Hsome. unfold PrimaryIndex.size.
  assert (Hin : is_Some (keys !! k)) by (by eexists).
  pose proof (map_size_delete_Some k keys Hin).
  pose proof (map_size_ne_0_lookup_2 keys k Hin). lia.
Qed.

(** A document marker. *)
Lemma document_marker_consistent marker datafile st c k :
  VPack.extractKeyFromDocument (m_vpack marker) = VString k →
  consistent c →
  st_fid st ≠ df_fid datafile ∨ ready st →
  ∃ res st' c',
    OpenIteratorHandleDocumentMarker marker datafile st c = Some (res, st', c')
    ∧ consistent c' ∧ ready st'
    ∧ st_documents st' = st_documents st + 1
    ∧ st_deletions st' = st_deletions st
    ∧ (length (mp_free (_masterPointers c))
       ≤ S (length (mp_free (_masterPointers c'))))%nat
    ∧ (res = TRI_ERROR_NO_ERROR
         ∧ (∃ h, _primaryIndex c' !! k = Some h
                 ∧ pointsTo c' h (df_fid datafile) marker)
         ∧ (_primaryIndex c !! k = None → mp_free (_masterPointers c) ≠ [])
       ∨ res = TRI_ERROR_OUT_OF_MEMORY
         ∧ mp_free (_masterPointers c) = [] ∧ _primaryIndex c !! k = None
         ∧ _primaryIndex c' = _primaryIndex c)
    ∧ (∀ k', k' ≠ k → _primaryIndex c' !! k' = _primaryIndex c !! k')
    ∧ _info_revision c'
      = revisionAfter (_info_revision c) (extractRevision (m_vpack marker))
    ∧ _tickMax c' = _tickMax c
    ∧ _keyGenerator c' = {[ k ]} ∪ _keyGenerator c.
Proof.
  intros Hkey Hc Hst.
  unfold OpenIteratorHandleDocumentMarker, extractKeyAndRevFromDocument.
  rewrite Hkey, setLastRevision_eq.
  set (st1 := {| st_fid := st_fid st; st_stats := st_stats st; st_dfi := st_dfi st;
                 st_deletions := st_deletions st; st_documents := st_documents st + 1;
                 st_initialCount := st_initialCount st |}).
  destruct (enterDatafile_ready st1 (df_fid datafile) Hst) as (Hr & Hf & Hdel & Hdoc).
  set (st2 := enterDatafile st1 (df_fid datafile)) in *.
  destruct c as [ty nm cid pid rev ib tm ds [slots free] nd keys idxs ci pi us kg].
  destruct Hc as (Hkeys & Hdup & Hn).
  unfold Col.load, MasterPointersOps.load in Hkeys. cbn in Hkeys, Hdup, Hn.
  cbn. destruct (keys !! k) as [found|] eqn:Hlookup.
  - (* an update *)
    unfold Col.load, MasterPointersOps.load. cbn.
    set (oldData := default Mptr.fresh (slots !! found)) in *.
    assert (Hretired : ∃ st3,
              (let '(dfi, st0) :=
                 if bool_decide (Mptr.getFid oldData = st_fid st2) then (st_dfi st2, st2)
                 else let '(p, st1) := FindDatafileStats st2 (Mptr.getFid oldData) in
                      (Some p, st1) in
               if bool_decide (is_Some (Mptr.vpack oldData))
               then through dfi (Stats.dead (AlignedSize (Mptr.markerSize oldData))) st0
               else Some st0) = Some st3
              ∧ ready st3 ∧ st_deletions st3 = st_deletions st2
              ∧ st_documents st3 = st_documents st2).
    { destruct (bool_decide (is_Some (Mptr.vpack oldData))).
      - destruct (retire st2 (Mptr.getFid oldData)
                    (Stats.dead (AlignedSize (Mptr.markerSize oldData))) Hr)
          as (st3 & Hretire & Hr3 & _ & Hd3 & Hdoc3).
        exists st3. done.
      - destruct (bool_decide (Mptr.getFid oldData = st_fid st2)).
        + exists st2. done.
        + pose proof (FindDatafileStats_ready st2 (Mptr.getFid oldData) Hr) as Hfind.
          destruct (FindDatafileStats st2 (Mptr.getFid oldData)) as [p st0].
          cbn in Hfind. destruct Hfind as (_ & Hr0 & _ & _ & Hd0 & Hdoc0).
          exists st0. done. }
    destruct Hretired as (st3 & Hretire & Hr3 & Hd3 & Hdoc3).
    destruct (if bool_decide (Mptr.getFid oldData = st_fid st2) then _ else _)
      as [dfi st0].
    cbn beta iota in Hretire. rewrite Hretire. cbn [mbind option_bind].
    destruct (through_ready st3 (Stats.alive (AlignedMarkerSize marker)) Hr3)
      as (st4 & Hthrough & Hr4 & _ & Hd4 & Hdoc4 & _).
    rewrite Hthrough. cbn [mbind option_bind].
    eexists _, _, _. split; [reflexivity|]. split_and!; try done.
    + split; [|done]. intros k' h' Hk'.
      unfold Col.load, MasterPointersOps.load. cbn.
      destruct (Hkeys _ _ Hk') as [Hkey' Hfree']. split; [|done].
      destruct (decide (h' = found)) as [->|Hne].
      * rewrite lookup_insert_eq. cbn. unfold Mptr.key, Mptr.vpack. cbn.
        rewrite Hkey. destruct (Hkeys _ _ Hlookup) as [E _]. congruence.
      * by rewrite lookup_insert_ne.
    + rewrite Hdoc4, Hdoc3, Hdoc. done.
    + rewrite Hd4, Hd3, Hdel. done.
    + cbn. lia.
    + left. split; [done|]. split; [|done]. exists found. split; [done|].
      unfold pointsTo, Col.load, MasterPointersOps.load. cbn.
      by rewrite lookup_insert_eq.
  - (* a new entry *)
    destruct free as [|header rest]; cbn.
    { eexists _, _, _. split; [reflexivity|]. split_and!; try done.
      - cbn. lia.
      - by right. }
    rewrite (insertKey_absent keys _ header k); [|by rewrite load_store|done].
    rewrite is_error_no_error.
    destruct (through_ready st2 (Stats.alive (AlignedMarkerSize marker)) Hr)
      as (st3 & Hthrough & Hr3 & _ & Hd3 & Hdoc3 & _).
    rewrite Hthrough. cbn [mbind option_bind].
    eexists _, _, _. split; [reflexivity|].
    apply NoDup_cons in Hdup as [Hfresh Hdup]. split_and!; try done.
    + split; [|split; [done|]].
      * intros k' h' Hk'. unfold Col.load, MasterPointersOps.load. cbn in Hk' |- *.
        destruct (decide (k' = k)) as [->|Hne].
        -- rewrite lookup_insert_eq in Hk'. injection Hk' as <-.
           rewrite lookup_insert_eq. cbn. unfold Mptr.key, Mptr.vpack. cbn.
           by rewrite Hkey.
        -- rewrite lookup_insert_ne in Hk' by done.
           destruct (Hkeys _ _ Hk') as [Hkey' Hfree'].
           apply not_elem_of_cons in Hfree' as [Hne' Hrest].
           by rewrite !lookup_insert_ne.
      * cbn. rewrite size_insert_new by done. lia.
    + rewrite Hdoc3, Hdoc. done.
    + rewrite Hd3, Hdel. done.
    + left. split; [done|]. split; [|done]. exists header. cbn.
      rewrite lookup_insert_eq.
      split; [done|]. unfold pointsTo, Col.load, MasterPointersOps.load. cbn.
      by rewrite lookup_insert_eq.
    + intros k' Hne. cbn. by rewrite lookup_insert_ne.
Qed.

(** A deletion marker. *)
Lemma deletion_marker_consistent marker datafile st c k :
  VPack.extractKeyFromDocument (m_vpack marker) = VString k →
  consistent c →
  st_fid st ≠ df_fid datafile ∨ ready st →
  ∃ st' c',
    OpenIteratorHandleDeletionMarker marker datafile st c
    = Some (TRI_ERROR_NO_ERROR, st', c')
    ∧ consistent c' ∧ ready st'
    ∧ st_documents st' = st_documents st
    ∧ st_deletions st' = st_deletions st + 1
    ∧ (length (mp_free (_masterPointers c))
       ≤ length (mp_free (_masterPointers c')))%nat
    ∧ _primaryIndex c' = delete k (_primaryIndex c)
    ∧ _info_revision c'
      = revisionAfter (_info_revision c) (extractRevision (m_vpack marker))
    ∧ _tickMax c' = _tickMax c
    ∧ _keyGenerator c' = {[ k ]} ∪ _keyGenerator c.
Proof.
  intros Hkey Hc Hst.
  unfold OpenIteratorHandleDeletionMarker, extractKeyAndRevFromDocument.
  rewrite Hkey, setLastRevision_eq.
  set (st1 := {| st_fid := st_fid st; st_stats := st_stats st; st_dfi := st_dfi st;
                 st_deletions := st_deletions st + 1; st_documents := st_documents st;
                 st_initialCount := st_initialCount st |}).
  destruct (enterDatafile_ready st1 (df_fid datafile) Hst) as (Hr & Hf & Hdel & Hdoc).
  set (st2 := enterDatafile st1 (df_fid datafile)) in *.
  destruct c as [ty nm cid pid rev ib tm ds [slots free] nd keys idxs ci pi us kg].
  destruct Hc as (Hkeys & Hdup & Hn).
  unfold Col.load, MasterPointersOps.load in Hkeys. cbn in Hkeys, Hdup, Hn.
  cbn. destruct (keys !! k) as [found|] eqn:Hlookup.
  - (* a real delete *)
    unfold Col.load, MasterPointersOps.load. cbn.
    set (oldData := default Mptr.fresh (slots !! found)) in *.
    destruct (retire st2 (Mptr.getFid oldData)
                (Stats.dead (AlignedSize (AlignedSize (Mptr.markerSize oldData)))) Hr)
      as (st3 & Hretire & Hr3 & _ & Hd3 & Hdoc3).
    destruct (if bool_decide (Mptr.getFid oldData = st_fid st2) then _ else _)
      as [dfi st0].
    cbn beta iota in Hretire. rewrite Hretire. cbn [mbind option_bind].
    destruct (through_ready st3 Stats.deletion Hr3)
      as (st4 & Hthrough & Hr4 & _ & Hd4 & Hdoc4 & _).
    rewrite Hthrough. cbn [mbind option_bind].
    unfold deletePrimaryIndex, Col.load, MasterPointersOps.load.
    cbn. fold oldData.
    destruct (Hkeys _ _ Hlookup) as [Hk Hused]. fold oldData in Hk.
    rewrite Hk. cbn [PrimaryIndex.removeKey]. rewrite Hlookup.
    eexists _, _. split; [reflexivity|]. split_and!; try done.
    + split; [|split].
      * intros k' h' Hk'. unfold Col.load, MasterPointersOps.load. cbn in Hk' |- *.
        apply lookup_delete_Some in Hk' as [Hne Hk'].
        destruct (Hkeys _ _ Hk') as [Hkey' Hfree'].
        assert (h' ≠ found).
        { intros ->. apply Hne.
          fold oldData in Hkey'. congruence. }
        rewrite lookup_delete_ne by done. split; [done|].
        apply not_elem_of_cons. done.
      * cbn. apply NoDup_cons. done.
      * cbn. rewrite (size_delete_old keys k found) by done. lia.
    + rewrite Hdoc4, Hdoc3, Hdoc. done.
    + rewrite Hd4, Hd3, Hdel. done.
    + cbn. lia.
  - (* we missed the create *)
    destruct (through_ready st2 Stats.deletion Hr)
      as (st3 & Hthrough & Hr3 & _ & Hd3 & Hdoc3 & _).
    rewrite Hthrough. cbn [mbind option_bind].
    eexists _, _. split; [reflexivity|]. split_and!; try done.
    + rewrite Hdoc3, Hdoc. done.
    + rewrite Hd3, Hdel. done.
    + cbn. by rewrite delete_id.
Qed.

Lemma markersOfType_cons type marker rest :
  markersOfType type (marker :: rest)
  = (if bool_decide (m_type marker = type) then 1 else 0) + markersOfType type rest.
Proof.
  unfold markersOfType. rewrite filter_cons.
  destruct (decide (m_type marker = type)) as [E|E].
  - rewrite bool_decide_eq_true_2 by done. cbn [length]. lia.
  - rewrite bool_decide_eq_false_2 by done. lia.
Qed.

Lemma markersOfType_app type xs ys :
  markersOfType type (xs ++ ys) = markersOfType type xs + markersOfType type ys.
Proof.
  unfold markersOfType. rewrite filter_app, length_app. lia.
Qed.

Lemma markersOfType_nonneg type markers : 0 <= markersOfType type markers.
Proof. unfold markersOfType. lia. Qed.

Lemma covered_raised marker datafile c c' :
  raised c c' → covered marker datafile c → covered marker datafile c'.
Proof.
  intros (Ht & Hr & Hk) (H1 & H2 & H3 & H4). split_and!; try done.
  - intros Hs. specialize (H2 Hs). lia.
  - intros Hty. destruct (H4 Hty) as [Hrev Hkeys]. split.
    + intros Hpos. specialize (Hrev Hpos). lia.
    + intros k Hkey. apply Hk, Hkeys, Hkey.
Qed.

Lemma covered_extended marker datafile datafile' c :
  extended datafile datafile' → covered marker datafile c → covered marker datafile' c.
Proof.
  intros (_ & Ht & Hd) (H1 & H2 & H3 & H4). split_and!; try done; [lia|].
  intros Hty. specialize (H3 Hty). lia.
Qed.

Lemma raised_refl c : raised c c.
Proof. by split_and!. Qed.

Lemma raised_trans c1 c2 c3 : raised c1 c2 → raised c2 c3 → raised c1 c3.
Proof.
  intros (? & ? & ?) (? & ? & ?). split_and!; [lia | lia | set_solver].
Qed.

Lemma extended_refl datafile : extended datafile datafile.
Proof. by split_and!. Qed.

Lemma extended_trans d1 d2 d3 : extended d1 d2 → extended d2 d3 → extended d1 d3.
Proof.
  intros (? & ? & ?) (? & ? & ?). split_and!; [congruence | lia | lia].
Qed.

(** The last step of the iterator: [_tickMax] follows the tick of a marker
    that is not structural. *)
Lemma tick_advance c tick type :
  let c' :=
    if (_tickMax c <? tick) && negb (isStructuralMarker type)
    then Col.set_recovery c (_info_revision c) tick (_keyGenerator c)
    else c in
  _primaryIndex c' = _primaryIndex c ∧ _masterPointers c' = _masterPointers c
  ∧ _numberDocuments c' = _numberDocuments c
  ∧ _info_revision c' = _info_revision c ∧ _keyGenerator c' = _keyGenerator c
  ∧ _tickMax c <= _tickMax c'
  ∧ (isStructuralMarker type = false → tick <= _tickMax c').
Proof.
  destruct (isStructuralMarker type); cbn [negb].
  - rewrite andb_false_r. split_and!; done.
  - rewrite andb_true_r. destruct (Z.ltb_spec (_tickMax c) tick); cbn;
      split_and!; try done; lia.
Qed.

(** One call of the iterator. *)
Lemma OpenIterator_step marker st datafile c :
  keyed marker = true → df_fid datafile ≠ 0 →
  ready st ∨ st_fid st = 0 → consistent c →
  ∃ ok st' datafile' c',
    OpenIterator marker st datafile c = Some (ok, st', datafile', c')
    ∧ consistent c' ∧ (ready st' ∨ st_fid st' = 0)
    ∧ st_documents st'
      = st_documents st + markersOfType TRI_DF_MARKER_VPACK_DOCUMENT [marker]
    ∧ st_deletions st'
      = st_deletions st + markersOfType TRI_DF_MARKER_VPACK_REMOVE [marker]
    ∧ Z.of_nat (length (mp_free (_masterPointers c)))
      <= markersOfType TRI_DF_MARKER_VPACK_DOCUMENT [marker]
         + Z.of_nat (length (mp_free (_masterPointers c')))
    ∧ (ok = false ↔
       m_type marker = TRI_DF_MARKER_VPACK_DOCUMENT
       ∧ PrimaryIndex.lookupKey (_primaryIndex c)
           (VPack.extractKeyFromDocument (m_vpack marker)) = None
       ∧ mp_free (_masterPointers c) = [])
    ∧ (ok = false → _primaryIndex c' = _primaryIndex c)
    ∧ (ok = true → m_type marker = TRI_DF_MARKER_VPACK_DOCUMENT →
       ∃ h, PrimaryIndex.lookupKey (_primaryIndex c')
              (VPack.extractKeyFromDocument (m_vpack marker)) = Some h
            ∧ pointsTo c' h (df_fid datafile) marker)
    ∧ (m_type marker = TRI_DF_MARKER_VPACK_REMOVE →
       PrimaryIndex.lookupKey (_primaryIndex c')
         (VPack.extractKeyFromDocument (m_vpack marker)) = None)
    ∧ (∀ k', VString k' ≠ VPack.extractKeyFromDocument (m_vpack marker) →
             _primaryIndex c' !! k' = _primaryIndex c !! k')
    ∧ (m_type marker ≠ TRI_DF_MARKER_VPACK_DOCUMENT →
       m_type marker ≠ TRI_DF_MARKER_VPACK_REMOVE →
       _primaryIndex c' = _primaryIndex c
       ∧ _masterPointers c' = _masterPointers c)
    ∧ extended datafile datafile' ∧ raised c c' ∧ covered marker datafile' c'.
Proof.
  intros Hkeyed Hfid Hst Hc.
  assert (Hst' : st_fid st ≠ df_fid datafile ∨ ready st).
  { destruct Hst as [Hr|E]; [by right|left; congruence]. }
  rewrite !markersOfType_cons.
  change (markersOfType _ []) with 0.
  unfold keyed in Hkeyed. unfold OpenIterator.
  assert (Hfile : ∀ dataMin dataMax,
            df_dataMax datafile <= dataMax →
            extended datafile
              {| df_fid := df_fid datafile; df_dataMin := dataMin;
                 df_dataMax := dataMax;
                 df_tickMin := if df_tickMin datafile =? 0 then m_tick marker
                               else df_tickMin datafile;
                 df_tickMax := if df_tickMax datafile <? m_tick marker
                               then m_tick marker else df_tickMax datafile |}
            ∧ m_tick marker
              <= (if df_tickMax datafile <? m_tick marker then m_tick marker
                  else df_tickMax datafile)).
  { intros dataMin dataMax Hmax. unfold extended. cbn.
    destruct (Z.ltb_spec (df_tickMax datafile) (m_tick marker)); split_and!;
      try done; lia. }
  destruct (m_type marker) eqn:Ht.
  5:{ (* a document *)
    destruct (VPack.extractKeyFromDocument (m_vpack marker))
      as [ | |b|n|k|cid|items|members] eqn:Hkey; try done.
    destruct (document_marker_consistent marker datafile st c k Hkey Hc Hst')
      as (res & st' & c' & -> & Hc' & Hr' & Hdocs & Hdels & Hlen & Hres & Hothers
          & Hrev & Htick & Hgen).
    cbn [mbind option_bind]. eexists _, _, _, _. split; [reflexivity|].
    destruct (tick_advance c' (m_tick marker) TRI_DF_MARKER_VPACK_DOCUMENT)
      as (Hi & Hp & Hn & Hr & Hg & Ht1 & Ht2).
    set (c'' := if (_tickMax c' <? m_tick marker) && _ then _ else c') in *.
    destruct (Hfile (if df_dataMin datafile =? 0 then m_tick marker
                     else df_dataMin datafile)
                (if df_dataMax datafile <? m_tick marker then m_tick marker
                 else df_dataMax datafile)) as [Hext Hcov].
    { destruct (Z.ltb_spec (df_dataMax datafile) (m_tick marker)); lia. }
    rewrite Hi, Hp. cbn [PrimaryIndex.lookupKey].
    rewrite bool_decide_eq_true_2 by done. rewrite bool_decide_eq_false_2 by done.
    pose proof (revisionAfter_ge (_info_revision c) (extractRevision (m_vpack marker)))
      as [Hge1 Hge2].
    split_and!; try done; try lia; try (by apply (consistent_same c'));
      try (by left).
    - destruct Hres as [(-> & _ & Hfree)|(-> & Hfree & Hnone & _)]; cbn.
      + split; [done|]. intros (_ & Hnone & Hnil). by apply Hfree in Hnone.
      + done.
    - destruct Hres as [(-> & _)|(-> & _ & _ & Hsame)]; cbn; [done|]. by intros _.
    - destruct Hres as [(-> & (h & Hh & Hpoints) & _)|(-> & _)]; cbn; [|done].
      intros _ _. exists h. split; [done|].
      unfold pointsTo, Col.load in *. by rewrite Hp.
    - intros k' Hne. apply Hothers. congruence.
    - unfold raised. rewrite Hr, Hrev, Hg, Hgen.
      split_and!; [lia | lia | apply union_subseteq_r].
    - unfold covered. rewrite Ht, Hkey. cbn [df_tickMax df_dataMax].
      rewrite Hr, Hrev, Hg, Hgen. split_and!; try done.
      + intros _. destruct (Z.ltb_spec (df_dataMax datafile) (m_tick marker)); lia.
      + intros _. split; [done|]. intros k0 [= <-].
        by apply elem_of_union_l, elem_of_singleton. }
  5:{ (* a deletion *)
    destruct (VPack.extractKeyFromDocument (m_vpack marker))
      as [ | |b|n|k|cid|items|members] eqn:Hkey; try done.
    destruct (deletion_marker_consistent marker datafile st c k Hkey Hc Hst')
      as (st' & c' & -> & Hc' & Hr' & Hdocs & Hdels & Hlen & Hindex
          & Hrev & Htick & Hgen).
    cbn [mbind option_bind]. eexists _, _, _, _. split; [reflexivity|].
    destruct (tick_advance c' (m_tick marker) TRI_DF_MARKER_VPACK_REMOVE)
      as (Hi & Hp & Hn & Hr & Hg & Ht1 & Ht2).
    set (c'' := if (_tickMax c' <? m_tick marker) && _ then _ else c') in *.
    destruct (Hfile (df_dataMin datafile) (df_dataMax datafile)) as [Hext Hcov];
      [lia|].
    rewrite Hi, Hp. cbn [PrimaryIndex.lookupKey].
    rewrite bool_decide_eq_false_2 by done. rewrite bool_decide_eq_true_2 by done.
    pose proof (revisionAfter_ge (_info_revision c) (extractRevision (m_vpack marker)))
      as [Hge1 Hge2].
    split_and!; try done; try lia; try (by apply (consistent_same c'));
      try (by left).
    - cbn. split; [done|]. by intros [? _].
    - intros _. rewrite Hindex. apply lookup_delete_eq.
    - intros k' Hne. rewrite Hindex. apply lookup_delete_ne. congruence.
    - unfold raised. rewrite Hr, Hrev, Hg, Hgen.
      split_and!; [lia | lia | apply union_subseteq_r].
    - unfold covered. rewrite Ht, Hkey. cbn [df_tickMax df_dataMax].
      rewrite Hr, Hrev, Hg, Hgen. split_and!; try done.
      intros _. split; [done|]. intros k0 [= <-].
        by apply elem_of_union_l, elem_of_singleton. }
  all: cbn [mbind option_bind]; eexists _, _, _, _; (split; [reflexivity|]);
    match goal with
    | |- context [isStructuralMarker ?t] =>
        destruct (tick_advance c (m_tick marker) t)
          as (Hi & Hp & Hn & Hr & Hg & Ht1 & Ht2)
    end;
    set (c'' := if (_tickMax c <? m_tick marker) && _ then _ else c) in *;
    destruct (Hfile (df_dataMin datafile) (df_dataMax datafile)) as [Hext Hcov];
      [lia|];
    rewrite ?Hi, ?Hp;
    repeat (case_bool_decide; try done);
    split_and!; try done; try lia;
    try (by apply (consistent_same c));
    try (cbn; split; [done | by intros [? _]]);
    try (unfold raised; rewrite Hr, Hg; split_and!; [lia | lia | done]);
    try (unfold covered; rewrite Ht; cbn [df_tickMax df_dataMax];
         split_and!; [done | exact Ht2 | done | by intros [?|?]]);
    try (unfold FindDatafileStats; by destruct (st_stats st !! df_fid datafile)).
  (* the header marker makes sure that the file has a container *)
  destruct Hst as [Hr0|E].
  - left. by destruct (FindDatafileStats_ready st (df_fid datafile) Hr0) as (_ & ? & _).
  - right. unfold FindDatafileStats. by destruct (st_stats st !! df_fid datafile).
  - unfold FindDatafileStats. destruct (st_stats st !! df_fid datafile); cbn; lia.
  - unfold FindDatafileStats. destruct (st_stats st !! df_fid datafile); cbn; lia.
Qed.

(** The scan of one datafile. *)
Lemma iterateDatafile_scan markers : ∀ st datafile c,
  forallb keyed markers = true → df_fid datafile ≠ 0 →
  ready st ∨ st_fid st = 0 → consistent c →
  ∃ ok st' datafile' c',
    iterateDatafile markers st datafile c = Some (ok, st', datafile', c')
    ∧ consistent c' ∧ (ready st' ∨ st_fid st' = 0)
    ∧ extended datafile datafile' ∧ raised c c'
    ∧ (markersOfType TRI_DF_MARKER_VPACK_DOCUMENT markers
       <= Z.of_nat (length (mp_free (_masterPointers c))) →
       ok = true
       ∧ st_documents st'
         = st_documents st + markersOfType TRI_DF_MARKER_VPACK_DOCUMENT markers
       ∧ st_deletions st'
         = st_deletions st + markersOfType TRI_DF_MARKER_VPACK_REMOVE markers
       ∧ Z.of_nat (length (mp_free (_masterPointers c)))
         <= markersOfType TRI_DF_MARKER_VPACK_DOCUMENT markers
            + Z.of_nat (length (mp_free (_masterPointers c')))
       ∧ Forall (λ m, covered m datafile' c') markers).
Proof.
  induction markers as [|marker rest IH]; intros st datafile c Hkeyed Hfid Hst Hc.
  { cbn. eexists _, _, _, _. split; [reflexivity|].
    split_and!; try done; try apply extended_refl; try apply raised_refl.
    intros _. change (markersOfType _ []) with 0. split_and!; try done; lia. }
  cbn [forallb] in Hkeyed. apply andb_true_iff in Hkeyed as [Hk Hrest].
  destruct (OpenIterator_step marker st datafile c Hk Hfid Hst Hc)
    as (ok & st1 & d1 & c1 & Hstep & Hc1 & Hst1 & Hdocs & Hdels & Hlen & Hok & _ & _
        & _ & _ & _ & Hext & Hraised & Hcov).
  rewrite !markersOfType_cons in Hdocs, Hdels, Hlen.
  change (markersOfType _ []) with 0 in Hdocs, Hdels, Hlen.
  cbn [iterateDatafile]. rewrite Hstep. rewrite !markersOfType_cons.
  pose proof (markersOfType_nonneg TRI_DF_MARKER_VPACK_DOCUMENT rest) as Hnonneg.
  destruct ok.
  - assert (Hfid1 : df_fid d1 ≠ 0) by (destruct Hext as [-> _]; done).
    destruct (IH st1 d1 c1 Hrest Hfid1 Hst1 Hc1)
      as (ok & st' & d' & c' & -> & Hc' & Hst' & Hext' & Hraised' & Hfull).
    eexists _, _, _, _. split; [reflexivity|].
    split_and!; try done.
    + by apply (extended_trans _ d1).
    + by apply (raised_trans _ c1).
    + intros Henough. destruct Hfull as (-> & Hd & Hr & Hl & Hall); [lia|].
      split_and!; try done; try lia.
      constructor; [|done].
      by apply (covered_raised _ _ c1), (covered_extended _ d1).
  - eexists _, _, _, _. split; [reflexivity|]. split_and!; try done.
    intros Henough. destruct (proj1 Hok eq_refl) as (Hty & _ & Hnil).
    rewrite Hnil, Hty in Henough. rewrite bool_decide_eq_true_2 in Henough by done.
    cbn in Henough. lia.
Qed.

(** The scan of all datafiles. *)
Lemma iterateDatafiles_scan files : ∀ st c,
  replayable files = true →
  ready st ∨ st_fid st = 0 → consistent c →
  ∃ ok st' files' c',
    iterateDatafiles files st c = Some (ok, st', files', c')
    ∧ consistent c' ∧ (ready st' ∨ st_fid st' = 0) ∧ raised c c'
    ∧ (markersOfType TRI_DF_MARKER_VPACK_DOCUMENT (concat files.*2)
       <= Z.of_nat (length (mp_free (_masterPointers c))) →
       ok = true
       ∧ st_documents st'
         = st_documents st
           + markersOfType TRI_DF_MARKER_VPACK_DOCUMENT (concat files.*2)
       ∧ st_deletions st'
         = st_deletions st
           + markersOfType TRI_DF_MARKER_VPACK_REMOVE (concat files.*2)
       ∧ Z.of_nat (length (mp_free (_masterPointers c)))
         <= markersOfType TRI_DF_MARKER_VPACK_DOCUMENT (concat files.*2)
            + Z.of_nat (length (mp_free (_masterPointers c')))
       ∧ Forall2 (λ file datafile',
                    extended file.1 datafile'
                    ∧ Forall (λ m, covered m datafile' c') file.2)
           files files').
Proof.
  induction files as [|[datafile markers] rest IH]; intros st c Hfiles Hst Hc.
  { cbn. eexists _, _, _, _. split; [reflexivity|].
    split_and!; try done; try apply raised_refl.
    intros _. change (markersOfType _ []) with 0. split_and!; try done; lia. }
  unfold replayable in Hfiles. cbn [forallb fst snd] in Hfiles.
  apply andb_true_iff in Hfiles as [Hfile Hrest].
  apply andb_true_iff in Hfile as [Hfid Hkeyed].
  apply negb_true_iff, Z.eqb_neq in Hfid.
  destruct (iterateDatafile_scan markers st datafile c Hkeyed Hfid Hst Hc)
    as (ok & st1 & d1 & c1 & Hscan & Hc1 & Hst1 & Hext & Hraised & Hfull).
  cbn [iterateDatafiles]. rewrite Hscan.
  cbn [fmap list_fmap snd concat]. rewrite !markersOfType_app.
  pose proof (markersOfType_nonneg TRI_DF_MARKER_VPACK_DOCUMENT (concat rest.*2)).
  pose proof (markersOfType_nonneg TRI_DF_MARKER_VPACK_DOCUMENT markers).
  destruct ok.
  - destruct (IH st1 c1 Hrest Hst1 Hc1)
      as (ok & st' & files' & c' & -> & Hc' & Hst' & Hraised' & Hfull').
    eexists _, _, _, _. split; [reflexivity|]. split_and!; try done.
    + by apply (raised_trans _ c1).
    + intros Henough. destruct Hfull as (_ & Hd & Hr & Hl & Hall); [lia|].
      destruct Hfull' as (-> & Hd' & Hr' & Hl' & Hall'); [lia|].
      split_and!; try done; try lia.
      constructor; [|done]. split; [done|].
      eapply Forall_impl; [exact Hall|]. intros m Hm. by apply (covered_raised _ _ c1).
  - eexists _, _, _, _. split; [reflexivity|]. split_and!; try done.
    intros Henough. destruct Hfull as (Hok & _); [lia|]. done.
Qed.

(** X23.  Opening a collection leaves it consistent.  On a collection in
    which every key of the primary index leads to a handle in use that
    holds a document of that key, no handle is free twice and
    [_numberDocuments] is the number of keys, [IterateMarkersCollection]
    returns, whatever document and deletion markers the datafiles hold
    (with string keys, in files whose id is not 0) and however few handles
    there are, and the collection it leaves is consistent in the same
    sense. *)
Theorem replay_keeps_collection_consistent c initialCount files :
  consistent c → replayable files = true →
  ∃ res files' c',
    IterateMarkersCollection c initialCount files = Some (res, files', c')
    ∧ consistent c'.
Proof.
  intros Hc Hfiles. unfold IterateMarkersCollection.
  destruct (is_error _); [by eexists _, _, _|].
  set (openState := if bool_decide (initialCount ≠ -1) then _ else initialState).
  assert (Hst : ready openState ∨ st_fid openState = 0).
  { right. unfold openState. by destruct (bool_decide _). }
  destruct (iterateDatafiles_scan files openState c Hfiles Hst Hc)
    as (ok & st' & files' & c' & -> & Hc' & _).
  destruct (createStatistics _ _) as [res stats].
  eexists _, _, _. split; [reflexivity|]. by apply (consistent_same c').
Qed.

(** X24.  A complete replay raises the marks over every marker.  When the
    collection is consistent and has a free handle for every document
    marker, [IterateMarkersCollection] scans all markers: afterwards each
    datafile has its id, and tick and data ranges that are not below those
    it had and cover its markers; [_tickMax] is not below the tick of any
    marker that is not structural, the revision of the collection is not
    below the revision of any document or deletion marker, the key
    generator has tracked every key, and none of these marks has gone
    down. *)
Theorem replay_raises_marks c initialCount files :
  consistent c → replayable files = true →
  markersOfType TRI_DF_MARKER_VPACK_DOCUMENT (concat files.*2)
  <= Z.of_nat (length (mp_free (_masterPointers c))) →
  (initialCount ≠ -1 → resize_result initialCount = TRI_ERROR_NO_ERROR) →
  ∃ res files' c',
    IterateMarkersCollection c initialCount files = Some (res, files', c')
    ∧ raised c c'
    ∧ Forall2 (λ file datafile',
                 extended file.1 datafile'
                 ∧ Forall (λ m, covered m datafile' c') file.2)
        files files'.
Proof.
  intros Hc Hfiles Henough Hresize. unfold IterateMarkersCollection.
  assert (Hres : is_error (if bool_decide (initialCount ≠ -1)
                           then resize_result initialCount
                           else TRI_ERROR_NO_ERROR) = false).
  { case_bool_decide; [rewrite Hresize by done|]; apply is_error_no_error. }
  rewrite Hres.
  set (openState := if bool_decide (initialCount ≠ -1) then _ else initialState).
  assert (Hst : ready openState ∨ st_fid openState = 0).
  { right. unfold openState. by destruct (bool_decide _). }
  destruct (iterateDatafiles_scan files openState c Hfiles Hst Hc)
    as (ok & st' & files' & c' & -> & Hc' & _ & Hraised & Hfull).
  destruct (Hfull Henough) as (_ & _ & _ & _ & Hall).
  destruct (createStatistics _ _) as [res stats].
  eexists _, _, _. split; [reflexivity|]. split; [exact Hraised|].
  eapply Forall2_impl; [exact Hall|]. intros [datafile markers] datafile' [Hext Hcov].
  split; [done|]. eapply Forall_impl; [exact Hcov|]. intros m Hm. exact Hm.
Qed.

(** X25.  What one call of the replay iterator does.  On a consistent
    collection, for a marker with a string key in a file whose id is not 0,
    [OpenIterator] returns; it returns false exactly when the marker is a
    document marker for a key that is not in the primary index and no
    handle is free, and then the primary index is unchanged.  After a
    document marker that was taken, the key leads to a handle that points
    to the marker in this datafile; after a deletion marker the key is not
    in the primary index; no other key is touched, and a marker that is
    neither leaves primary index and handles alone.  The iterator state has
    counted the marker. *)
Theorem replay_step_applies_marker marker st datafile c :
  keyed marker = true → df_fid datafile ≠ 0 →
  ready st ∨ st_fid st = 0 → consistent c →
  let key := VPack.extractKeyFromDocument (m_vpack marker) in
  ∃ ok st' datafile' c',
    OpenIterator marker st datafile c = Some (ok, st', datafile', c')
    ∧ (ok = false ↔
       m_type marker = TRI_DF_MARKER_VPACK_DOCUMENT
       ∧ PrimaryIndex.lookupKey (_primaryIndex c) key = None
       ∧ mp_free (_masterPointers c) = [])
    ∧ (ok = false → _primaryIndex c' = _primaryIndex c)
    ∧ (ok = true → m_type marker = TRI_DF_MARKER_VPACK_DOCUMENT →
       ∃ h, PrimaryIndex.lookupKey (_primaryIndex c') key = Some h
            ∧ pointsTo c' h (df_fid datafile) marker)
    ∧ (m_type marker = TRI_DF_MARKER_VPACK_REMOVE →
       PrimaryIndex.lookupKey (_primaryIndex c') key = None)
    ∧ (∀ k', VString k' ≠ key → _primaryIndex c' !! k' = _primaryIndex c !! k')
    ∧ (m_type marker ≠ TRI_DF_MARKER_VPACK_DOCUMENT →
       m_type marker ≠ TRI_DF_MARKER_VPACK_REMOVE →
       _primaryIndex c' = _primaryIndex c ∧ _masterPointers c' = _masterPointers c)
    ∧ st_documents st'
      = st_documents st + markersOfType TRI_DF_MARKER_VPACK_DOCUMENT [marker]
    ∧ st_deletions st'
      = st_deletions st + markersOfType TRI_DF_MARKER_VPACK_REMOVE [marker].
Proof.
  intros Hkeyed Hfid Hst Hc key.
  destruct (OpenIterator_step marker st datafile c Hkeyed Hfid Hst Hc)
    as (ok & st' & d' & c' & Hstep & _ & _ & Hdocs & Hdels & _ & Hok & Hsame & Hdoc
        & Hdel & Hothers & Hnone & _).
  exists ok, st', d', c'. split_and!; done.
Qed.

End ReplayConsistency.

Section ReplayConsistencyOnTheSample.
#[local] Existing Instance Sample.healthy.
#[local] Existing Instance Sample.replayEnvironment.

(** The journal of three markers, replayed into the emptied collection. *)
Lemma replay_keeps_collection_consistent_witness :
  ∃ res files' c',
    IterateMarkersCollection Sample.emptied (-1) [(Sample.datafile, Sample.journal)]
    = Some (res, files', c')
    ∧ consistent c'.
Proof.
  apply (replay_keeps_collection_consistent Sample.emptied (-1)
           [(Sample.datafile, Sample.journal)]).
  - split_and!.
    + intros k h Hk. cbn in Hk. by rewrite lookup_empty in Hk.
    + cbn. apply NoDup_cons. split; [|apply NoDup_singleton].
      rewrite not_elem_of_cons. split; [discriminate | apply not_elem_of_nil].
    + vm_compute. reflexivity.
  - vm_compute. reflexivity.
Defined.

Lemma replay_raises_marks_witness :
  ∃ res files' c',
    IterateMarkersCollection Sample.emptied (-1) [(Sample.datafile, Sample.journal)]
    = Some (res, files', c')
    ∧ raised Sample.emptied c'
    ∧ Forall2 (λ file datafile',
                 extended file.1 datafile'
                 ∧ Forall (λ m, covered m datafile' c') file.2)
        [(Sample.datafile, Sample.journal)] files'.
Proof.
  apply (replay_raises_marks Sample.emptied (-1) [(Sample.datafile, Sample.journal)]).
  - split_and!.
    + intros k h Hk. cbn in Hk. by rewrite lookup_empty in Hk.
    + cbn. apply NoDup_cons. split; [|apply NoDup_singleton].
      rewrite not_elem_of_cons. split; [discriminate | apply not_elem_of_nil].
    + vm_compute. reflexivity.
  - vm_compute. reflexivity.
  - vm_compute. discriminate.
  - intros Hne. by destruct Hne.
Defined.

(** The first marker of the journal enters the document [k]. *)
Lemma replay_step_applies_marker_witness :
  let marker := Sample.markerOf TRI_DF_MARKER_VPACK_DOCUMENT 1
                  (Sample.person "k" "1" 0 0) in
  ∃ st' datafile' c' h,
    OpenIterator marker initialState Sample.datafile Sample.emptied
    = Some (true, st', datafile', c')
    ∧ _primaryIndex c' !! "k"%string = Some h
    ∧ pointsTo c' h 1 marker
    ∧ st_documents st' = 1.
Proof.
  intros marker.
  assert (Hc : consistent Sample.emptied).
  { split_and!.
    - intros k h Hk. cbn in Hk. by rewrite lookup_empty in Hk.
    - cbn. apply NoDup_cons. split; [|apply NoDup_singleton].
      rewrite not_elem_of_cons. split; [discriminate | apply not_elem_of_nil].
    - vm_compute. reflexivity. }
  destruct (replay_step_applies_marker marker initialState Sample.datafile
              Sample.emptied eq_refl)
    as (ok & st' & datafile' & c' & Hcall & Hok & _ & Hdoc & _ & _ & _ & Hdocs & _);
    [discriminate | by right | exact Hc |].
  destruct ok.
  - destruct (Hdoc eq_refl eq_refl) as (h & Hh & Hpoints).
    exists st', datafile', c', h. split; [exact Hcall|]. split; [exact Hh|].
    split; [exact Hpoints | exact Hdocs].
  - destruct (proj1 Hok eq_refl) as (_ & _ & Hnil). discriminate Hnil.
Defined.

End ReplayConsistencyOnTheSample.

(** * Timed locks: acquisition and deadlock checks *)

Section LockAcquisition.
Import Lock.
Variables (mode : LockMode) (timeout sleepPeriod : Z).
Hypothesis sleep_positive : 0 < sleepPeriod.
Hypothesis no_wrap : timeout + sleepPeriod < 2 ^ 64.

(** A turn at which the thread registers as blocked and sleeps. *)
Lemma timedLoop_registers p rest waited iterations det :
  busy mode p → onSetBlocked p = Fine →
  0 <= waited → waited + sleepPeriod <= timeout →
  timedLoop mode timeout sleepPeriod (p :: rest) waited iterations false det
  = timedLoop mode timeout sleepPeriod rest (waited + sleepPeriod) iterations true
      {| det_blocked := Some mode; det_active := det_active det |}.
Proof.
  intros Hbusy Hset Hw Ht. unfold busy in Hbusy. cbn [timedLoop negb].
  rewrite Hbusy, Hset. cbn [setBlocked]. rewrite bool_decide_eq_false_2 by done.
  rewrite wrap64_small by lia.
  by rewrite (proj2 (Z.ltb_ge _ _)) by lia.
Qed.

(** A turn at which the blocked thread sleeps without asking the
    detector; what the detector would have answered does not matter. *)
Lemma timedLoop_sleeps p rest waited iterations det :
  busy mode p → iterations + 1 < 5 →
  0 <= waited → waited + sleepPeriod <= timeout →
  timedLoop mode timeout sleepPeriod (p :: rest) waited iterations true det
  = timedLoop mode timeout sleepPeriod rest (waited + sleepPeriod) (iterations + 1)
      true det.
Proof.
  intros Hbusy Hit Hw Ht. unfold busy in Hbusy. cbn [timedLoop negb].
  rewrite Hbusy. rewrite (proj2 (Z.leb_gt _ _)) by lia.
  rewrite wrap64_small by lia.
  by rewrite (proj2 (Z.ltb_ge _ _)) by lia.
Qed.

Lemma timedLoop_waits qs : ∀ rest waited iterations det,
  Forall (busy mode) qs →
  iterations + Z.of_nat (length qs) < 5 →
  0 <= waited → waited + Z.of_nat (length qs) * sleepPeriod <= timeout →
  timedLoop mode timeout sleepPeriod (qs ++ rest) waited iterations true det
  = timedLoop mode timeout sleepPeriod rest
      (waited + Z.of_nat (length qs) * sleepPeriod)
      (iterations + Z.of_nat (length qs)) true det.
Proof.
  induction qs as [|q qs IH]; intros rest waited iterations det Hbusy Hit Hw Ht.
  { cbn. f_equal; lia. }
  apply Forall_cons in Hbusy as [Hq Hqs].
  rewrite length_cons, Nat2Z.inj_succ in *.
  cbn [app]. rewrite timedLoop_sleeps by (done || lia).
  rewrite IH by (done || lia). f_equal; lia.
Qed.

(** A turn at which the blocked thread is quiet: it sleeps, and asks the
    detector when it is the fifth turn. *)
Lemma timedLoop_quiet p rest waited iterations det :
  busy mode p → quiet p →
  0 <= waited → waited + sleepPeriod <= timeout →
  ∃ iterations',
    timedLoop mode timeout sleepPeriod (p :: rest) waited iterations true det
    = timedLoop mode timeout sleepPeriod rest (waited + sleepPeriod) iterations'
        true det.
Proof.
  intros Hbusy [_ Hdet] Hw Ht. unfold busy in Hbusy. cbn [timedLoop negb].
  rewrite Hbusy, Hdet. cbn [detectDeadlock]. rewrite bool_decide_eq_false_2 by done.
  rewrite wrap64_small by lia. rewrite (proj2 (Z.ltb_ge _ _)) by lia.
  destruct (5 <=? iterations + 1); by eexists.
Qed.

Lemma timedLoop_acquires_blocked qs : ∀ p rest waited iterations det,
  Forall (λ q, busy mode q ∧ quiet q) qs →
  tryLock mode (seen p) = true →
  0 <= waited → waited + Z.of_nat (length qs) * sleepPeriod <= timeout →
  timedLoop mode timeout sleepPeriod (qs ++ p :: rest) waited iterations true det
  = Some {| res := TRI_ERROR_NO_ERROR; locked := Some mode;
            detector := {| det_blocked := None; det_active := Some mode |};
            waited := waited + Z.of_nat (length qs) * sleepPeriod |}.
Proof.
  induction qs as [|q qs IH]; intros p rest waited iterations det Hqs Hfree Hw Ht.
  { cbn [app timedLoop length]. rewrite Hfree. unfold addActive. do 2 f_equal. lia. }
  apply Forall_cons in Hqs as [[Hbusy Hquiet] Hqs].
  rewrite length_cons, Nat2Z.inj_succ in *. cbn [app].
  destruct (timedLoop_quiet q (qs ++ p :: rest) waited iterations det)
    as [iterations' ->]; [done | done | lia | lia |].
  rewrite IH by (done || lia). do 2 f_equal. lia.
Qed.

Lemma timedLoop_acquires qs p rest det :
  Forall (λ q, busy mode q ∧ quiet q) qs →
  tryLock mode (seen p) = true →
  Z.of_nat (length qs) * sleepPeriod <= timeout →
  timedLoop mode timeout sleepPeriod (qs ++ p :: rest) 0 0 false det
  = Some {| res := TRI_ERROR_NO_ERROR; locked := Some mode;
            detector := {| det_blocked := match qs with
                                          | [] => det_blocked det
                                          | _ => None
                                          end;
                           det_active := Some mode |};
            waited := Z.of_nat (length qs) * sleepPeriod |}.
Proof.
  intros Hqs Hfree Ht. destruct qs as [|q qs].
  { cbn [app timedLoop]. by rewrite Hfree. }
  apply Forall_cons in Hqs as [[Hbusy [Hset Hdet]] Hqs].
  rewrite length_cons, Nat2Z.inj_succ in *. cbn [app].
  rewrite timedLoop_registers by (done || lia).
  rewrite timedLoop_acquires_blocked by (done || lia). do 2 f_equal. lia.
Qed.

(** A turn at which the blocked thread asks the detector, which finds
    nothing: the count of the turns starts again. *)
Lemma timedLoop_checks p rest waited iterations det :
  busy mode p → 5 <= iterations + 1 → onDetect p = Fine →
  0 <= waited → waited + sleepPeriod <= timeout →
  timedLoop mode timeout sleepPeriod (p :: rest) waited iterations true det
  = timedLoop mode timeout sleepPeriod rest (waited + sleepPeriod) 0 true det.
Proof.
  intros Hbusy Hit Hdet Hw Ht. unfold busy in Hbusy. cbn [timedLoop negb].
  rewrite Hbusy. rewrite (proj2 (Z.leb_le _ _)) by lia.
  rewrite Hdet. cbn [detectDeadlock]. rewrite bool_decide_eq_false_2 by done.
  rewrite wrap64_small by lia.
  by rewrite (proj2 (Z.ltb_ge _ _)) by lia.
Qed.

(** Rounds of five turns, each from a fresh count to the next. *)
Lemma timedLoop_rounds rounds : ∀ rest waited det,
  Forall (uneventful mode) rounds →
  0 <= waited →
  waited + 5 * Z.of_nat (length rounds) * sleepPeriod <= timeout →
  timedLoop mode timeout sleepPeriod (concat rounds ++ rest) waited 0 true det
  = timedLoop mode timeout sleepPeriod rest
      (waited + 5 * Z.of_nat (length rounds) * sleepPeriod) 0 true det.
Proof.
  induction rounds as [|round rounds IH]; intros rest waited det Hrounds Hw Ht.
  { cbn. f_equal. lia. }
  apply Forall_cons in Hrounds as [(qs & q & -> & Hlen & Hqs & Hq & Hdet) Hrounds].
  rewrite length_cons, Nat2Z.inj_succ in *.
  cbn [concat]. rewrite <- !app_assoc. cbn [app].
  rewrite timedLoop_waits by (done || rewrite ?Hlen; lia).
  rewrite Hlen.
  rewrite timedLoop_checks by (done || lia).
  rewrite IH by (done || lia). f_equal. lia.
Qed.

(** The check for a deadlock that comes after some uneventful rounds. *)
Lemma timedLoop_check_after p0 rounds qs p rest det :
  busy mode p0 → onSetBlocked p0 = Fine →
  Forall (uneventful mode) rounds →
  Forall (busy mode) qs → length qs = 4%nat →
  busy mode p → onDetect p = Deadlock →
  5 * (Z.of_nat (length rounds) + 1) * sleepPeriod <= timeout →
  timedLoop mode timeout sleepPeriod (p0 :: concat rounds ++ qs ++ p :: rest) 0 0
    false det
  = Some {| res := TRI_ERROR_DEADLOCK; locked := None;
            detector := {| det_blocked := None; det_active := det_active det |};
            waited := 5 * (Z.of_nat (length rounds) + 1) * sleepPeriod |}.
Proof.
  intros Hbusy0 Hset Hrounds Hqs Hlen Hbusy Hdetect Ht.
  rewrite timedLoop_registers by (done || lia).
  rewrite timedLoop_rounds by (done || lia).
  rewrite timedLoop_waits by (done || rewrite ?Hlen; lia).
  rewrite Hlen. unfold busy in Hbusy. cbn [timedLoop negb]. rewrite Hbusy, Hdetect.
  cbn. do 2 f_equal. lia.
Qed.

(** How the loop ends: with the lock and the registration as active, or
    without the lock and with the active registration it found. *)
Lemma timedLoop_holds polls : ∀ waited iterations wasBlocked det o,
  timedLoop mode timeout sleepPeriod polls waited iterations wasBlocked det = Some o →
  res o = TRI_ERROR_NO_ERROR ∧ locked o = Some mode
  ∧ det_active (detector o) = Some mode
  ∨ res o ≠ TRI_ERROR_NO_ERROR ∧ locked o = None
    ∧ det_active (detector o) = det_active det.
Proof.
  induction polls as [|p rest IH]; intros waited iterations wasBlocked det o; [done|].
  cbn [timedLoop]. destruct (tryLock mode (seen p)).
  { intros [= <-]. by left. }
  destruct wasBlocked; cbn [negb].
  - destruct (5 <=? iterations + 1).
    + destruct (onDetect p); cbn [detectDeadlock].
      * rewrite bool_decide_eq_false_2 by done.
        destruct (timeout <? wrap64 (waited + sleepPeriod));
          [intros [= <-]; by right | apply IH].
      * rewrite bool_decide_eq_true_2 by done. intros [= <-]. by right.
      * intros [= <-]. by right.
    + destruct (timeout <? wrap64 (waited + sleepPeriod));
        [intros [= <-]; by right | apply IH].
  - destruct (onSetBlocked p) as [| |registered]; cbn [setBlocked].
    + rewrite bool_decide_eq_false_2 by done.
      destruct (timeout <? wrap64 (waited + sleepPeriod));
        [intros [= <-]; by right|].
      intros Ho. apply IH in Ho. exact Ho.
    + rewrite bool_decide_eq_true_2 by done. intros [= <-]. by right.
    + intros [= <-]. right. by destruct registered.
Qed.

End LockAcquisition.

Section LockTheorems.
Import Lock.

(** X26.  A lock that comes free in time is acquired.  When the
    collection is not in the no-lock set, the lock is taken at the first
    [n] polls with a detector that finds nothing, [n] sleep periods do not
    exceed the timeout (15 minutes for a timeout of 0), and the lock can be
    taken at the next poll, [beginReadTimed] and [beginWriteTimed] return
    [TRI_ERROR_NO_ERROR] holding the lock, after waiting [n] sleep periods,
    with the thread registered as active and, if it had to wait, no more
    as blocked. *)
Theorem timed_lock_acquires mode nolockHeaders c timeout sleepPeriod qs p rest det :
  0 < sleepPeriod → 0 <= timeout →
  effectiveTimeout timeout + sleepPeriod < 2 ^ 64 →
  nolocked nolockHeaders c = false →
  Forall (λ q, busy mode q ∧ quiet q) qs →
  tryLock mode (seen p) = true →
  Z.of_nat (length qs) * sleepPeriod <= effectiveTimeout timeout →
  beginTimed mode nolockHeaders c timeout sleepPeriod (qs ++ p :: rest) det
  = Some {| res := TRI_ERROR_NO_ERROR; locked := Some mode;
            detector := {| det_blocked := match qs with
                                          | [] => det_blocked det
                                          | _ => None
                                          end;
                           det_active := Some mode |};
            waited := Z.of_nat (length qs) * sleepPeriod |}.
Proof.
  intros Hsleep Htimeout Hwrap Hnolock Hqs Hfree Hwait.
  rewrite beginTimed_locks by done.
  by apply timedLoop_acquires.
Qed.

(** X27.  A timed acquisition holds the lock exactly when it succeeded by
    locking.  Whenever [beginReadTimed] or [beginWriteTimed] returns, it
    keeps the lock if and only if the result is [TRI_ERROR_NO_ERROR] and
    the collection is not in the no-lock set; with the lock the thread is
    registered as active in this mode, and without it (deadlock, timeout,
    out of memory, no-lock set) the active registration is the one the
    detector had. *)
Theorem timed_lock_held_iff_acquired mode nolockHeaders c timeout sleepPeriod polls
    det o :
  beginTimed mode nolockHeaders c timeout sleepPeriod polls det = Some o →
  (locked o = Some mode ↔
   res o = TRI_ERROR_NO_ERROR ∧ nolocked nolockHeaders c = false)
  ∧ (locked o = Some mode ∨ locked o = None)
  ∧ (locked o = Some mode → det_active (detector o) = Some mode)
  ∧ (locked o = None → det_active (detector o) = det_active det).
Proof.
  destruct (nolocked nolockHeaders c) eqn:Hnolock.
  - rewrite beginTimed_nolock by done. intros [= <-]. cbn.
    split_and!; try done; [|by right]. split; [done | by intros [_ ?]].
  - rewrite beginTimed_locks by done. intros Ho.
    apply timedLoop_holds in Ho as [(Hres & Hlocked & Hactive)|(Hres & Hlocked & Hactive)].
    + split_and!; try done; [by left | by rewrite Hlocked].
    + rewrite Hlocked. split_and!; try done; [|by right].
      split; [done | by intros [? _]].
Qed.

(** X28.  The deadlock detector is asked at every fifth blocked poll, and
    at no other.  A thread registers as blocked at its first poll; from
    then on the polls at which it finds the lock taken go in rounds of
    five, and [detectDeadlock] is called at the fifth of each round, after
    which the count starts again.  So after any number of rounds whose
    fifth poll found nothing, a deadlock that the detector reports at the
    fifth poll of the next round ends the call with [TRI_ERROR_DEADLOCK],
    after five sleep periods a round, without the lock and no more
    registered as blocked, as long as the sleep periods do not exceed the
    timeout; what the detector would have answered at the other polls,
    a deadlock even, does not matter. *)
Theorem deadlock_check_every_fifth_poll mode nolockHeaders c timeout sleepPeriod
    p0 rounds qs p rest det :
  0 < sleepPeriod → 0 <= timeout →
  effectiveTimeout timeout + sleepPeriod < 2 ^ 64 →
  nolocked nolockHeaders c = false →
  busy mode p0 → onSetBlocked p0 = Fine →
  Forall (uneventful mode) rounds →
  Forall (busy mode) qs → length qs = 4%nat →
  busy mode p → onDetect p = Deadlock →
  5 * (Z.of_nat (length rounds) + 1) * sleepPeriod <= effectiveTimeout timeout →
  beginTimed mode nolockHeaders c timeout sleepPeriod
    (p0 :: concat rounds ++ qs ++ p :: rest) det
  = Some {| res := TRI_ERROR_DEADLOCK; locked := None;
            detector := {| det_blocked := None; det_active := det_active det |};
            waited := 5 * (Z.of_nat (length rounds) + 1) * sleepPeriod |}.
Proof.
  intros Hsleep Htimeout Hwrap Hnolock Hbusy0 Hset Hrounds Hqs Hlen Hbusy Hdetect
    Hwait.
  rewrite beginTimed_locks by done.
  by apply timedLoop_check_after.
Qed.

End LockTheorems.

Section LocksOnTheSample.
Import Lock.

(** A reader finds a writer at two polls and the lock free at the third. *)
Lemma timed_lock_acquires_witness :
  beginReadTimed None Sample.users 10 4
    ([Sample.held; Sample.held] ++ LockCases.released :: []) Sample.idle
  = Some {| res := TRI_ERROR_NO_ERROR; locked := Some Read;
            detector := {| det_blocked := None; det_active := Some Read |};
            waited := 8 |}.
Proof.
  apply (timed_lock_acquires Read None Sample.users 10 4
           [Sample.held; Sample.held] LockCases.released [] Sample.idle).
  - lia.
  - lia.
  - by vm_compute.
  - reflexivity.
  - repeat constructor.
  - reflexivity.
  - by vm_compute.
Defined.

(** A writer that finds two readers at every poll gives up without the
    lock; a reader gets the lock at once. *)
Lemma timed_lock_held_iff_acquired_witness :
  (∃ o,
     beginWriteTimed None Sample.users 10 4 (replicate 3 LockCases.shared) Sample.idle
     = Some o
     ∧ res o = TRI_ERROR_LOCK_TIMEOUT ∧ locked o = None
     ∧ det_active (detector o) = None)
  ∧ (∃ o,
       beginReadTimed None Sample.users 10 4 (replicate 3 LockCases.shared) Sample.idle
       = Some o
       ∧ res o = TRI_ERROR_NO_ERROR ∧ locked o = Some Read
       ∧ det_active (detector o) = Some Read).
Proof.
  split.
  - assert (Hcall : ∃ o,
              beginTimed Write None Sample.users 10 4 (replicate 3 LockCases.shared)
                Sample.idle = Some o
              ∧ res o = TRI_ERROR_LOCK_TIMEOUT).
    { eexists. split; vm_compute; reflexivity. }
    destruct Hcall as (o & Hcall & Hres).
    destruct (timed_lock_held_iff_acquired Write None Sample.users 10 4
                (replicate 3 LockCases.shared) Sample.idle o Hcall)
      as (Hiff & [Hlocked|Hlocked] & _ & Hactive).
    + apply Hiff in Hlocked as [Hok _]. rewrite Hres in Hok. discriminate Hok.
    + exists o. split; [exact Hcall|]. split; [exact Hres|]. split; [exact Hlocked|].
      exact (Hactive Hlocked).
  - assert (Hcall : ∃ o,
              beginTimed Read None Sample.users 10 4 (replicate 3 LockCases.shared)
                Sample.idle = Some o
              ∧ res o = TRI_ERROR_NO_ERROR).
    { eexists. split; vm_compute; reflexivity. }
    destruct Hcall as (o & Hcall & Hres).
    destruct (timed_lock_held_iff_acquired Read None Sample.users 10 4
                (replicate 3 LockCases.shared) Sample.idle o Hcall)
      as (Hiff & _ & Hactive & _).
    assert (Hlocked : locked o = Some Read) by (apply Hiff; split; [exact Hres | reflexivity]).
    exists o. split; [exact Hcall|]. split; [exact Hres|]. split; [exact Hlocked|].
    exact (Hactive Hlocked).
Defined.

(** A reader in a cycle, as the detector would say at every poll but the
    sixth, learns of it at the eleventh poll. *)
Lemma deadlock_check_every_fifth_poll_witness :
  beginReadTimed None Sample.users 100 4
    (LockCases.stuck
     :: concat [replicate 4 LockCases.stuck ++ [Sample.held]]
     ++ replicate 4 LockCases.stuck ++ LockCases.stuck :: [])
    Sample.idle
  = Some {| res := TRI_ERROR_DEADLOCK; locked := None;
            detector := {| det_blocked := None; det_active := None |};
            waited := 40 |}.
Proof.
  apply (deadlock_check_every_fifth_poll Read None Sample.users 100 4
           LockCases.stuck [replicate 4 LockCases.stuck ++ [Sample.held]]
           (replicate 4 LockCases.stuck) LockCases.stuck [] Sample.idle).
  - lia.
  - lia.
  - by vm_compute.
  - reflexivity.
  - reflexivity.
  - reflexivity.
  - repeat constructor.
    exists (replicate 4 LockCases.stuck), Sample.held.
    split; [reflexivity|]. split; [reflexivity|]. split; [repeat constructor|].
    split; reflexivity.
  - repeat constructor.
  - reflexivity.
  - reflexivity.
  - reflexivity.
  - by vm_compute.
Defined.

End LocksOnTheSample.

(** * The entry points keep the collection consistent *)

Section EntryPointsConsistency.
Context `{IndexImplementations} `{Environment} `{InsertEnvironment}.

(** Consistency looks at the primary index, the document counter, the
    free list and the handles the primary index leads to. *)
Lemma consistent_loads c c' :
  _primaryIndex c' = _primaryIndex c →
  _numberDocuments c' = _numberDocuments c →
  mp_free (_masterPointers c') = mp_free (_masterPointers c) →
  (∀ k h, _primaryIndex c !! k = Some h → Col.load c' h = Col.load c h) →
  consistent c → consistent c'.
Proof.
  unfold consistent. intros -> -> -> Hloads (Hkeys & Hdup & Hn).
  split_and!; try done. intros k h Hk. rewrite (Hloads k h Hk). by apply Hkeys.
Qed.

Lemma consistent_indexes c indexes cleanup persistent :
  consistent (Col.set_indexes c indexes cleanup persistent) ↔ consistent c.
Proof. done. Qed.

Lemma lookupDocument_cases c key :
  (∃ k h, key = VString k ∧ _primaryIndex c !! k = Some h
          ∧ lookupDocument c key = (TRI_ERROR_NO_ERROR, Some h))
  ∨ (∃ res, res ≠ TRI_ERROR_NO_ERROR ∧ lookupDocument c key = (res, None)).
Proof.
  unfold lookupDocument.
  destruct key as [ | |b|n|k|cid|items|members]; cbn;
    try (right; eexists; split; [|reflexivity]; done).
  destruct (_primaryIndex c !! k) as [h|] eqn:E; cbn.
  - left. by exists k, h.
  - right. eexists. split; [|reflexivity]. done.
Qed.

Lemma Op_init_fields op c :
  op_header (Op.init op c) = op_header op ∧ op_type (Op.init op c) = op_type op
  ∧ op_status (Op.init op c) = op_status op ∧ op_marker (Op.init op c) = op_marker op.
Proof.
  unfold Op.init. destruct (op_header op) eqn:E; [destruct (bool_decide _)|]; done.
Qed.

Lemma Op_init_oldHeader op c h :
  op_header op = Some h → op_type op ≠ TRI_VOC_DOCUMENT_OPERATION_INSERT →
  op_oldHeader (Op.init op c) = Col.load c h.
Proof.
  intros Hh Ht. unfold Op.init. rewrite Hh. by rewrite bool_decide_eq_false_2.
Qed.

Lemma indexed_init_fields op c :
  op_status (Op.indexed (Op.init op c)) = INDEXED
  ∧ op_header (Op.indexed (Op.init op c)) = op_header op
  ∧ op_type (Op.indexed (Op.init op c)) = op_type op
  ∧ op_marker (Op.indexed (Op.init op c)) = op_marker op
  ∧ op_oldHeader (Op.indexed (Op.init op c)) = op_oldHeader (Op.init op c).
Proof.
  destruct (Op_init_fields op c) as (? & ? & ? & ?).
  unfold Op.indexed, Op.set_status. cbn [op_status op_header op_type op_marker op_oldHeader].
  done.
Qed.

(** What [revert] does with an operation that got into the indexes. *)
Lemma revert_indexed op c h :
  op_status op = INDEXED → op_header op = Some h →
  (revert op c).2
  = let c1 := (rollbackOperation c (op_type op) h (op_oldHeader op)).2 in
    match op_type op with
    | TRI_VOC_DOCUMENT_OPERATION_INSERT =>
        Col.set_masterPointers c1 (MasterPointersOps.release (_masterPointers c1) h)
    | TRI_VOC_DOCUMENT_OPERATION_UPDATE | TRI_VOC_DOCUMENT_OPERATION_REPLACE =>
        Col.store c1 h (op_oldHeader op)
    | _ => c1
    end.
Proof.
  intros Hs Hh. unfold revert. rewrite Hs, Hh. cbn. by destruct (op_type op).
Qed.

(** [remove] *)
Lemma remove_consistent w slice options out :
  consistent (w_collection w) →
  consistent (w_collection (remove w slice options out).2).
Proof.
  intros Hc. unfold remove.
  assert (Hrev : ∃ revisionId w1,
            (if isRestore options then
               if negb (VPack.isString (TRI_ExtractRevisionIdAsSlice slice))
               then Wd.TRI_HybridLogicalClock w
               else
                 let '(rid, isOld) :=
                   TRI_StringToRid (copyString (TRI_ExtractRevisionIdAsSlice slice)) in
                 if isOld then Wd.TRI_HybridLogicalClock w else (rid, w)
             else Wd.TRI_HybridLogicalClock w) = (revisionId, w1)
            ∧ w_collection w1 = w_collection w).
  { destruct (isRestore options); [destruct (negb _);
      [|destruct (TRI_StringToRid _) as [rid [|]]]|]; by eexists _, _. }
  destruct Hrev as (revisionId & w1 & -> & Hw1).
  destruct w1 as [c trx clock]. cbn [w_collection] in *. subst c.
  set (c := w_collection w) in *.
  destruct (lookupDocument_cases c
              (if VPack.isString slice then slice else VPack.get slice VPack.KeyString))
    as [(k & h & Hkey & Hfound & ->)|(res & Hres & ->)].
  2:{ by destruct res. }
  destruct Hc as (Hkeys & Hdup & Hn).
  destruct (Hkeys k h Hfound) as [Hold Hused].
  destruct (is_error (if negb (ignoreRevs options) && VPack.isObject slice then _
                      else TRI_ERROR_NO_ERROR)); [done|].
  destruct (deleteSecondaryIndexes_indexes c h false) as [i1 E1].
  destruct (deleteSecondaryIndexes c h false) as [r1 c1].
  cbn [snd] in E1. subst c1. set (c1 := Col.set_indexes c i1 _ _).
  destruct (is_error r1).
  { destruct (insertSecondaryIndexes_indexes c1 h true) as [i2 E2].
    destruct (insertSecondaryIndexes c1 h true) as [r2 c2].
    cbn [snd] in E2. subst c2. done. }
  rewrite (deletePrimaryIndex_present c1 h k h); [|exact Hold|exact Hfound].
  rewrite is_error_no_error.
  set (c2 := Col.set_primaryIndex c1 _).
  set (c3 := Col.set_numberDocuments c2 _).
  assert (Hc3 : consistent c3).
  { split_and!; [|done|].
    - intros k' h' Hk'. cbn in Hk'. apply lookup_delete_Some in Hk' as [Hne Hk'].
      by apply Hkeys.
    - cbn. rewrite (size_delete_old _ k h) by done. fold c. lia. }
  unfold TRI_AddOperationTransaction.
  destruct (is_error (addOperation_result _ _)) eqn:Ewal.
  2:{ rewrite Ewal. exact Hc3. }
  rewrite Ewal.
  match goal with
  | |- context [revert (Op.indexed (Op.init ?op c)) c3] =>
      destruct (indexed_init_fields op c) as (Hstatus & Hheader & Htype & _);
      set (operation := Op.indexed (Op.init op c)) in *
  end.
  cbn [op_header op_type Op.set_header Op.make] in Hheader, Htype.
  pose proof (revert_indexed operation c3 h Hstatus Hheader) as Hrevert.
  destruct (revert operation c3) as [op' c4]. cbn [snd] in Hrevert.
  rewrite Hrevert, Htype. cbn [w_collection Wd.set_collection snd rollbackOperation].
  rewrite (insertPrimaryIndex_absent c3 h k); [|exact Hold|apply lookup_delete_eq].
  rewrite is_error_no_error.
  set (c5 := Col.set_primaryIndex c3 _).
  destruct (insertSecondaryIndexes_indexes c5 h true) as [i6 E6].
  destruct (insertSecondaryIndexes c5 h true) as [r6 c6].
  cbn [snd] in E6. subst c6. cbn [snd].
  apply (consistent_loads c); try done.
  - cbn. by rewrite insert_delete_id.
  - cbn. fold c. lia.
Qed.

(** What [updateDocument] leaves: the primary index, the counter, the free
    list and the other handles as they were, and the handle itself with the
    new marker (on success, and when the log refused the operation) or
    with what it had. *)
Lemma updateDocument_outcome w revisionId h operation mptr waitForSync :
  let r := updateDocument w revisionId h operation mptr waitForSync in
  let c := w_collection w in
  let c' := w_collection r.1.1.1.2 in
  _primaryIndex c' = _primaryIndex c
  ∧ _numberDocuments c' = _numberDocuments c
  ∧ mp_free (_masterPointers c') = mp_free (_masterPointers c)
  ∧ (∀ h', h' ≠ h → Col.load c' h' = Col.load c h')
  ∧ (is_error r.1.1.1.1 = false
       ∧ Col.load c' h = Mptr.setVPack (Col.load c h) (Some (op_marker operation))
     ∨ is_error r.1.1.1.1 = true ∧ r.1.1.2 = operation
       ∧ Col.load c' h = Col.load c h
     ∨ is_error r.1.1.1.1 = true ∧ r.1.1.2 = Op.indexed operation
       ∧ Col.load c' h = Mptr.setVPack (Col.load c h) (Some (op_marker operation))).
Proof.
  intros r c. unfold r, updateDocument. fold c.
  destruct (deleteSecondaryIndexes_indexes c h false) as [i1 E1].
  destruct (deleteSecondaryIndexes c h false) as [r1 c1].
  cbn [snd] in E1. subst c1.
  set (c1 := Col.set_indexes c i1 _ _).
  destruct (is_error r1) eqn:Er1.
  { destruct (insertSecondaryIndexes_indexes c1 h true) as [i2 E2].
    destruct (insertSecondaryIndexes c1 h true) as [r2 c2].
    cbn [snd] in E2. subst c2. cbn. split_and!; try done. right. by left. }
  set (c2 := Col.store c1 h _).
  destruct (insertSecondaryIndexes_indexes c2 h false) as [i3 E3].
  destruct (insertSecondaryIndexes c2 h false) as [r3 c3].
  cbn [snd] in E3. subst c3.
  set (c3 := Col.set_indexes c2 i3 _ _).
  destruct (is_error r3) eqn:Er3.
  { destruct (deleteSecondaryIndexes_indexes c3 h true) as [i4 E4].
    destruct (deleteSecondaryIndexes c3 h true) as [r4 c4].
    cbn [snd] in E4. subst c4.
    set (c4 := Col.set_indexes c3 i4 _ _).
    set (c5 := Col.store c4 h _).
    destruct (insertSecondaryIndexes_indexes c5 h true) as [i6 E6].
    destruct (insertSecondaryIndexes c5 h true) as [r6 c6].
    cbn [snd] in E6. subst c6. cbn.
    split_and!; try done.
    - intros h' Hne. unfold Col.load. cbn. by rewrite !load_store_other.
    - right. left. split_and!; try done. unfold Col.load. cbn. by rewrite load_store. }
  unfold TRI_AddOperationTransaction.
  destruct (is_error (addOperation_result _ _)) eqn:Ewal; cbn; rewrite ?Ewal;
    (split_and!; try done;
     [intros h' Hne; unfold Col.load; cbn; by rewrite load_store_other|]).
  - right. right. split_and!; try done. unfold Col.load. cbn. by rewrite load_store.
  - left. split; [done|]. unfold Col.load. cbn. by rewrite load_store.
Qed.

(** What [revert] does with an update or replace that did not get into
    the indexes. *)
Lemma revert_created op c h :
  op_status op = CREATED → op_header op = Some h →
  op_type op = TRI_VOC_DOCUMENT_OPERATION_UPDATE
  ∨ op_type op = TRI_VOC_DOCUMENT_OPERATION_REPLACE →
  (revert op c).2 = c.
Proof.
  intros Hs Hh Ht. unfold revert. rewrite Hs, Hh. cbn. by destruct Ht as [-> | ->].
Qed.

Lemma key_of_marker x marker :
  Mptr.key (Mptr.setVPack x (Some marker))
  = VPack.extractKeyFromDocument (m_vpack marker).
Proof. done. Qed.

(** [runUpdate], the part [update] and [replace] share *)
Lemma runUpdate_consistent w type built revisionId h options out k :
  type = TRI_VOC_DOCUMENT_OPERATION_UPDATE
  ∨ type = TRI_VOC_DOCUMENT_OPERATION_REPLACE →
  consistent (w_collection w) →
  _primaryIndex (w_collection w) !! k = Some h →
  recoveryMarker options = None →
  VPack.extractKeyFromDocument built = VString k →
  consistent (w_collection (runUpdate w type built revisionId h options out).2).
Proof.
  intros Htype Hc Hfound Hrecovery Hbuilt. unfold runUpdate. rewrite Hrecovery.
  set (c := w_collection w) in *.
  set (marker := CrudMarker TRI_DF_MARKER_VPACK_DOCUMENT built).
  set (op0 := Op.set_header (Op.make marker type) h).
  assert (Hne : op_type op0 ≠ TRI_VOC_DOCUMENT_OPERATION_INSERT).
  { cbn. by destruct Htype as [-> | ->]. }
  destruct (Op_init_fields op0 c) as (Hheader & Hty & Hstatus & Hmarker).
  pose proof (Op_init_oldHeader op0 c h eq_refl Hne) as Hold.
  set (operation := Op.init op0 c) in *.
  cbn [op_header op_type op_status op_marker op0 Op.set_header Op.make]
    in Hheader, Hty, Hstatus, Hmarker.
  pose proof (updateDocument_outcome w revisionId h operation (out_mptr out)
                (waitForSync options)) as Hout.
  destruct (updateDocument w revisionId h operation (out_mptr out)
              (waitForSync options)) as [[[[res w1] op1] mptr1] wfs1].
  cbn [fst snd] in Hout. fold c in Hout.
  destruct Hout as (Hi & Hn & Hfree & Hothers & Hcases).
  destruct Hc as (Hkeys & Hdup & Hcount).
  assert (Hnew : ∀ c2,
            _primaryIndex c2 = _primaryIndex c → _numberDocuments c2 = _numberDocuments c →
            mp_free (_masterPointers c2) = mp_free (_masterPointers c) →
            (∀ h', h' ≠ h → Col.load c2 h' = Col.load c h') →
            Mptr.key (Col.load c2 h) = VString k →
            consistent c2).
  { intros c2 Hi2 Hn2 Hfree2 Hothers2 Hkey2. unfold consistent.
    rewrite Hi2, Hn2, Hfree2. split_and!; try done.
    intros k' h' Hk'. destruct (Hkeys k' h' Hk') as [Hkey' Hused']. split; [|done].
    destruct (decide (h' = h)) as [->|Hneq].
    - destruct (Hkeys k h Hfound) as [Hkey _]. rewrite Hkey2. congruence.
    - by rewrite Hothers2. }
  destruct (Hkeys k h Hfound) as [Hkey Hused].
  destruct Hcases as [(Hok & Hload)|[(Herr & -> & Hload)|(Herr & -> & Hload)]].
  - rewrite Hok.
    assert (Hc1 : consistent (w_collection w1)).
    { apply Hnew; try done. rewrite Hload, Hmarker. exact Hbuilt. }
    by destruct wfs1.
  - rewrite Herr.
    pose proof (revert_created operation (w_collection w1) h Hstatus Hheader) as Hrev.
    destruct (revert operation (w_collection w1)) as [op' c2]. cbn [snd] in Hrev.
    rewrite Hrev by (by rewrite Hty). cbn.
    apply Hnew; try done. by rewrite Hload.
  - rewrite Herr.
    pose proof (revert_indexed (Op.indexed operation) (w_collection w1) h eq_refl)
      as Hrev.
    destruct (revert (Op.indexed operation) (w_collection w1)) as [op' c2].
    cbn [snd] in Hrev. rewrite Hrev by exact Hheader.
    cbn [w_collection Wd.set_collection snd].
    change (op_type (Op.indexed operation)) with (op_type operation).
    change (op_oldHeader (Op.indexed operation)) with (op_oldHeader operation).
    rewrite Hty, Hold.
    set (c1 := w_collection w1) in *.
    assert (Hrolled : ∀ t, t = TRI_VOC_DOCUMENT_OPERATION_UPDATE
                           ∨ t = TRI_VOC_DOCUMENT_OPERATION_REPLACE →
              consistent (Col.store (rollbackOperation c1 t h (Col.load c h)).2 h
                            (Col.load c h))).
    { intros t Ht.
      assert (Hbody : consistent
                (Col.store
                   (let copy := Col.load c1 h in
                    let '(_, c2) := deleteSecondaryIndexes c1 h true in
                    let c3 := Col.store c2 h (Col.load c h) in
                    let '(res, c4) := insertSecondaryIndexes c3 h true in
                    (res, Col.store c4 h copy)).2 h (Col.load c h))).
      { cbv zeta.
        destruct (deleteSecondaryIndexes_indexes c1 h true) as [i2 E2].
        destruct (deleteSecondaryIndexes c1 h true) as [r2 c2'].
        cbn [snd] in E2. subst c2'.
        set (c3 := Col.store (Col.set_indexes c1 i2 _ _) h (Col.load c h)).
        destruct (insertSecondaryIndexes_indexes c3 h true) as [i4 E4].
        destruct (insertSecondaryIndexes c3 h true) as [r4 c4].
        cbn [snd] in E4. subst c4. cbn [snd].
        apply Hnew; try done.
        - intros h' Hneq. rewrite <- (Hothers h' Hneq). unfold Col.load. cbn.
          by rewrite !load_store_other.
        - unfold Col.load at 1. cbn. by rewrite load_store. }
      by destruct Ht as [-> | ->]. }
    destruct Htype as [-> | ->]; apply Hrolled; [by left | by right].
Qed.

Lemma key_of_documentOf x :
  VPack.get (documentOf x) VPack.KeyString = Mptr.key x.
Proof. unfold documentOf, Mptr.key. by destruct (Mptr.vpack x). Qed.

Lemma key_of_merged oldValue newValue isEdge rev mergeObjects keepNull :
  VPack.extractKeyFromDocument
    (mergeObjectsForUpdate oldValue newValue isEdge rev mergeObjects keepNull)
  = VPack.get oldValue VPack.KeyString.
Proof.
  unfold mergeObjectsForUpdate.
  destruct (scanNewValue _ _ _ _) as [[fromSlice toSlice] newValues].
  by destruct (mergeOldValue _ _ _ _) as [merged rest].
Qed.

Lemma key_of_replaced oldValue newValue fromSlice toSlice isEdge rev :
  VPack.extractKeyFromDocument
    (newObjectForReplace oldValue newValue fromSlice toSlice isEdge rev)
  = VPack.get oldValue VPack.KeyString.
Proof. done. Qed.

(** [update] *)
Lemma update_consistent w newSlice options out :
  consistent (w_collection w) → recoveryMarker options = None →
  consistent (w_collection (update w newSlice options out).2).
Proof.
  intros Hc Hrecovery. unfold update.
  destruct (negb (VPack.isObject newSlice)); [done|].
  destruct (isRestore options && _); [done|].
  destruct (revision_step (isRestore options) (TRI_ExtractRevisionIdAsSlice newSlice) w)
    as (revisionId & w1 & -> & Hw1 & _).
  rewrite <- Hw1 in Hc.
  destruct (VPack.isNone _); [done|].
  destruct (lookupDocument_cases (w_collection w1) (VPack.get newSlice VPack.KeyString))
    as [(k & h & Hkey & Hfound & ->)|(res & Hres & ->)].
  2:{ by destruct res. }
  destruct (is_error (if negb (ignoreRevs options) then _ else TRI_ERROR_NO_ERROR));
    [done|].
  destruct (VPack.length newSlice <=? 1); [done|].
  rewrite Hrecovery.
  destruct (trx_isDBServer (w_trx w1) && _); [done|].
  apply (runUpdate_consistent _ _ _ _ _ _ _ k); try done; [by left|].
  rewrite key_of_merged, key_of_documentOf.
  destruct Hc as (Hkeys & _). by apply Hkeys.
Qed.

(** [replace] *)
Lemma replace_consistent w newSlice options out :
  consistent (w_collection w) → recoveryMarker options = None →
  consistent (w_collection (replace w newSlice options out).2).
Proof.
  intros Hc Hrecovery. unfold replace.
  destruct (negb (VPack.isObject newSlice)); [done|].
  destruct (isEdgeCollection (w_collection w) && _); [done|].
  destruct (isEdgeCollection (w_collection w) && _); [done|].
  destruct (isRestore options && _); [done|].
  destruct (revision_step (isRestore options) (TRI_ExtractRevisionIdAsSlice newSlice) w)
    as (revisionId & w1 & -> & Hw1 & _).
  rewrite <- Hw1 in Hc.
  destruct (VPack.isNone _); [done|].
  destruct (lookupDocument_cases (w_collection w1) (VPack.get newSlice VPack.KeyString))
    as [(k & h & Hkey & Hfound & ->)|(res & Hres & ->)].
  2:{ by destruct res. }
  destruct (is_error (if negb (ignoreRevs options) then _ else TRI_ERROR_NO_ERROR));
    [done|].
  destruct (trx_isDBServer (w_trx w1) && _); [done|].
  apply (runUpdate_consistent _ _ _ _ _ _ _ k); try done; [by right|].
  rewrite key_of_replaced, key_of_documentOf.
  destruct Hc as (Hkeys & _). by apply Hkeys.
Qed.

(** [insert] *)
Lemma insert_consistent w tick slice options out res out' w' tick' :
  consistent (w_collection w) →
  insert w tick slice options out = Some (res, out', w', tick') →
  consistent (w_collection w').
Proof.
  intros Hc Hcall.
  destruct (decide (res = TRI_ERROR_NO_ERROR)) as [->|Hres].
  2:{ destruct (insert_failed w tick slice options out res out' w' tick' Hcall Hres)
        as (Hkeys & Hn & Hfree & Hloads & _).
      apply (consistent_loads (w_collection w)); try done.
      intros k h Hk. apply Hloads. destruct Hc as (Hused & _).
      by destruct (Hused k h Hk). }
  revert Hcall. unfold insert. destruct (negb (VPack.isObject slice)); [done|].
  set (isEdge := isEdgeCollection (w_collection w)).
  set (fromSlice := if isEdge then VPack.get slice VPack.FromString else VNone).
  set (toSlice := if isEdge then VPack.get slice VPack.ToString else VNone).
  destruct (isEdge && _); [done|]. destruct (isEdge && _); [done|].
  pose proof (insert_prepared w tick slice fromSlice toSlice isEdge options) as Hprep.
  cbv zeta in Hprep.
  destruct (match recoveryMarker options with
            | None => _ | Some _ => _ end) as [[[[res1 newSlice] hash] w1] tick1].
  cbn [fst snd] in Hprep. destruct Hprep as (Hw1 & _ & _).
  destruct w1 as [c0 trx0 clock0]. cbn [w_collection] in Hw1. subst c0.
  cbn [w_collection].
  set (c := w_collection w) in *.
  destruct (is_error res1); [by intros [= _ _ <- _]|].
  unfold MasterPointersOps.request.
  destruct (mp_free (_masterPointers c)) as [|header rest] eqn:Efree; [done|].
  set (c1 := Col.store _ header _).
  destruct (insertDocument _ header _ _ _) as [[[[res2 w2] op2] mptr2] wfs2] eqn:Edoc.
  destruct (is_error res2) eqn:Eres2.
  { destruct (revert op2 (w_collection w2)). intros [= -> _ _ _]. done. }
  intros [= -> _ <- _].
  apply insertDocument_succeeded in Edoc
    as (k & Hkey & Hnone & Hkeys & Hn & Hpool & _).
  cbn [w_collection Wd.set_collection] in *.
  destruct Hc as (Hused & Hdup & Hcount). rewrite Efree in Hused, Hdup.
  apply NoDup_cons in Hdup as [Hfresh Hdup].
  unfold consistent, Col.load. rewrite Hkeys, Hn, Hpool. split_and!.
  - intros k' h' Hk'. destruct (decide (k' = k)) as [->|Hne].
    + rewrite lookup_insert_eq in Hk'. injection Hk' as <-. done.
    + rewrite lookup_insert_ne in Hk' by done.
      destruct (Hused k' h' Hk') as [Hkey' Hfree'].
      apply not_elem_of_cons in Hfree' as [Hneq Hrest]. split; [|done].
      unfold c1, Col.load, MasterPointersOps.load. cbn.
      by rewrite !lookup_insert_ne.
  - done.
  - rewrite size_insert_new by done. cbn. fold c. lia.
Qed.

(** X29.  [insert] and [remove] keep the collection consistent.  On a
    collection in which every key of the primary index leads to a handle in
    use that holds a document of that key, no handle is free twice and
    [_numberDocuments] is the number of keys, the collection is consistent
    again after an [insert] has returned and after a [remove], whatever
    they return: success, a refused request, a failure of an index with its
    rollback, or a failure of the write-ahead log with the revert of the
    operation. *)
Theorem insert_remove_keep_consistency w tick slice options out :
  consistent (w_collection w) →
  (∀ res out' w' tick',
     insert w tick slice options out = Some (res, out', w', tick') →
     consistent (w_collection w'))
  ∧ consistent (w_collection (remove w slice options out).2).
Proof.
  intros Hc. split.
  - intros res out' w' tick' Hcall. by apply (insert_consistent _ _ _ _ _ _ _ _ _ Hc Hcall).
  - by apply remove_consistent.
Qed.

(** X30.  [update] and [replace] keep the collection consistent.  Outside
    recovery, on a consistent collection, the collection is consistent
    again after an [update] and after a [replace], whatever they return:
    the merged or replaced document has the key of the stored one, and a
    failure of an index or of the write-ahead log gives the handle its
    prior content back. *)
Theorem update_replace_keep_consistency w newSlice options out :
  consistent (w_collection w) → recoveryMarker options = None →
  consistent (w_collection (update w newSlice options out).2)
  ∧ consistent (w_collection (replace w newSlice options out).2).
Proof.
  intros Hc Hrecovery. split.
  - by apply update_consistent.
  - by apply replace_consistent.
Qed.

End EntryPointsConsistency.

Section ConsistencyOnTheSample.
#[local] Existing Instance Sample.healthy.
#[local] Existing Instance Sample.environment.
#[local] Existing Instance InsertCases.insertEnvironment.

(** The collection [users] is consistent. *)
Lemma users_consistent : consistent Sample.users.
Proof.
  split_and!.
  - intros k h Hk. cbn in Hk. apply lookup_singleton_Some in Hk as [<- <-].
    split; [vm_compute; reflexivity|].
    cbn. rewrite !not_elem_of_cons. split_and!; try discriminate. apply not_elem_of_nil.
  - cbn. apply NoDup_cons. split; [|apply NoDup_singleton].
    rewrite not_elem_of_cons. split; [discriminate | apply not_elem_of_nil].
  - vm_compute. reflexivity.
Qed.

(** The insert of the newcomer and the remove of the first person. *)
Lemma insert_remove_keep_consistency_witness :
  (∃ out' w' tick',
     insert (Sample.world Sample.users) 50 InsertCases.newcomer Sample.options
       Sample.outputs
     = Some (TRI_ERROR_NO_ERROR, out', w', tick')
     ∧ consistent (w_collection w'))
  ∧ consistent
      (w_collection
         (remove (Sample.world Sample.users) (VString "a") Sample.options
            Sample.outputs).2).
Proof.
  split.
  - assert (Hcall : ∃ out' w' tick',
              insert (Sample.world Sample.users) 50 InsertCases.newcomer Sample.options
                Sample.outputs
              = Some (TRI_ERROR_NO_ERROR, out', w', tick')).
    { do 3 eexists. vm_compute. reflexivity. }
    destruct Hcall as (out' & w' & tick' & Hcall).
    exists out', w', tick'. split; [exact Hcall|].
    exact (proj1 (insert_remove_keep_consistency (Sample.world Sample.users) 50
                    InsertCases.newcomer Sample.options Sample.outputs
                    users_consistent) _ _ _ _ Hcall).
  - exact (proj2 (insert_remove_keep_consistency (Sample.world Sample.users) 50
                    (VString "a") Sample.options Sample.outputs users_consistent)).
Defined.

(** An update and a replace of the first person. *)
Lemma update_replace_keep_consistency_witness :
  let delta := VObject [(VPack.KeyString, VString "a"); ("x"%string, VNumber 6)] in
  consistent
    (w_collection
       (update (Sample.world Sample.users) delta Sample.options Sample.outputs).2)
  ∧ consistent
      (w_collection
         (replace (Sample.world Sample.users) delta Sample.options Sample.outputs).2).
Proof.
  intros delta.
  apply (update_replace_keep_consistency (Sample.world Sample.users) delta
           Sample.options Sample.outputs).
  - exact users_consistent.
  - reflexivity.
Defined.

End ConsistencyOnTheSample.

(** * An insert whose rollback fails *)

Section RollbackOnTheSample.
#[local] Existing Instance RollbackCases.stubborn.
#[local] Existing Instance Sample.environment.

(** The insert of a second person with the [x] of the first fails in the
    unique index on [x]; the skiplist index on [y], which comes after it,
    has taken the handle 2 by then.  Its rollback remove fails, the result
    of [deleteSecondaryIndexes] is dropped, and the call returns the error
    of the unique index with the skiplist index still referring to handle
    2: this insertion into a secondary index is not rolled back. *)
Lemma insertDocument_rollback_remove_fails :
  let c := Sample.pending Sample.clashing in
  let r := insertDocument (Sample.world c) 2 (Sample.insertOf Sample.clashing)
             Mptr.fresh false in
  insert_result Sample.uniqueOnX (mp_slots (_masterPointers c)) 2 false
  = TRI_ERROR_ARANGO_UNIQUE_CONSTRAINT_VIOLATED
  ∧ idx_refs <$> Col.secondaries c = [{[ 1%nat ]}; {[ 1%nat ]}]
  ∧ r.1.1.1.1 = TRI_ERROR_ARANGO_UNIQUE_CONSTRAINT_VIOLATED
  ∧ Col.secondaries (w_collection r.1.1.1.2)
    = [Sample.uniqueOnX; referring 2 Sample.skiplistOnY]
  ∧ idx_refs <$> Col.secondaries (w_collection r.1.1.1.2)
    = [{[ 1%nat ]}; {[ 2%nat ]} ∪ {[ 1%nat ]}].
Proof.
  cbv zeta. split_and!; vm_compute; reflexivity.
Qed.

End RollbackOnTheSample.

(** * A timed acquisition whose sleep intervals wrap around *)

Section WrapAroundOnTheSample.
Import Lock.

(** With a timeout of 2^64 - 1 and a sleep period of 2^63 microseconds,
    both legal values of a [uint64_t], two sleep periods sum up to more
    than the timeout, but [waited] is 0 again after the second: a reader
    that finds a writer at a hundred polls is waiting still, and one that
    finds the lock free at the third poll gets it, although the sleep
    periods had exceeded the timeout by then. *)
Lemma timed_lock_wraps_around :
  let timeout := 2 ^ 64 - 1 in
  let sleepPeriod := 2 ^ 63 in
  0 < sleepPeriod < 2 ^ 64
  ∧ 0 < timeout < 2 ^ 64
  ∧ timeout < 2 * sleepPeriod
  ∧ beginReadTimed None Sample.users timeout sleepPeriod (replicate 100 Sample.held)
      Sample.idle
    = None
  ∧ beginReadTimed None Sample.users timeout sleepPeriod
      (replicate 2 Sample.held ++ [LockCases.released]) Sample.idle
    = Some {| res := TRI_ERROR_NO_ERROR; locked := Some Read;
              detector := {| det_blocked := None; det_active := Some Read |};
              waited := 0 |}.
Proof.
  cbv zeta. split_and!; try lia; vm_compute; reflexivity.
Qed.

End WrapAroundOnTheSample.
